(* ===== verification/_CoqProject ===== *)
-Q . S2P
Prelude.v
Msg.v
StdFs.v
FileMeta.v
Identity.v
File.v
Upload.v
MsgFctry.v
Conn.v
Framing.v
Sockets.v
PollGrp.v
Loop.v
Broker.v
Server.v
Disk.v
Calls.v
Client.v
Handler.v
Transfer.v
Clients.v
Workers.v
Program.v
Crash.v
Changed.v
System.v
Steps.v
Exchange.v
Network.v
Machine.v
Threads.v
Statics.v
Serving.v
Shared.v
Again.v
Last.v
Twins.v
Teardown.v
