(* ===== verification/Prelude.v ===== *)
(** * File transfer: verification development

    ft_client offers a file to ft_server and sends it in chunks of 3968 bytes; the server
    keeps the chunks it has received in a metadata file next to the upload, so that an
    interrupted transfer resumes. This library models the C++ program (paths below are
    relative to the repository's root) and proves what makes it correct.

    ** The parts and the files that model them

    - [Prelude]: bytes, machine integers, outcomes of C++ code ([res]: a value, an
      exception, or undefined behaviour; [M]: the same with a state), tactics, hints.
    - [Msg] (src/protocol/ft_msg.hpp, ft_msg.cpp): the message record, [parse] (the
      constructor from a buffer), [serialize], getU16/getU32/putU16/putU32.
    - [MsgFctry] (src/protocol/ft_msg_fctry.cpp): the four builders.
    - [StdFs]: std::filesystem and the file streams, on a finite map of nodes.
    - [FileMeta] (src/file/ft_file_meta.hpp, ft_file_meta.cpp): the metadata file: header
      and bitmap, [createIfNotExist], [markChunk], [nextMissingChunk], [readHeader].
    - [File] (src/file/ft_file.hpp, ft_file.cpp): [File] with its kinds FileLocal and FileRemote,
      [getChunk], [saveChunk], [isComplete], the factories, [calc_hash].
    - [Upload]: the abstract state of an upload ([upload]: size, hash, contents, set of
      received chunks), the relation [represents] to the server's disk, and the refinement
      of the FileRemote methods to [up_save], [up_next], [up_complete].
    - [Identity] (src/ft_utils.cpp): [getClientUUID].
    - [Conn] (src/netwrk/ft_conn.cpp, src/request/ft_req.hpp): the state machine of
      Connection::handleEvent ([on_byte], [recv_loop], [handleEvent]), [handleMessage],
      [sendBuffer].
    - [Sockets] (src/netwrk/ft_conn_utils.cpp and the constructors of Connection,
      ConnectionListener and SignalHandler): opening and setting up descriptors.
    - [PollGrp] (src/loop/ft_poll_grp.cpp, ft_pollable.hpp): [PollGroup], [add], [remove],
      [pollAndHandle] against the interface [Pollables]/[PollableLaws].
    - [Loop] (src/netwrk/ft_conn_listener.cpp, src/loop/ft_signal.cpp, the loops of both
      mains): the listener, signal handler and connections as instances of that interface,
      [server_loop], [client_loop].
    - [Broker] (src/request/ft_req_brkr.cpp): the request queue, the mutex, the condition
      variable and the worker threads as a transition system ([run_step], [main_step],
      [step], [step_any]).
    - [Server] (src/ft_server.cpp), [Client] (src/ft_client.cpp): the request handlers
      over a file system, the bytes sent, and the client's map of offered files.
    - [Framing]: the reference definition of the framing ([frames]), to which the state
      machine of [Conn] is equivalent.
    - [Disk]: well-formed file systems, and what any message can do to one ([sound]).
    - [Handler] (src/request/ft_req_hndlr.hpp): the interface of the request handlers
      ([RequestHandler], [HandlerLaws]), its two implementations, and what a worker does
      with them ([work]).
    - [Transfer]: the client and the server in turns ([rounds]).
    - [Clients]: any number of clients and one server ([run] on a schedule of exchanges).
    - [Calls]: the server's handler once more, as a sequence of system calls
      ([respond_calls]); [Workers]: several of them at the same time ([interleave]);
      [Crash]: one of them stopped after any number of calls; [Shared]: several of them
      about the same file; [Twins]: two first offers of it; [Changed]: a file that changed
      after its upload.
    - [System]: everything at once: the server's poll loop, its worker threads, the client
      processes and the bytes between them as one transition system ([do_step],
      [run_events], [boot]); [Steps]: from what is known of each client's exchange to the
      whole ([Exchanges]); [Exchange] and [Network]: one client for each file, the stages its
      upload goes through and the properties of the whole; [Again]: any number of clients
      for each file; [Last]: one of them when the others are gone.
    - [Machine]: the same once more, as the server runs: its main thread with queueRequest
      and stopWorkers, its workers with the mutex and the condition variable of [Broker] and
      the system calls of [Calls] ([do_act], [run_acts]); every run of it is one of [System]
      ([view], [history]) and the other way round; [Threads]: what this makes of the properties of
      [Network], and how a signal ends the broker; [Statics]: the end of the process, with the
      static members of the two classes that are destroyed after main has returned
      ([server_do], [run_server]). [Serving]: the server's main and poll loop
      ([Program], [Loop], [PollGrp]) among the workers and clients of [System]
      ([server_runs]).
    - [Program] (the mains of src/ft_client.cpp and src/ft_server.cpp): the command line, the
      construction and the linking of the components ([client_main], [server_main]).
    - [Teardown]: the shared pointers between the components, and the destructors that run
      when they end.

    Data flows as in the program: the mains of [Program] set up what [Loop] polls; it runs
    [Conn], whose state machine cuts the bytes into messages of [Msg] and queues them with
    the broker; a worker of [Broker] takes each request to the handler of [Server] or
    [Client]; the handler uses [File] and [FileMeta] on [StdFs], builds its answer with
    [MsgFctry] and sends it through [Conn].

    ** What the theorems show

    - Protocol: [serialize] and [parse] round trip; a parsed message is exactly the bytes
      it was read from; the size of a frame; the parser reads past its input exactly for
      frames shorter than they announce.
    - Framing: a stream of messages is cut back into them however it is segmented; any
      other stream into the frames of the reference definition.
    - Storage: each FileRemote method implements its abstract operation on every state of
      the disk that represents an upload and touches no other file; hashing and the bitmap
      scan terminate; chunks of a local file make up the file.
    - Handlers: every branch of the server's and the client's handler, stated with the
      abstract upload; on any disk and for any message the server's handler is defined,
      keeps the disk well formed and removes nothing; any stream without a frame that is
      shorter than it announces is served by any handler that keeps the contract
      ([stream_served]).
    - Transfers: an upload completes in one exchange per missing chunk, from nothing or
      from any interrupted state, alone or among other clients in any order; at every
      moment the marked chunks are right and a completed upload is the whole file; above
      65536 chunks it never completes.
    - Threads: mutual exclusion, first in first out, exactly once; no lost wakeup; every
      request is handled; shutdown joins every worker; handlers of different files at the
      same time, however their system calls are interleaved, are as good as one after the
      other, and lose nothing ([workers_serializable]); handlers of the same file do no
      harm, though they may lose marks ([same_file_safe]).
    - Down to the threads: the queue that [System] takes from in one step is what the mutex,
      the condition variable and the threads make of it ([machine_refines_system],
      [machine_realizes_system]), so that the system is safe and completes as it runs, with
      no lost wakeup and no deadlock ([machine_safe], [machine_completes]). If the static
      pointer to the broker were destroyed before the static members of RequestBroker, a
      signal would end the process in order, at any moment, with every worker joined and a
      disk from which everything goes on ([server_stops]); in the order of the link it is
      destroyed after them, and the end of the process is undefined
      ([link_order_exit_undefined]). And what the poll loop does, from main on, are events of
      [System], whatever the polls report: connections that are closed or broken, hangups
      (and the connections they take with them), signals ([server_process_refines]).
    - The whole system: whatever the order of the events, system calls and answers of all
      processes and threads, and whatever the sockets take of a message, no step fails,
      nobody takes an upload for completed that is not, and every run ends; it ends with
      every file stored if messages are sent as a whole ([system_safe],
      [system_completes]), and with a client waiting for ever if one is not
      ([lost_message_stalls]); killed at any moment but one, it can be started again and
      completes ([system_restarts], [killed_while_saving]); the one moment is the creation
      of a metadata file ([killed_offer_stalls]). Clients that are killed and started again,
      or several at once, do an accepted upload no harm ([again_safe]), and one that is started
      when the others are gone completes ([last_client_completes]); but two first offers of
      one file can destroy it ([twin_offers_destroy]).
    - Event loop: pollAndHandle terminates within its vectors whatever the handlers do; the
      server's loop survives any peer that does not send a frame shorter than it announces
      ([server_loop_safe]).
    - Processes: every way the client's start can end; what a started client and a started
      server consist of, and how many connections it takes; no descriptor of the client
      leaks; when connections are closed, and what each main closes at its end.
    - Behaviour that is not meant: undefined reads on short frames, a hangup that drops
      the pollables behind it, a client that never ends when its server is gone, a server
      that closes nothing and is undefined at its exit, paths that leave the server's
      directory, a changed file that stalls or is reported complete without having been taken
      ([changed_file_not_uploaded]), a metadata file left empty by a kill, the race of two [markChunk], an answer
      that is overtaken by another worker ([late_answer_stalls]), SO_REUSEADDR never set.

    ** Parameters and their hypotheses

    BLAKE2b of Crypto++ is [Blake2b] with [Blake2bLaws] (digests of 64 bytes; hashing by
    pieces is hashing the whole); the text form of Boost's UUIDs is [UuidText] with
    [UuidTextLaws] (one path component; reading back what was written) and [UuidCast] (the
    text of the option -u); the kernel's choice of descriptors and failures is [Kernel] with
    [KernelLaws]. Each has a concrete instance ([ToyHash], [ToyUuid], [ToyKernel]) with which
    the witnesses evaluate. The results of recv, send, accept, poll, getopt and getaddrinfo
    are arguments.

    ** Bounds and fuel

    Integers keep the widths of the code ([u16], [u32], [u64], the loop index of
    pollAndHandle that is decremented below zero). Fuel: [skip_full] and the hashing loop
    get the length of the file plus two, enough by [skip_full_spec] and [calc_hash_spec];
    the loop of pollAndHandle needs the size of the group plus what its handlers may add
    ([budget], at most the number of waiting connections), and [pollAndHandle_safe] shows
    that this suffices; [release] needs one unit for each pointer that ends. Out of fuel is
    [Undef], which the theorems exclude. [System] has no fuel: its runs end because every
    step moves one client to a lower rank ([phase] of [Exchange]); those of [Machine] because
    the steps that are not seen in [System] make the effort left smaller ([effort] of
    [Threads]).

    ** What is not modelled

    Symbolic links, permissions, full disks, limits on the length of names, a working
    directory other than the root, [..] other than lexically; the buffers of file streams
    (a write is in the file at once); logging and show_usage; build files and scripts.
    Descriptors are closed in [Sockets] and [Teardown], but [Loop] does not reuse their
    numbers (an object removed from the group stays in its store, unreachable). [Broker] is
    sequentially consistent: the flag that run() reads without the lock is read atomically,
    and the constructor is one step. [Server], [Client], [Transfer] and [Clients] run one
    handler at a time, [Transfer] and [Clients] with sockets that take whole messages;
    [Workers] shows that this is enough for handlers of different files, [Shared] and
    [FileMeta] what can happen to the same file. [System] interleaves all of it, each
    client started with its offer sent as a whole ([Network]: one client process for each
    file; [Again]: any number of them, for files that the server has accepted). A
    connection that is closed or a client that is killed is one of which nothing is read or
    done any more (what else closing does is in [Loop], [PollGrp], [Serving] and [Teardown]).
    [Machine] parses the bytes of a poll event before it queues the requests in them, a client
    there takes and handles a request in one step, as in [System]; [Serving] has no step of a
    worker while pollAndHandle is under way, and all its clients connect before the first
    poll. That clients of the same file complete while the others go on is not proved, and
    not so: an answer may be overtaken ([late_answer_stalls]).

    SIGPIPE is neither blocked nor ignored and send is called without MSG_NOSIGNAL: sending to
    a peer that has closed its connection can kill the process instead of returning EPIPE. The
    results of send here are those it returns; a process that is killed is one of which
    nothing happens any more ([system_restarts], [killed_while_saving]), but that a peer can
    bring this about is not a step of the models.

    [Machine] ends the broker while its static members are there, and so do the theorems about
    it that let a signal come ([machine_safe], [machine_refines_system],
    [machine_realizes_system]); [Statics] goes on through the destruction of these members, in
    either order. Other static objects (the path prefix of [File], those of the standard
    library) are taken to be destroyed after them; what destroying the requests that are still
    in the queue closes is not looked at; the client's end, with one worker and the same
    static members, is not modelled. *)
From stdpp Require Export base list gmap strings numbers.
From Stdlib Require Export ZArith Lia.
From Stdlib Require Ascii.

(** ** Bytes, strings and machine integers

    A byte is a [Z] with [is_byte]; a C++ [std::string], a [std::vector<uint8_t>]
    and a native path are all lists of bytes. *)
Declare Scope ft_scope.
Delimit Scope ft_scope with ft.
Open Scope Z_scope.
Open Scope ft_scope.

Abbreviation bytes := (list Z).

Definition is_byte (b : Z) : Prop := 0 <= b < 256.
#[export] Instance is_byte_dec b : Decision (is_byte b).
Proof. unfold is_byte. apply _. Defined.

Abbreviation bytes_ok := (Forall is_byte).

(** A readable way to write byte strings in the definitions and the witnesses. *)
Fixpoint str (s : string) : bytes :=
  match s with
  | EmptyString => []
  | String c s' => Z.of_N (Ascii.N_of_ascii c) :: str s'
  end.

(** Conversion of an unbounded result to an unsigned integer of [w] bits. *)
Definition wrap (w x : Z) : Z := x mod 2 ^ w.
Abbreviation u8 := (wrap 8).
Abbreviation u16 := (wrap 16).
Abbreviation u32 := (wrap 32).
Abbreviation u64 := (wrap 64).

(** Conversion to a signed two's complement integer of [w] bits. *)
Definition swrap (w x : Z) : Z := (x + 2 ^ (w - 1)) mod 2 ^ w - 2 ^ (w - 1).

Definition UINT8_MAX : Z := 255.
Definition UINT16_MAX : Z := 65535.
Definition UINT64_MAX : Z := 18446744073709551615.

(** The length of a vector as [size()] returns it. *)
Abbreviation zlen l := (Z.of_nat (length l)).

Abbreviation zeros n := (replicate n 0).

(** ** Outcomes of C++ code

    A call returns, throws one of the standard exceptions (with its fixed message
    text), or runs into undefined behaviour. *)
Inductive exn : Type :=
| runtime_error (what : string)
| length_error (what : string)
| invalid_argument (what : string)
| range_error (what : string)
| domain_error (what : string)
| out_of_range (what : string)
| system_error (errno : Z) (what : string)
| filesystem_error (what : string)
| bad_cast (what : string).

Inductive res (A : Type) : Type :=
| Ok (a : A)
| Throw (e : exn)
| Undef.
Arguments Ok {A} a.
Arguments Throw {A} e.
Arguments Undef {A}.

#[export] Instance res_ret : MRet res := fun A => Ok.
#[export] Instance res_bind : MBind res := fun A B f r =>
  match r with
  | Ok a => f a
  | Throw e => Throw e
  | Undef => Undef
  end.

(** Code that changes a state [S]: what it changed before it threw stays changed. *)
Definition M (S A : Type) : Type := S -> res A * S.

#[export] Instance M_ret S : MRet (M S) := fun A a s => (Ok a, s).
#[export] Instance M_bind S : MBind (M S) := fun A B f c s =>
  match c s with
  | (Ok a, s') => f a s'
  | (Throw e, s') => (Throw e, s')
  | (Undef, s') => (Undef, s')
  end.

Definition throw {S A} (e : exn) : M S A := fun s => (Throw e, s).
Definition lift {S A} (r : res A) : M S A := fun s => (r, s).
Definition gets {S A} (f : S -> A) : M S A := fun s => (Ok (f s), s).
Definition modify {S} (f : S -> S) : M S unit := fun s => (Ok tt, f s).

(** [try { c } catch (std::exception&) { }]: undefined behaviour is not caught. *)
Definition try_ignore {S} (c : M S unit) : M S unit := fun s =>
  match c s with
  | (Throw _, s') => (Ok tt, s')
  | r => r
  end.

(** ** Overwriting part of a byte string

    [splice pos data l] is [l] after writing [data] at offset [pos]: a gap beyond
    the end is filled with zeros, what follows the written range is kept. *)
Definition splice (pos : nat) (data l : bytes) : bytes :=
  take pos l ++ zeros (pos - length l)%nat ++ data ++
  drop (pos + length data)%nat l.

(** ** Tactics *)

(** Case analysis on every boolean test and match of the goal, arithmetic tests
    turned into inequalities. *)
Ltac bool_to_prop :=
  repeat match goal with
  | H : (_ <? _) = true |- _ => apply Z.ltb_lt in H
  | H : (_ <? _) = false |- _ => apply Z.ltb_ge in H
  | H : (_ <=? _) = true |- _ => apply Z.leb_le in H
  | H : (_ <=? _) = false |- _ => apply Z.leb_gt in H
  | H : (_ =? _) = true |- _ => apply Z.eqb_eq in H
  | H : (_ =? _) = false |- _ => apply Z.eqb_neq in H
  | H : (_ && _) = true |- _ => apply andb_prop in H as [? ?]
  | H : (_ && _) = false |- _ => apply andb_false_iff in H as [?|?]
  | H : (_ || _) = true |- _ => apply orb_prop in H as [?|?]
  | H : (_ || _) = false |- _ => apply orb_false_iff in H as [? ?]
  | H : negb _ = true |- _ => apply negb_true_iff in H
  | H : negb _ = false |- _ => apply negb_false_iff in H
  end.

(** Decides the integer tests of the goal with the hypotheses at hand. *)
Ltac ztest :=
  repeat match goal with
  | |- context [?a <? ?b] =>
      first [ rewrite (proj2 (Z.ltb_lt a b)) by lia
            | rewrite (proj2 (Z.ltb_ge a b)) by lia ]
  | |- context [?a <=? ?b] =>
      first [ rewrite (proj2 (Z.leb_le a b)) by lia
            | rewrite (proj2 (Z.leb_gt a b)) by lia ]
  | |- context [?a =? ?b] =>
      first [ rewrite (proj2 (Z.eqb_eq a b)) by lia
            | rewrite (proj2 (Z.eqb_neq a b)) by lia ]
  end.

(** [lia] after the definition of division and remainder. *)
Ltac zdiv := Z.div_mod_to_equations; lia.

(** ** Machine integers *)

Lemma wrap_small w x : 0 <= x < 2 ^ w -> wrap w x = x.
Proof. apply Z.mod_small. Qed.

Lemma wrap_range w x : 0 <= w -> 0 <= wrap w x < 2 ^ w.
Proof. intros. apply Z.mod_pos_bound. apply Z.pow_pos_nonneg; lia. Qed.

Lemma wrap_idemp w x : wrap w (wrap w x) = wrap w x.
Proof. apply Z.mod_mod_divide. by exists 1; rewrite Z.mul_1_l. Qed.

Lemma u64_max : u64 (-1) = UINT64_MAX.
Proof. reflexivity. Qed.

Lemma u8_byte x : is_byte (u8 x).
Proof. apply (wrap_range 8). lia. Qed.

Lemma byte_testbit_high b i : is_byte b -> 8 <= i -> Z.testbit b i = false.
Proof.
  intros Hb Hi. destruct (decide (b = 0)) as [->|]; [apply Z.testbit_0_l|].
  apply Z.bits_above_log2; [unfold is_byte in Hb; lia|].
  assert (Z.log2 b < 8); [|lia]. apply Z.log2_lt_pow2; unfold is_byte in Hb; lia.
Qed.

(** Two bytes with the same eight bits are equal. *)
Lemma byte_ext a b :
  is_byte a -> is_byte b ->
  (forall i, 0 <= i < 8 -> Z.testbit a i = Z.testbit b i) -> a = b.
Proof.
  intros Ha Hb H. apply Z.bits_inj'. intros n Hn.
  destruct (decide (n < 8)); [apply H; lia|].
  rewrite !byte_testbit_high by (done || lia). done.
Qed.

(** Disjoint bit ranges: or is addition. *)
Lemma lor_shiftl_add a b k :
  0 <= k -> 0 <= a < 2 ^ k -> Z.lor (Z.shiftl b k) a = b * 2 ^ k + a.
Proof.
  intros Hk Ha. rewrite <- Z.shiftl_mul_pow2 by lia.
  symmetry. apply Z.add_nocarry_lor. apply Z.bits_inj'. intros n Hn.
  rewrite Z.land_spec, Z.bits_0.
  destruct (decide (n < k)).
  - by rewrite Z.shiftl_spec_low by lia.
  - rewrite andb_comm. replace a with (a mod 2 ^ k) by (apply Z.mod_small; lia).
    by rewrite Z.mod_pow2_bits_high by lia.
Qed.

Lemma land_ff x : Z.land x 255 = x mod 256.
Proof. change 255 with (Z.ones 8). by rewrite Z.land_ones by lia. Qed.

(** ** Lists *)

Lemma length_splice pos data l :
  length (splice pos data l) = Nat.max (pos + length data) (length l).
Proof.
  unfold splice. rewrite !length_app, length_take, length_replicate, length_drop. lia.
Qed.

Lemma splice_app a data b :
  splice (length a) data (a ++ b) = a ++ data ++ drop (length data) b.
Proof.
  unfold splice. rewrite take_app_length, length_app.
  replace (length a - (length a + length b))%nat with 0%nat by lia. simpl.
  by rewrite drop_app_add.
Qed.

Lemma splice_insert pos b l :
  (pos < length l)%nat -> splice pos [b] l = <[pos:=b]> l.
Proof.
  intros H. rewrite insert_take_drop by done. unfold splice.
  replace (pos - length l)%nat with 0%nat by lia. simpl.
  by replace (pos + 1)%nat with (S pos) by lia.
Qed.

Lemma splice_bytes_ok pos data l :
  bytes_ok data -> bytes_ok l -> bytes_ok (splice pos data l).
Proof.
  intros. unfold splice. apply Forall_app_2, Forall_app_2, Forall_app_2; try done.
  - by apply Forall_take.
  - apply Forall_replicate. unfold is_byte. lia.
  - by apply Forall_drop.
Qed.

Lemma zeros_bytes_ok n : bytes_ok (zeros n).
Proof. apply Forall_replicate. unfold is_byte. lia. Qed.

(** A list of what exists for every element. *)
Lemma list_choice {A B} (P : nat -> A -> B -> Prop) (l : list A) :
  (forall i x, l !! i = Some x -> exists y, P i x y) ->
  exists l', length l' = length l /\
    forall i x, l !! i = Some x -> exists y, l' !! i = Some y /\ P i x y.
Proof.
  revert P. induction l as [|x l IH]; intros P HP.
  { exists []. split; [done|]. intros i x E. by rewrite lookup_nil in E. }
  destruct (HP 0%nat x eq_refl) as [y Hy].
  destruct (IH (fun i => P (S i)) (fun i => HP (S i))) as (l' & Hl & Hall).
  exists (y :: l'). split; [cbn; by rewrite Hl|]. intros [|i] z E; [|by apply Hall].
  injection E as <-. by exists y.
Qed.

(** One element of a list goes down in a well-founded order. *)
Inductive one_down {A} (R : A -> A -> Prop) (l : list A) : list A -> Prop :=
| one_down_at i x y : l !! i = Some x -> R y x -> one_down R l (<[i := y]> l).

Lemma one_down_wf {A} (R : A -> A -> Prop) :
  well_founded R -> well_founded (fun l' l => one_down R l l').
Proof.
  intros HR l. induction l as [|x l IH].
  { constructor. intros l' H. by destruct H as [i x y E]. }
  revert l IH. induction (HR x) as [x _ IHx]. intros l IH. pose proof IH as Hacc.
  induction IH as [l _ IHl]. constructor. intros l' H. inversion H as [[|i] a b E Hb E']; subst.
  - injection E as <-. by apply IHx.
  - cbn in E. assert (one_down R l (<[i := b]> l)) as Hd by (by apply (one_down_at R l i a)).
    apply IHl; [done|]. by apply Hacc.
Qed.

(** ** Outcomes *)

Lemma res_bind_ok {A B} (r : res A) (f : A -> res B) b :
  (r ≫= f) = Ok b <-> exists a, r = Ok a /\ f a = Ok b.
Proof.
  destruct r as [a|e|]; simpl; split.
  - eauto.
  - by intros (? & [= ->] & ?).
  - discriminate.
  - by intros (? & ? & ?).
  - discriminate.
  - by intros (? & ? & ?).
Qed.

Lemma M_bind_case {S A B} (c : M S A) (f : A -> M S B) s :
  (c ≫= f) s =
  match c s with
  | (Ok a, s') => f a s'
  | (Throw e, s') => (Throw e, s')
  | (Undef, s') => (Undef, s')
  end.
Proof. done. Qed.

Lemma M_bind_ok {S A B} (c : M S A) (f : A -> M S B) s a s' :
  c s = (Ok a, s') -> (c ≫= f) s = f a s'.
Proof. intros H. unfold mbind, M_bind. by rewrite H. Qed.

Lemma M_bind_inv {S A B} (c : M S A) (f : A -> M S B) s b s' :
  (c ≫= f) s = (Ok b, s') -> exists a s1, c s = (Ok a, s1) /\ f a s1 = (Ok b, s').
Proof.
  unfold mbind, M_bind. destruct (c s) as [[a|e|] s1]; intros H; try discriminate. eauto.
Qed.

Lemma M_bind_assoc {S A B C} (c : M S A) (f : A -> M S B) (g : B -> M S C) s :
  ((c ≫= f) ≫= g) s = (c ≫= (fun a => f a ≫= g)) s.
Proof. unfold mbind, M_bind. by destruct (c s) as [[a|e|] s1]. Qed.

Lemma M_bind_ret {S A B} (a : A) (f : A -> M S B) s : (mret a ≫= f) s = f a s.
Proof. done. Qed.

(** ** What a computation does, whatever its outcome

    [ends c Q E s]: [c] started in [s] is defined, and it returns in a state of [Q] or
    throws in a state of [E]. *)
Definition ends {S A} (c : M S A) (Q : A -> S -> Prop) (E : exn -> S -> Prop) (s : S) : Prop :=
  match c s with
  | (Ok a, s') => Q a s'
  | (Throw e, s') => E e s'
  | (Undef, _) => False
  end.

Section Ends.
Context {S : Type}.
Implicit Types (s : S) (E : exn -> S -> Prop).

Lemma ends_bind {A B} (c : M S A) (f : A -> M S B) Q E s :
  ends c (fun a => ends (f a) Q E) E s -> ends (c ≫= f) Q E s.
Proof. unfold ends. rewrite M_bind_case. by destruct (c s) as [[| |] ?]. Qed.

Lemma ends_mret {A} (a : A) (Q : A -> S -> Prop) E s : Q a s -> ends (mret a) Q E s.
Proof. done. Qed.

Lemma ends_throw {A} e (Q : A -> S -> Prop) E s : E e s -> ends (throw e) Q E s.
Proof. done. Qed.

Lemma ends_gets {A} (f : S -> A) (Q : A -> S -> Prop) E s : Q (f s) s -> ends (gets f) Q E s.
Proof. done. Qed.

Lemma ends_lift {A} (r : res A) (Q : A -> S -> Prop) E s :
  r <> Undef -> (forall a, r = Ok a -> Q a s) -> (forall e, r = Throw e -> E e s) ->
  ends (lift r) Q E s.
Proof. intros Hu HQ HE. unfold ends, lift. destruct r; auto. Qed.

Lemma ends_assoc {A B C} (c : M S A) (f : A -> M S B) (g : B -> M S C) Q E s :
  ends (c ≫= (fun a => f a ≫= g)) Q E s -> ends ((c ≫= f) ≫= g) Q E s.
Proof. unfold ends. by rewrite M_bind_assoc. Qed.

Lemma ends_last (c : M S unit) Q E s : ends (c;; mret tt) Q E s -> ends c Q E s.
Proof. unfold ends. rewrite M_bind_case. by destruct (c s) as [[[]| |] ?]. Qed.

Lemma ends_mono {A} (c : M S A) (Q Q' : A -> S -> Prop) E E' s :
  ends c Q E s -> (forall a s', Q a s' -> Q' a s') -> (forall e s', E e s' -> E' e s') ->
  ends c Q' E' s.
Proof. unfold ends. destruct (c s) as [[| |] ?]; auto. Qed.
End Ends.

(** One step of a stateful computation: the equation [H] gives the outcome of the
    first call. *)
Ltac mstep H :=
  rewrite ?M_bind_assoc;
  lazymatch goal with
  | |- context [mbind ?f _ _] => erewrite (M_bind_ok _ _ _ _ _ H)
  | _ => rewrite H
  end;
  cbn beta iota; rewrite ?M_bind_assoc, ?M_bind_ret; cbn beta iota.

Create HintDb ft.
#[export] Hint Resolve u8_byte splice_bytes_ok zeros_bytes_ok Forall_app_2
  Forall_take Forall_drop Forall_nil_2 Forall_cons_2 : ft.
Create Rewrite HintDb ft_len.
#[export] Hint Rewrite length_splice @length_app @length_take @length_drop
  @length_replicate : ft_len.

(** Proves a decidable closed fact by evaluation. *)
Ltac decide_closed :=
  match goal with |- ?P => refine (bool_decide_eq_true_1 P _); vm_compute; reflexivity end.
