(* ===== verification/Msg.v ===== *)
(** * Protocol messages (src/protocol/ft_msg.hpp, ft_msg.cpp)

    The message record, its parser (the constructor from a buffer), its
    serialization, and the four big-endian helpers. A read past the end of the
    input vector is undefined behaviour and is the outcome [Undef]. *)
From S2P Require Import Prelude.

(** ** Constants (ft_msg.hpp) *)
Definition MAX_MSG_SIZE : Z := 4096.
Definition MAX_MSG_PAYLOAD_SIZE : Z := MAX_MSG_SIZE - 128.
Definition HASH_SIZE : Z := 64.
Definition CHUNK_HASH_SIZE : Z := 32.
Definition MAGIC : Z := 0x87FE7700.

(** [enum MessageType]: any 32-bit value can be cast to it. *)
Definition MSGTYPE_FILE_OFFER : Z := Z.lor MAGIC 0x01.
Definition MSGTYPE_FILE_CHUNK_REQ : Z := Z.lor MAGIC 0x02.
Definition MSGTYPE_FILE_CHUNK_DATA : Z := Z.lor MAGIC 0x03.
Definition MSGTYPE_FILE_COMPLETE : Z := Z.lor MAGIC 0x04.
Definition MSGTYPE_MAX : Z := MSGTYPE_FILE_COMPLETE + 1.

(** Size of [boost::uuids::uuid]. *)
Definition UUID_SIZE : nat := 16.

(** ** class Message *)
Record offer_fields := mk_offer {
  file_size : Z;
  file_n_chunks : Z;
  file_hash : bytes }.

Record chunk_req_fields := mk_chunk_req {
  chunk_idx_first : Z;
  chunk_idx_last : Z }.

Record chunk_data_fields := mk_chunk_data {
  idx : Z;
  data : bytes;
  chunk_hash : bytes }.

Record Message := mk_message {
  msg_type : Z;
  msg_len : Z;
  seq_number : Z;
  client_uuid : bytes;
  file_name : bytes;
  offer : offer_fields;
  chunk_req : chunk_req_fields;
  chunk_data : chunk_data_fields }.

(** Members a constructor leaves alone: empty vectors; the integers are
    indeterminate in C++ and nothing reads them before they are set. *)
Definition no_offer := mk_offer 0 0 [].
Definition no_chunk_req := mk_chunk_req 0 0.
Definition no_chunk_data := mk_chunk_data 0 [] [].

(** ** Reading from a vector iterator: the bytes from the iterator to the end *)

(** [*it; it++] *)
Definition deref (it : bytes) : res (Z * bytes) :=
  match it with
  | [] => Undef
  | b :: it' => Ok (b, it')
  end.

(** [std::copy_n(it, n, ...); std::advance(it, n)] *)
Definition copy_n (it : bytes) (n : Z) : res (bytes * bytes) :=
  if zlen it <? n then Undef
  else Ok (take (Z.to_nat n) it, drop (Z.to_nat n) it).

Definition getU32 (it : bytes) : res (Z * bytes) :=
  '(b, it) ← deref it;
  let ret := Z.lor 0 (Z.land (u32 (Z.shiftl b 24)) 0xff000000) in
  '(b, it) ← deref it;
  let ret := Z.lor ret (Z.land (u32 (Z.shiftl b 16)) 0x00ff0000) in
  '(b, it) ← deref it;
  let ret := Z.lor ret (Z.land (u32 (Z.shiftl b 8)) 0x0000ff00) in
  '(b, it) ← deref it;
  let ret := Z.lor ret (Z.land b 0x000000ff) in
  Ok (ret, it).

Definition getU16 (it : bytes) : res (Z * bytes) :=
  '(b, it) ← deref it;
  let ret := Z.lor 0 (Z.land (Z.shiftl b 8) 0xff00) in
  '(b, it) ← deref it;
  let ret := Z.lor ret (Z.land b 0x00ff) in
  Ok (ret, it).

Definition putU32 (val : Z) : bytes :=
  [ u8 (Z.land (Z.shiftr val 24) 0xff);
    u8 (Z.land (Z.shiftr val 16) 0xff);
    u8 (Z.land (Z.shiftr val 8) 0xff);
    u8 (Z.land val 0xff) ].

Definition putU16 (val : Z) : bytes :=
  [ u8 (Z.land (Z.shiftr val 8) 0xff);
    u8 (Z.land val 0xff) ].

(** The loop over the bytes of [client_uuid]. *)
Fixpoint get_uuid (n : nat) (it : bytes) : res (bytes * bytes) :=
  match n with
  | O => Ok ([], it)
  | S n' =>
      '(b, it) ← deref it;
      '(rest, it) ← get_uuid n' it;
      Ok (b :: rest, it)
  end.

(** ** Message::Message(buf) *)
Definition parse (buf : bytes) : res Message :=
  '(ty, it) ← getU32 buf;
  '(len, it) ← getU16 it;
  '(seq, it) ← getU16 it;
  '(uuid, it) ← get_uuid UUID_SIZE it;
  '(file_name_len, it) ← deref it;
  '(name, it) ← copy_n it file_name_len;
  if ty =? MSGTYPE_FILE_OFFER then
    '(size, it) ← getU32 it;
    '(n_chunks, it) ← getU32 it;
    '(hash, _) ← copy_n it HASH_SIZE;
    Ok (mk_message ty len seq uuid name (mk_offer size n_chunks hash)
          no_chunk_req no_chunk_data)
  else if ty =? MSGTYPE_FILE_CHUNK_REQ then
    '(first, it) ← getU32 it;
    '(last, _) ← getU32 it;
    Ok (mk_message ty len seq uuid name no_offer (mk_chunk_req first last)
          no_chunk_data)
  else if ty =? MSGTYPE_FILE_CHUNK_DATA then
    '(i, it) ← getU32 it;
    '(chunk_len, it) ← getU16 it;
    '(d, _) ← copy_n it chunk_len;
    Ok (mk_message ty len seq uuid name no_offer no_chunk_req
          (mk_chunk_data i d (zeros (Z.to_nat CHUNK_HASH_SIZE))))
  else if ty =? MSGTYPE_FILE_COMPLETE then
    Ok (mk_message ty len seq uuid name no_offer no_chunk_req no_chunk_data)
  else Throw (runtime_error "Not supported Msg Type").

(** ** Message::serialize(out): the fields after the message length, then the
    envelope appended to [out] *)
Definition serialize_fields (m : Message) : res bytes :=
  if msg_type m =? MSGTYPE_FILE_OFFER then
    '(hash, _) ← copy_n (file_hash (offer m)) HASH_SIZE;
    Ok (putU32 (file_size (offer m)) ++ putU32 (file_n_chunks (offer m)) ++ hash)
  else if msg_type m =? MSGTYPE_FILE_CHUNK_REQ then
    Ok (putU32 (chunk_idx_first (chunk_req m)) ++
        putU32 (chunk_idx_last (chunk_req m)))
  else if msg_type m =? MSGTYPE_FILE_CHUNK_DATA then
    if (MAX_MSG_PAYLOAD_SIZE <? zlen (data (chunk_data m)))
       || (zlen (data (chunk_data m)) =? 0)
    then Throw (length_error "Invalid chunk length")
    else Ok (putU32 (idx (chunk_data m)) ++ putU16 (u16 (zlen (data (chunk_data m)))) ++
             data (chunk_data m))
  else if msg_type m =? MSGTYPE_FILE_COMPLETE then Ok []
  else Throw (invalid_argument "Invalid MessageType").

Definition filename_len (m : Message) : Z :=
  if zlen (file_name m) <? UINT8_MAX then zlen (file_name m) else UINT8_MAX.

Definition serialize (m : Message) (out : bytes) : res bytes :=
  '(name, _) ← copy_n (file_name m) (filename_len m);
  fields ← serialize_fields m;
  let tmpbuf := putU16 (seq_number m) ++ client_uuid m ++
                [u8 (Z.land (filename_len m) 0xff)] ++ name ++ fields in
  Ok (out ++ putU32 (msg_type m) ++ putU16 (u16 (zlen tmpbuf)) ++ tmpbuf).

(** ** The helpers as arithmetic *)

Lemma byte_shift_mask b k :
  is_byte b -> 0 <= k -> k + 8 <= 32 ->
  Z.land (u32 (Z.shiftl b k)) (Z.shiftl 255 k) = Z.shiftl b k.
Proof.
  intros Hb Hk Hk'. unfold is_byte in Hb.
  assert (2 ^ 32 = 2 ^ k * 2 ^ (32 - k)) as E by (rewrite <- Z.pow_add_r; f_equal; lia).
  assert (2 ^ 8 <= 2 ^ (32 - k)) by (apply Z.pow_le_mono_r; lia).
  rewrite wrap_small.
  - rewrite <- Z.shiftl_land, land_ff, Z.mod_small by lia. done.
  - rewrite Z.shiftl_mul_pow2 by lia. rewrite E. nia.
Qed.

Lemma lor_bytes a b k :
  is_byte b -> 0 <= k ->
  Z.lor (Z.shiftl a (k + 8)) (Z.shiftl b k) = Z.shiftl (a * 2 ^ 8 + b) k.
Proof.
  intros Hb Hk. unfold is_byte in Hb.
  replace (Z.shiftl a (k + 8)) with (Z.shiftl (Z.shiftl a 8) k)
    by (rewrite Z.shiftl_shiftl by lia; f_equal; lia).
  rewrite <- Z.shiftl_lor. f_equal. apply lor_shiftl_add; lia.
Qed.

Lemma getU32_cons a b c d it :
  bytes_ok [a; b; c; d] ->
  getU32 (a :: b :: c :: d :: it) =
  Ok (((a * 2 ^ 8 + b) * 2 ^ 8 + c) * 2 ^ 8 + d, it).
Proof.
  rewrite !Forall_cons_iff. intros (Ha & Hb & Hc & Hd & _).
  unfold getU32. simpl. rewrite Z.lor_0_l.
  change 0xff000000 with (Z.shiftl 255 24). change 0x00ff0000 with (Z.shiftl 255 16).
  change 0x0000ff00 with (Z.shiftl 255 8).
  rewrite !byte_shift_mask by (done || lia).
  rewrite land_ff, Z.mod_small by done.
  change 24 with (16 + 8). rewrite lor_bytes by (done || lia).
  change 16 with (8 + 8). rewrite lor_bytes by (done || lia).
  rewrite lor_shiftl_add by (done || lia). done.
Qed.

Lemma getU16_cons a b it :
  bytes_ok [a; b] -> getU16 (a :: b :: it) = Ok (a * 2 ^ 8 + b, it).
Proof.
  rewrite !Forall_cons_iff. intros (Ha & Hb & _).
  unfold getU16. simpl. rewrite Z.lor_0_l.
  change 0xff00 with (Z.shiftl 255 8). rewrite <- Z.shiftl_land, !land_ff, !Z.mod_small by done.
  unfold is_byte in Hb. rewrite lor_shiftl_add by lia. done.
Qed.

Lemma put_byte v k :
  0 <= k -> u8 (Z.land (Z.shiftr v k) 0xff) = (v / 2 ^ k) mod 2 ^ 8.
Proof.
  intros Hk. rewrite land_ff, Z.shiftr_div_pow2 by lia.
  apply wrap_small. apply Z.mod_pos_bound. lia.
Qed.

Lemma putU32_eq v :
  putU32 v = [(v / 2 ^ 24) mod 2 ^ 8; (v / 2 ^ 16) mod 2 ^ 8; (v / 2 ^ 8) mod 2 ^ 8;
              v mod 2 ^ 8].
Proof.
  unfold putU32. rewrite !put_byte by lia.
  rewrite land_ff, wrap_small by (apply Z.mod_pos_bound; lia). done.
Qed.

Lemma putU16_eq v : putU16 v = [(v / 2 ^ 8) mod 2 ^ 8; v mod 2 ^ 8].
Proof.
  unfold putU16. rewrite put_byte by lia.
  rewrite land_ff, wrap_small by (apply Z.mod_pos_bound; lia). done.
Qed.

Lemma mod_byte x : is_byte (x mod 2 ^ 8).
Proof. apply Z.mod_pos_bound. lia. Qed.

Lemma putU32_bytes v : bytes_ok (putU32 v).
Proof. rewrite putU32_eq. repeat constructor; apply mod_byte. Qed.

Lemma putU16_bytes v : bytes_ok (putU16 v).
Proof. rewrite putU16_eq. repeat constructor; apply mod_byte. Qed.

#[export] Hint Resolve mod_byte putU32_bytes putU16_bytes : ft.

Lemma getU32_putU32 v it : 0 <= v < 2 ^ 32 -> getU32 (putU32 v ++ it) = Ok (v, it).
Proof.
  intros Hv. rewrite putU32_eq. simpl app. rewrite getU32_cons
    by (repeat constructor; apply mod_byte).
  do 2 f_equal. change (2 ^ 32) with 4294967296 in Hv. 
  change (2 ^ 8) with 256. change (2 ^ 16) with 65536. change (2 ^ 24) with 16777216. zdiv.
Qed.

Lemma getU16_putU16 v it : 0 <= v < 2 ^ 16 -> getU16 (putU16 v ++ it) = Ok (v, it).
Proof.
  intros Hv. rewrite putU16_eq. simpl app. rewrite getU16_cons
    by (repeat constructor; apply mod_byte).
  do 2 f_equal. change (2 ^ 16) with 65536 in Hv. change (2 ^ 8) with 256. zdiv.
Qed.

Lemma copy_n_app a it n : zlen a = n -> copy_n (a ++ it) n = Ok (a, it).
Proof.
  intros <-. unfold copy_n. rewrite length_app. ztest. rewrite Nat2Z.id.
  by rewrite take_app_length, drop_app_length.
Qed.

Lemma copy_n_take it n :
  0 <= n <= zlen it -> copy_n it n = Ok (take (Z.to_nat n) it, drop (Z.to_nat n) it).
Proof. intros. unfold copy_n. by ztest. Qed.

Lemma get_uuid_app u it : get_uuid (length u) (u ++ it) = Ok (u, it).
Proof. induction u as [|b u IH]; simpl; [done|]. by rewrite IH. Qed.

Lemma length_putU32 v : length (putU32 v) = 4%nat.
Proof. by rewrite putU32_eq. Qed.

Lemma length_putU16 v : length (putU16 v) = 2%nat.
Proof. by rewrite putU16_eq. Qed.

#[export] Hint Rewrite length_putU32 length_putU16 : ft_len.

#[global] Opaque putU32 putU16 getU32 getU16 copy_n get_uuid.

Create Rewrite HintDb ft_wire.
#[export] Hint Rewrite getU32_putU32 getU16_putU16 using lia : ft_wire.

(** ** Well-formed messages and what the peer receives *)

(** The members of [m] that its type sends are in range: what MessageFactory builds
    (see [MsgFctry]) and what the wire format can carry. *)
Record wf_message (m : Message) : Prop := mk_wf {
  wf_type : msg_type m ∈ [MSGTYPE_FILE_OFFER; MSGTYPE_FILE_CHUNK_REQ;
                          MSGTYPE_FILE_CHUNK_DATA; MSGTYPE_FILE_COMPLETE];
  wf_seq : 0 <= seq_number m < 2 ^ 16;
  wf_uuid : length (client_uuid m) = UUID_SIZE;
  wf_uuid_bytes : bytes_ok (client_uuid m);
  wf_name_bytes : bytes_ok (file_name m);
  wf_offer : msg_type m = MSGTYPE_FILE_OFFER ->
    0 <= file_size (offer m) < 2 ^ 32 /\ 0 <= file_n_chunks (offer m) < 2 ^ 32 /\
    zlen (file_hash (offer m)) = HASH_SIZE /\ bytes_ok (file_hash (offer m));
  wf_req : msg_type m = MSGTYPE_FILE_CHUNK_REQ ->
    0 <= chunk_idx_first (chunk_req m) < 2 ^ 32 /\
    0 <= chunk_idx_last (chunk_req m) < 2 ^ 32;
  wf_data : msg_type m = MSGTYPE_FILE_CHUNK_DATA ->
    0 <= idx (chunk_data m) < 2 ^ 32 /\
    0 < zlen (data (chunk_data m)) <= MAX_MSG_PAYLOAD_SIZE /\
    bytes_ok (data (chunk_data m)) }.

(** The name as the wire carries it: at most 255 bytes. *)
Definition wire_name (m : Message) : bytes := take (Z.to_nat UINT8_MAX) (file_name m).

(** [m] as the peer parses it from a frame with [len] in its length field. *)
Definition received (m : Message) (len : Z) : Message :=
  let ty := msg_type m in
  mk_message ty len (seq_number m) (client_uuid m) (wire_name m)
    (if ty =? MSGTYPE_FILE_OFFER then offer m else no_offer)
    (if ty =? MSGTYPE_FILE_CHUNK_REQ then chunk_req m else no_chunk_req)
    (if ty =? MSGTYPE_FILE_CHUNK_DATA
     then mk_chunk_data (idx (chunk_data m)) (data (chunk_data m))
            (zeros (Z.to_nat CHUNK_HASH_SIZE))
     else no_chunk_data).

(** The bytes of a well-formed message. *)
Definition enc_fields (m : Message) : bytes :=
  if msg_type m =? MSGTYPE_FILE_OFFER then
    putU32 (file_size (offer m)) ++ putU32 (file_n_chunks (offer m)) ++ file_hash (offer m)
  else if msg_type m =? MSGTYPE_FILE_CHUNK_REQ then
    putU32 (chunk_idx_first (chunk_req m)) ++ putU32 (chunk_idx_last (chunk_req m))
  else if msg_type m =? MSGTYPE_FILE_CHUNK_DATA then
    putU32 (idx (chunk_data m)) ++ putU16 (zlen (data (chunk_data m))) ++
    data (chunk_data m)
  else [].

Definition enc_body (m : Message) : bytes :=
  putU16 (seq_number m) ++ client_uuid m ++ [zlen (wire_name m)] ++ wire_name m ++
  enc_fields m.

Definition encode (m : Message) : bytes :=
  putU32 (msg_type m) ++ putU16 (zlen (enc_body m)) ++ enc_body m.

Lemma wire_name_len m : zlen (wire_name m) = filename_len m.
Proof.
  unfold wire_name, filename_len, UINT8_MAX. rewrite length_take.
  destruct (Z.ltb_spec (zlen (file_name m)) 255); lia.
Qed.

Lemma wire_name_range m : 0 <= zlen (wire_name m) <= 255.
Proof. unfold wire_name, UINT8_MAX. rewrite length_take. lia. Qed.

Ltac msg_type_cases :=
  match goal with
  | H : wf_message ?m |- _ =>
      let Ht := fresh "Ht" in
      pose proof (wf_type m H) as Ht;
      rewrite !list.elem_of_cons, elem_of_nil in Ht;
      destruct Ht as [Ht|[Ht|[Ht|[Ht|[]]]]]
  end.

Lemma serialize_fields_wf m : wf_message m -> serialize_fields m = Ok (enc_fields m).
Proof.
  intros H. unfold serialize_fields, enc_fields. msg_type_cases; rewrite Ht; simpl.
  - destruct (wf_offer m H Ht) as (_ & _ & Hl & _).
    rewrite <- (app_nil_r (file_hash (offer m))) at 1. by rewrite copy_n_app.
  - done.
  - destruct (wf_data m H Ht) as (_ & Hl & _). ztest. simpl.
    rewrite wrap_small by (unfold MAX_MSG_PAYLOAD_SIZE, MAX_MSG_SIZE in Hl; lia). done.
  - done.
Qed.

Lemma enc_fields_len m :
  wf_message m -> zlen (enc_fields m) <= 6 + MAX_MSG_PAYLOAD_SIZE.
Proof.
  intros H. unfold enc_fields. unfold MAX_MSG_PAYLOAD_SIZE, MAX_MSG_SIZE.
  msg_type_cases; rewrite Ht; simpl; autorewrite with ft_len.
  - destruct (wf_offer m H Ht) as (_ & _ & Hl & _). unfold HASH_SIZE in Hl. lia.
  - lia.
  - destruct (wf_data m H Ht) as (_ & Hl & _).
    unfold MAX_MSG_PAYLOAD_SIZE, MAX_MSG_SIZE in Hl. lia.
  - lia.
Qed.

Lemma enc_body_len m :
  wf_message m -> zlen (enc_body m) = 19 + zlen (wire_name m) + zlen (enc_fields m).
Proof.
  intros H. unfold enc_body. autorewrite with ft_len. rewrite (wf_uuid m H). unfold UUID_SIZE. simpl. lia.
Qed.

Lemma enc_body_bounds m : wf_message m -> 19 <= zlen (enc_body m) < 2 ^ 16.
Proof.
  intros H. rewrite enc_body_len by done. pose proof (wire_name_range m).
  pose proof (enc_fields_len m H). unfold MAX_MSG_PAYLOAD_SIZE, MAX_MSG_SIZE in *. lia.
Qed.

Lemma serialize_encode m out : wf_message m -> serialize m out = Ok (out ++ encode m).
Proof.
  intros H. unfold serialize.
  pose proof (wire_name_range m). pose proof (wire_name_len m) as Hn.
  assert (filename_len m <= zlen (file_name m)) as Hle.
  { unfold filename_len. destruct (Z.ltb_spec (zlen (file_name m)) UINT8_MAX); lia. }
  rewrite copy_n_take by lia. simpl. rewrite serialize_fields_wf by done. simpl.
  assert (take (Z.to_nat (filename_len m)) (file_name m) = wire_name m) as ->.
  { unfold wire_name. rewrite <- Hn, Nat2Z.id. unfold wire_name. rewrite length_take.
    destruct (Nat.min_spec (Z.to_nat UINT8_MAX) (length (file_name m))) as [[? ->]|[? ->]].
    - done.
    - by rewrite !take_ge by lia. }
  assert (u8 (Z.land (filename_len m) 255) = zlen (wire_name m)) as ->.
  { by rewrite land_ff, <- Hn, Z.mod_small, wrap_small by lia. }
  change (putU16 (seq_number m) ++ _) with (enc_body m).
  rewrite wrap_small by (pose proof (enc_body_bounds m H); lia). done.
Qed.

Lemma encode_bytes m : wf_message m -> bytes_ok (encode m).
Proof.
  intros H. unfold encode, enc_body.
  assert (bytes_ok (enc_fields m)).
  { unfold enc_fields. msg_type_cases; rewrite Ht; simpl.
    - destruct (wf_offer m H Ht) as (_ & _ & _ & ?). auto with ft.
    - auto with ft.
    - destruct (wf_data m H Ht) as (_ & _ & ?). auto with ft.
    - done. }
  assert (bytes_ok (wire_name m)) by (apply Forall_take, (wf_name_bytes m H)).
  assert (bytes_ok [zlen (wire_name m)]).
  { pose proof (wire_name_range m). apply Forall_singleton. unfold is_byte. lia. }
  pose proof (wf_uuid_bytes m H). auto 10 with ft.
Qed.

Lemma msg_type_range m : wf_message m -> 0 <= msg_type m < 2 ^ 32.
Proof. intros H. msg_type_cases; rewrite Ht; vm_compute; split; congruence. Qed.

Lemma parse_encode m rest :
  wf_message m -> parse (encode m ++ rest) = Ok (received m (zlen (enc_body m))).
Proof.
  intros H. pose proof (msg_type_range m H). pose proof (enc_body_bounds m H).
  pose proof (wf_seq m H). unfold parse, encode. rewrite <- !app_assoc.
  autorewrite with ft_wire. simpl. autorewrite with ft_wire. simpl.
  replace (enc_body m ++ rest) with
    (putU16 (seq_number m) ++ client_uuid m ++ [zlen (wire_name m)] ++ wire_name m ++
     enc_fields m ++ rest) by (unfold enc_body; by rewrite <- !app_assoc).
  autorewrite with ft_wire. simpl.
  rewrite <- (wf_uuid m H) at 1. rewrite get_uuid_app. simpl.
  rewrite copy_n_app by done. simpl. unfold received, enc_fields.
  msg_type_cases; rewrite Ht; simpl; rewrite <- ?app_assoc.
  - destruct (wf_offer m H Ht) as (? & ? & Hl & _).
    autorewrite with ft_wire. simpl. autorewrite with ft_wire. simpl.
    rewrite copy_n_app by done. simpl. by destruct (offer m).
  - destruct (wf_req m H Ht) as (? & ?).
    autorewrite with ft_wire. simpl. autorewrite with ft_wire. simpl.
    by destruct (chunk_req m).
  - destruct (wf_data m H Ht) as (? & Hl & _).
    unfold MAX_MSG_PAYLOAD_SIZE, MAX_MSG_SIZE in Hl.
    autorewrite with ft_wire. simpl. autorewrite with ft_wire. simpl.
    by rewrite copy_n_app by done.
  - done.
Qed.

(** ** How much input the parser needs *)

Definition be (l : bytes) : Z := foldl (fun acc b => acc * 2 ^ 8 + b) 0 l.

(** The offset one past the last byte the parser reads from [buf]; when [buf] ends
    before a length byte it depends on, the offset up to that byte. *)
Definition bytes_needed (buf : bytes) : Z :=
  if zlen buf <? 25 then 25
  else
    let o := 25 + buf !!! 24%nat in
    let ty := be (take 4 buf) in
    if ty =? MSGTYPE_FILE_OFFER then o + 72
    else if ty =? MSGTYPE_FILE_CHUNK_REQ then o + 8
    else if ty =? MSGTYPE_FILE_CHUNK_DATA then
      if zlen buf <? o + 6 then o + 6
      else o + 6 + be (take 2 (drop (Z.to_nat (o + 4)) buf))
    else o.

Lemma getU32_case it :
  bytes_ok it ->
  getU32 it = if zlen it <? 4 then Undef else Ok (be (take 4 it), drop 4 it).
Proof.
  intros H. destruct it as [|a [|b [|c [|d it]]]]; try done.
  rewrite !Forall_cons_iff in H. destruct H as (?&?&?&?&_).
  rewrite getU32_cons by auto with ft. cbn [length].
  ztest. simpl. unfold be. simpl. by rewrite drop_0.
Qed.

Lemma getU16_case it :
  bytes_ok it ->
  getU16 it = if zlen it <? 2 then Undef else Ok (be (take 2 it), drop 2 it).
Proof.
  intros H. destruct it as [|a [|b it]]; try done.
  rewrite !Forall_cons_iff in H. destruct H as (?&?&_).
  rewrite getU16_cons by auto with ft. cbn [length].
  ztest. simpl. unfold be. simpl. by rewrite drop_0.
Qed.

Lemma get_uuid_case n it :
  get_uuid n it = if zlen it <? Z.of_nat n then Undef else Ok (take n it, drop n it).
Proof.
  destruct (Z.ltb_spec (zlen it) (Z.of_nat n)) as [H|H].
  - revert it H. induction n as [|n IH]; intros it H; [simpl in H; lia|].
    destruct it as [|b it]; [done|]. with_strategy transparent [get_uuid] simpl.
    rewrite IH; [done|]. cbn [length] in H. lia.
  - rewrite <- (take_drop n it) at 1.
    assert (length (take n it) = n) as E by (rewrite length_take; lia).
    rewrite <- E at 1. by rewrite get_uuid_app.
Qed.

Lemma deref_case it :
  deref it = if zlen it <? 1 then Undef else Ok (it !!! 0%nat, drop 1 it).
Proof. destruct it as [|b it]; [done|]. cbn [length]. ztest. simpl. by rewrite drop_0. Qed.

Lemma be_nonneg l : bytes_ok l -> 0 <= be l.
Proof.
  intros H. unfold be. assert (forall a, 0 <= a -> 0 <= foldl (fun acc b => acc * 2 ^ 8 + b) a l); [|auto with lia].
  induction H as [|b l Hb _ IH]; intros a Ha; [done|]. simpl. apply IH.
  unfold is_byte in Hb. lia.
Qed.

(** One parsing step: an input that is too short ends the proof with [t], else the
    parser has advanced. *)
Ltac cursor_with t :=
  lazymatch goal with
  | |- (mbind _ (getU32 ?it) = _) <-> _ => rewrite (getU32_case it) by auto with ft
  | |- (mbind _ (getU16 ?it) = _) <-> _ => rewrite (getU16_case it) by auto with ft
  | |- (mbind _ (get_uuid ?n ?it) = _) <-> _ => rewrite (get_uuid_case n it)
  | |- (mbind _ (deref ?it) = _) <-> _ => rewrite (deref_case it)
  | |- (mbind _ (copy_n ?it ?n) = _) <-> _ =>
      change (copy_n it n) with
        (if zlen it <? n then @Undef (bytes * bytes)
         else Ok (take (Z.to_nat n) it, drop (Z.to_nat n) it))
  end; rewrite ?drop_drop, ?length_drop;
  lazymatch goal with
  | |- (mbind _ (if ?a <? ?b then _ else _) = _) <-> _ =>
      destruct (Z.ltb_spec a b);
      [cbn [mbind res_bind]; split; [intros _; t|done]|cbn [mbind res_bind]]
  end.
Ltac cursor := cursor_with ltac:(repeat case_match; bool_to_prop; lia).

Lemma lookup_total_byte (l : bytes) i : bytes_ok l -> 0 <= l !!! i < 256.
Proof.
  intros H. destruct (decide (i < length l)%nat) as [Hi|Hi].
  - destruct (lookup_lt_is_Some_2 l i Hi) as [b Hb].
    rewrite (list_lookup_total_correct _ _ _ Hb).
    exact (proj1 (Forall_lookup _ _) H _ _ Hb).
  - rewrite list_lookup_total_alt, lookup_ge_None_2 by lia. simpl. lia.
Qed.

Lemma parse_undef_iff_lem (buf : bytes) :
  bytes_ok buf -> parse buf = Undef <-> zlen buf < bytes_needed buf.
Proof.
  intros H. unfold parse, bytes_needed, UUID_SIZE.
  destruct (Z.ltb_spec (zlen buf) 25).
  { do 5 cursor. lia. }
  do 5 cursor. rewrite lookup_total_drop. change (4 + 2 + 2 + 16 + 0)%nat with 24%nat.
  pose proof (lookup_total_byte buf 24 H) as Hv. set (v := buf !!! 24%nat) in *.
  assert (bytes_ok (drop (Z.to_nat (25 + v + 4)) buf)) as Hd by auto with ft.
  pose proof (be_nonneg _ (Forall_take _ 2 _ Hd)).
  cursor. unfold HASH_SIZE. set (ty := be (take 4 buf)).
  destruct (ty =? MSGTYPE_FILE_OFFER); [do 3 cursor; split; [done|lia]|].
  destruct (ty =? MSGTYPE_FILE_CHUNK_REQ); [do 2 cursor; split; [done|lia]|].
  destruct (ty =? MSGTYPE_FILE_CHUNK_DATA).
  { do 2 cursor. 
    match goal with
    | |- context [copy_n (drop _ _) (be (take 2 (drop ?n buf)))] =>
        replace n with (Z.to_nat (25 + v + 4)) by lia
    end.
    cursor. ztest. split; [done|lia]. }
  destruct (ty =? MSGTYPE_FILE_COMPLETE); split; done || lia.
Qed.

(** *** What a successful parse read *)

Lemma getU32_inv it v it' :
  bytes_ok it -> getU32 it = Ok (v, it') ->
  it = putU32 v ++ it' /\ 0 <= v < 2 ^ 32 /\ bytes_ok it'.
Proof.
  intros H E. rewrite getU32_case in E by done.
  destruct it as [|a [|b [|c [|d it]]]]; [done..|]. rewrite <- getU32_case in E by done.
  rewrite !Forall_cons_iff in H. destruct H as (Ha & Hb & Hc & Hd & Hit).
  rewrite getU32_cons in E by auto with ft. injection E as <- <-. unfold is_byte in *.
  rewrite putU32_eq. change (2 ^ 32) with 4294967296.
  change (2 ^ 8) with 256. change (2 ^ 16) with 65536. change (2 ^ 24) with 16777216.
  split_and!; [|lia|lia|done]. cbn [app].
  f_equal; [zdiv|f_equal; [zdiv|f_equal; [zdiv|f_equal; zdiv]]].
Qed.

Lemma getU16_inv it v it' :
  bytes_ok it -> getU16 it = Ok (v, it') ->
  it = putU16 v ++ it' /\ 0 <= v < 2 ^ 16 /\ bytes_ok it'.
Proof.
  intros H E. rewrite getU16_case in E by done.
  destruct it as [|a [|b it]]; [done..|]. rewrite <- getU16_case in E by done.
  rewrite !Forall_cons_iff in H. destruct H as (Ha & Hb & Hit).
  rewrite getU16_cons in E by auto with ft. injection E as <- <-. unfold is_byte in *.
  rewrite putU16_eq. change (2 ^ 16) with 65536. change (2 ^ 8) with 256.
  split_and!; [|lia|lia|done]. cbn [app]. f_equal; [zdiv|f_equal; zdiv].
Qed.

Lemma copy_n_inv it n a it' :
  bytes_ok it -> 0 <= n -> copy_n it n = Ok (a, it') ->
  it = a ++ it' /\ zlen a = n /\ bytes_ok a /\ bytes_ok it'.
Proof.
  with_strategy transparent [copy_n] unfold copy_n.
  destruct (Z.ltb_spec (zlen it) n); [done|]. intros Hit Hn [= <- <-].
  rewrite take_drop, length_take. split_and!; [done|lia|auto with ft|auto with ft].
Qed.

Lemma get_uuid_inv n it u it' :
  bytes_ok it -> get_uuid n it = Ok (u, it') ->
  it = u ++ it' /\ length u = n /\ bytes_ok u /\ bytes_ok it'.
Proof.
  rewrite get_uuid_case. destruct (Z.ltb_spec (zlen it) (Z.of_nat n)); [done|].
  intros Hit [= <- <-]. rewrite take_drop, length_take.
  split_and!; [done|lia|auto with ft|auto with ft].
Qed.

Lemma deref_inv it b it' :
  bytes_ok it -> deref it = Ok (b, it') -> it = [b] ++ it' /\ is_byte b /\ bytes_ok it'.
Proof. intros H E. destruct it; [done|]. injection E as -> ->. by rewrite Forall_cons_iff in H. Qed.

(** The members of a parsed message have their types: the ranges of the fixed-width
    fields, the lengths of the fixed-size ones. *)
Record typed_message (m : Message) : Prop := mk_typed_message {
  ty_type : msg_type m ∈ [MSGTYPE_FILE_OFFER; MSGTYPE_FILE_CHUNK_REQ;
                          MSGTYPE_FILE_CHUNK_DATA; MSGTYPE_FILE_COMPLETE];
  ty_len : 0 <= msg_len m < 2 ^ 16;
  ty_seq : 0 <= seq_number m < 2 ^ 16;
  ty_uuid : length (client_uuid m) = UUID_SIZE;
  ty_uuid_bytes : bytes_ok (client_uuid m);
  ty_name : zlen (file_name m) <= UINT8_MAX;
  ty_name_bytes : bytes_ok (file_name m);
  ty_offer : msg_type m = MSGTYPE_FILE_OFFER ->
    0 <= file_size (offer m) < 2 ^ 32 /\ 0 <= file_n_chunks (offer m) < 2 ^ 32 /\
    zlen (file_hash (offer m)) = HASH_SIZE /\ bytes_ok (file_hash (offer m));
  ty_req : msg_type m = MSGTYPE_FILE_CHUNK_REQ ->
    0 <= chunk_idx_first (chunk_req m) < 2 ^ 32 /\
    0 <= chunk_idx_last (chunk_req m) < 2 ^ 32;
  ty_data : msg_type m = MSGTYPE_FILE_CHUNK_DATA ->
    0 <= idx (chunk_data m) < 2 ^ 32 /\ zlen (data (chunk_data m)) < 2 ^ 16 /\
    bytes_ok (data (chunk_data m)) }.

(** Inverts one read of the cursor [it]. *)
Ltac read_inv :=
  match goal with
  | H : res_bind _ _ _ ?r = Ok _ |- _ => change (mbind (M := res) _ r = Ok _) in H
  | H : (_ ≫= _) = Ok _ |- _ =>
      apply res_bind_ok in H as ([? ?] & ?H & H); cbn beta iota in H
  end;
  match goal with
  | E : getU32 _ = Ok _ |- _ => apply getU32_inv in E as (-> & ? & ?); [|done]
  | E : getU16 _ = Ok _ |- _ => apply getU16_inv in E as (-> & ? & ?); [|done]
  | E : get_uuid _ _ = Ok _ |- _ => apply get_uuid_inv in E as (-> & ? & ? & ?); [|done]
  | E : deref _ = Ok _ |- _ => apply deref_inv in E as (-> & [? ?] & ?); [|done]
  | E : copy_n _ _ = Ok _ |- _ => apply copy_n_inv in E as (-> & ? & ? & ?); [|done|first [done|lia]]
  end.

(** Closes the two halves of [parse_exact] for a message whose fields have been read. *)
Ltac typed_fields :=
  constructor; cbn; try done; try (unfold UINT8_MAX; lia);
  [rewrite !list.elem_of_cons; tauto
  |let E := fresh in intros E; first [done | by split_and!; try lia | vm_compute in E; discriminate]..].
Ltac same_bytes rest :=
  exists rest; unfold enc_body, wire_name; cbn [file_name seq_number client_uuid];
  rewrite take_ge by (unfold UINT8_MAX; lia); unfold enc_fields; cbn [msg_type];
  cbn -[app putU32 putU16 Z.eqb];
  repeat match goal with
  | |- context [?a =? ?b] => let v := eval vm_compute in (a =? b) in change (a =? b) with v
  end; cbn iota; subst; rewrite <- ?app_assoc; reflexivity.

Lemma parse_exact_lem buf m :
  bytes_ok buf -> parse buf = Ok m ->
  typed_message m /\
  exists rest, buf = putU32 (msg_type m) ++ putU16 (msg_len m) ++ enc_body m ++ rest.
Proof.
  intros Hb H. unfold parse in H. do 6 read_inv.
  lazymatch type of H with (if ?ty =? _ then _ else _) = _ =>
    destruct (Z.eqb_spec ty MSGTYPE_FILE_OFFER) as [->|_];
    [|destruct (Z.eqb_spec ty MSGTYPE_FILE_CHUNK_REQ) as [->|_];
    [|destruct (Z.eqb_spec ty MSGTYPE_FILE_CHUNK_DATA) as [->|_];
    [|destruct (Z.eqb_spec ty MSGTYPE_FILE_COMPLETE) as [->|_]; [|done]]]]
  end.
  - do 3 read_inv. injection H as <-. split; [typed_fields|].
    match goal with Hr : bytes_ok ?r |- _ => same_bytes r end.
  - do 2 read_inv. injection H as <-. split; [typed_fields|].
    match goal with Hr : bytes_ok ?r |- _ => same_bytes r end.
  - do 3 read_inv. injection H as <-. split; [typed_fields|].
    match goal with Hr : bytes_ok ?r |- _ => same_bytes r end.
  - injection H as <-. split; [typed_fields|].
    match goal with Hr : bytes_ok ?r |- _ => same_bytes r end.
Qed.

(** C18: the parser is typed and exact: from any buffer a parsed message has every field in
    its range and every array of its size, and the buffer is, byte for byte, the type, the
    length field and the fields of that message, followed by bytes that were not read. *)
Theorem parse_exact buf m :
  bytes_ok buf -> parse buf = Ok m ->
  typed_message m /\
  exists rest, buf = putU32 (msg_type m) ++ putU16 (msg_len m) ++ enc_body m ++ rest.
Proof. apply parse_exact_lem. Qed.

(** C40: the message constructor runs into undefined behaviour (it reads past the end
    of the received buffer) exactly when the buffer is shorter than what its own type
    and length bytes announce; it never checks this itself. *)
Theorem parse_undef_iff (buf : bytes) :
  bytes_ok buf -> parse buf = Undef <-> zlen buf < bytes_needed buf.
Proof. apply parse_undef_iff_lem. Qed.

(** C19: serialize and the parsing constructor are inverse: for every well-formed
    message and every output buffer, [serialize] appends a frame, the length field is
    what follows the 6 bytes of envelope, and the constructor reads back the message
    (the name cut to 255 bytes) whatever bytes follow the frame. *)
Theorem serialize_parse_roundtrip (m : Message) (out rest : bytes) :
  wf_message m ->
  exists frame,
    serialize m out = Ok (out ++ frame) /\ bytes_ok frame /\
      parse (frame ++ rest) = Ok (received m (zlen frame - 6)).
Proof.
  intros H. exists (encode m). split; [by apply serialize_encode|].
  split; [by apply encode_bytes|].
  rewrite parse_encode by done. do 2 f_equal. unfold encode. autorewrite with ft_len. lia.
Qed.

(** The exceptions of [serialize]: a chunk without data or with more than 3968
    bytes is a length_error, an unknown type an invalid_argument, nothing else throws,
    and an offer whose hash has less than 64 bytes reads past its end. *)
Theorem serialize_errors (m : Message) (out : bytes) :
  match serialize m out with
  | Ok _ =>
      (msg_type m = MSGTYPE_FILE_CHUNK_DATA ->
         0 < zlen (data (chunk_data m)) <= 3968) /\
      msg_type m ∈ [MSGTYPE_FILE_OFFER; MSGTYPE_FILE_CHUNK_REQ;
                    MSGTYPE_FILE_CHUNK_DATA; MSGTYPE_FILE_COMPLETE]
  | Throw e =>
      (e = length_error "Invalid chunk length" /\ msg_type m = MSGTYPE_FILE_CHUNK_DATA /\
         ~ 0 < zlen (data (chunk_data m)) <= 3968) \/
      (e = invalid_argument "Invalid MessageType" /\
         msg_type m ∉ [MSGTYPE_FILE_OFFER; MSGTYPE_FILE_CHUNK_REQ;
                       MSGTYPE_FILE_CHUNK_DATA; MSGTYPE_FILE_COMPLETE])
  | Undef => msg_type m = MSGTYPE_FILE_OFFER /\ zlen (file_hash (offer m)) < HASH_SIZE
  end.
Proof.
  unfold serialize. rewrite copy_n_take.
  2: { unfold filename_len, UINT8_MAX. destruct (Z.ltb_spec (zlen (file_name m)) 255); lia. }
  cbn [mbind res_bind]. unfold serialize_fields, MAX_MSG_PAYLOAD_SIZE, MAX_MSG_SIZE.
  destruct (Z.eqb_spec (msg_type m) MSGTYPE_FILE_OFFER) as [Ho|Ho].
  { rewrite Ho. with_strategy transparent [copy_n] unfold copy_n.
    destruct (Z.ltb_spec (zlen (file_hash (offer m))) HASH_SIZE); cbn; [done|].
    split; [done|]. set_solver. }
  destruct (Z.eqb_spec (msg_type m) MSGTYPE_FILE_CHUNK_REQ) as [Hr|Hr].
  { rewrite Hr. cbn. split; [done|]. set_solver. }
  destruct (Z.eqb_spec (msg_type m) MSGTYPE_FILE_CHUNK_DATA) as [Hd|Hd].
  { rewrite Hd. destruct ((4096 - 128 <? zlen (data (chunk_data m))) || _) eqn:E;
      cbn; bool_to_prop.
    - left. split_and!; [done|done|lia].
    - left. split_and!; [done|done|lia].
    - split; [lia|]. set_solver. }
  destruct (Z.eqb_spec (msg_type m) MSGTYPE_FILE_COMPLETE) as [Hc|Hc]; cbn.
  - split; [done|]. set_solver.
  - right. split; [done|]. set_solver.
Qed.

(** The size of a frame: at most 4254 bytes; within MAX_MSG_SIZE when the file
    name has at most 97 bytes, and beyond it for a full chunk under a longer name. *)
Theorem serialize_size (m : Message) (frame : bytes) :
  wf_message m -> serialize m [] = Ok frame ->
  zlen frame <= 4254 /\
  (zlen (wire_name m) <= 97 -> zlen frame <= MAX_MSG_SIZE) /\
  (97 < zlen (wire_name m) -> msg_type m = MSGTYPE_FILE_CHUNK_DATA ->
   zlen (data (chunk_data m)) = MAX_MSG_PAYLOAD_SIZE -> MAX_MSG_SIZE < zlen frame).
Proof.
  intros H Hs. rewrite serialize_encode in Hs by done. injection Hs as <-.
  pose proof (enc_body_len m H). pose proof (enc_fields_len m H).
  pose proof (wire_name_range m). unfold encode, MAX_MSG_PAYLOAD_SIZE, MAX_MSG_SIZE in *.
  simpl. autorewrite with ft_len. split_and!; [lia|lia|].
  intros Hn Ht Hd. assert (zlen (enc_fields m) = 6 + 3968); [|lia].
  unfold enc_fields. rewrite Ht. simpl. autorewrite with ft_len. lia.
Qed.

(** ** Witnesses *)

Definition sample_uuid : bytes := str "0123456789abcdef".

(** A full chunk under the longest name. *)
Definition sample_message : Message :=
  mk_message MSGTYPE_FILE_CHUNK_DATA 0 7 sample_uuid (replicate 255 97) no_offer no_chunk_req
    (mk_chunk_data 3 (replicate 3968 42) []).

Lemma sample_message_wf : wf_message sample_message.
Proof.
  constructor; try (intros Ht; vm_compute in Ht; discriminate Ht);
    try (intros _; split_and!); decide_closed.
Qed.

Lemma parse_undef_iff_witness :
  bytes_ok (putU32 MSGTYPE_FILE_COMPLETE ++ putU16 1 ++ [0]) /\
  parse (putU32 MSGTYPE_FILE_COMPLETE ++ putU16 1 ++ [0]) = Undef.
Proof.
  split; [decide_closed|].
  apply parse_undef_iff; [decide_closed|vm_compute; reflexivity].
Defined.

Lemma parse_exact_witness :
  exists m rest, parse (encode sample_message ++ [9]) = Ok m /\ typed_message m /\
    encode sample_message ++ [9] =
      putU32 (msg_type m) ++ putU16 (msg_len m) ++ enc_body m ++ rest.
Proof.
  pose proof (parse_encode sample_message [9] sample_message_wf) as E.
  destruct (parse_exact (encode sample_message ++ [9])
    (received sample_message (zlen (enc_body sample_message)))) as [Ht [rest Hr]];
    [apply Forall_app_2; [apply encode_bytes, sample_message_wf|decide_closed]|exact E|].
  eexists _, rest. split; [exact E|split; [exact Ht|exact Hr]].
Defined.

Lemma serialize_parse_roundtrip_witness :
  wf_message sample_message /\
  exists frame,
    serialize sample_message [1; 2] = Ok ([1; 2] ++ frame) /\ bytes_ok frame /\
    parse (frame ++ [9]) = Ok (received sample_message (zlen frame - 6)).
Proof.
  split; [apply sample_message_wf|].
  apply (serialize_parse_roundtrip sample_message [1; 2] [9]), sample_message_wf.
Defined.

Lemma serialize_size_witness :
  exists frame, serialize sample_message [] = Ok frame /\ MAX_MSG_SIZE < zlen frame <= 4254.
Proof.
  exists (encode sample_message).
  assert (serialize sample_message [] = Ok (encode sample_message)) as E.
  { apply serialize_encode, sample_message_wf. }
  destruct (serialize_size sample_message (encode sample_message) sample_message_wf E)
    as (H1 & _ & H2).
  split; [done|]. split; [apply H2; decide_closed|done].
Defined.
