(* ===== verification/StdFs.v ===== *)
(** * The C++17 standard library the program uses for files

    [std::filesystem::path] (POSIX format), the queries and creations on the file
    system, and [std::ifstream]/[ofstream]/[fstream] as they behave for the binary
    reads, writes and seeks of src/file. The file system is a finite map from absolute
    component lists to nodes; there are no symbolic links, [".."] is resolved
    lexically, the working directory is the root, and disk-full or permission errors
    do not happen. *)
From S2P Require Import Prelude.

(** ** Paths *)
Module Path.

Definition sep : Z := 47.
Definition dot : bytes := [46].
Definition dotdot : bytes := [46; 46].

Definition is_absolute (p : bytes) : bool :=
  match p with c :: _ => c =? sep | [] => false end.

(** What precedes the file name (with its last separator), and the file name. *)
Fixpoint split_last (p : bytes) : bytes * bytes :=
  match p with
  | [] => ([], [])
  | c :: p' =>
      match split_last p' with
      | ([], f) => if c =? sep then ([c], f) else ([], c :: f)
      | (d, f) => (c :: d, f)
      end
  end.

Definition filename (p : bytes) : bytes := (split_last p).2.
Definition has_filename (p : bytes) : bool :=
  match filename p with [] => false | _ => true end.

Fixpoint strip_seps (d : bytes) : bytes :=
  match d with
  | [] => []
  | c :: d' =>
      match strip_seps d' with
      | [] => if c =? sep then [] else [c]
      | r => c :: r
      end
  end.

Definition parent_path (p : bytes) : bytes :=
  let d := (split_last p).1 in
  match strip_seps d, d with
  | [], [] => []
  | [], _ => [sep]
  | r, _ => r
  end.

(** [operator/=]: an absolute right operand replaces the path. *)
Definition append (p q : bytes) : bytes :=
  if is_absolute q then q
  else if has_filename p then p ++ [sep] ++ q
  else p ++ q.

(** ** What a path names *)

(** The C string handed to the operating system ends at the first NUL. *)
Fixpoint c_str (p : bytes) : bytes :=
  match p with
  | [] => []
  | c :: p' => if c =? 0 then [] else c :: c_str p'
  end.

Fixpoint components_from (cur p : bytes) : list bytes :=
  match p with
  | [] => [cur]
  | c :: p' =>
      if c =? sep then cur :: components_from [] p'
      else components_from (cur ++ [c]) p'
  end.
Definition components (p : bytes) : list bytes := components_from [] p.

Definition walk (at_ : list bytes) (c : bytes) : list bytes :=
  if decide (c = [] \/ c = dot) then at_
  else if decide (c = dotdot) then take (length at_ - 1) at_
  else at_ ++ [c].

Definition resolve (p : bytes) : list bytes := foldl walk [] (components (c_str p)).

(** A name that is one component of a path and nothing else. *)
Record simple (n : bytes) : Prop := mk_simple {
  simple_nonempty : n <> [];
  simple_not_dot : n <> dot;
  simple_not_dotdot : n <> dotdot;
  simple_no_sep : sep ∉ n;
  simple_no_nul : 0 ∉ n }.

#[global] Instance simple_dec n : Decision (simple n).
Proof.
  refine (cast_if (decide (n <> [] /\ n <> dot /\ n <> dotdot /\ (sep ∉ n) /\ (0 ∉ n)))).
  - abstract (destruct_and!; by constructor).
  - abstract (intros []; naive_solver).
Defined.

End Path.

(** ** The file system *)
Inductive node : Type :=
| Dir
| Reg (content : bytes).

Abbreviation fs := (gmap (list bytes) node).

Module Fs.

(** What the absolute path [k] names; the root always exists. *)
Definition stat (σ : fs) (k : list bytes) : option node :=
  match k with [] => Some Dir | _ => σ !! k end.

(** [std::filesystem::exists] *)
Definition exists_ (p : bytes) : M fs bool :=
  gets (fun σ => match stat σ (Path.resolve p) with Some _ => true | None => false end).

(** [std::filesystem::is_regular_file] *)
Definition is_regular_file (p : bytes) : M fs bool :=
  gets (fun σ => match stat σ (Path.resolve p) with Some (Reg _) => true | _ => false end).

(** [std::filesystem::file_size] *)
Definition file_size (p : bytes) : M fs Z := fun σ =>
  match stat σ (Path.resolve p) with
  | Some (Reg c) => (Ok (zlen c), σ)
  | _ => (Throw (filesystem_error "cannot get file size"), σ)
  end.

(** Makes every directory of [rest] below the directory [k]. *)
Fixpoint make_dirs (k rest : list bytes) : M fs unit :=
  match rest with
  | [] => mret tt
  | c :: rest' => fun σ =>
      match σ !! (k ++ [c]) with
      | Some Dir => make_dirs (k ++ [c]) rest' σ
      | Some (Reg _) => (Throw (filesystem_error "cannot create directories"), σ)
      | None => make_dirs (k ++ [c]) rest' (<[k ++ [c] := Dir]> σ)
      end
  end.

(** [std::filesystem::create_directories] *)
Definition create_directories (p : bytes) : M fs unit :=
  match p with
  | [] => throw (filesystem_error "cannot create directories")
  | _ => make_dirs [] (Path.resolve p)
  end.

End Fs.

(** ** File streams

    A stream that could not be opened has no file and its failbit set. The position
    is shared by reading and writing. *)
Record stream := mk_stream {
  st_file : option (list bytes);
  st_pos : Z;
  st_fail : bool;
  st_eof : bool }.

Module Stream.

Definition failed : stream := mk_stream None 0 true false.
Definition opened (k : list bytes) : stream := mk_stream (Some k) 0 false false.

Definition content (σ : fs) (k : list bytes) : bytes :=
  match σ !! k with Some (Reg c) => c | _ => [] end.

(** [std::ifstream(p, in | binary)] and [std::fstream(p, in | out | binary)]: the
    file must exist. *)
Definition open_existing (p : bytes) : M fs stream :=
  gets (fun σ =>
    match Fs.stat σ (Path.resolve p) with
    | Some (Reg _) => opened (Path.resolve p)
    | _ => failed
    end).

(** [std::ofstream(p, out | binary)]: creates the file or truncates it; needs the
    parent directory. *)
Definition open_trunc (p : bytes) : M fs stream := fun σ =>
  let k := Path.resolve p in
  match Fs.stat σ (take (length k - 1) k), Fs.stat σ k with
  | Some Dir, (None | Some (Reg _)) => (Ok (opened k), <[k := Reg []]> σ)
  | _, _ => (Ok failed, σ)
  end.

Definition good (st : stream) : bool := negb (st_fail st) && negb (st_eof st).

(** The argument of a seek is a signed 64-bit offset; a negative position fails. *)
Definition seek_to (st : stream) (off : Z) : stream :=
  if st_fail st then st
  else if swrap 64 off <? 0 then mk_stream (st_file st) (st_pos st) true (st_eof st)
  else mk_stream (st_file st) (swrap 64 off) false (st_eof st).

(** [seekg] clears eofbit first (C++11); [seekp] does not. *)
Definition seekg (st : stream) (off : Z) : stream :=
  seek_to (mk_stream (st_file st) (st_pos st) (st_fail st) false) off.
Definition seekp (st : stream) (off : Z) : stream := seek_to st off.

Definition tellg (st : stream) : Z := if st_fail st then -1 else st_pos st.

(** At most [n] bytes of [c] from position [pos]. *)
Definition sub (c : bytes) (pos n : Z) : bytes :=
  if zlen c <=? pos then [] else take (Z.to_nat n) (drop (Z.to_nat pos) c).

(** [is.read(buf, n)]: the bytes read ([gcount] of them) and the stream; a short
    read sets eofbit and failbit. *)
Definition read (st : stream) (n : Z) : M fs (bytes * stream) := fun σ =>
  match st_file st with
  | Some k =>
      if good st then
        let got := sub (content σ k) (st_pos st) n in
        let short := zlen got <? n in
        (Ok (got, mk_stream (Some k) (st_pos st + zlen got) short short), σ)
      else (Ok ([], mk_stream (Some k) (st_pos st) true (st_eof st)), σ)
  | None => (Ok ([], failed), σ)
  end.

(** The buffer after a read into it: bytes not read keep their value. *)
Definition fill (buf got : bytes) : bytes := got ++ drop (length got) buf.

(** What writing [data] at [pos] leaves in a file: writing nothing extends nothing. *)
Definition overwrite (pos : Z) (data c : bytes) : bytes :=
  match data with
  | [] => c
  | _ => splice (Z.to_nat pos) data c
  end.

(** [os.write(data, size)]: nothing when the stream is not good. *)
Definition write (st : stream) (data : bytes) : M fs stream := fun σ =>
  match st_file st with
  | Some k =>
      if good st then
        (Ok (mk_stream (Some k) (st_pos st + zlen data) false false),
         <[k := Reg (overwrite (st_pos st) data (content σ k))]> σ)
      else (Ok st, σ)
  | None => (Ok st, σ)
  end.

End Stream.

(** ** Facts about paths *)
Module PathFacts.
Import Path.

Lemma split_last_app p n :
  sep ∉ n -> split_last (p ++ [sep] ++ n) = (p ++ [sep], n).
Proof.
  intros Hn. change ([sep] ++ n) with (sep :: n). induction p as [|c p IH]; simpl.
  - assert (split_last n = ([], n)) as ->.
    { induction n as [|c n IH]; [done|]. simpl.
      rewrite list.elem_of_cons in Hn. rewrite IH by tauto.
      rewrite (proj2 (Z.eqb_neq c sep)) by naive_solver. done. }
    done.
  - rewrite IH. by destruct p.
Qed.

Lemma split_last_none n : sep ∉ n -> split_last n = ([], n).
Proof.
  intros Hn. pose proof (split_last_app [] n Hn) as H. simpl in H.
  destruct (split_last n) as [[|x d] f]; [|discriminate]. by injection H as ->.
Qed.

Lemma strip_seps_filename p :
  has_filename p = true -> strip_seps p = p /\ strip_seps (p ++ [sep]) = p.
Proof.
  unfold has_filename, filename. induction p as [|c p IH]; [done|]. simpl.
  destruct (split_last p) as [d f] eqn:E. simpl in *.
  destruct d as [|x d].
  - destruct p as [|y p].
    + simpl in E. injection E as <-. simpl.
      destruct (Z.eqb_spec c sep); [done|]. by split.
    + intros H. destruct f as [|z f].
      * simpl in E. destruct (split_last p) as [[|? ?] ?]; simpl in E;
          [destruct (y =? sep); discriminate|discriminate].
      * destruct (IH eq_refl) as [-> ->]. by split.
  - intros H. destruct f as [|z f]; [done|].
    destruct p as [|y p]; [done|]. destruct (IH eq_refl) as [-> ->]. by split.
Qed.

Lemma parent_path_app p n :
  has_filename p = true -> sep ∉ n -> parent_path (p ++ [sep] ++ n) = p.
Proof.
  intros Hp Hn. unfold parent_path. rewrite (split_last_app p n Hn). cbn [fst].
  destruct (strip_seps_filename p Hp) as [_ ->].
  by destruct p.
Qed.

Lemma filename_app p n : sep ∉ n -> filename (p ++ [sep] ++ n) = n.
Proof. intros Hn. unfold filename. by rewrite (split_last_app p n Hn). Qed.

Lemma filename_none n : sep ∉ n -> filename n = n.
Proof. intros Hn. unfold filename. by rewrite (split_last_none n Hn). Qed.

Lemma has_filename_app p n :
  sep ∉ n -> n <> [] -> has_filename (p ++ [sep] ++ n) = true.
Proof. intros Hn Hne. unfold has_filename. rewrite filename_app by done. by destruct n. Qed.

Lemma c_str_id p : 0 ∉ p -> c_str p = p.
Proof.
  induction p as [|c p IH]; [done|]. rewrite list.elem_of_cons. intros H. simpl.
  destruct (Z.eqb_spec c 0); [naive_solver|]. rewrite IH by tauto. done.
Qed.

Lemma c_str_app p q : 0 ∉ p -> c_str (p ++ q) = p ++ c_str q.
Proof.
  induction p as [|c p IH]; [done|]. rewrite list.elem_of_cons. intros H. simpl.
  destruct (Z.eqb_spec c 0); [naive_solver|]. rewrite IH by tauto. done.
Qed.

Lemma components_from_app cur p q :
  components_from cur (p ++ sep :: q) = components_from cur p ++ components q.
Proof.
  revert cur. induction p as [|c p IH]; intros cur; simpl; [done|].
  destruct (c =? sep); simpl; by rewrite IH.
Qed.

Lemma components_from_none cur n : sep ∉ n -> components_from cur n = [cur ++ n].
Proof.
  revert cur. induction n as [|c n IH]; intros cur H; simpl; [by rewrite app_nil_r|].
  rewrite list.elem_of_cons in H. destruct (Z.eqb_spec c sep); [naive_solver|].
  rewrite IH by tauto. by rewrite <- app_assoc.
Qed.

Lemma resolve_app p q :
  0 ∉ p -> resolve (p ++ [sep] ++ q) = foldl walk (resolve p) (components (c_str q)).
Proof.
  intros Hp. unfold resolve, components. rewrite c_str_app by done. simpl.
  by rewrite components_from_app, foldl_app, (c_str_id p Hp).
Qed.

Lemma walk_simple k n : simple n -> walk k n = k ++ [n].
Proof.
  intros [? ? ? ? ?]. unfold walk. rewrite decide_False by tauto.
  by rewrite decide_False by done.
Qed.

(** Appending a simple name is descending one level. *)
Lemma resolve_simple p n :
  0 ∉ p -> simple n -> resolve (p ++ [sep] ++ n) = resolve p ++ [n].
Proof.
  intros Hp Hn. rewrite resolve_app by done. destruct Hn.
  rewrite c_str_id by done. unfold components. rewrite components_from_none by done.
  simpl. by apply walk_simple.
Qed.

Lemma append_simple p n :
  has_filename p = true -> simple n -> append p n = p ++ [sep] ++ n.
Proof.
  intros Hp []. unfold append. rewrite Hp. destruct n as [|c n]; [done|]. simpl.
  rewrite list.elem_of_cons in *.
  destruct (Z.eqb_spec c sep); [naive_solver|done].
Qed.

(** An absolute right operand names the same file whatever it is appended to. *)
Lemma append_absolute p q : is_absolute q = true -> append p q = q.
Proof. unfold append. by intros ->. Qed.

(** The name [.n.meta] next to a simple [n]. *)
Lemma simple_meta n : simple n -> simple (str "." ++ n ++ str ".meta").
Proof.
  intros [Hne Hd Hdd Hs H0].
  constructor; change (str ".") with [46]; change (str ".meta") with [46; 109; 101; 116; 97].
  - done.
  - intros H. injection H as H. by destruct n.
  - intros H. injection H as H. destruct n as [|c n]; [done|].
    injection H as _ H. by destruct n.
  - rewrite !elem_of_app. intros [H|[H|H]]; [|done|];
      revert H; apply (bool_decide_unpack _); reflexivity.
  - rewrite !elem_of_app. intros [H|[H|H]]; [|done|];
      revert H; apply (bool_decide_unpack _); reflexivity.
Qed.

Lemma meta_ne n : str "." ++ n ++ str ".meta" <> n.
Proof.
  intros H. apply (f_equal length) in H. rewrite !length_app in H. simpl in H. lia.
Qed.
End PathFacts.

(** ** Facts about the file system and streams *)
Module FsFacts.
Import Stream.

Lemma stat_ne σ k : k <> [] -> Fs.stat σ k = σ !! k.
Proof. by destruct k. Qed.

Lemma content_reg σ k c : σ !! k = Some (Reg c) -> content σ k = c.
Proof. unfold content. by intros ->. Qed.

Lemma reg_not_root σ k c : Fs.stat σ k = Some (Reg c) -> k <> [] /\ σ !! k = Some (Reg c).
Proof. by destruct k. Qed.

Lemma open_existing_reg σ p k c :
  Path.resolve p = k -> k <> [] -> σ !! k = Some (Reg c) ->
  open_existing p σ = (Ok (opened k), σ).
Proof. intros <- Hk Hc. unfold open_existing, gets. by rewrite stat_ne, Hc by done. Qed.

Lemma open_existing_none σ p k :
  Path.resolve p = k -> k <> [] -> σ !! k = None ->
  open_existing p σ = (Ok failed, σ).
Proof. intros <- Hk Hc. unfold open_existing, gets. by rewrite stat_ne, Hc by done. Qed.

Lemma open_trunc_new σ p k :
  Path.resolve p = k -> k <> [] ->
  Fs.stat σ (take (length k - 1) k) = Some Dir -> σ !! k = None ->
  open_trunc p σ = (Ok (opened k), <[k := Reg []]> σ).
Proof. intros <- Hk Hd Hn. unfold open_trunc. by rewrite Hd, stat_ne, Hn by done. Qed.

Lemma exists_stat σ p k :
  Path.resolve p = k -> k <> [] ->
  Fs.exists_ p σ = (Ok (match σ !! k with Some _ => true | None => false end), σ).
Proof. intros <- Hk. unfold Fs.exists_, gets. by rewrite stat_ne. Qed.

Lemma swrap_small off : 0 <= off < 2 ^ 63 -> swrap 64 off = off.
Proof. intros H. unfold swrap. rewrite Z.mod_small by lia. lia. Qed.

Lemma seekg_opened k off :
  0 <= off < 2 ^ 63 -> seekg (opened k) off = mk_stream (Some k) off false false.
Proof. intros H. unfold seekg, seek_to. simpl. rewrite swrap_small by done. by ztest. Qed.

Lemma seekp_good k pos off :
  0 <= off < 2 ^ 63 ->
  seekp (mk_stream (Some k) pos false false) off = mk_stream (Some k) off false false.
Proof. intros H. unfold seekp, seek_to. simpl. rewrite swrap_small by done. by ztest. Qed.

Lemma sub_inside c pos n :
  0 <= pos -> 0 <= n -> pos + n <= zlen c ->
  sub c pos n = take (Z.to_nat n) (drop (Z.to_nat pos) c).
Proof.
  intros. unfold sub. destruct (Z.leb_spec (zlen c) pos); [|done].
  rewrite drop_ge by lia. by rewrite take_nil.
Qed.

Lemma read_inside σ k c pos n :
  σ !! k = Some (Reg c) -> 0 <= pos -> 0 <= n -> pos + n <= zlen c ->
  read (mk_stream (Some k) pos false false) n σ =
  (Ok (take (Z.to_nat n) (drop (Z.to_nat pos) c),
       mk_stream (Some k) (pos + n) false false), σ).
Proof.
  intros Hc Hp Hn Hl. unfold read. simpl. rewrite (content_reg _ _ _ Hc), sub_inside by done.
  rewrite length_take, length_drop.
  replace (Z.of_nat (Z.to_nat n `min` (length c - Z.to_nat pos))) with n by lia.
  by ztest.
Qed.

Lemma read_outside σ k c pos n :
  σ !! k = Some (Reg c) -> 0 < n -> zlen c <= pos ->
  read (mk_stream (Some k) pos false false) n σ =
  (Ok ([], mk_stream (Some k) pos true true), σ).
Proof.
  intros Hc Hn Hl. unfold read. simpl. rewrite (content_reg _ _ _ Hc). unfold sub.
  ztest. simpl. ztest. by rewrite Z.add_0_r.
Qed.

Lemma write_good σ k c pos data :
  σ !! k = Some (Reg c) ->
  write (mk_stream (Some k) pos false false) data σ =
  (Ok (mk_stream (Some k) (pos + zlen data) false false),
   <[k := Reg (overwrite pos data c)]> σ).
Proof. intros Hc. unfold write. simpl. by rewrite (content_reg _ _ _ Hc). Qed.

(** Writing at the end of a file appends. *)
Lemma overwrite_end c data : overwrite (zlen c) data c = c ++ data.
Proof.
  unfold overwrite. destruct data as [|b data]; [by rewrite app_nil_r|].
  rewrite Nat2Z.id. rewrite <- (app_nil_r c) at 2. rewrite splice_app, drop_nil.
  by rewrite app_nil_r.
Qed.

Lemma write_end σ k c pos data :
  σ !! k = Some (Reg c) -> pos = zlen c ->
  write (mk_stream (Some k) pos false false) data σ =
  (Ok (mk_stream (Some k) (pos + zlen data) false false), <[k := Reg (c ++ data)]> σ).
Proof. intros Hc ->. by rewrite (write_good _ _ _ _ _ Hc), overwrite_end. Qed.

(** A run of writes to a file that has just been written. *)
Lemma write_append σ k c pos data :
  pos = zlen c ->
  write (mk_stream (Some k) pos false false) data (<[k := Reg c]> σ) =
  (Ok (mk_stream (Some k) (pos + zlen data) false false), <[k := Reg (c ++ data)]> σ).
Proof.
  intros Hp. rewrite (write_end _ k c pos data (lookup_insert_eq _ _ _) Hp).
  by rewrite insert_insert_eq.
Qed.

Lemma overwrite_inside c pos data :
  0 <= pos -> pos + zlen data <= zlen c ->
  overwrite pos data c =
  take (Z.to_nat pos) c ++ data ++ drop (Z.to_nat pos + length data) c.
Proof.
  intros Hp Hl. unfold overwrite. destruct data as [|b data].
  - simpl. by rewrite Nat.add_0_r, take_drop.
  - unfold splice. replace (Z.to_nat pos - length c)%nat with 0%nat by lia. done.
Qed.

(** The directories [make_dirs k rest] makes. *)
Definition made (k rest q : list bytes) : Prop :=
  exists i, (i < length rest)%nat /\ q = k ++ take (S i) rest.

Lemma made_cons k c rest q :
  made k (c :: rest) q <-> q = k ++ [c] \/ made (k ++ [c]) rest q.
Proof.
  unfold made. split.
  - intros ([|i] & Hi & ->); [by left|]. right. simpl in Hi.
    exists i. split; [lia|]. by rewrite <- app_assoc.
  - intros [->|(i & Hi & ->)].
    + exists 0%nat. simpl. split; [lia|done].
    + exists (S i). simpl. split; [lia|]. by rewrite <- app_assoc.
Qed.

Lemma make_dirs_spec rest k σ :
  (forall q c, made k rest q -> σ !! q <> Some (Reg c)) ->
  exists σ', Fs.make_dirs k rest σ = (Ok tt, σ') /\
    (forall q, made k rest q -> σ' !! q = Some Dir) /\
    (forall q, ~ made k rest q -> σ' !! q = σ !! q).
Proof.
  revert k σ. induction rest as [|c rest IH]; intros k σ H; simpl.
  { exists σ. split_and!; [done| |done]. intros q (i & Hi & _). simpl in Hi. lia. }
  assert (forall σ1, (forall q, q <> k ++ [c] -> σ1 !! q = σ !! q) ->
    σ1 !! (k ++ [c]) = Some Dir ->
    exists σ', Fs.make_dirs (k ++ [c]) rest σ1 = (Ok tt, σ') /\
      (forall q, made k (c :: rest) q -> σ' !! q = Some Dir) /\
      (forall q, ~ made k (c :: rest) q -> σ' !! q = σ !! q)) as Hgo.
  { intros σ1 Hoth Hdir. destruct (IH (k ++ [c]) σ1) as (σ' & -> & H1 & H2).
    - intros q d Hq Hr. destruct (decide (q = k ++ [c])) as [->|Hne]; [congruence|].
      rewrite Hoth in Hr by done. apply (H q d); [|done]. apply made_cons. by right.
    - exists σ'. split_and!; [done| |].
      + intros q. rewrite made_cons. intros [->|Hq]; [|by apply H1].
        rewrite H2; [done|]. intros (i & Hi & E).
        apply (f_equal length) in E. autorewrite with ft_len in E. cbn [length] in E. lia.
      + intros q Hq. rewrite made_cons in Hq. rewrite H2 by tauto. apply Hoth. tauto. }
  destruct (σ !! (k ++ [c])) as [[|d]|] eqn:E.
  - by apply Hgo.
  - destruct (H (k ++ [c]) d); [|done]. apply made_cons. by left.
  - apply Hgo; [|by rewrite lookup_insert_eq].
    intros q Hq. by rewrite lookup_insert_ne.
Qed.
End FsFacts.

(** ** A directory and the files in it *)
Module DirFacts.
Import FsFacts.

(** No file stands where a directory of the path [dk] is needed. *)
Definition dirs_free (σ : fs) (dk : list bytes) : Prop :=
  forall q c, made [] dk q -> σ !! q <> Some (Reg c).

Definition dirs_exist (σ : fs) (dk : list bytes) : Prop :=
  forall q, made [] dk q -> σ !! q = Some Dir.

(** [σ'] is [σ] with the directories of [dk] made. *)
Definition with_dirs (σ σ' : fs) (dk : list bytes) : Prop :=
  dirs_exist σ' dk /\ forall q, ~ made [] dk q -> σ' !! q = σ !! q.

Lemma create_directories_spec σ d :
  d <> [] -> dirs_free σ (Path.resolve d) ->
  exists σ', Fs.create_directories d σ = (Ok tt, σ') /\ with_dirs σ σ' (Path.resolve d).
Proof.
  intros Hd Hf. unfold Fs.create_directories. destruct d; [done|].
  destruct (make_dirs_spec _ _ _ Hf) as (σ' & E & H1 & H2). by exists σ'.
Qed.

Lemma dirs_exist_free σ dk : dirs_exist σ dk -> dirs_free σ dk.
Proof. intros H q c Hq. by rewrite H. Qed.

(** Directories that exist are left alone. *)
Lemma with_dirs_id σ σ' dk : dirs_exist σ dk -> with_dirs σ σ' dk -> σ' = σ.
Proof.
  intros He [H1 H2]. apply map_eq. intros q.
  destruct (decide (length q <= length dk /\ q <> [] /\ q = take (length q) dk)%nat)
    as [(Hl & Hne & Eq)|Hn].
  - assert (made [] dk q) as Hq.
    { destruct q as [|x q]; [done|]. exists (length q). simpl in *. split; [lia|done]. }
    by rewrite H1, He.
  - apply H2. intros (i & Hi & ->). apply Hn. simpl. rewrite length_take.
    split_and!; [lia| |].
    + destruct dk; [simpl in Hi; lia|done].
    + f_equal. lia.
Qed.

Lemma create_directories_id σ d :
  d <> [] -> dirs_exist σ (Path.resolve d) -> Fs.create_directories d σ = (Ok tt, σ).
Proof.
  intros Hd He.
  destruct (create_directories_spec σ d Hd (dirs_exist_free _ _ He)) as (σ' & -> & Hw).
  by rewrite (with_dirs_id _ _ _ He Hw).
Qed.

(** A name in the directory is not one of the directories above it. *)
Lemma made_not_child dk n : ~ made [] dk (dk ++ [n]).
Proof.
  intros (i & Hi & E). apply (f_equal length) in E.
  autorewrite with ft_len in E. cbn [length] in E. lia.
Qed.

Lemma with_dirs_child σ σ' dk n : with_dirs σ σ' dk -> σ' !! (dk ++ [n]) = σ !! (dk ++ [n]).
Proof. intros [_ H]. apply H, made_not_child. Qed.

Lemma dirs_exist_stat σ dk : dirs_exist σ dk -> Fs.stat σ dk = Some Dir.
Proof.
  intros H. destruct dk as [|c dk]; [done|]. simpl. apply H.
  exists (length dk). simpl. rewrite take_ge by done. split; [lia|done].
Qed.

Lemma dirs_exist_insert σ dk n x :
  dirs_exist σ dk -> dirs_exist (<[dk ++ [n] := x]> σ) dk.
Proof.
  intros H q Hq. rewrite lookup_insert_ne; [by apply H|].
  intros <-. by apply made_not_child in Hq.
Qed.

Lemma child_ne (dk : list bytes) n : dk ++ [n] <> [].
Proof. by destruct dk. Qed.

Lemma child_parent (dk : list bytes) n :
  take (length (dk ++ [n]) - 1) (dk ++ [n]) = dk.
Proof.
  rewrite length_app. simpl. replace (length dk + 1 - 1)%nat with (length dk) by lia.
  apply take_app_length.
Qed.

Lemma child_inj (dk : list bytes) n m : dk ++ [n] = dk ++ [m] -> n = m.
Proof. intros H. by apply app_inj_tail in H as [_ ?]. Qed.
End DirFacts.

#[export] Hint Resolve DirFacts.child_ne DirFacts.dirs_exist_insert
  DirFacts.dirs_exist_free DirFacts.dirs_exist_stat : ft.
