(* ===== verification/FileMeta.v ===== *)
(** * Metadata files (src/file/ft_file_meta.hpp, ft_file_meta.cpp)

    The class FileMetadata: the metadata file next to an uploaded file, with its
    header (sizes and hash, in the machine's little-endian memory layout) and the
    bitmap of received chunks. Every method works on the file itself. *)
From S2P Require Import Prelude StdFs Msg.
From Stdlib Require Import Btauto.
Import FsFacts.

(** The 8 bytes of a [size_t] in memory, and back. *)
Definition mem64 (v : Z) : bytes := Z_to_little_endian 8 8 v.
Definition of_mem64 (l : bytes) : Z := little_endian_to_Z 8 l.

Definition SIZEOF_SIZE_T : Z := 8.

(** The only byte of a one-byte buffer. *)
Definition the_byte (buf : bytes) : Z := hd 0 buf.

Record FileMetadata := mk_file_metadata {
  fm_effective_path : bytes;
  fm_file_size : Z;
  fm_file_chunk_size : Z;
  fm_file_hash : bytes;
  fm_file_n_chunks : Z;
  fm_header_size : Z;
  fm_bitmap_size : Z;
  fm_metadata_file : bytes }.

(** [parent_path() / ("." + filename() + ".meta")] *)
Definition metadata_path (file_effective_path : bytes) : bytes :=
  Path.append (Path.parent_path file_effective_path)
    (str "." ++ Path.filename file_effective_path ++ str ".meta").

(** The constructor; a division by a zero chunk size is undefined behaviour. *)
Definition new_FileMetadata (path : bytes) (size chunk_size : Z) (hash : bytes) :
    res FileMetadata :=
  if chunk_size =? 0 then Undef
  else
    let n_chunks := size / chunk_size + (if 0 <? size mod chunk_size then 1 else 0) in
    Ok (mk_file_metadata path size chunk_size hash n_chunks
          (SIZEOF_SIZE_T + SIZEOF_SIZE_T + HASH_SIZE)
          (n_chunks / 8 + (if 0 <? n_chunks mod 8 then 1 else 0))
          (metadata_path path)).

(** The loop that writes the empty bitmap. *)
Fixpoint write_bitmap (n : nat) (ms : stream) : M fs stream :=
  match n with
  | O => mret ms
  | S n' => ms ← Stream.write ms [0]; write_bitmap n' ms
  end.

Definition createIfNotExist (fm : FileMetadata) : M fs unit :=
  Fs.create_directories (Path.parent_path (fm_effective_path fm));;
  found ← Fs.exists_ (fm_metadata_file fm);
  if found : bool then mret tt
  else
    ms ← Stream.open_trunc (fm_metadata_file fm);
    ms ← Stream.write ms (mem64 (fm_file_size fm));
    ms ← Stream.write ms (mem64 (fm_file_chunk_size fm));
    '(hash, _) ← lift (copy_n (fm_file_hash fm) HASH_SIZE);
    ms ← Stream.write ms hash;
    write_bitmap (Z.to_nat (fm_bitmap_size fm)) ms;;
    mret tt.

(** The two halves of markChunk: reading the byte that holds the bit, and writing the
    changed byte back at the same position. *)
Definition mark_read (fm : FileMetadata) (chunk_idx : Z) : M fs (Z * stream) :=
  ms ← Stream.open_existing (fm_metadata_file fm);
  let ms := Stream.seekg ms (u64 (fm_header_size fm + chunk_idx / 8)) in
  '(got, ms) ← Stream.read ms 1;
  mret (the_byte (Stream.fill [0] got), ms).

Definition set_bit (bitmap chunk_idx : Z) (valid : bool) : Z :=
  let bit := u8 (Z.shiftl 1 (7 - chunk_idx mod 8)) in
  if valid then u8 (Z.lor bitmap bit) else u8 (Z.land bitmap (Z.lnot bit)).

Definition mark_write (fm : FileMetadata) (chunk_idx : Z) (bitmap : Z) (ms : stream) :
    M fs unit :=
  let ms := Stream.seekp ms (u64 (fm_header_size fm + chunk_idx / 8)) in
  Stream.write ms [bitmap];;
  mret tt.

Definition markChunk (fm : FileMetadata) (chunk_idx : Z) (valid : bool) : M fs unit :=
  '(bitmap, ms) ← mark_read fm chunk_idx;
  mark_write fm chunk_idx (set_bit bitmap chunk_idx valid) ms.

(** [while (ms && bitmap == 0xFF) ms.read(&bitmap, 1)]; the fuel is the length of the
    file plus two, see [skip_full_spec]. *)
Fixpoint skip_full (fuel : nat) (ms : stream) (bitmap : Z) : M fs (Z * stream) :=
  if negb (st_fail ms) && (bitmap =? 0xFF) then
    match fuel with
    | O => lift Undef
    | S fuel' =>
        '(got, ms) ← Stream.read ms 1;
        skip_full fuel' ms (the_byte (Stream.fill [bitmap] got))
    end
  else mret (bitmap, ms).

(** [for (int i = 7; i >= 0 && ((bitmap >> i) & 0x01) == 0x01; i--, ret++)], where [n]
    is [i + 1]. *)
Fixpoint count_set (n : nat) (bitmap ret : Z) : Z :=
  match n with
  | O => ret
  | S i =>
      if Z.land (Z.shiftr bitmap (Z.of_nat i)) 0x01 =? 0x01
      then count_set i bitmap (u64 (ret + 1))
      else ret
  end.

Definition file_length (p : bytes) : M fs nat :=
  gets (fun σ => length (Stream.content σ (Path.resolve p))).

Definition nextMissingChunk (fm : FileMetadata) (from_chunk_idx : Z) : M fs Z :=
  ms ← Stream.open_existing (fm_metadata_file fm);
  let ms := Stream.seekg ms (u64 (fm_header_size fm + from_chunk_idx / 8)) in
  len ← file_length (fm_metadata_file fm);
  '(bitmap, ms) ← skip_full (len + 2) ms 0xFF;
  if negb (bitmap =? 0xFF) then
    let ret := u64 (u64 (u64 (swrap 32 (Stream.tellg ms)) - fm_header_size fm - 1) * 8) in
    let ret := count_set 8 bitmap ret in
    mret (if ret <? fm_file_n_chunks fm then ret else UINT64_MAX)
  else mret UINT64_MAX.

(** [file_hash.resize(n)] *)
Definition resize (h : bytes) (n : nat) : bytes := take n h ++ zeros (n - length h).

(** readHeader sets its three reference arguments. *)
Definition readHeader (file_effective_path : bytes) (file_hash : bytes) :
    M fs (Z * Z * bytes) :=
  let metadata_file := metadata_path file_effective_path in
  let file_hash := resize file_hash (Z.to_nat HASH_SIZE) in
  found ← Fs.exists_ metadata_file;
  if found : bool then
    ms ← Stream.open_existing metadata_file;
    '(got, ms) ← Stream.read ms SIZEOF_SIZE_T;
    let file_size := of_mem64 (Stream.fill (mem64 0) got) in
    '(got, ms) ← Stream.read ms SIZEOF_SIZE_T;
    let file_chunk_size := of_mem64 (Stream.fill (mem64 0) got) in
    '(got, ms) ← Stream.read ms HASH_SIZE;
    mret (file_size, file_chunk_size, Stream.fill file_hash got)
  else mret (0, 0, file_hash).

(** ** Bits of the bitmap *)

(** The bit of chunk [i]: the most significant bit of a byte comes first. *)
Definition chunk_bit (bm : bytes) (i : Z) : bool :=
  Z.testbit (bm !!! Z.to_nat (i / 8)) (7 - i mod 8).

Lemma u8_testbit x i : 0 <= i < 8 -> Z.testbit (u8 x) i = Z.testbit x i.
Proof. intros. apply Z.mod_pow2_bits_low. lia. Qed.

Lemma set_bit_byte b i v : is_byte (set_bit b i v).
Proof. unfold set_bit. destruct v; apply u8_byte. Qed.

Lemma set_bit_testbit b i v s :
  0 <= s < 8 ->
  Z.testbit (set_bit b i v) s = if decide (s = 7 - i mod 8) then v else Z.testbit b s.
Proof.
  intros Hs. pose proof (Z.mod_pos_bound i 8 ltac:(lia)).
  assert (Z.testbit (u8 (Z.shiftl 1 (7 - i mod 8))) s = bool_decide (s = 7 - i mod 8)) as E.
  { rewrite u8_testbit, Z.shiftl_1_l, Z.pow2_bits_eqb by lia.
    case_bool_decide; [by apply Z.eqb_eq|by apply Z.eqb_neq]. }
  unfold set_bit. destruct v; rewrite u8_testbit by done.
  - rewrite Z.lor_spec, E. destruct (decide (s = 7 - i mod 8));
      [rewrite bool_decide_true by done|rewrite bool_decide_false by done]; btauto.
  - rewrite Z.land_spec, Z.lnot_spec, E by lia. destruct (decide (s = 7 - i mod 8));
      [rewrite bool_decide_true by done|rewrite bool_decide_false by done]; btauto.
Qed.

Lemma chunk_div_mod i j : i / 8 = j / 8 -> 7 - i mod 8 = 7 - j mod 8 -> i = j.
Proof. intros. zdiv. Qed.

(** Setting the bit of chunk [i] in its byte of the bitmap changes that bit only. *)
Lemma chunk_bit_set bm i v j :
  0 <= i -> i / 8 < zlen bm -> 0 <= j ->
  chunk_bit (<[Z.to_nat (i / 8) := set_bit (bm !!! Z.to_nat (i / 8)) i v]> bm) j =
  if decide (j = i) then v else chunk_bit bm j.
Proof.
  intros Hi Hlt Hj. unfold chunk_bit.
  pose proof (Z.mod_pos_bound j 8 ltac:(lia)).
  assert (0 <= i / 8) by (apply Z.div_pos; lia).
  assert (0 <= j / 8) by (apply Z.div_pos; lia).
  destruct (decide (i / 8 = j / 8)) as [E|E].
  - rewrite <- E, list_lookup_total_insert_eq by lia. rewrite set_bit_testbit by lia.
    destruct (decide (j = i)) as [->|Hne]; case_decide; try done.
    destruct Hne. symmetry. by apply chunk_div_mod.
  - rewrite list_lookup_total_insert_ne by lia.
    case_decide; [congruence|done].
Qed.

Lemma land_shiftr_testbit b i :
  0 <= i -> (Z.land (Z.shiftr b i) 0x01 =? 0x01) = Z.testbit b i.
Proof.
  intros Hi. change 0x01 with (Z.ones 1). rewrite Z.land_ones by lia.
  change (2 ^ 1) with 2. rewrite <- Z.bit0_mod, Z.shiftr_spec by lia.
  rewrite Z.add_0_l. by destruct (Z.testbit b i).
Qed.

(** [count_set] counts the leading ones of the low [n] bits. *)
Lemma count_set_spec n b ret :
  0 <= ret -> ret + 8 < 2 ^ 64 -> (n <= 8)%nat ->
  exists m, 0 <= m <= Z.of_nat n /\ count_set n b ret = ret + m /\
    (forall t, 0 <= t < m -> Z.testbit b (Z.of_nat n - 1 - t) = true) /\
    (m < Z.of_nat n -> Z.testbit b (Z.of_nat n - 1 - m) = false).
Proof.
  revert ret. assert (forall ret, 0 <= ret -> ret + Z.of_nat n < 2 ^ 64 ->
    exists m, 0 <= m <= Z.of_nat n /\ count_set n b ret = ret + m /\
    (forall t, 0 <= t < m -> Z.testbit b (Z.of_nat n - 1 - t) = true) /\
    (m < Z.of_nat n -> Z.testbit b (Z.of_nat n - 1 - m) = false)) as Hgo.
  { induction n as [|n IH]; intros ret H0 Hlt; simpl.
    { exists 0. split_and!; lia. }
    rewrite land_shiftr_testbit by lia. destruct (Z.testbit b (Z.of_nat n)) eqn:E.
    - rewrite wrap_small by lia. destruct (IH (ret + 1)) as (m & Hm & -> & H1 & H2); [lia..|].
      exists (m + 1). split_and!; [lia|lia|lia| |].
      + intros t Ht. destruct (decide (t = 0)) as [->|].
        * rewrite <- E. f_equal. lia.
        * replace (Z.of_nat (S n) - 1 - t) with (Z.of_nat n - 1 - (t - 1)) by lia.
          apply H1. lia.
      + intros Hlt'. rewrite <- H2 by lia. f_equal. lia.
    - exists 0. split_and!; [lia|lia|lia|lia|]. intros _. rewrite <- E. f_equal. lia. }
  intros. apply Hgo; lia.
Qed.

(** ** The scan for a byte that is not 0xFF *)

Lemma skip_full_stop fuel ms b σ : b <> 0xFF -> skip_full fuel ms b σ = (Ok (b, ms), σ).
Proof.
  intros H. destruct fuel; simpl; rewrite (proj2 (Z.eqb_neq b 0xFF) H);
    by rewrite andb_false_r.
Qed.

Lemma skip_full_failed fuel ms b σ :
  st_fail ms = true -> skip_full fuel ms b σ = (Ok (b, ms), σ).
Proof. intros H. by destruct fuel; simpl; rewrite H. Qed.

(** Reading a file from position [pos] on: either the first byte that is not 0xFF is
    found [t] bytes further, or the end is reached. *)
Lemma skip_full_spec σ k c fuel pos :
  σ !! k = Some (Reg c) -> 0 <= pos -> (length c - Z.to_nat pos < fuel)%nat ->
  exists t, 0 <= t /\
    (forall i, 0 <= i < t -> c !! Z.to_nat (pos + i) = Some 0xFF) /\
    ((exists b, c !! Z.to_nat (pos + t) = Some b /\ b <> 0xFF /\
        skip_full fuel (mk_stream (Some k) pos false false) 0xFF σ =
        (Ok (b, mk_stream (Some k) (pos + t + 1) false false), σ)) \/
     (zlen c <= pos + t /\ exists ms,
        skip_full fuel (mk_stream (Some k) pos false false) 0xFF σ = (Ok (0xFF, ms), σ))).
Proof.
  intros Hc. revert pos. induction fuel as [|fuel IH]; intros pos Hp Hf; [lia|].
  destruct (decide (zlen c <= pos)) as [Hge|Hlt].
  { exists 0. split_and!; [lia|intros; lia|]. right. split; [lia|].
    exists (mk_stream (Some k) pos true true). simpl.
    rewrite (M_bind_ok _ _ _ _ _ (read_outside σ k c pos 1 Hc ltac:(lia) Hge)).
    simpl. by apply skip_full_failed. }
  destruct (lookup_lt_is_Some_2 c (Z.to_nat pos)) as [b Hb]; [lia|].
  assert (skip_full (S fuel) (mk_stream (Some k) pos false false) 0xFF σ =
          skip_full fuel (mk_stream (Some k) (pos + 1) false false) b σ) as Hstep.
  { simpl. rewrite (M_bind_ok _ _ _ _ _
      (read_inside σ k c pos 1 Hc ltac:(lia) ltac:(lia) ltac:(lia))).
    change (Z.to_nat 1) with 1%nat. by rewrite (drop_S _ _ _ Hb). }
  destruct (decide (b = 0xFF)) as [->|Hne].
  - destruct (IH (pos + 1)) as (t & Ht & Hall & Hres); [lia|lia|].
    exists (t + 1). split; [lia|]. split.
    { intros i Hi. destruct (decide (i = 0)) as [->|]; [by rewrite Z.add_0_r|].
      replace (pos + i) with (pos + 1 + (i - 1)) by lia. apply Hall. lia. }
    replace (pos + (t + 1)) with (pos + 1 + t) by lia. rewrite Hstep. exact Hres.
  - exists 0. split; [lia|]. split; [intros; lia|]. left. exists b.
    rewrite Z.add_0_r, Hstep. split_and!; [done|done|].
    by rewrite skip_full_stop.
Qed.

(** ** A metadata file in place *)

(** The metadata file of [fm] exists and holds the header [hdr] followed by the bitmap
    [bm], which has a bit for every chunk. *)
Record meta_at (σ : fs) (fm : FileMetadata) (hdr bm : bytes) : Prop := mk_meta_at {
  ma_key : Path.resolve (fm_metadata_file fm) <> [];
  ma_reg : σ !! Path.resolve (fm_metadata_file fm) = Some (Reg (hdr ++ bm));
  ma_header : zlen hdr = fm_header_size fm;
  ma_chunks : 0 <= fm_file_n_chunks fm <= 8 * zlen bm;
  ma_bytes : bytes_ok bm;
  ma_size : zlen hdr + zlen bm < 2 ^ 31 }.

Lemma meta_open σ fm hdr bm i :
  meta_at σ fm hdr bm -> 0 <= i < 2 ^ 64 ->
  Stream.open_existing (fm_metadata_file fm) σ =
    (Ok (Stream.opened (Path.resolve (fm_metadata_file fm))), σ) /\
  u64 (fm_header_size fm + i / 8) = zlen hdr + i / 8 /\
  Stream.seekg (Stream.opened (Path.resolve (fm_metadata_file fm))) (zlen hdr + i / 8) =
    mk_stream (Some (Path.resolve (fm_metadata_file fm))) (zlen hdr + i / 8) false false.
Proof.
  intros [Hk Hr Hh Hn Hb Hs] Hi. split; [|split].
  - by eapply open_existing_reg.
  - rewrite <- Hh. apply wrap_small. zdiv.
  - apply seekg_opened. zdiv.
Qed.

Abbreviation meta_key fm := (Path.resolve (fm_metadata_file fm)).

Lemma lookup_total_app_r_Z (a b : bytes) q :
  0 <= q -> (a ++ b) !!! Z.to_nat (zlen a + q) = b !!! Z.to_nat q.
Proof.
  intros. rewrite lookup_total_app_r by lia. f_equal. lia.
Qed.

(** Reading the byte of chunk [i]. *)
Lemma mark_read_spec σ fm hdr bm i :
  meta_at σ fm hdr bm -> 0 <= i < 8 * zlen bm ->
  mark_read fm i σ =
    (Ok (bm !!! Z.to_nat (i / 8),
         mk_stream (Some (meta_key fm)) (zlen hdr + i / 8 + 1) false false), σ).
Proof.
  intros Hm Hi. pose proof Hm as [Hk Hr Hh Hn Hb Hs].
  assert (0 <= i / 8 < zlen bm) as Hq by zdiv.
  destruct (meta_open _ _ _ _ i Hm) as (Ho & Hw & Hsk); [lia|].
  unfold mark_read. rewrite Hw. mstep Ho. rewrite Hsk.
  assert (zlen hdr + i / 8 + 1 <= zlen (hdr ++ bm)) by (rewrite length_app; lia).
  mstep (read_inside σ _ _ (zlen hdr + i / 8) 1 Hr ltac:(lia) ltac:(lia) ltac:(lia)).
  change (Z.to_nat 1) with 1%nat.
  destruct (lookup_lt_is_Some_2 (hdr ++ bm) (Z.to_nat (zlen hdr + i / 8))) as [b Hb']; [lia|].
  rewrite (drop_S _ _ _ Hb'). simpl.
  apply list_lookup_total_correct in Hb'. rewrite lookup_total_app_r_Z in Hb' by lia.
  by subst b.
Qed.

(** Writing it back: the position the stream was left at does not matter. *)
Lemma mark_write_spec σ fm hdr bm i b pos :
  meta_at σ fm hdr bm -> 0 <= i < 8 * zlen bm ->
  mark_write fm i b (mk_stream (Some (meta_key fm)) pos false false) σ =
    (Ok tt, <[meta_key fm := Reg (hdr ++ <[Z.to_nat (i / 8) := b]> bm)]> σ).
Proof.
  intros Hm Hi. pose proof Hm as [Hk Hr Hh Hn Hb Hs].
  assert (0 <= i / 8 < zlen bm) as Hq by zdiv.
  destruct (meta_open _ _ _ _ i Hm) as (_ & Hw & _); [lia|].
  unfold mark_write. rewrite Hw, seekp_good by lia.
  mstep (write_good σ _ _ (zlen hdr + i / 8) [b] Hr).
  unfold mret, M_ret. do 4 f_equal. unfold Stream.overwrite.
  rewrite splice_insert by (rewrite length_app; lia).
  rewrite insert_app_r_alt by lia. do 2 f_equal. lia.
Qed.

(** MarkChunk sets the bit of the given chunk to the given value and changes
    nothing else: not the header, no other bit, not the length of the bitmap. *)
Lemma markChunk_run (σ : fs) fm hdr bm i v :
  meta_at σ fm hdr bm -> 0 <= i < 8 * zlen bm ->
  exists bm',
    markChunk fm i v σ = (Ok tt, <[meta_key fm := Reg (hdr ++ bm')]> σ) /\
    length bm' = length bm /\ bytes_ok bm' /\
    forall j, 0 <= j -> chunk_bit bm' j = if decide (j = i) then v else chunk_bit bm j.
Proof.
  intros Hm Hi. assert (i / 8 < zlen bm) by zdiv. pose proof (ma_bytes _ _ _ _ Hm).
  exists (<[Z.to_nat (i / 8) := set_bit (bm !!! Z.to_nat (i / 8)) i v]> bm).
  split_and!.
  - unfold markChunk. mstep (mark_read_spec _ _ _ _ _ Hm Hi). by apply mark_write_spec.
  - apply length_insert.
  - apply Forall_insert; [done|apply set_bit_byte].
  - intros j Hj. apply chunk_bit_set; lia.
Qed.

(** A chunk beyond the bitmap is not marked: the file stays as it is. *)
Lemma markChunk_run_outside (σ : fs) fm hdr bm i v :
  meta_at σ fm hdr bm -> 8 * zlen bm <= i < 2 ^ 64 -> markChunk fm i v σ = (Ok tt, σ).
Proof.
  intros Hm Hi. pose proof Hm as [Hk Hr Hh Hn Hb Hs].
  assert (zlen bm <= i / 8) as Hq by zdiv.
  destruct (meta_open _ _ _ _ i Hm) as (Ho & Hw & Hsk); [lia|].
  unfold markChunk, mark_read, mark_write. rewrite Hw. mstep Ho. rewrite Hsk.
  assert (zlen (hdr ++ bm) <= zlen hdr + i / 8) by (rewrite length_app; lia).
  mstep (read_outside σ _ _ (zlen hdr + i / 8) 1 Hr ltac:(lia) ltac:(lia)). done.
Qed.

(** ** The first missing chunk *)

(** [r] is the answer for a search from [from]: the first chunk not marked in the bytes
    from the one of [from] on, or UINT64_MAX when there is none below [n]. *)
Definition first_missing (bm : bytes) (n from r : Z) : Prop :=
  (8 * (from / 8) <= r < n /\ chunk_bit bm r = false /\
     forall j, 8 * (from / 8) <= j < r -> chunk_bit bm j = true) \/
  (r = UINT64_MAX /\ forall j, 8 * (from / 8) <= j < n -> chunk_bit bm j = true).

Lemma full_byte_bits s : 0 <= s < 8 -> Z.testbit 0xFF s = true.
Proof. intros. change 0xFF with (Z.ones 8). apply Z.ones_spec_low. lia. Qed.

Lemma chunk_bit_byte bm q s :
  0 <= q -> 0 <= s < 8 -> chunk_bit bm (8 * q + s) = Z.testbit (bm !!! Z.to_nat q) (7 - s).
Proof.
  intros. unfold chunk_bit.
  assert ((8 * q + s) / 8 = q /\ (8 * q + s) mod 8 = s) as [-> ->] by zdiv. done.
Qed.

Lemma chunk_bits_full bm p q :
  0 <= p -> (forall i, p <= i < q -> bm !!! Z.to_nat i = 0xFF) ->
  forall j, 8 * p <= j < 8 * q -> chunk_bit bm j = true.
Proof.
  intros Hp H j Hj. unfold chunk_bit. rewrite H by zdiv.
  apply full_byte_bits. zdiv.
Qed.

(** The first zero of a byte that is not 0xFF. *)
Lemma count_set_byte b ret :
  is_byte b -> b <> 0xFF -> 0 <= ret -> ret + 8 < 2 ^ 64 ->
  exists m, 0 <= m < 8 /\ count_set 8 b ret = ret + m /\
    Z.testbit b (7 - m) = false /\ (forall t, 0 <= t < m -> Z.testbit b (7 - t) = true).
Proof.
  intros Hb Hne H0 Hlt.
  destruct (count_set_spec 8 b ret H0 Hlt ltac:(lia)) as (m & Hm & E & H1 & H2).
  assert (m <> 8) as Hm8.
  { intros ->. destruct Hne. apply byte_ext; [done|unfold is_byte; lia|].
    intros i Hi. rewrite full_byte_bits by lia.
    replace i with (Z.of_nat 8 - 1 - (7 - i)) by lia. apply H1. lia. }
  exists m. split_and!; [lia|lia|done|apply H2; lia|]. intros t Ht. by apply H1.
Qed.

Lemma next_of_byte pos hs q b :
  is_byte b -> b <> 0xFF -> 0 <= q -> 0 <= hs -> pos = hs + q + 1 -> pos < 2 ^ 31 ->
  exists m, 0 <= m < 8 /\
    count_set 8 b (u64 (u64 (u64 (swrap 32 pos) - hs - 1) * 8)) = 8 * q + m /\
    Z.testbit b (7 - m) = false /\ (forall t, 0 <= t < m -> Z.testbit b (7 - t) = true).
Proof.
  intros Hb Hne Hq Hhs -> Hlt.
  assert (swrap 32 (hs + q + 1) = hs + q + 1) as ->.
  { unfold swrap. rewrite Z.mod_small by lia. lia. }
  rewrite (wrap_small 64 (hs + q + 1)), (wrap_small 64 (_ - hs - 1)) by lia.
  replace ((hs + q + 1 - hs - 1) * 8) with (8 * q) by lia. rewrite wrap_small by lia.
  destruct (count_set_byte b (8 * q) Hb Hne) as (m & ? & ? & ? & ?); [lia..|eauto].
Qed.

(** The object without its number of chunks, which plays no role in reading the file. *)
Definition uncounted (fm : FileMetadata) : FileMetadata :=
  mk_file_metadata (fm_effective_path fm) (fm_file_size fm) (fm_file_chunk_size fm)
    (fm_file_hash fm) 0 (fm_header_size fm) (fm_bitmap_size fm) (fm_metadata_file fm).

(** NextMissingChunk changes nothing and returns the first unmarked chunk, searching
    from the start of the byte that holds [from_chunk_idx], or UINT64_MAX when every
    chunk of the file from there on is marked, also when the bitmap is too short for the
    number of chunks. *)
Lemma nextMissingChunk_bits (σ : fs) fm hdr bm from :
  meta_at σ (uncounted fm) hdr bm -> 0 <= from < 2 ^ 64 ->
  exists r, nextMissingChunk fm from σ = (Ok r, σ) /\
    first_missing bm (Z.min (fm_file_n_chunks fm) (8 * zlen bm)) from r.
Proof.
  intros Hm Hf. pose proof Hm as [Hk Hr Hh _ Hb Hs].
  destruct (meta_open _ _ _ _ from Hm Hf) as (Ho & Hw & Hsk).
  cbn [uncounted fm_metadata_file fm_header_size] in *.
  assert (0 <= from / 8) as Hq0 by zdiv.
  unfold nextMissingChunk. rewrite Hw. mstep Ho. rewrite Hsk.
  unfold file_length. rewrite ?M_bind_assoc.
  rewrite (M_bind_ok _ _ σ (length (hdr ++ bm)) σ)
    by (unfold gets; by rewrite (content_reg _ _ _ Hr)).
  destruct (skip_full_spec σ _ _ (length (hdr ++ bm) + 2) (zlen hdr + from / 8) Hr)
    as (t & Ht & Hall & Hres); [lia|lia|].
  assert (forall i, from / 8 <= i < from / 8 + t -> bm !!! Z.to_nat i = 0xFF) as Hfull.
  { intros i Hi. rewrite <- (lookup_total_app_r_Z hdr bm i) by lia.
    apply list_lookup_total_correct.
    replace (zlen hdr + i) with (zlen hdr + from / 8 + (i - from / 8)) by lia.
    apply Hall. lia. }
  destruct Hres as [(b & Hlk & Hne & Hrun)|(Hend & ms & Hrun)].
  - mstep Hrun. rewrite (proj2 (Z.eqb_neq b 0xFF) Hne). cbn [negb Stream.tellg st_fail st_pos].
    set (q := from / 8 + t).
    assert (bm !!! Z.to_nat q = b) as Hbq.
    { rewrite <- (lookup_total_app_r_Z hdr bm q) by lia. apply list_lookup_total_correct.
      rewrite <- Hlk. f_equal. lia. }
    assert (q < zlen bm) as Hqlt.
    { apply lookup_lt_Some in Hlk. rewrite length_app in Hlk. lia. }
    assert (is_byte b) by (rewrite <- Hbq; by apply lookup_total_byte).
    rewrite <- Hh.
    destruct (next_of_byte (zlen hdr + from / 8 + t + 1) (zlen hdr) q b)
      as (m & Hm8 & -> & Hzero & Hones); [done|done|lia|lia|lia|lia|].
    assert (chunk_bit bm (8 * q + m) = false).
    { rewrite chunk_bit_byte by lia. by rewrite Hbq. }
    assert (forall j, 8 * (from / 8) <= j < 8 * q + m -> chunk_bit bm j = true) as Hbefore.
    { intros j Hj. destruct (decide (j < 8 * q)).
      - apply (chunk_bits_full bm (from / 8) q Hq0 Hfull). lia.
      - replace j with (8 * q + (j - 8 * q)) by lia. rewrite chunk_bit_byte by lia.
        rewrite Hbq. apply Hones. lia. }
    eexists. split; [reflexivity|]. unfold first_missing.
    destruct (Z.ltb_spec (8 * q + m) (fm_file_n_chunks fm)) as [Hlt|Hge].
    + left. split_and!; [lia|lia|done|done].
    + right. split; [done|]. intros j Hj. apply Hbefore. lia.
  - mstep Hrun. eexists. split; [reflexivity|]. right. split; [done|].
    intros j Hj. apply (chunk_bits_full bm (from / 8) (from / 8 + t) Hq0 Hfull).
    rewrite length_app in Hend. lia.
Qed.

(** Bits past the last chunk do not matter. *)
Lemma nextMissingChunk_run (σ : fs) fm hdr bm from :
  meta_at σ fm hdr bm -> 0 <= from < 2 ^ 64 ->
  exists r, nextMissingChunk fm from σ = (Ok r, σ) /\
    first_missing bm (fm_file_n_chunks fm) from r.
Proof.
  intros [Hk Hr Hh Hn Hb Hs] Hf. rewrite <- (Z.min_l (fm_file_n_chunks fm) (8 * zlen bm)) by lia.
  apply (nextMissingChunk_bits _ _ hdr); [|done]. constructor; [done|done|done|cbn; lia|done|done].
Qed.

Lemma nextMissingChunk_returns (σ : fs) fm from :
  exists r, nextMissingChunk fm from σ = (Ok r, σ) /\
    (r < fm_file_n_chunks fm \/ r = UINT64_MAX).
Proof.
  assert (forall b ms, exists r,
    ((if negb (b =? 0xFF)
      then let ret := count_set 8 b
             (u64 (u64 (u64 (swrap 32 (Stream.tellg ms)) - fm_header_size fm - 1) * 8)) in
           mret (if ret <? fm_file_n_chunks fm then ret else UINT64_MAX)
      else mret UINT64_MAX) : M fs Z) σ = (Ok r, σ) /\
    (r < fm_file_n_chunks fm \/ r = UINT64_MAX)) as Hres.
  { intros b ms. destruct (b =? 0xFF); cbn [negb]; eexists; (split; [reflexivity|]);
      [by right|]. cbv zeta. destruct (_ <? fm_file_n_chunks fm) eqn:E; [|by right].
    left. by apply Z.ltb_lt. }
  unfold nextMissingChunk, Stream.open_existing, file_length, gets, mbind, M_bind.
  cbn beta iota.
  assert (forall fuel ms, st_fail ms = true ->
    skip_full fuel ms 0xFF σ = (Ok (0xFF, ms), σ)) as Hfail
    by (intros; by apply skip_full_failed).
  destruct (Fs.stat σ (meta_key fm)) as [[|c]|] eqn:E.
  1, 3: rewrite Hfail by done; apply (Hres 0xFF).
  apply reg_not_root in E as [_ E]. unfold Stream.seekg, Stream.seek_to.
  cbn [st_fail st_file st_pos st_eof Stream.opened].
  generalize (swrap 64 (u64 (fm_header_size fm + from / 8))) as pos. intros pos.
  destruct (Z.ltb_spec pos 0) as [Hneg|Hpos].
  - rewrite Hfail by done. apply (Hres 0xFF).
  - rewrite (content_reg _ _ _ E).
    destruct (skip_full_spec σ _ c (length c + 2) pos E Hpos)
      as (t & _ & _ & [(b & _ & _ & Hrun)|(_ & ms & Hrun)]); [lia| |];
      rewrite Hrun; apply Hres.
Qed.

(** NextMissingChunk always returns, whatever is on disk (no metadata file, a short
    one, one of any contents), with an index below the number of chunks or UINT64_MAX,
    and changes nothing. *)
Theorem nextMissingChunk_total (σ : fs) fm from :
  exists r, nextMissingChunk fm from σ = (Ok r, σ) /\
    (r < fm_file_n_chunks fm \/ r = UINT64_MAX).
Proof. apply nextMissingChunk_returns. Qed.

(** ** Creating the metadata file and reading its header *)

Definition header (size chunk_size : Z) (hash : bytes) : bytes :=
  mem64 size ++ mem64 chunk_size ++ hash.

Lemma length_mem64 v : length (mem64 v) = 8%nat.
Proof. pose proof (length_Z_to_little_endian 8 8 v). unfold mem64. lia. Qed.

Lemma mem64_bytes v : bytes_ok (mem64 v).
Proof. unfold mem64, is_byte. change 256 with (2 ^ 8). by apply Z_to_little_endian_bound. Qed.

Lemma of_mem64_mem64 v : 0 <= v < 2 ^ 64 -> of_mem64 (mem64 v) = v.
Proof.
  intros. unfold of_mem64, mem64. rewrite little_endian_to_Z_to_little_endian by lia.
  by apply Z.mod_small.
Qed.

#[global] Opaque mem64 of_mem64.
#[export] Hint Rewrite length_mem64 : ft_len.

Lemma length_header size chunk_size hash :
  zlen hash = HASH_SIZE -> zlen (header size chunk_size hash) = 80.
Proof. unfold HASH_SIZE, header. intros. autorewrite with ft_len. lia. Qed.

(** The path [p] of a file called [n] in the directory [d]. *)
Record placed (p d n : bytes) : Prop := mk_placed {
  pl_path : p = d ++ [Path.sep] ++ n;
  pl_dir : Path.has_filename d = true;
  pl_no_nul : 0 ∉ d;
  pl_name : Path.simple n }.

Definition data_key (d n : bytes) : list bytes := Path.resolve d ++ [n].
Definition meta_name (n : bytes) : bytes := str "." ++ n ++ str ".meta".

Section Placed.
Context (p d n : bytes) (Hp : placed p d n).

Lemma placed_parent : Path.parent_path p = d.
Proof. destruct Hp as [-> ? ? []]. by apply PathFacts.parent_path_app. Qed.

Lemma placed_filename : Path.filename p = n.
Proof. destruct Hp as [-> ? ? []]. by apply PathFacts.filename_app. Qed.

Lemma placed_dir_ne : d <> [].
Proof. destruct Hp as [_ H _ _]. by intros ->. Qed.

Lemma placed_metadata_path : metadata_path p = d ++ [Path.sep] ++ meta_name n.
Proof.
  unfold metadata_path. rewrite placed_parent, placed_filename. destruct Hp.
  apply PathFacts.append_simple; [done|]. by apply PathFacts.simple_meta.
Qed.

Lemma placed_key : Path.resolve p = data_key d n.
Proof. destruct Hp as [-> ? ? ?]. by apply PathFacts.resolve_simple. Qed.

Lemma placed_meta_key : Path.resolve (metadata_path p) = data_key d (meta_name n).
Proof.
  rewrite placed_metadata_path. destruct Hp. apply PathFacts.resolve_simple; [done|].
  by apply PathFacts.simple_meta.
Qed.

Lemma placed_keys_ne : data_key d n <> data_key d (meta_name n).
Proof.
  intros H. apply DirFacts.child_inj in H. by apply (PathFacts.meta_ne n).
Qed.
End Placed.

(** Number of chunks and of bitmap bytes. *)
Lemma new_FileMetadata_spec p size chunk_size hash :
  0 <= size -> 0 < chunk_size ->
  exists fm, new_FileMetadata p size chunk_size hash = Ok fm /\
    fm_effective_path fm = p /\ fm_file_size fm = size /\
    fm_file_chunk_size fm = chunk_size /\ fm_file_hash fm = hash /\
    fm_header_size fm = 80 /\ fm_metadata_file fm = metadata_path p /\
    size <= fm_file_n_chunks fm * chunk_size < size + chunk_size /\
    fm_file_n_chunks fm <= 8 * fm_bitmap_size fm < fm_file_n_chunks fm + 8.
Proof.
  intros Hs Hc. unfold new_FileMetadata. rewrite (proj2 (Z.eqb_neq chunk_size 0)) by lia.
  eexists. split; [reflexivity|]. cbn. split_and!; try done.
  - destruct (Z.ltb_spec 0 (size mod chunk_size)); Z.div_mod_to_equations; nia.
  - destruct (Z.ltb_spec 0 (size mod chunk_size)); Z.div_mod_to_equations; nia.
  - set (k := size / chunk_size + _). destruct (Z.ltb_spec 0 (k mod 8)); zdiv.
  - set (k := size / chunk_size + _). destruct (Z.ltb_spec 0 (k mod 8)); zdiv.
Qed.

Lemma write_bitmap_spec m σ k c pos :
  σ !! k = Some (Reg c) -> pos = zlen c ->
  write_bitmap m (mk_stream (Some k) pos false false) σ =
  (Ok (mk_stream (Some k) (pos + Z.of_nat m) false false), <[k := Reg (c ++ zeros m)]> σ).
Proof.
  revert σ c pos. induction m as [|m IH]; intros σ c pos Hc Hpos.
  - simpl. rewrite Z.add_0_r, app_nil_r. unfold mret, M_ret. by rewrite insert_id.
  - cbn [write_bitmap]. mstep (write_end σ k c pos [0] Hc Hpos).
    rewrite (IH _ (c ++ [0]));
      [|by rewrite lookup_insert_eq|rewrite length_app; simpl; lia].
    rewrite insert_insert_eq, <- app_assoc. simpl. do 2 f_equal. f_equal. lia.
Qed.

(** CreateIfNotExist, when there is no metadata file yet, makes the directories and
    a file of exactly the documented layout: the sizes, the hash and a zero bit for
    every chunk; nothing else changes. *)
Lemma createIfNotExist_run (σ : fs) fm d n :
  placed (fm_effective_path fm) d n ->
  fm_metadata_file fm = metadata_path (fm_effective_path fm) ->
  zlen (fm_file_hash fm) = HASH_SIZE ->
  DirFacts.dirs_free σ (Path.resolve d) ->
  σ !! data_key d (meta_name n) = None ->
  exists σ1, createIfNotExist fm σ =
      (Ok tt, <[data_key d (meta_name n) :=
         Reg (header (fm_file_size fm) (fm_file_chunk_size fm) (fm_file_hash fm) ++
              zeros (Z.to_nat (fm_bitmap_size fm)))]> σ1) /\
    DirFacts.with_dirs σ σ1 (Path.resolve d).
Proof.
  intros Hp Hmeta Hh Hfree Hnone. unfold createIfNotExist.
  rewrite (placed_parent _ _ _ Hp).
  destruct (DirFacts.create_directories_spec σ d (placed_dir_ne _ _ _ Hp) Hfree)
    as (σ1 & Hcd & Hw).
  exists σ1. split; [|done]. mstep Hcd.
  pose proof (placed_meta_key _ _ _ Hp) as Hk. rewrite <- Hmeta in Hk.
  assert (σ1 !! data_key d (meta_name n) = None) as Hnone1.
  { unfold data_key. by rewrite (DirFacts.with_dirs_child _ _ _ _ Hw). }
  pose proof (exists_stat σ1 _ _ Hk (DirFacts.child_ne _ _)) as Hex.
  rewrite Hnone1 in Hex. mstep Hex.
  mstep (open_trunc_new σ1 _ _ Hk (DirFacts.child_ne _ _)
    ltac:(unfold data_key; rewrite DirFacts.child_parent;
          apply DirFacts.dirs_exist_stat, Hw) Hnone1).
  unfold Stream.opened. set (k := data_key d (meta_name n)).
  mstep (write_append σ1 k [] 0 (mem64 (fm_file_size fm)) eq_refl).
  set (c1 := [] ++ mem64 (fm_file_size fm)).
  assert (zlen c1 = 8) as H1 by (unfold c1; autorewrite with ft_len; done).
  mstep (write_append σ1 k c1 (0 + zlen (mem64 (fm_file_size fm)))
    (mem64 (fm_file_chunk_size fm)) ltac:(rewrite length_mem64; lia)).
  set (c2 := c1 ++ mem64 (fm_file_chunk_size fm)).
  assert (copy_n (fm_file_hash fm) HASH_SIZE = Ok (fm_file_hash fm, [])) as Hcopy.
  { rewrite <- (app_nil_r (fm_file_hash fm)) at 1. by apply copy_n_app. }
  rewrite Hcopy. mstep (@eq_refl _ (lift (Ok (fm_file_hash fm, @nil Z)) (<[k := Reg c2]> σ1))).
  rewrite !length_mem64.
  mstep (write_append σ1 k c2 (0 + Z.of_nat 8 + Z.of_nat 8) (fm_file_hash fm)
    ltac:(unfold c2; autorewrite with ft_len; lia)).
  set (c3 := c2 ++ fm_file_hash fm).
  mstep (write_bitmap_spec (Z.to_nat (fm_bitmap_size fm)) (<[k := Reg c3]> σ1) k c3
    (0 + Z.of_nat 8 + Z.of_nat 8 + zlen (fm_file_hash fm)) (lookup_insert_eq _ _ _)
    ltac:(unfold c3, c2; autorewrite with ft_len; lia)).
  unfold mret, M_ret. rewrite insert_insert_eq. unfold c3, c2, c1, header.
  by rewrite !app_assoc.
Qed.

(** An existing metadata file is kept as it is, even one made for other contents. *)
Lemma createIfNotExist_old (σ : fs) fm d n (x : node) :
  placed (fm_effective_path fm) d n ->
  fm_metadata_file fm = metadata_path (fm_effective_path fm) ->
  DirFacts.dirs_free σ (Path.resolve d) ->
  σ !! data_key d (meta_name n) = Some x ->
  exists σ1, createIfNotExist fm σ = (Ok tt, σ1) /\ DirFacts.with_dirs σ σ1 (Path.resolve d).
Proof.
  intros Hp Hmeta Hfree Hx. unfold createIfNotExist. rewrite (placed_parent _ _ _ Hp).
  destruct (DirFacts.create_directories_spec σ d (placed_dir_ne _ _ _ Hp) Hfree)
    as (σ1 & Hcd & Hw).
  exists σ1. split; [|done]. mstep Hcd.
  pose proof (placed_meta_key _ _ _ Hp) as Hk. rewrite <- Hmeta in Hk.
  pose proof (exists_stat σ1 _ _ Hk (DirFacts.child_ne _ _)) as Hex.
  unfold data_key in Hx, Hex. rewrite (DirFacts.with_dirs_child _ _ _ _ Hw), Hx in Hex.
  by mstep Hex.
Qed.

(** ReadHeader returns the sizes and the hash the metadata file was created with,
    whatever its bitmap holds now. *)
Lemma readHeader_run (σ : fs) p d n size chunk_size hash bm h0 :
  placed p d n -> 0 <= size < 2 ^ 64 -> 0 <= chunk_size < 2 ^ 64 ->
  zlen hash = HASH_SIZE ->
  σ !! data_key d (meta_name n) = Some (Reg (header size chunk_size hash ++ bm)) ->
  readHeader p h0 σ = (Ok (size, chunk_size, hash), σ).
Proof.
  intros Hp Hs Hc Hh Hr. unfold readHeader.
  pose proof (placed_meta_key _ _ _ Hp) as Hk.
  pose proof (exists_stat σ _ _ Hk (DirFacts.child_ne _ _)) as Hex. 
  change (Path.resolve d ++ [meta_name n]) with (data_key d (meta_name n)) in Hex.
  rewrite Hr in Hex. mstep Hex.
  mstep (open_existing_reg σ _ _ _ Hk (DirFacts.child_ne _ _) Hr).
  set (k := data_key d (meta_name n)). unfold Stream.opened.
  set (l := header size chunk_size hash ++ bm).
  assert (zlen l = 80 + zlen bm) as Hl.
  { unfold l. rewrite length_app, Nat2Z.inj_add, length_header by done. done. }
  unfold SIZEOF_SIZE_T, HASH_SIZE.
  mstep (read_inside σ k l 0 8 Hr ltac:(lia) ltac:(lia) ltac:(lia)).
  mstep (read_inside σ k l (0 + 8) 8 Hr ltac:(lia) ltac:(lia) ltac:(lia)).
  mstep (read_inside σ k l (0 + 8 + 8) 64 Hr ltac:(lia) ltac:(lia) ltac:(lia)).
  assert (length hash = 64%nat) as Hlen by (unfold HASH_SIZE in Hh; lia).
  assert (forall v, take 8 (mem64 v) = mem64 v) as Ht
    by (intros v; by rewrite take_ge by (rewrite length_mem64; lia)).
  assert (forall v, drop 8 (mem64 v) = []) as Hd
    by (intros v; by rewrite drop_ge by (rewrite length_mem64; lia)).
  assert (take 8 l = mem64 size) as H1.
  { unfold l, header. rewrite <- !app_assoc. apply take_app_length'. by rewrite length_mem64. }
  assert (take 8 (drop 8 l) = mem64 chunk_size) as H2.
  { unfold l, header. rewrite <- !app_assoc. rewrite drop_app_length' by
      (by rewrite length_mem64). apply take_app_length'. by rewrite length_mem64. }
  assert (take 64 (drop 16 l) = hash) as H3.
  { unfold l, header. rewrite (app_assoc (mem64 size)), <- (app_assoc _ hash).
    rewrite drop_app_length' by (autorewrite with ft_len; done).
    by apply take_app_length'. }
  change (Z.to_nat 0) with 0%nat. change (Z.to_nat 8) with 8%nat.
  change (Z.to_nat (0 + 8)) with 8%nat. change (Z.to_nat (0 + 8 + 8)) with 16%nat.
  change (Z.to_nat 64) with 64%nat. rewrite drop_0, H1, H2, H3.
  unfold mret, M_ret, Stream.fill, resize. rewrite !length_mem64, !Hd, !app_nil_r.
  rewrite !of_mem64_mem64 by done. do 4 f_equal.
  rewrite drop_ge; [by rewrite app_nil_r|]. autorewrite with ft_len. lia.
Qed.

(** Two interleaved updates of the bitmap lose one: when both workers read the byte
    before either writes it back, the mark of the first is overwritten. Run one after
    the other, [markChunk_run] keeps both. *)
Theorem markChunk_race (σ : fs) fm hdr bm i j :
  meta_at σ fm hdr bm -> 0 <= i < 8 * zlen bm -> 0 <= j < 8 * zlen bm ->
  i / 8 = j / 8 -> i <> j -> chunk_bit bm i = false ->
  exists bm',
    ('(b1, ms1) ← mark_read fm i;
     '(b2, ms2) ← mark_read fm j;
     mark_write fm i (set_bit b1 i true) ms1;;
     mark_write fm j (set_bit b2 j true) ms2) σ =
      (Ok tt, <[meta_key fm := Reg (hdr ++ bm')]> σ) /\ chunk_bit bm' i = false /\ chunk_bit bm' j = true.
Proof.
  intros Hm Hi Hj Hij Hne Hbit.
  assert (0 <= i / 8 < zlen bm) as Hq by zdiv.
  set (b := bm !!! Z.to_nat (i / 8)).
  exists (<[Z.to_nat (i / 8) := set_bit b j true]> bm).
  pose proof Hm as [Hk Hr Hh Hn Hb Hs].
  set (bm1 := <[Z.to_nat (i / 8) := set_bit b i true]> bm).
  assert (meta_at (<[meta_key fm := Reg (hdr ++ bm1)]> σ) fm hdr bm1) as Hm1.
  { constructor; try done.
    - by rewrite lookup_insert_eq.
    - unfold bm1. by rewrite length_insert.
    - apply Forall_insert; [done|apply set_bit_byte].
    - unfold bm1. by rewrite length_insert. }
  assert (zlen bm1 = zlen bm) as Hl1 by (unfold bm1; by rewrite length_insert).
  split_and!.
  - mstep (mark_read_spec _ _ _ _ _ Hm Hi). mstep (mark_read_spec _ _ _ _ _ Hm Hj).
    mstep (mark_write_spec _ _ _ _ i (set_bit b i true)
      (zlen hdr + i / 8 + 1) Hm Hi). fold bm1.
    rewrite <- Hij. rewrite (mark_write_spec _ _ _ _ j _ _ Hm1) by lia.
    rewrite insert_insert_eq, <- Hij. unfold bm1. by rewrite list_insert_insert_eq.
  - unfold b. rewrite Hij at 1 2. rewrite chunk_bit_set by lia.
    by rewrite decide_False by done.
  - unfold b. rewrite Hij. rewrite chunk_bit_set by lia. by rewrite decide_True by done.
Qed.

(** ** Properties *)

(** MarkChunk sets the bit of the given chunk to the given value and changes
    nothing else (not the header, no other bit, not the length of the bitmap, no other
    file); a chunk beyond the bitmap changes nothing at all. *)
Theorem markChunk_spec (σ : fs) fm hdr bm i v :
  meta_at σ fm hdr bm -> 0 <= i < 2 ^ 64 ->
  exists bm',
    markChunk fm i v σ = (Ok tt, <[meta_key fm := Reg (hdr ++ bm')]> σ) /\
    length bm' = length bm /\ bytes_ok bm' /\
    forall j, 0 <= j < 8 * zlen bm ->
      chunk_bit bm' j = if decide (j = i) then v else chunk_bit bm j.
Proof.
  intros Hm Hi. destruct (decide (i < 8 * zlen bm)) as [Hlt|Hge].
  - destruct (markChunk_run σ fm hdr bm i v Hm) as (bm' & H1 & H2 & H3 & H4); [lia|].
    exists bm'. split_and!; try done. intros j Hj. apply H4. lia.
  - exists bm. rewrite (markChunk_run_outside σ fm hdr bm i v Hm) by lia.
    rewrite insert_id by apply (ma_reg _ _ _ _ Hm).
    split_and!; [done|done|apply (ma_bytes _ _ _ _ Hm)|].
    intros j Hj. by rewrite decide_False by lia.
Qed.

(** NextMissingChunk returns the first unmarked chunk, searching from the start of
    the byte that holds [from_chunk_idx], or UINT64_MAX when every chunk of the file from
    there on is marked; bits past the last chunk do not matter and nothing is changed. *)
Theorem nextMissingChunk_spec (σ : fs) fm hdr bm from :
  meta_at σ fm hdr bm -> 0 <= from < 2 ^ 64 ->
  exists r, nextMissingChunk fm from σ = (Ok r, σ) /\
    first_missing bm (fm_file_n_chunks fm) from r.
Proof. apply nextMissingChunk_run. Qed.

(** A metadata file just created reads back: readHeader returns the sizes and the
    hash it was created with, and the search for a missing chunk finds chunk 0 (or
    nothing, for a file without chunks). *)
Theorem metadata_roundtrip (σ : fs) p d n size chunk_size hash fm h0 :
  placed p d n -> 0 <= size < 2 ^ 32 -> 0 < chunk_size < 2 ^ 64 -> zlen hash = HASH_SIZE ->
  new_FileMetadata p size chunk_size hash = Ok fm ->
  DirFacts.dirs_free σ (Path.resolve d) -> σ !! data_key d (meta_name n) = None ->
  exists σ', createIfNotExist fm σ = (Ok tt, σ') /\
    readHeader p h0 σ' = (Ok (size, chunk_size, hash), σ') /\
    nextMissingChunk fm 0 σ' = (Ok (if 0 <? size then 0 else UINT64_MAX), σ').
Proof.
  intros Hp Hs Hc Hh Hfm Hfree Hnone.
  destruct (new_FileMetadata_spec p size chunk_size hash) as
    (fm' & E & Hpath & Hsz & Hcs & Hha & Hhs & Hmf & Hn & Hb); [lia|lia|].
  rewrite Hfm in E. injection E as <-.
  destruct (createIfNotExist_run σ fm d n) as (σ1 & Hrun & _);
    [by rewrite Hpath|by rewrite Hpath|by rewrite Hha|done|done|].
  rewrite Hsz, Hcs, Hha in Hrun. set (bm := zeros (Z.to_nat (fm_bitmap_size fm))) in *.
  eexists. split; [exact Hrun|].
  assert (0 <= fm_file_n_chunks fm /\ fm_file_n_chunks fm < 2 ^ 32 + 1) as [Hn0 Hn1] by nia.
  assert (zlen bm = fm_bitmap_size fm) as Hbm
    by (unfold bm; rewrite length_replicate; lia).
  assert (Path.resolve (fm_metadata_file fm) = data_key d (meta_name n)) as Hk
    by (rewrite Hmf; by apply placed_meta_key).
  split.
  - apply (readHeader_run _ p d n _ _ _ bm); try done; [lia|lia|].
    by rewrite lookup_insert_eq.
  - destruct (nextMissingChunk_run
      (<[data_key d (meta_name n) := Reg (header size chunk_size hash ++ bm)]> σ1)
      fm (header size chunk_size hash) bm 0) as (r & -> & Hr); [|lia|].
    + constructor; rewrite ?Hk, ?length_header; try done; [|by rewrite lookup_insert_eq
        |lia|apply zeros_bytes_ok|lia].
      apply DirFacts.child_ne.
    + do 2 f_equal. change (8 * (0 / 8)) with 0 in Hr.
      assert (0 < fm_file_n_chunks fm -> chunk_bit bm 0 = false) as H0.
      { intros Hpos. unfold chunk_bit. change (0 / 8) with 0.
        unfold bm. rewrite lookup_total_replicate_2 by lia. apply Z.testbit_0_l. }
      unfold first_missing in Hr. change (8 * (0 / 8)) with 0 in Hr.
      destruct (Z.ltb_spec 0 size).
      * assert (0 < fm_file_n_chunks fm) as Hpos by nia. specialize (H0 Hpos).
        destruct Hr as [(Hr & _ & Hall)|(_ & Hall)].
        -- destruct (decide (r = 0)) as [|Hne]; [done|].
           rewrite Hall in H0 by lia. done.
        -- rewrite Hall in H0 by lia. done.
      * destruct Hr as [(Hr & _ & Hall)|(-> & _)]; [|done].
        assert (fm_file_n_chunks fm = 0) by nia. lia.
Qed.

(** ** Witnesses *)

Definition sample_dir : bytes := str "/in/client".
Definition sample_name : bytes := str "file.txt".
Definition sample_path : bytes := str "/in/client/file.txt".
Definition sample_hash : bytes := replicate 64 7.

Lemma sample_placed : placed sample_path sample_dir sample_name.
Proof. constructor; [reflexivity|reflexivity|decide_closed|decide_closed]. Qed.

(** Eleven chunks; all but the chunk 9 are marked. *)
Definition sample_meta : FileMetadata :=
  mk_file_metadata sample_path 40000 3968 sample_hash 11 80 2 (metadata_path sample_path).

Definition sample_meta_fs : fs :=
  {[ Path.resolve (metadata_path sample_path) :=
       Reg (header 40000 3968 sample_hash ++ [255; 160]) ]}.

Lemma sample_meta_at :
  meta_at sample_meta_fs sample_meta (header 40000 3968 sample_hash) [255; 160].
Proof. constructor; try decide_closed. apply lookup_singleton_eq. Qed.

Lemma markChunk_spec_witness :
  exists bm', markChunk sample_meta 9 true sample_meta_fs =
      (Ok tt, <[meta_key sample_meta := Reg (header 40000 3968 sample_hash ++ bm')]>
                sample_meta_fs) /\
    length bm' = 2%nat /\ chunk_bit bm' 9 = true /\ chunk_bit bm' 11 = false.
Proof.
  destruct (markChunk_spec sample_meta_fs sample_meta _ [255; 160] 9 true sample_meta_at
    ltac:(decide_closed)) as (bm' & H1 & H2 & _ & H3).
  exists bm'. split_and!; [exact H1|exact H2|by rewrite H3 by decide_closed|by rewrite H3 by decide_closed].
Defined.

Lemma nextMissingChunk_spec_witness :
  exists r, nextMissingChunk sample_meta 0 sample_meta_fs = (Ok r, sample_meta_fs) /\
    first_missing [255; 160] 11 0 r.
Proof.
  apply (nextMissingChunk_spec sample_meta_fs sample_meta _ [255; 160] 0 sample_meta_at).
  decide_closed.
Defined.

Lemma metadata_roundtrip_witness :
  exists σ', createIfNotExist sample_meta ∅ = (Ok tt, σ') /\
    readHeader sample_path [] σ' = (Ok (40000, 3968, sample_hash), σ') /\
    nextMissingChunk sample_meta 0 σ' = (Ok 0, σ').
Proof.
  apply (metadata_roundtrip ∅ sample_path sample_dir sample_name 40000 3968 sample_hash
    sample_meta [] sample_placed);
    [decide_closed|decide_closed|reflexivity|reflexivity| |reflexivity].
  intros q c _. by rewrite lookup_empty.
Defined.

Lemma markChunk_race_witness :
  exists bm',
    ('(b1, ms1) ← mark_read sample_meta 9;
     '(b2, ms2) ← mark_read sample_meta 11;
     mark_write sample_meta 9 (set_bit b1 9 true) ms1;;
     mark_write sample_meta 11 (set_bit b2 11 true) ms2) sample_meta_fs =
      (Ok tt, <[meta_key sample_meta :=
         Reg (header 40000 3968 sample_hash ++ bm')]> sample_meta_fs) /\
    chunk_bit bm' 9 = false /\ chunk_bit bm' 11 = true.
Proof.
  apply (markChunk_race sample_meta_fs sample_meta _ [255; 160] 9 11 sample_meta_at);
    decide_closed.
Defined.
