(* ===== verification/Identity.v ===== *)
(** * The client's identity (src/ft_utils.cpp)

    getClientUUID, which keeps the client's UUID in a file so that a restarted client is
    the same client to the server. The text form of a UUID and its random generator are
    Boost's: the class [UuidText], and an argument. *)
From S2P Require Import Prelude StdFs Msg FileMeta.
Import FsFacts DirFacts.

(** boost::uuids::to_string, one component of a path, and operator>>, which leaves its
    argument alone when the text is not a UUID ([None]). *)
Class UuidText := {
  to_string : bytes -> bytes;
  read_uuid : bytes -> option bytes }.

Class UuidTextLaws `{UuidText} : Prop := {
  to_string_simple u : length u = UUID_SIZE -> Path.simple (to_string u);
  read_to_string u : length u = UUID_SIZE -> bytes_ok u -> read_uuid (to_string u) = Some u }.

Definition CLIENT_UUID_FILE : bytes := str "/.ft_client/.uuid".

Section Identity.
Context `{UuidText}.

(** [ss << is.rdbuf()] *)
Definition read_all (is_ : stream) : M fs bytes :=
  gets (fun σ => match st_file is_ with Some k => Stream.content σ k | None => [] end).

(** [garbage] is what the memory of the uninitialised [ret] holds, [random] what the
    generator returns. *)
Definition getClientUUID (garbage random uuid_file : bytes) : M fs bytes :=
  there ← Fs.exists_ uuid_file;
  regular ← Fs.is_regular_file uuid_file;
  if there && negb regular then throw (runtime_error "UIID file is not a regular file: ")
  else
    there ← Fs.exists_ uuid_file;
    if there : bool then
      is_ ← Stream.open_existing uuid_file;
      ss ← read_all is_;
      mret (default garbage (read_uuid ss))
    else
      Fs.create_directories (Path.parent_path uuid_file);;
      os ← Stream.open_trunc uuid_file;
      Stream.write os (to_string random);;
      mret random.

Lemma getClientUUID_dir (garbage random p : bytes) (σ : fs) :
  Fs.stat σ (Path.resolve p) = Some Dir ->
  getClientUUID garbage random p σ =
    (Throw (runtime_error "UIID file is not a regular file: "), σ).
Proof.
  intros E. unfold getClientUUID, Fs.exists_, Fs.is_regular_file, gets, mbind, M_bind.
  by rewrite !E.
Qed.

Lemma getClientUUID_reg (garbage random p : bytes) (σ : fs) text :
  Fs.stat σ (Path.resolve p) = Some (Reg text) ->
  getClientUUID garbage random p σ = (Ok (default garbage (read_uuid text)), σ).
Proof.
  intros E. destruct (reg_not_root _ _ _ E) as [Hk Hc].
  pose proof (open_existing_reg σ p _ text eq_refl Hk Hc) as Ho.
  unfold getClientUUID, read_all, Fs.exists_, Fs.is_regular_file, gets, mbind, M_bind.
  rewrite !E. cbn [andb negb]. rewrite E, Ho. cbn [st_file Stream.opened].
  by rewrite (content_reg _ _ _ Hc).
Qed.

Lemma getClientUUID_new (garbage random p d n : bytes) (σ : fs) :
  placed p d n -> dirs_free σ (Path.resolve d) -> σ !! data_key d n = None ->
  exists σ' σ1, getClientUUID garbage random p σ = (Ok random, σ') /\
    with_dirs σ σ1 (Path.resolve d) /\ σ' = <[data_key d n := Reg (to_string random)]> σ1.
Proof.
  intros Hp Hfree Hn. pose proof (placed_key _ _ _ Hp) as Hk.
  pose proof (child_ne (Path.resolve d) n) as Hne. fold (data_key d n) in Hne.
  assert (Fs.stat σ (Path.resolve p) = None) as E by by rewrite Hk, stat_ne.
  assert (getClientUUID garbage random p σ = (Fs.create_directories (Path.parent_path p);;
    os ← Stream.open_trunc p; Stream.write os (to_string random);; mret random) σ) as ->.
  { unfold getClientUUID, Fs.exists_, Fs.is_regular_file, gets. unfold mbind, M_bind at 1 2 3.
    rewrite !E. cbn [andb negb]. by rewrite E. }
  rewrite (placed_parent _ _ _ Hp).
  destruct (create_directories_spec σ d (placed_dir_ne _ _ _ Hp) Hfree) as (σ1 & Hcd & Hw).
  mstep Hcd. pose proof (with_dirs_child _ _ _ n Hw) as Hn1. fold (data_key d n) in Hn1.
  mstep (open_trunc_new σ1 p _ Hk Hne ltac:(unfold data_key; rewrite child_parent;
    by apply dirs_exist_stat, Hw) ltac:(by rewrite Hn1)).
  unfold Stream.opened.
  mstep (write_good (<[data_key d n := Reg []]> σ1) _ [] 0 (to_string random)
    (lookup_insert_eq _ _ _)).
  eexists _, σ1. split; [reflexivity|]. split; [done|].
  rewrite insert_insert_eq. f_equal. f_equal. unfold Stream.overwrite.
  destruct (to_string random); [done|]. unfold splice. cbn [Z.to_nat take length].
  by rewrite drop_nil, app_nil_r.
Qed.
End Identity.

Section Properties.
Context `{UuidTextLaws}.

(** C28: the client keeps its identity: where there is no UUID file the random id is
    returned and written to it, and from then on every start returns this id, whatever
    the generator would give. A directory in its place is refused; a file that holds no
    UUID is not: the id is then whatever the uninitialised variable holds. *)
Theorem client_identity (garbage random p d n : bytes) (σ : fs) :
  placed p d n -> length random = UUID_SIZE -> bytes_ok random ->
  match Fs.stat σ (Path.resolve p) with
  | Some Dir => getClientUUID garbage random p σ =
      (Throw (runtime_error "UIID file is not a regular file: "), σ)
  | Some (Reg text) => exists uuid, getClientUUID garbage random p σ = (Ok uuid, σ) /\
      (read_uuid text = Some uuid \/ read_uuid text = None /\ uuid = garbage)
  | None => dirs_free σ (Path.resolve d) ->
      exists σ', getClientUUID garbage random p σ = (Ok random, σ') /\
        (forall q, q <> data_key d n -> ~ made [] (Path.resolve d) q -> σ' !! q = σ !! q) /\
        forall garbage' random', getClientUUID garbage' random' p σ' = (Ok random, σ')
  end.
Proof.
  intros Hp Hlen Hok. destruct (Fs.stat σ (Path.resolve p)) as [[|text]|] eqn:E.
  - by apply getClientUUID_dir.
  - rewrite (getClientUUID_reg _ _ _ _ _ E). eexists. split; [done|].
    destruct (read_uuid text) as [u|]; [by left|by right].
  - intros Hfree. pose proof (placed_key _ _ _ Hp) as Hk.
    pose proof (child_ne (Path.resolve d) n) as Hne. fold (data_key d n) in Hne.
    rewrite Hk, stat_ne in E by done.
    destruct (getClientUUID_new garbage random p d n σ Hp Hfree E)
      as (σ' & σ1 & Hrun & [Hd Hoth] & ->).
    eexists. split; [exact Hrun|]. split.
    { intros q Hq Hm. rewrite lookup_insert_ne by done. by apply Hoth. }
    intros garbage' random'. erewrite getClientUUID_reg.
    2: { rewrite Hk, stat_ne by done. apply lookup_insert_eq. }
    by rewrite read_to_string.
Qed.
End Properties.

(** ** An instance: two letters for each byte *)
Module ToyUuid.
Fixpoint letters (u : bytes) : bytes :=
  match u with [] => [] | b :: u' => 97 + (b / 16) mod 16 :: 97 + b mod 16 :: letters u' end.
Fixpoint unletters (t : bytes) : bytes :=
  match t with a :: b :: t' => (a - 97) * 16 + (b - 97) :: unletters t' | _ => [] end.

#[export] Instance toy_uuid : UuidText := {|
  to_string := letters;
  read_uuid t := if decide (length t = 32%nat) then Some (unletters t) else None |}.

Lemma letters_ge u x : x ∈ letters u -> 97 <= x.
Proof.
  induction u as [|b u IH]; simpl; [by intros ?%not_elem_of_nil|].
  rewrite !list.elem_of_cons. intros [-> | [-> | Hx]]; [zdiv|zdiv|by apply IH].
Qed.

Lemma length_letters u : length (letters u) = (2 * length u)%nat.
Proof. induction u as [|b u IH]; simpl; lia. Qed.

Lemma unletters_letters u : bytes_ok u -> unletters (letters u) = u.
Proof.
  induction u as [|b u IH]; [done|]. intros [Hb Hu]%Forall_cons_iff. simpl.
  rewrite IH by done. f_equal. unfold is_byte in Hb. zdiv.
Qed.

#[export] Instance toy_uuid_laws : UuidTextLaws.
Proof.
  constructor.
  - intros u Hu. assert (forall c, c < 97 -> c ∉ letters u) as Hno.
    { intros c Hc Hin. apply letters_ge in Hin. lia. }
    assert (46 ∉ letters u) as Hdot by (apply Hno; lia).
    constructor; simpl.
    + intros E. apply (f_equal length) in E. rewrite length_letters, Hu in E. done.
    + intros E. apply Hdot. rewrite E. left.
    + intros E. apply Hdot. rewrite E. left.
    + by apply Hno.
    + by apply Hno.
  - intros u Hu Hok. simpl. rewrite decide_True by (rewrite length_letters, Hu; done).
    by rewrite unletters_letters.
Qed.
End ToyUuid.

Section Witnesses.
Import ToyUuid.

Definition sample_id : bytes := replicate 16 5.

Lemma client_identity_witness :
  exists σ', getClientUUID [] sample_id CLIENT_UUID_FILE ∅ = (Ok sample_id, σ') /\
    forall garbage' random',
      getClientUUID garbage' random' CLIENT_UUID_FILE σ' = (Ok sample_id, σ').
Proof.
  destruct (client_identity [] sample_id CLIENT_UUID_FILE (str "/.ft_client") (str ".uuid") ∅)
    as (σ' & P1 & _ & P2).
  - constructor; [reflexivity|reflexivity|decide_closed|decide_closed].
  - reflexivity.
  - decide_closed.
  - intros q c _. by rewrite lookup_empty.
  - exists σ'. split; [exact P1|exact P2].
Defined.
End Witnesses.
