(* ===== verification/File.v ===== *)
(** * Files being transferred (src/file/ft_file.hpp, ft_file.cpp)

    The abstract class File with its two implementations, FileLocal (the client's file,
    read chunk by chunk) and FileRemote (the server's file, written chunk by chunk), the
    chunk object, and the hash helpers. BLAKE2b (Crypto++) is an interface. *)
From S2P Require Import Prelude StdFs Msg FileMeta.
Import FsFacts.

(** ** CryptoPP::BLAKE2b, built for a 64-byte digest *)
Class Blake2b := {
  blake_state : Type;
  blake_init : blake_state;
  blake_BlockSize : Z;
  blake_Update : blake_state -> bytes -> blake_state;
  blake_TruncatedFinal : blake_state -> bytes }.

(** What the code relies on: feeding the input in pieces or at once is the same, and
    the digest has the size asked for. *)
Class Blake2bLaws `{Blake2b} : Prop := {
  blake_Update_app s a b :
    blake_Update (blake_Update s a) b = blake_Update s (a ++ b);
  blake_digest_size s : zlen (blake_TruncatedFinal s) = HASH_SIZE;
  blake_digest_bytes s : bytes_ok (blake_TruncatedFinal s);
  blake_BlockSize_pos : 0 < blake_BlockSize }.

Definition CHUNK_SIZE : Z := MAX_MSG_PAYLOAD_SIZE.

(** ** The classes *)
Inductive file_kind : Type :=
| FileLocal
| FileRemote (file_metadata : FileMetadata).

Record File := mk_file {
  f_path : bytes;
  f_hash : bytes;
  f_size : Z;
  f_effective_path : bytes;
  f_kind : file_kind }.

(** [FileChunk]; its weak pointer to the file is never read. *)
Record FileChunk := mk_chunk {
  fc_idx : Z;
  fc_data : bytes;
  fc_hash : bytes }.

Definition getNumOfChunks (f : File) : Z :=
  f_size f / CHUNK_SIZE + (if 0 <? f_size f mod CHUNK_SIZE then 1 else 0).

Section File.
Context `{Blake2b}.

(** *** calc_hash of a vector, of a stream, of a path *)
Definition calc_hash_vec (buf : bytes) : bytes :=
  blake_TruncatedFinal (blake_Update blake_init buf).

(** The do-while loop over blocks; the fuel is the length of the file plus two. *)
Fixpoint hash_blocks (fuel : nat) (ist : stream) (s : blake_state) : M fs blake_state :=
  match fuel with
  | O => lift Undef
  | S fuel' =>
      '(got, ist) ← Stream.read ist blake_BlockSize;
      let s := blake_Update s got in
      if st_fail ist then mret s else hash_blocks fuel' ist s
  end.

Definition calc_hash_stream (fuel : nat) (ist : stream) : M fs bytes :=
  let ist := Stream.seekg ist 0 in
  s ← hash_blocks fuel ist blake_init;
  mret (blake_TruncatedFinal s).

Definition calc_hash (file : bytes) : M fs bytes :=
  ist ← Stream.open_existing file;
  len ← file_length file;
  calc_hash_stream (len + 2) ist.

(** *** The constructors of FileLocal and FileRemote *)
Definition new_FileLocal (path hash : bytes) (size : Z) (effective_path : bytes) : File :=
  mk_file path hash size effective_path FileLocal.

Definition new_FileRemote (path hash : bytes) (size : Z) (effective_path : bytes) :
    M fs File :=
  fm ← lift (new_FileMetadata effective_path size CHUNK_SIZE hash);
  Fs.create_directories (Path.parent_path effective_path);;
  createIfNotExist fm;;
  found ← Fs.exists_ effective_path;
  (if found : bool then mret tt
   else
     os ← Stream.open_trunc effective_path;
     let os := Stream.seekp os (u64 (size - 1)) in
     Stream.write os [0];;
     mret tt);;
  mret (mk_file path hash size effective_path (FileRemote fm)).

(** *** The factories of File; [sm_path_prefix] is the static member set once by
    setLocalPathPrefix, empty in the client *)
Section Factories.
Context (sm_path_prefix : bytes).

Definition makeLocalFile (path : bytes) : M fs File :=
  let effective_path := Path.append sm_path_prefix path in
  regular ← Fs.is_regular_file effective_path;
  found ← Fs.exists_ effective_path;
  if negb regular || negb found then
    throw (runtime_error "File does not exists or is not a regular file: ")
  else
    hash ← calc_hash effective_path;
    size ← Fs.file_size effective_path;
    mret (new_FileLocal path hash size effective_path).

Definition makeRemoteFile_offer (path hash : bytes) (size : Z) : M fs File :=
  new_FileRemote path hash size (Path.append sm_path_prefix path).

(** From the metadata file; no file when there is none. *)
Definition makeRemoteFile (path : bytes) : M fs (option File) :=
  let effective_path := Path.append sm_path_prefix path in
  '(file_size, file_chunk_size, file_hash) ← readHeader effective_path [];
  if 0 <? file_chunk_size then
    f ← new_FileRemote path file_hash file_size effective_path;
    mret (Some f)
  else mret None.
End Factories.

(** *** The virtual methods *)
Definition isComplete (f : File) : M fs bool :=
  match f_kind f with
  | FileLocal => mret true
  | FileRemote fm =>
      found ← Fs.exists_ (f_effective_path f);
      if found : bool then
        next ← nextMissingChunk fm 0;
        if next =? UINT64_MAX then
          local_hash ← calc_hash (f_effective_path f);
          if zlen local_hash <? zlen (f_hash f) then lift Undef
          else mret (bool_decide (f_hash f = take (length (f_hash f)) local_hash))
        else mret false
      else mret false
  end.

(** The length chunk [offset] of a file of [size] bytes must have. *)
Definition chunk_len (size offset : Z) : Z :=
  if u64 (size - offset) <? CHUNK_SIZE then u64 (size - offset) else CHUNK_SIZE.

Definition getChunk (f : File) (idx : Z) : M fs FileChunk :=
  match f_kind f with
  | FileLocal =>
      let offset := u64 (idx * CHUNK_SIZE) in
      if f_size f <? offset then
        throw (range_error "Chunk index outside file length range")
      else
        let chunk_data := zeros (Z.to_nat (chunk_len (f_size f) offset)) in
        ist ← Stream.open_existing (f_effective_path f);
        let ist := Stream.seekg ist offset in
        '(got, ist) ← Stream.read ist (zlen chunk_data);
        let chunk_data := Stream.fill chunk_data got in
        mret (mk_chunk idx chunk_data (calc_hash_vec chunk_data))
  | FileRemote _ =>
      throw (domain_error "File chunks cannot be retrieved from remote files")
  end.

Definition saveChunk (f : File) (chunk : FileChunk) : M fs unit :=
  match f_kind f with
  | FileLocal => throw (domain_error "File chunks cannot be saved in local files")
  | FileRemote fm =>
      let offset := u64 (fc_idx chunk * CHUNK_SIZE) in
      if f_size f <? offset then mret tt
      else if negb (chunk_len (f_size f) offset =? zlen (fc_data chunk)) then mret tt
      else
        os ← Stream.open_existing (f_effective_path f);
        let os := Stream.seekp os offset in
        Stream.write os (fc_data chunk);;
        markChunk fm (fc_idx chunk) true
  end.

Definition getNextMissingChunk (f : File) (from_chunk_idx : Z) : M fs Z :=
  match f_kind f with
  | FileLocal => mret UINT64_MAX
  | FileRemote fm => nextMissingChunk fm from_chunk_idx
  end.
End File.

(** ** Hashing *)
Section Hashing.
Context `{Blake2bLaws}.

Lemma read_tail (σ : fs) k c pos m :
  σ !! k = Some (Reg c) -> 0 <= pos <= zlen c -> 0 < m -> zlen c < pos + m ->
  exists p', Stream.read (mk_stream (Some k) pos false false) m σ =
    (Ok (drop (Z.to_nat pos) c, mk_stream (Some k) p' true true), σ).
Proof.
  intros Hc Hp Hm Hl. unfold Stream.read. simpl. rewrite (content_reg _ _ _ Hc).
  assert (Stream.sub c pos m = drop (Z.to_nat pos) c) as ->.
  { unfold Stream.sub. destruct (Z.leb_spec (zlen c) pos).
    - by rewrite drop_ge by lia.
    - apply take_ge. rewrite length_drop. lia. }
  rewrite length_drop. ztest. eauto.
Qed.

Lemma hash_blocks_spec (σ : fs) k c fuel pos s :
  σ !! k = Some (Reg c) -> 0 <= pos <= zlen c ->
  (length c - Z.to_nat pos < fuel)%nat ->
  hash_blocks fuel (mk_stream (Some k) pos false false) s σ =
  (Ok (blake_Update s (drop (Z.to_nat pos) c)), σ).
Proof.
  intros Hc. pose proof blake_BlockSize_pos as Hb. revert pos s.
  induction fuel as [|fuel IH]; intros pos s Hp Hf; [lia|]. simpl.
  destruct (decide (pos + blake_BlockSize <= zlen c)) as [Hin|Hout].
  - assert (0 <= blake_BlockSize) as Hb0 by lia.
    mstep (read_inside σ k c pos blake_BlockSize Hc ltac:(lia) Hb0 Hin).
    cbn [st_fail]. rewrite IH by lia. rewrite blake_Update_app. do 3 f_equal.
    rewrite <- (take_drop (Z.to_nat blake_BlockSize) (drop (Z.to_nat pos) c)) at 2.
    rewrite drop_drop. do 2 f_equal. lia.
  - destruct (read_tail σ k c pos blake_BlockSize Hc) as [p' Hr]; [lia..|].
    by mstep Hr.
Qed.

(** Hashing a file block by block terminates and gives the digest of its whole
    contents, for every file size; a file that cannot be opened hashes like an empty
    one. Nothing is changed. *)
Lemma calc_hash_run (σ : fs) p :
  calc_hash p σ =
  (Ok (calc_hash_vec
         (match Fs.stat σ (Path.resolve p) with Some (Reg c) => c | _ => [] end)), σ).
Proof.
  unfold calc_hash, calc_hash_stream, calc_hash_vec.
  destruct (Fs.stat σ (Path.resolve p)) as [[|c]|] eqn:E.
  2: { destruct (reg_not_root _ _ _ E) as [Hk Hc].
    mstep (open_existing_reg σ p _ c eq_refl Hk Hc).
    rewrite seekg_opened by lia.
    assert (file_length p σ = (Ok (length c), σ)) as Hl
      by (unfold file_length, gets; by rewrite (content_reg _ _ _ Hc)).
    mstep Hl. mstep (hash_blocks_spec σ _ c (length c + 2) 0 blake_init Hc
      ltac:(lia) ltac:(lia)). done. }
  all: assert (Stream.open_existing p σ = (Ok Stream.failed, σ)) as Ho
    by (unfold Stream.open_existing, gets; by rewrite E).
  all: mstep Ho; mstep (@eq_refl _ (file_length p σ)).
  all: rewrite Nat.add_comm; cbn [hash_blocks Nat.add]; done.
Qed.
End Hashing.

(** ** Chunks *)

Lemma CHUNK_SIZE_eq : CHUNK_SIZE = 3968.
Proof. done. Qed.

#[global] Opaque CHUNK_SIZE.

(** The number of chunks of [size] bytes. *)
Definition n_chunks (size : Z) : Z :=
  size / CHUNK_SIZE + (if 0 <? size mod CHUNK_SIZE then 1 else 0).

Lemma n_chunks_bounds size :
  0 <= size -> 0 <= n_chunks size /\
    size <= n_chunks size * CHUNK_SIZE < size + CHUNK_SIZE.
Proof.
  intros. unfold n_chunks. rewrite CHUNK_SIZE_eq.
  destruct (Z.ltb_spec 0 (size mod 3968)); Z.div_mod_to_equations; lia.
Qed.

(** Chunk [i] of the contents [c]. *)
Definition chunk_of (c : bytes) (i : Z) : bytes :=
  take (Z.to_nat CHUNK_SIZE) (drop (Z.to_nat (i * CHUNK_SIZE)) c).

Lemma length_chunk_of c i :
  0 <= i -> i * CHUNK_SIZE <= zlen c ->
  zlen (chunk_of c i) = Z.min CHUNK_SIZE (zlen c - i * CHUNK_SIZE).
Proof.
  intros. unfold chunk_of. autorewrite with ft_len. rewrite CHUNK_SIZE_eq in *. lia.
Qed.

Lemma chunk_len_min size off :
  0 <= off <= size -> size < 2 ^ 64 -> chunk_len size off = Z.min CHUNK_SIZE (size - off).
Proof.
  intros. unfold chunk_len. rewrite wrap_small by lia.
  destruct (Z.ltb_spec (size - off) CHUNK_SIZE); lia.
Qed.

(** The chunks, in order, make up the contents up to any chunk boundary. *)
Lemma chunks_prefix c i :
  0 <= i ->
  concat (chunk_of c <$> seqZ 0 i) = take (Z.to_nat (i * CHUNK_SIZE)) c.
Proof.
  intros Hi. pattern i. apply natlike_ind; [done| |done].
  clear i Hi. intros i Hi IH. rewrite <- Z.add_1_r, seqZ_app by lia.
  rewrite fmap_app, concat_app, IH. simpl. rewrite app_nil_r, Z.add_0_l.
  assert (Z.to_nat ((i + 1) * CHUNK_SIZE) =
          (Z.to_nat (i * CHUNK_SIZE) + Z.to_nat CHUNK_SIZE)%nat) as ->
    by (rewrite CHUNK_SIZE_eq; lia).
  unfold chunk_of. by rewrite take_take_drop.
Qed.

Section Chunks.
Context `{Blake2b}.

(** A local file [f] that is on the disk with contents [c]. *)
Record local_at (σ : fs) (f : File) (c : bytes) : Prop := mk_local_at {
  la_kind : f_kind f = FileLocal;
  la_key : Path.resolve (f_effective_path f) <> [];
  la_reg : σ !! Path.resolve (f_effective_path f) = Some (Reg c);
  la_size : f_size f = zlen c;
  la_bound : zlen c < 2 ^ 63 }.

Lemma local_chunks σ f c : local_at σ f c -> getNumOfChunks f = n_chunks (zlen c).
Proof. intros [_ _ _ Hs _]. unfold getNumOfChunks, n_chunks. by rewrite Hs. Qed.

Lemma getChunk_run (σ : fs) f c i :
  local_at σ f c -> 0 <= i < 2 ^ 32 ->
  getChunk f i σ =
  (if i * CHUNK_SIZE <=? zlen c
   then Ok (mk_chunk i (chunk_of c i) (calc_hash_vec (chunk_of c i)))
   else Throw (range_error "Chunk index outside file length range"), σ).
Proof.
  intros [Hkind Hk Hc Hs Hl] Hi. rename i into idx.
  - unfold getChunk. rewrite Hkind, Hs.
    rewrite (wrap_small 64) by (rewrite CHUNK_SIZE_eq; lia).
    destruct (Z.leb_spec (idx * CHUNK_SIZE) (zlen c)) as [Hle|Hgt];
      [|by rewrite (proj2 (Z.ltb_lt _ _) Hgt)].
    rewrite (proj2 (Z.ltb_ge _ _) Hle).
    mstep (open_existing_reg σ _ _ c eq_refl Hk Hc).
    assert (0 <= idx * CHUNK_SIZE) as H0 by (rewrite CHUNK_SIZE_eq; lia).
    rewrite seekg_opened by lia. rewrite chunk_len_min by lia.
    rewrite length_replicate, Z2Nat.id by (rewrite CHUNK_SIZE_eq in *; lia).
    set (m := Z.min CHUNK_SIZE (zlen c - idx * CHUNK_SIZE)).
    assert (0 <= m /\ idx * CHUNK_SIZE + m <= zlen c) as [Hm0 Hm]
      by (unfold m; rewrite CHUNK_SIZE_eq in *; lia).
    mstep (read_inside σ _ c _ m Hc H0 Hm0 Hm).
    assert (Stream.fill (zeros (Z.to_nat m))
      (take (Z.to_nat m) (drop (Z.to_nat (idx * CHUNK_SIZE)) c)) = chunk_of c idx) as ->.
    { unfold Stream.fill, chunk_of.
      rewrite (drop_ge (zeros _)) by (autorewrite with ft_len; lia). rewrite app_nil_r.
      destruct (decide (m = CHUNK_SIZE)) as [->|Hne]; [done|].
      rewrite !take_ge by (autorewrite with ft_len; unfold m in *; lia). done. }
    done.
Qed.

(** A local file hands out its chunks by position: chunk [i] is the CHUNK_SIZE
    bytes at [i * CHUNK_SIZE] or what is left of the file, an index past the end is
    a range_error; and the chunks 0 .. getNumOfChunks - 1 put together are the file. *)
Theorem getChunk_spec (σ : fs) f c :
  local_at σ f c ->
  (forall i, 0 <= i < 2 ^ 32 ->
     getChunk f i σ =
     (if i * CHUNK_SIZE <=? zlen c
      then Ok (mk_chunk i (chunk_of c i) (calc_hash_vec (chunk_of c i)))
      else Throw (range_error "Chunk index outside file length range"), σ)) /\
  concat (chunk_of c <$> seqZ 0 (getNumOfChunks f)) = c.
Proof.
  intros Hf. split; [intros i Hi; by apply getChunk_run|].
  rewrite (local_chunks σ f c Hf).
  pose proof (n_chunks_bounds (zlen c) ltac:(lia)) as Hn.
  rewrite chunks_prefix by lia. apply take_ge. lia.
Qed.
End Chunks.

(** Hashing a file block by block terminates and gives the digest of its whole
    contents, for every file size; a file that cannot be opened hashes like an empty
    one. Nothing is changed. *)
Theorem calc_hash_spec `{Blake2bLaws} (σ : fs) p :
  calc_hash p σ =
  (Ok (calc_hash_vec
         (match Fs.stat σ (Path.resolve p) with Some (Reg c) => c | _ => [] end)), σ).
Proof. apply calc_hash_run. Qed.

(** ** Witnesses

    An instance of the interface for evaluating on concrete inputs: the digest is the
    first 64 bytes of the input. *)
Module ToyHash.

Definition final (s : bytes) : bytes := take 64 ((u8 <$> s) ++ zeros 64).

#[export] Instance toy_blake : Blake2b := {|
  blake_state := bytes;
  blake_init := [];
  blake_BlockSize := 128;
  blake_Update := fun s a => s ++ a;
  blake_TruncatedFinal := final |}.

#[export] Instance toy_blake_laws : Blake2bLaws.
Proof.
  constructor; simpl.
  - intros s a b. by rewrite app_assoc.
  - intros s. unfold final, HASH_SIZE. autorewrite with ft_len. lia.
  - intros s. unfold final. apply Forall_take, Forall_app_2, zeros_bytes_ok.
    apply Forall_fmap, Forall_forall. intros x _. apply u8_byte.
  - lia.
Qed.

End ToyHash.

Section Witnesses.
Import ToyHash.

Definition sample_content : bytes := replicate 5000 65.
Definition sample_local : File := mk_file sample_path [] 5000 sample_path FileLocal.
Definition sample_local_fs : fs := {[ Path.resolve sample_path := Reg sample_content ]}.

Lemma calc_hash_spec_witness :
  calc_hash sample_path sample_local_fs =
    (Ok (calc_hash_vec
       (match Fs.stat sample_local_fs (Path.resolve sample_path) with
        | Some (Reg c) => c | _ => [] end)), sample_local_fs).
Proof. apply (calc_hash_spec sample_local_fs sample_path). Defined.

Lemma getChunk_spec_witness :
  getChunk sample_local 1 sample_local_fs =
    (Ok (mk_chunk 1 (replicate 1032 65) (calc_hash_vec (replicate 1032 65))),
     sample_local_fs) /\
  concat (chunk_of sample_content <$> seqZ 0 (getNumOfChunks sample_local)) = sample_content.
Proof.
  destruct (getChunk_spec sample_local_fs sample_local sample_content) as [H1 H2];
    [constructor; [reflexivity|decide_closed|apply lookup_singleton_eq|reflexivity
       |decide_closed]|].
  split; [|exact H2]. rewrite (H1 1) by lia. reflexivity.
Defined.

End Witnesses.
