(* ===== verification/Upload.v ===== *)
(** * What the server stores for an upload: specification and refinement

    [upload] is the abstract state of one file being received: its size, the hash it was
    offered with, its contents so far and the set of chunks received. [represents] says
    that a file system holds it (data file, metadata file, directories); the theorems
    show that the methods of FileRemote implement the abstract operations. *)
From S2P Require Import Prelude StdFs Msg FileMeta File.
Import FsFacts DirFacts.

Record upload := mk_upload {
  up_size : Z;
  up_hash : bytes;
  up_data : bytes;
  up_marked : gset Z }.

Section Spec.
Context `{Blake2b}.

Definition up_chunks (u : upload) : Z := n_chunks (up_size u).

(** An upload just started. *)
Definition up_start (size : Z) (hash : bytes) : upload :=
  mk_upload size hash (zeros (Z.to_nat size)) ∅.

(** The chunks still to be received, in order. *)
Definition up_missing (u : upload) : list Z :=
  filter (fun i => i ∉ up_marked u) (seqZ 0 (up_chunks u)).

Definition up_next (u : upload) : Z :=
  match up_missing u with i :: _ => i | [] => UINT64_MAX end.

Definition up_complete (u : upload) : bool :=
  bool_decide (up_missing u = [] /\ up_hash u = calc_hash_vec (up_data u)).

(** [d] can be stored as chunk [i]. *)
Definition valid_chunk (u : upload) (i : Z) (d : bytes) : Prop :=
  i * CHUNK_SIZE <= up_size u /\ zlen d = Z.min CHUNK_SIZE (up_size u - i * CHUNK_SIZE).

#[export] Instance valid_chunk_dec u i d : Decision (valid_chunk u i d).
Proof. unfold valid_chunk. apply _. Defined.

Definition up_save (u : upload) (i : Z) (d : bytes) : upload :=
  if decide (valid_chunk u i d) then
    mk_upload (up_size u) (up_hash u)
      (Stream.overwrite (i * CHUNK_SIZE) d (up_data u))
      (if decide (i < up_chunks u) then {[i]} ∪ up_marked u else up_marked u)
  else u.

(** Sizes are those of the protocol (at most 4 GB), the marks are of chunks of the
    file. *)
Record up_ok (u : upload) : Prop := mk_up_ok {
  uo_size : 0 <= up_size u < 2 ^ 32;
  uo_hash : zlen (up_hash u) = HASH_SIZE;
  uo_data : zlen (up_data u) = up_size u;
  uo_marked : forall i, i ∈ up_marked u -> 0 <= i < up_chunks u }.

(** *** Facts about the specification *)

Lemma up_chunks_bounds u : up_ok u -> 0 <= up_chunks u <= 1082402.
Proof.
  intros [Hs _ _ _]. unfold up_chunks.
  pose proof (n_chunks_bounds (up_size u) ltac:(lia)) as Hn.
  rewrite CHUNK_SIZE_eq in Hn. lia.
Qed.

Lemma up_start_ok size hash :
  0 <= size < 2 ^ 32 -> zlen hash = HASH_SIZE -> up_ok (up_start size hash).
Proof.
  intros. constructor; simpl; try done.
  rewrite length_replicate. lia.
Qed.

Lemma length_overwrite pos d c :
  0 <= pos -> pos + zlen d <= zlen c -> length (Stream.overwrite pos d c) = length c.
Proof.
  intros. rewrite overwrite_inside by done. autorewrite with ft_len. lia.
Qed.

Lemma up_save_ok u i d : up_ok u -> 0 <= i -> up_ok (up_save u i d).
Proof.
  intros Hu Hi. unfold up_save. destruct (decide (valid_chunk u i d)) as [[Hv1 Hv2]|];
    [|done]. destruct Hu as [Hs Hh Hd Hm]. rewrite CHUNK_SIZE_eq in *.
  constructor; simpl; try done.
  - rewrite length_overwrite; lia.
  - intros j. change (up_chunks (mk_upload _ _ _ _)) with (up_chunks u).
    destruct (decide (i < up_chunks u)); [|by apply Hm].
    rewrite elem_of_union, elem_of_singleton. intros [->|?]; [lia|by apply Hm].
Qed.

Lemma elem_of_up_missing u i :
  i ∈ up_missing u <-> 0 <= i < up_chunks u /\ i ∉ up_marked u.
Proof. unfold up_missing. rewrite list_elem_of_filter, elem_of_seqZ. intuition lia. Qed.

Lemma up_missing_nil u :
  up_missing u = [] <-> forall i, 0 <= i < up_chunks u -> i ∈ up_marked u.
Proof.
  split.
  - intros E i Hi. destruct (decide (i ∈ up_marked u)) as [|Hn]; [done|].
    assert (i ∈ up_missing u) as Hin by by apply elem_of_up_missing.
    rewrite E in Hin. by apply not_elem_of_nil in Hin.
  - intros Hall. destruct (up_missing u) as [|i l] eqn:E; [done|].
    assert (i ∈ up_missing u) as Hin by (rewrite E; by left).
    apply elem_of_up_missing in Hin as [Hi Hn]. by destruct Hn; apply Hall.
Qed.

(** [up_next] is characterised by being the first unmarked chunk. *)
Lemma up_next_first u r :
  0 <= r < up_chunks u -> r ∉ up_marked u ->
  (forall j, 0 <= j < r -> j ∈ up_marked u) -> up_next u = r.
Proof.
  intros Hr Hn Hall. unfold up_next, up_missing.
  replace (up_chunks u) with (r + (up_chunks u - r)) by lia.
  rewrite seqZ_app, list.filter_app by lia.
  assert (filter (fun i => i ∉ up_marked u) (seqZ 0 r) = []) as ->.
  { destruct (filter _ (seqZ 0 r)) as [|i l] eqn:E; [done|].
    assert (i ∈ filter (fun i => i ∉ up_marked u) (seqZ 0 r)) as Hin by (rewrite E; by left).
    apply list_elem_of_filter in Hin as [Hni Hi]. apply elem_of_seqZ in Hi.
    destruct Hni. apply Hall. lia. }
  rewrite seqZ_cons by lia. rewrite Z.add_0_l. simpl. by rewrite filter_cons_True.
Qed.

Lemma up_next_cases u :
  up_ok u ->
  (up_missing u = [] /\ up_next u = UINT64_MAX) \/
  (up_missing u <> [] /\ 0 <= up_next u < up_chunks u /\ up_next u ∉ up_marked u).
Proof.
  intros Hu. unfold up_next. destruct (up_missing u) as [|i l] eqn:E; [by left|right].
  split; [done|]. apply elem_of_up_missing. rewrite E. by left.
Qed.
End Spec.

(** ** The file system that holds an upload *)

Definition bitmap_len (size : Z) : Z :=
  n_chunks size / 8 + (if 0 <? n_chunks size mod 8 then 1 else 0).

(** What the constructor of FileMetadata computes for the server's chunk size. *)
Definition meta_of (e : bytes) (size : Z) (hash : bytes) : FileMetadata :=
  mk_file_metadata e size CHUNK_SIZE hash (n_chunks size) 80 (bitmap_len size)
    (metadata_path e).

Lemma new_FileMetadata_meta_of e size hash :
  new_FileMetadata e size CHUNK_SIZE hash = Ok (meta_of e size hash).
Proof. unfold new_FileMetadata. by rewrite (proj2 (Z.eqb_neq CHUNK_SIZE 0)) by done. Qed.

Lemma bitmap_len_bounds size :
  0 <= size -> n_chunks size <= 8 * bitmap_len size < n_chunks size + 8.
Proof.
  intros H. pose proof (n_chunks_bounds size H). unfold bitmap_len.
  destruct (Z.ltb_spec 0 (n_chunks size mod 8)); zdiv.
Qed.

(** The server's object for an upload: [e] is the effective path. *)
Definition handle (path e : bytes) (u : upload) : File :=
  mk_file path (up_hash u) (up_size u) e (FileRemote (meta_of e (up_size u) (up_hash u))).

(** The bitmap holds the set of received chunks (its padding bits hold anything). *)
Record bitmap_of (u : upload) (bm : bytes) : Prop := mk_bitmap_of {
  bo_len : zlen bm = bitmap_len (up_size u);
  bo_bytes : bytes_ok bm;
  bo_bits : forall i, 0 <= i < up_chunks u -> chunk_bit bm i = bool_decide (i ∈ up_marked u) }.

Record represents (σ : fs) (d n : bytes) (u : upload) : Prop := mk_represents {
  rp_ok : up_ok u;
  rp_dirs : dirs_exist σ (Path.resolve d);
  rp_data : σ !! data_key d n = Some (Reg (up_data u));
  rp_meta : exists bm,
    σ !! data_key d (meta_name n) =
      Some (Reg (header (up_size u) CHUNK_SIZE (up_hash u) ++ bm)) /\ bitmap_of u bm }.

(** Every path outside the two files of the upload names the same in both. *)
Definition same_elsewhere (d n : bytes) (σ σ' : fs) : Prop :=
  forall q, q <> data_key d n -> q <> data_key d (meta_name n) -> σ' !! q = σ !! q.

#[export] Instance same_elsewhere_equiv d n : Equivalence (same_elsewhere d n).
Proof.
  constructor.
  - by intros σ q.
  - intros σ σ' Hs q ? ?. symmetry. by apply Hs.
  - intros σ1 σ2 σ3 H12 H23 q ? ?. rewrite H23 by done. by apply H12.
Qed.

Lemma same_elsewhere_insert_data d n σ x : same_elsewhere d n σ (<[data_key d n := x]> σ).
Proof. intros q H _. by rewrite lookup_insert_ne. Qed.

Lemma same_elsewhere_insert_meta d n σ x :
  same_elsewhere d n σ (<[data_key d (meta_name n) := x]> σ).
Proof. intros q _ H. by rewrite lookup_insert_ne. Qed.

#[export] Hint Resolve same_elsewhere_insert_data same_elsewhere_insert_meta : ft.

Lemma represents_meta_at σ e d n u bm :
  placed e d n -> up_ok u -> bitmap_of u bm ->
  σ !! data_key d (meta_name n) =
    Some (Reg (header (up_size u) CHUNK_SIZE (up_hash u) ++ bm)) ->
  meta_at σ (meta_of e (up_size u) (up_hash u))
    (header (up_size u) CHUNK_SIZE (up_hash u)) bm.
Proof.
  intros Hp Hu [Hl Hb _] Hm. pose proof (up_chunks_bounds u Hu) as Hn.
  pose proof Hu as [Hs Hh _ _]. pose proof (bitmap_len_bounds (up_size u) ltac:(lia)).
  unfold up_chunks in Hn.
  constructor; simpl; rewrite ?(placed_meta_key _ _ _ Hp), ?length_header by done.
  - apply child_ne.
  - done.
  - done.
  - lia.
  - done.
  - lia.
Qed.

Section Refinement.
Context `{Blake2bLaws} (path e d n : bytes) (Hplaced : placed e d n).

Lemma key_ne : Path.resolve e <> [].
Proof. rewrite (placed_key _ _ _ Hplaced). apply child_ne. Qed.

(** GetNextMissingChunk on a stored upload is the first chunk of the file not yet
    received, or UINT64_MAX when all are; it changes nothing. *)
Lemma getNextMissingChunk_run (σ : fs) u :
  represents σ d n u ->
  getNextMissingChunk (handle path e u) 0 σ = (Ok (up_next u), σ).
Proof.
  intros [Hu Hd Hdata (bm & Hm & Hbm)].
  pose proof (represents_meta_at _ _ _ _ _ _ Hplaced Hu Hbm Hm) as Hat.
  destruct (nextMissingChunk_run _ _ _ _ 0 Hat ltac:(lia)) as (r & Hr & Hfirst).
  unfold getNextMissingChunk. simpl. rewrite Hr. do 2 f_equal. symmetry.
  destruct Hbm as [_ _ Hbits]. change (8 * (0 / 8)) with 0 in Hfirst.
  destruct Hfirst as [(Hlt & Hbit & Hall)|(-> & Hall)];
    change (fm_file_n_chunks _) with (up_chunks u) in *.
  - apply up_next_first; [done| |].
    + rewrite Hbits in Hbit by done. by apply bool_decide_eq_false in Hbit.
    + intros j Hj. specialize (Hall j Hj). rewrite Hbits in Hall by lia.
      by apply bool_decide_eq_true in Hall.
  - unfold up_next. rewrite (proj2 (up_missing_nil u)); [done|].
    intros j Hj. specialize (Hall j Hj). rewrite Hbits in Hall by lia.
    by apply bool_decide_eq_true in Hall.
Qed.

(** IsComplete on a stored upload is true exactly when every chunk has been
    received and the stored contents hash to the hash the file was offered with. *)
Lemma isComplete_run (σ : fs) u :
  represents σ d n u -> isComplete (handle path e u) σ = (Ok (up_complete u), σ).
Proof.
  intros Hrep. pose proof (getNextMissingChunk_run σ u Hrep) as Hnext.
  destruct Hrep as [Hu _ Hdata _]. unfold isComplete.
  cbn [handle f_kind f_effective_path f_hash getNextMissingChunk] in *.
  pose proof (placed_key _ _ _ Hplaced) as Hk.
  pose proof (exists_stat σ e _ Hk (child_ne _ _)) as Hex.
  fold (data_key d n) in Hex. rewrite Hdata in Hex. mstep Hex. mstep Hnext.
  unfold up_complete. destruct (up_next_cases u Hu) as [[Hnil ->]|(Hne & Hr & _)].
  - rewrite Z.eqb_refl. mstep (calc_hash_run σ e).
    rewrite Hk, stat_ne, Hdata by apply child_ne.
    pose proof (blake_digest_size (blake_Update blake_init (up_data u))) as Hsz.
    fold (calc_hash_vec (up_data u)) in Hsz. pose proof (uo_hash u Hu).
    ztest. unfold mret, M_ret. do 2 f_equal. apply bool_decide_ext.
    rewrite take_ge by lia. tauto.
  - pose proof (up_chunks_bounds u Hu).
    rewrite (proj2 (Z.eqb_neq _ UINT64_MAX)) by (unfold UINT64_MAX; lia).
    unfold mret, M_ret. do 2 f_equal. symmetry. apply bool_decide_eq_false. tauto.
Qed.

(** The test the code makes on a chunk is [valid_chunk]. *)
Lemma saveChunk_test u i c :
  up_ok u -> 0 <= i < 2 ^ 32 ->
  valid_chunk u i c <->
  (up_size u <? u64 (i * CHUNK_SIZE)) = false /\
  (chunk_len (up_size u) (u64 (i * CHUNK_SIZE)) =? zlen c) = true.
Proof.
  intros [Hs _ _ _] Hi. rewrite wrap_small by (rewrite CHUNK_SIZE_eq; lia).
  rewrite Z.ltb_ge, Z.eqb_eq. unfold valid_chunk.
  split; intros [H1 H2]; (split; [done|]);
    rewrite chunk_len_min in * by (rewrite CHUNK_SIZE_eq in *; lia); lia.
Qed.

(** Marking a chunk of a stored upload. *)
Lemma mark_represents (σ : fs) u u' i :
  represents σ d n u -> 0 <= i < 2 ^ 32 ->
  up_size u' = up_size u -> up_hash u' = up_hash u -> up_data u' = up_data u -> up_ok u' ->
  (forall j, 0 <= j < up_chunks u -> j ∈ up_marked u' <-> j = i \/ j ∈ up_marked u) ->
  exists σ', markChunk (meta_of e (up_size u) (up_hash u)) i true σ = (Ok tt, σ') /\
    represents σ' d n u' /\ same_elsewhere d n σ σ'.
Proof.
  intros [Hu Hd Hdata (bm & Hm & Hbm)] Hi Es Eh Ed Hu' Hmk.
  pose proof (represents_meta_at _ _ _ _ _ _ Hplaced Hu Hbm Hm) as Hat.
  pose proof (bitmap_len_bounds (up_size u) ltac:(destruct Hu; lia)) as Hbl.
  pose proof (placed_keys_ne d n) as Hne.
  assert (up_chunks u' = up_chunks u) as Ec by (unfold up_chunks; by rewrite Es).
  destruct Hbm as [Hl Hb Hbits].
  destruct (decide (i < 8 * zlen bm)) as [Hlt|Hge].
  - destruct (markChunk_run _ _ _ _ i true Hat ltac:(lia))
      as (bm' & Hrun & Hl' & Hb' & Hbit').
    simpl in Hrun. rewrite (placed_meta_key _ _ _ Hplaced) in Hrun.
    eexists. split; [exact Hrun|]. split; [|auto with ft].
    constructor; [done|apply dirs_exist_insert, Hd| |].
    + rewrite Ed, lookup_insert_ne by congruence. done.
    + exists bm'. rewrite Es, Eh, lookup_insert_eq. split; [done|].
      constructor; [by rewrite Es, Hl'|done|].
      intros j Hj. rewrite Ec in Hj. rewrite Hbit', Hbits by lia.
      case_decide; symmetry; [apply bool_decide_eq_true; rewrite Hmk by done; by left|].
      apply bool_decide_ext. rewrite Hmk by done. tauto.
  - exists σ. split; [|split; [|reflexivity]].
    { apply (markChunk_run_outside _ _ _ _ i true Hat). lia. }
    constructor; [done|done|by rewrite Ed|].
    exists bm. rewrite Es, Eh. split; [done|]. constructor; [by rewrite Es|done|].
    intros j Hj. rewrite Ec in Hj. rewrite Hbits by done. apply bool_decide_ext.
    rewrite Hmk by done. unfold up_chunks in Hj. split; [by right|]. intros [->|?]; [lia|done].
Qed.

(** The two writes of saveChunk: after the first one the bytes are in the file and the
    chunk is not marked yet. *)
Definition up_write (u : upload) (i : Z) (c : bytes) : upload :=
  mk_upload (up_size u) (up_hash u) (Stream.overwrite (i * CHUNK_SIZE) c (up_data u)) (up_marked u).

Lemma saveChunk_writes (σ : fs) u i c :
  represents σ d n u -> 0 <= i < 2 ^ 32 -> valid_chunk u i c ->
  let σ1 := <[data_key d n := Reg (up_data (up_write u i c))]> σ in
  represents σ1 d n (up_write u i c) /\
  exists σ', markChunk (meta_of e (up_size u) (up_hash u)) i true σ1 = (Ok tt, σ') /\
    represents σ' d n (up_save u i c) /\ same_elsewhere d n σ1 σ'.
Proof.
  intros [Hu Hd Hdata (bm & Hm & [Hl Hb Hbits])] Hi Hv σ1.
  pose proof (up_save_ok u i c Hu ltac:(lia)) as Hok'.
  unfold up_save in *. rewrite decide_True in * by done.
  assert (represents σ1 d n (up_write u i c)) as Hrep1.
  { destruct Hok', Hu.
    constructor; [by constructor|apply dirs_exist_insert, Hd|by unfold σ1; rewrite lookup_insert_eq|].
    exists bm. unfold σ1. rewrite lookup_insert_ne by apply placed_keys_ne.
    split; [done|]. by constructor. }
  split; [done|]. apply (mark_represents σ1 (up_write u i c)); try done.
  intros j Hj. simpl. change (up_chunks (up_write u i c)) with (up_chunks u) in Hj.
  destruct (decide (i < up_chunks u)); [by rewrite elem_of_union, elem_of_singleton|].
  split; [by right|]. intros [->|?]; [lia|done].
Qed.

(** SaveChunk on a stored upload stores exactly the abstract [up_save]: a chunk of
    the right length inside the file is written at its offset and marked, any other is
    ignored; no other file changes. *)
Lemma saveChunk_run (σ : fs) u ch :
  represents σ d n u -> 0 <= fc_idx ch < 2 ^ 32 ->
  exists σ', saveChunk (handle path e u) ch σ = (Ok tt, σ') /\
    represents σ' d n (up_save u (fc_idx ch) (fc_data ch)) /\ same_elsewhere d n σ σ'.
Proof.
  intros Hrep Hi. set (i := fc_idx ch) in *. pose proof Hrep as [Hu _ Hdata _].
  pose proof (saveChunk_test u i (fc_data ch) Hu Hi) as Htest.
  unfold saveChunk. cbn [handle f_kind f_size f_effective_path] in *. fold i.
  destruct (decide (valid_chunk u i (fc_data ch))) as [Hv|Hv].
  - destruct (proj1 Htest Hv) as [-> ->]. cbn [negb].
    rewrite wrap_small by (rewrite CHUNK_SIZE_eq; lia).
    pose proof (placed_key _ _ _ Hplaced) as Hk.
    mstep (open_existing_reg σ e _ _ Hk (child_ne _ _) Hdata).
    unfold Stream.opened. rewrite seekp_good by (rewrite CHUNK_SIZE_eq; lia).
    mstep (write_good σ _ _ (i * CHUNK_SIZE) (fc_data ch) Hdata).
    destruct (saveChunk_writes σ u i (fc_data ch) Hrep Hi Hv) as (_ & σ' & Hrun & Hrep' & Hsame).
    exists σ'. split_and!; [exact Hrun|exact Hrep'|]. etrans; [|exact Hsame]. auto with ft.
  - exists σ. unfold up_save. rewrite decide_False by done. split_and!; [|done|reflexivity].
    destruct (up_size u <? u64 (i * CHUNK_SIZE)) eqn:E1; [done|].
    destruct (chunk_len (up_size u) (u64 (i * CHUNK_SIZE)) =? zlen (fc_data ch)) eqn:E2;
      [|done]. destruct Hv. by apply Htest.
Qed.

(** Both files exist already: they are kept, whatever the arguments are. *)
Lemma new_FileRemote_old (σ : fs) hash size x y :
  dirs_exist σ (Path.resolve d) ->
  σ !! data_key d n = Some x -> σ !! data_key d (meta_name n) = Some y ->
  new_FileRemote path hash size e σ =
    (Ok (mk_file path hash size e (FileRemote (meta_of e size hash))), σ).
Proof.
  intros Hd Hx Hy. unfold new_FileRemote. rewrite new_FileMetadata_meta_of.
  mstep (@eq_refl _ (lift (Ok (meta_of e size hash)) σ)).
  rewrite (placed_parent _ _ _ Hplaced).
  mstep (create_directories_id σ d (placed_dir_ne _ _ _ Hplaced) Hd).
  destruct (createIfNotExist_old σ (meta_of e size hash) d n y Hplaced eq_refl
    (dirs_exist_free _ _ Hd) Hy) as (σ1 & Hrun & Hw).
  rewrite (with_dirs_id _ _ _ Hd Hw) in Hrun. mstep Hrun.
  pose proof (exists_stat σ e _ (placed_key _ _ _ Hplaced) (child_ne _ _)) as Hex.
  fold (data_key d n) in Hex. rewrite Hx in Hex. by mstep Hex.
Qed.

Lemma new_FileRemote_again (σ : fs) u :
  represents σ d n u ->
  new_FileRemote path (up_hash u) (up_size u) e σ = (Ok (handle path e u), σ).
Proof.
  intros [_ Hd Hdata (bm & Hm & _)]. by eapply new_FileRemote_old.
Qed.

(** The file of [size] zero bytes: one byte written at the last position; nothing for
    an empty file, whose position -1 makes the seek fail. *)
Lemma create_sparse (σ : fs) size :
  0 <= size < 2 ^ 63 ->
  exists os,
    Stream.write (Stream.seekp (Stream.opened (data_key d n)) (u64 (size - 1))) [0]
      (<[data_key d n := Reg []]> σ) =
    (Ok os, <[data_key d n := Reg (zeros (Z.to_nat size))]> σ).
Proof.
  intros Hs. destruct (decide (size = 0)) as [->|Hne].
  - unfold Stream.seekp, Stream.seek_to. cbn [st_fail Stream.opened].
    change (swrap 64 (u64 (0 - 1)) <? 0) with true. by eexists.
  - rewrite wrap_small by lia. unfold Stream.opened. rewrite seekp_good by lia.
    rewrite (write_good (<[data_key d n := Reg []]> σ) _ [] (size - 1) [0]
      (lookup_insert_eq _ _ _)).
    eexists. rewrite insert_insert_eq. do 4 f_equal.
    unfold Stream.overwrite, splice. rewrite take_nil, drop_nil, app_nil_r. simpl.
    rewrite Nat.sub_0_r. replace (Z.to_nat size) with (Z.to_nat (size - 1) + 1)%nat by lia.
    by rewrite replicate_add.
Qed.

(** The two files of a fresh upload. *)
Lemma start_represents (σ : fs) hash size :
  0 <= size < 2 ^ 32 -> zlen hash = HASH_SIZE -> dirs_exist σ (Path.resolve d) ->
  represents (<[data_key d n := Reg (zeros (Z.to_nat size))]>
    (<[data_key d (meta_name n) :=
        Reg (header size CHUNK_SIZE hash ++ zeros (Z.to_nat (bitmap_len size)))]> σ))
    d n (up_start size hash).
Proof.
  intros Hs Hh Hd. constructor.
  - by apply up_start_ok.
  - by apply dirs_exist_insert, dirs_exist_insert.
  - by rewrite lookup_insert_eq.
  - exists (zeros (Z.to_nat (bitmap_len size))).
    rewrite lookup_insert_ne by apply placed_keys_ne. rewrite lookup_insert_eq. split; [done|].
    pose proof (bitmap_len_bounds size ltac:(lia)). pose proof (n_chunks_bounds size ltac:(lia)).
    constructor; simpl.
    + rewrite length_replicate. lia.
    + apply zeros_bytes_ok.
    + intros i Hi. rewrite bool_decide_false by set_solver. unfold chunk_bit.
      assert (zeros (Z.to_nat (bitmap_len size)) !!! Z.to_nat (i / 8) = 0) as ->;
        [|apply Z.testbit_0_l].
      change (up_chunks _) with (n_chunks size) in Hi.
      apply lookup_total_replicate_2. zdiv.
Qed.

(** The first offer of a file creates exactly a fresh upload: the directories, a
    data file of the offered size filled with zeros, a metadata file with the offered
    size and hash and no chunk marked; nothing else changes. *)
Lemma new_FileRemote_run (σ : fs) hash size :
  0 <= size < 2 ^ 32 -> zlen hash = HASH_SIZE ->
  dirs_free σ (Path.resolve d) ->
  σ !! data_key d n = None -> σ !! data_key d (meta_name n) = None ->
  exists σ1 σ',
    new_FileRemote path hash size e σ =
      (Ok (handle path e (up_start size hash)), σ') /\
    represents σ' d n (up_start size hash) /\
    with_dirs σ σ1 (Path.resolve d) /\ same_elsewhere d n σ1 σ'.
Proof.
  intros Hs Hh Hfree Hnd Hnm. unfold new_FileRemote. rewrite new_FileMetadata_meta_of.
  mstep (@eq_refl _ (lift (Ok (meta_of e size hash)) σ)).
  rewrite (placed_parent _ _ _ Hplaced).
  destruct (create_directories_spec σ d (placed_dir_ne _ _ _ Hplaced) Hfree)
    as (σ1 & Hcd & Hw). mstep Hcd. pose proof Hw as [Hd1 Hoth].
  assert (forall m, σ1 !! data_key d m = σ !! data_key d m) as Hkeys
    by (intros m; apply (with_dirs_child _ _ _ _ Hw)).
  destruct (createIfNotExist_run σ1 (meta_of e size hash) d n Hplaced eq_refl Hh
    (dirs_exist_free _ _ Hd1)) as (σ2 & Hrun & Hw2); [by rewrite Hkeys|].
  rewrite (with_dirs_id _ _ _ Hd1 Hw2) in Hrun. clear σ2 Hw2.
  mstep Hrun. simpl fm_file_size. simpl fm_file_hash. simpl fm_bitmap_size.
  set (mc := Reg (header size _ hash ++ _)).
  set (σ2 := <[data_key d (meta_name n) := mc]> σ1).
  pose proof (placed_key _ _ _ Hplaced) as Hk. fold (data_key d n) in Hk.
  assert (σ2 !! data_key d n = None) as Hnd2.
  { unfold σ2. rewrite lookup_insert_ne by (apply not_eq_sym, placed_keys_ne).
    by rewrite Hkeys. }
  pose proof (exists_stat σ2 e _ Hk (child_ne _ _)) as Hex.
  fold (data_key d n) in Hex. rewrite Hnd2 in Hex. mstep Hex.
  assert (Fs.stat σ2 (take (length (data_key d n) - 1) (data_key d n)) = Some Dir) as Hdir.
  { unfold data_key. rewrite child_parent. apply dirs_exist_stat.
    by apply dirs_exist_insert. }
  mstep (open_trunc_new σ2 e _ Hk (child_ne _ _) Hdir Hnd2).
  destruct (create_sparse σ2 size ltac:(lia)) as [os Hos]. mstep Hos.
  exists σ1. eexists. split_and!; [reflexivity|by apply start_represents|done|].
  - intros q H1 H2. unfold σ2. by rewrite !lookup_insert_ne.
Qed.

(** After a restart the server finds the upload again from its metadata file alone:
    makeRemoteFile returns the file with the stored size and hash and changes
    nothing. *)
Lemma makeRemoteFile_run (σ : fs) prefix u :
  Path.append prefix path = e -> represents σ d n u ->
  makeRemoteFile prefix path σ = (Ok (Some (handle path e u)), σ).
Proof.
  intros He Hrep. pose proof (new_FileRemote_again σ u Hrep) as Hnew.
  destruct Hrep as [Hu Hd Hdata (bm & Hm & _)]. pose proof Hu as [Hs Hh _ _].
  unfold makeRemoteFile. rewrite He.
  mstep (readHeader_run σ e d n (up_size u) CHUNK_SIZE (up_hash u) bm [] Hplaced
    ltac:(lia) ltac:(rewrite CHUNK_SIZE_eq; lia) Hh Hm).
  rewrite (proj2 (Z.ltb_lt 0 CHUNK_SIZE)) by done. by mstep Hnew.
Qed.

Lemma makeRemoteFile_none (σ : fs) prefix :
  Path.append prefix path = e -> σ !! data_key d (meta_name n) = None ->
  makeRemoteFile prefix path σ = (Ok None, σ).
Proof.
  intros He Hm. unfold makeRemoteFile, readHeader. rewrite He.
  pose proof (exists_stat σ _ _ (placed_meta_key _ _ _ Hplaced) (child_ne _ _)) as Hex.
  fold (data_key d (meta_name n)) in Hex. rewrite Hm in Hex. by mstep Hex.
Qed.
End Refinement.

(** ** Properties: FileRemote implements the abstract upload *)
Section Properties.
Context `{Blake2bLaws} (path e d n : bytes) (Hplaced : placed e d n).

(** GetNextMissingChunk on a stored upload is the first chunk of the file not yet
    received, or UINT64_MAX when all are; it changes nothing. *)
Theorem getNextMissingChunk_refines (σ : fs) u :
  represents σ d n u ->
  getNextMissingChunk (handle path e u) 0 σ = (Ok (up_next u), σ).
Proof. by apply getNextMissingChunk_run. Qed.

(** IsComplete on a stored upload is true exactly when every chunk has been
    received and the stored contents hash to the hash the file was offered with. *)
Theorem isComplete_refines (σ : fs) u :
  represents σ d n u -> isComplete (handle path e u) σ = (Ok (up_complete u), σ).
Proof. by apply isComplete_run. Qed.

(** C21: saveChunk on a stored upload stores exactly the abstract [up_save]: a chunk of
    the right length inside the file is written at its offset and marked, any other is
    ignored; no other file changes. *)
Theorem saveChunk_refines (σ : fs) u ch :
  represents σ d n u -> 0 <= fc_idx ch < 2 ^ 32 ->
  exists σ', saveChunk (handle path e u) ch σ = (Ok tt, σ') /\
    represents σ' d n (up_save u (fc_idx ch) (fc_data ch)) /\ same_elsewhere d n σ σ'.
Proof. by apply saveChunk_run. Qed.

(** The first offer of a file creates exactly a fresh upload: the directories, a
    data file of the offered size filled with zeros, a metadata file with the offered
    size and hash and no chunk marked; nothing else changes. *)
Theorem new_FileRemote_fresh (σ : fs) hash size :
  0 <= size < 2 ^ 32 -> zlen hash = HASH_SIZE ->
  dirs_free σ (Path.resolve d) ->
  σ !! data_key d n = None -> σ !! data_key d (meta_name n) = None ->
  exists σ1 σ',
    new_FileRemote path hash size e σ =
      (Ok (handle path e (up_start size hash)), σ') /\
    represents σ' d n (up_start size hash) /\
    with_dirs σ σ1 (Path.resolve d) /\ same_elsewhere d n σ1 σ'.
Proof. by apply new_FileRemote_run. Qed.

(** After a restart the server finds the upload again from its metadata file alone:
    makeRemoteFile returns the file with the stored size and hash and changes
    nothing. *)
Theorem makeRemoteFile_refines (σ : fs) prefix u :
  Path.append prefix path = e -> represents σ d n u ->
  makeRemoteFile prefix path σ = (Ok (Some (handle path e u)), σ).
Proof. by apply makeRemoteFile_run. Qed.
End Properties.

(** ** Witnesses *)
Section Witnesses.
Import ToyHash.

(** A file of two chunks whose first chunk is there. *)
Definition sample_upload : upload :=
  mk_upload 5000 (calc_hash_vec (replicate 5000 65)) (replicate 3968 65 ++ zeros 1032) {[0]}.

Definition sample_fs : fs :=
  <[data_key sample_dir sample_name := Reg (up_data sample_upload)]>
  (<[data_key sample_dir (meta_name sample_name) :=
       Reg (header 5000 CHUNK_SIZE (up_hash sample_upload) ++ [128])]>
   {[ [str "in"] := Dir; [str "in"; str "client"] := Dir ]}).

Lemma sample_up_ok : up_ok sample_upload.
Proof.
  constructor; [decide_closed|reflexivity|reflexivity|].
  simpl. intros i Hi. apply elem_of_singleton in Hi as ->. decide_closed.
Qed.

Lemma sample_bitmap : bitmap_of sample_upload [128].
Proof.
  constructor; [reflexivity|decide_closed|].
  intros i Hi. change (up_chunks sample_upload) with 2 in Hi.
  assert (i = 0 \/ i = 1) as [-> | ->] by lia; vm_compute; reflexivity.
Qed.

Lemma sample_represents : represents sample_fs sample_dir sample_name sample_upload.
Proof.
  constructor.
  - apply sample_up_ok.
  - intros q (i & Hi & ->). change (length (Path.resolve sample_dir)) with 2%nat in Hi.
    assert (i = 0%nat \/ i = 1%nat) as [-> | ->] by lia; vm_compute; reflexivity.
  - unfold sample_fs. apply lookup_insert_eq.
  - exists [128]. split; [vm_compute; reflexivity|apply sample_bitmap].
Qed.

Definition sample_handle : File := handle (str "client/file.txt") sample_path sample_upload.

Lemma getNextMissingChunk_refines_witness :
  getNextMissingChunk sample_handle 0 sample_fs = (Ok 1, sample_fs).
Proof.
  exact (getNextMissingChunk_refines _ _ _ _ sample_placed sample_fs sample_upload
    sample_represents).
Defined.

Lemma isComplete_refines_witness :
  isComplete sample_handle sample_fs = (Ok (up_complete sample_upload), sample_fs) /\
  up_complete sample_upload = false.
Proof.
  split; [|vm_compute; reflexivity].
  exact (isComplete_refines (str "client/file.txt") _ _ _ sample_placed sample_fs
    sample_upload sample_represents).
Defined.

Definition sample_chunk : FileChunk := mk_chunk 1 (replicate 1032 65) [].

Lemma saveChunk_refines_witness :
  exists σ', saveChunk sample_handle sample_chunk sample_fs = (Ok tt, σ') /\
    represents σ' sample_dir sample_name (up_save sample_upload 1 (replicate 1032 65)) /\
    same_elsewhere sample_dir sample_name sample_fs σ'.
Proof.
  apply (saveChunk_refines (str "client/file.txt") _ _ _ sample_placed sample_fs
    sample_upload sample_chunk sample_represents).
  decide_closed.
Defined.

Lemma new_FileRemote_fresh_witness :
  exists σ1 σ',
    new_FileRemote (str "client/file.txt") sample_hash 40000 sample_path ∅ =
      (Ok (handle (str "client/file.txt") sample_path (up_start 40000 sample_hash)), σ') /\
    represents σ' sample_dir sample_name (up_start 40000 sample_hash) /\
    with_dirs ∅ σ1 (Path.resolve sample_dir) /\ same_elsewhere sample_dir sample_name σ1 σ'.
Proof.
  apply (new_FileRemote_fresh _ _ _ _ sample_placed ∅);
    [decide_closed|reflexivity| |reflexivity|reflexivity].
  intros q c _. by rewrite lookup_empty.
Defined.

Lemma makeRemoteFile_refines_witness :
  makeRemoteFile (str "/in") (str "client/file.txt") sample_fs =
    (Ok (Some sample_handle), sample_fs).
Proof.
  apply (makeRemoteFile_refines _ _ _ _ sample_placed sample_fs (str "/in") sample_upload);
    [vm_compute; reflexivity|apply sample_represents].
Defined.

End Witnesses.
