(* ===== verification/MsgFctry.v ===== *)
(** * Building messages (src/protocol/ft_msg_fctry.cpp)

    The four builders of MessageFactory. The chunk indices are [uint16_t] parameters
    and the sequence number is one too, so the caller's wider value is cut to 16 bits;
    the sizes of an offer are cut to the 32 bits of the message's fields. *)
From S2P Require Import Prelude StdFs Msg FileMeta File.

Definition buildMsgOffer (seq_number : Z) (client_uuid : bytes) (file : File) : Message :=
  mk_message MSGTYPE_FILE_OFFER 0 (u16 seq_number) client_uuid (Path.filename (f_path file))
    (mk_offer (u32 (f_size file)) (u32 (getNumOfChunks file)) (f_hash file))
    no_chunk_req no_chunk_data.

Definition buildMsgChunkReq (seq_number : Z) (client_uuid : bytes) (file : File)
    (chunk_idx_first chunk_idx_last : Z) : Message :=
  mk_message MSGTYPE_FILE_CHUNK_REQ 0 (u16 seq_number) client_uuid
    (Path.filename (f_path file)) no_offer
    (mk_chunk_req (u16 chunk_idx_first) (u16 chunk_idx_last)) no_chunk_data.

Definition buildMsgComplete (seq_number : Z) (client_uuid : bytes) (file : File) : Message :=
  mk_message MSGTYPE_FILE_COMPLETE 0 (u16 seq_number) client_uuid
    (Path.filename (f_path file)) no_offer no_chunk_req no_chunk_data.

Section Fctry.
Context `{Blake2b}.

(** The chunk hash is left empty. *)
Definition buildMsgChunkData (seq_number : Z) (client_uuid : bytes) (file : File)
    (chunk_idx : Z) : M fs Message :=
  let chunk_idx := u16 chunk_idx in
  fchunk ← getChunk file chunk_idx;
  mret (mk_message MSGTYPE_FILE_CHUNK_DATA 0 (u16 seq_number) client_uuid
          (Path.filename (f_path file)) no_offer no_chunk_req
          (mk_chunk_data chunk_idx (fc_data fchunk) [])).
End Fctry.

(** ** What is built is well formed *)

(** What a message needs from its file: a client id and a name made of bytes. *)
Record sender_ok (client_uuid : bytes) (file : File) : Prop := mk_sender_ok {
  so_uuid : length client_uuid = UUID_SIZE;
  so_uuid_bytes : bytes_ok client_uuid;
  so_name : bytes_ok (Path.filename (f_path file)) }.

Lemma u16_range x : 0 <= u16 x < 2 ^ 16.
Proof. apply wrap_range. lia. Qed.

Lemma u32_range x : 0 <= u32 x < 2 ^ 32.
Proof. apply wrap_range. lia. Qed.

#[export] Hint Resolve u16_range u32_range : ft.

Ltac wf_built Hs := constructor; simpl; try (intros Ht; vm_compute in Ht; discriminate Ht);
  [decide_closed|auto with ft|apply Hs|apply Hs|apply Hs|try intros _..].

Lemma buildMsgOffer_wf seq uuid f :
  sender_ok uuid f -> zlen (f_hash f) = HASH_SIZE -> bytes_ok (f_hash f) ->
  wf_message (buildMsgOffer seq uuid f).
Proof. intros Hs Hl Hb. wf_built Hs. split_and!; auto with ft. all: apply u32_range. Qed.

Lemma buildMsgChunkReq_wf seq uuid f i j :
  sender_ok uuid f -> wf_message (buildMsgChunkReq seq uuid f i j).
Proof.
  intros Hs. wf_built Hs. pose proof (u16_range i). pose proof (u16_range j). lia.
Qed.

Lemma buildMsgComplete_wf seq uuid f :
  sender_ok uuid f -> wf_message (buildMsgComplete seq uuid f).
Proof. intros Hs. wf_built Hs. Qed.

Section ChunkData.
Context `{Blake2b}.

(** The message that carries chunk [i] of the contents [c]. *)
Definition chunk_message (seq : Z) (uuid : bytes) (f : File) (c : bytes) (i : Z) : Message :=
  mk_message MSGTYPE_FILE_CHUNK_DATA 0 (u16 seq) uuid (Path.filename (f_path f)) no_offer
    no_chunk_req (mk_chunk_data i (chunk_of c i) []).

Lemma chunk_of_bytes c i : bytes_ok c -> bytes_ok (chunk_of c i).
Proof. intros. unfold chunk_of. auto with ft. Qed.

Lemma chunk_message_wf seq uuid f c i :
  sender_ok uuid f -> bytes_ok c -> 0 <= i < 2 ^ 16 -> i * CHUNK_SIZE < zlen c ->
  wf_message (chunk_message seq uuid f c i).
Proof.
  intros Hs Hc Hi Hlt. wf_built Hs.
  pose proof (length_chunk_of c i ltac:(lia) ltac:(lia)) as Hl.
  rewrite CHUNK_SIZE_eq in Hl, Hlt. unfold MAX_MSG_PAYLOAD_SIZE, MAX_MSG_SIZE.
  split_and!; [lia|lia|lia|lia|by apply chunk_of_bytes].
Qed.

Lemma buildMsgChunkData_run (σ : fs) seq uuid f c i :
  local_at σ f c -> 0 <= i < 2 ^ 16 -> i * CHUNK_SIZE <= zlen c ->
  buildMsgChunkData seq uuid f i σ = (Ok (chunk_message seq uuid f c i), σ).
Proof.
  intros Hf Hi Hle. unfold buildMsgChunkData. rewrite (wrap_small 16 i) by lia.
  pose proof (getChunk_run σ f c i Hf ltac:(lia)) as Hg.
  rewrite (proj2 (Z.leb_le _ _) Hle) in Hg. by mstep Hg.
Qed.

(** The chunk just past a file whose size is a multiple of the chunk size is empty. *)
Lemma serialize_empty_chunk seq uuid f c i out :
  0 <= i -> i * CHUNK_SIZE = zlen c ->
  serialize (chunk_message seq uuid f c i) out = Throw (length_error "Invalid chunk length").
Proof.
  intros Hi Heq. assert (chunk_of c i = []) as E.
  { apply length_zero_iff_nil. pose proof (length_chunk_of c i). lia. }
  unfold serialize. rewrite copy_n_take.
  2: { unfold filename_len, UINT8_MAX. case_match; bool_to_prop; lia. }
  unfold serialize_fields. simpl. by rewrite E.
Qed.

Lemma buildMsgChunkData_range (σ : fs) seq uuid f c i :
  local_at σ f c -> 0 <= i < 2 ^ 16 -> zlen c < i * CHUNK_SIZE ->
  buildMsgChunkData seq uuid f i σ =
    (Throw (range_error "Chunk index outside file length range"), σ).
Proof.
  intros Hf Hi Hgt. unfold buildMsgChunkData. rewrite (wrap_small 16 i) by lia.
  pose proof (getChunk_run σ f c i Hf ltac:(lia)) as Hg.
  rewrite (proj2 (Z.leb_gt _ _)) in Hg by lia. unfold mbind, M_bind. by rewrite Hg.
Qed.

(** Answering a chunk request, on every branch: a chunk inside the file becomes a
    frame from which the peer parses exactly the index and the bytes of the chunk; the
    index just past a file that is a multiple of the chunk size makes an empty chunk,
    which serialize refuses; any further index is a range_error. Nothing is changed. *)
Theorem buildMsgChunkData_serialize (σ : fs) seq uuid f c i out rest :
  local_at σ f c -> sender_ok uuid f -> bytes_ok c -> 0 <= i < 2 ^ 16 ->
  match (m ← buildMsgChunkData seq uuid f i; lift (serialize m out)) σ with
  | (Ok buf, σ') =>
      σ' = σ /\ i * CHUNK_SIZE < zlen c /\
      exists frame m, buf = out ++ frame /\ parse (frame ++ rest) = Ok m /\
        idx (chunk_data m) = i /\ data (chunk_data m) = chunk_of c i /\
        client_uuid m = uuid /\ file_name m = take 255 (Path.filename (f_path f))
  | (Throw e, σ') =>
      σ' = σ /\
      ((e = length_error "Invalid chunk length" /\ i * CHUNK_SIZE = zlen c) \/
       (e = range_error "Chunk index outside file length range" /\ zlen c < i * CHUNK_SIZE))
  | (Undef, _) => False
  end.
Proof.
  intros Hf Hs Hc Hi.
  destruct (decide (i * CHUNK_SIZE <= zlen c)) as [Hle|Hgt].
  - mstep (buildMsgChunkData_run σ seq uuid f c i Hf Hi Hle). unfold lift.
    destruct (decide (i * CHUNK_SIZE < zlen c)) as [Hlt|Heq].
    + pose proof (chunk_message_wf seq uuid f c i Hs Hc Hi Hlt) as Hwf.
      rewrite serialize_encode by done. split_and!; [done|done|].
      eexists _, _. split; [done|]. rewrite parse_encode by done. done.
    + rewrite serialize_empty_chunk by lia. split; [done|]. left. split; [done|lia].
  - rewrite M_bind_case, (buildMsgChunkData_range σ seq uuid f c i) by (done || lia).
    split; [done|]. right. split; [done|lia].
Qed.

(** An offer of a file of at most 4 GB, a chunk request and a completion reach the
    peer with the fields they were built from; an offer carries the real size, number of
    chunks and hash of the file. *)
Theorem built_messages_received (uuid : bytes) (f : File) seq i rest :
  sender_ok uuid f -> zlen (f_hash f) = HASH_SIZE -> bytes_ok (f_hash f) ->
  0 <= f_size f < 2 ^ 32 -> 0 <= i < 2 ^ 16 ->
  exists fo fr fc mo mr mc,
    serialize (buildMsgOffer seq uuid f) [] = Ok fo /\ parse (fo ++ rest) = Ok mo /\
    msg_type mo = MSGTYPE_FILE_OFFER /\
    offer mo = mk_offer (f_size f) (n_chunks (f_size f)) (f_hash f) /\
    serialize (buildMsgChunkReq seq uuid f i UINT16_MAX) [] = Ok fr /\
    parse (fr ++ rest) = Ok mr /\ msg_type mr = MSGTYPE_FILE_CHUNK_REQ /\
    chunk_idx_first (chunk_req mr) = i /\
    serialize (buildMsgComplete seq uuid f) [] = Ok fc /\ parse (fc ++ rest) = Ok mc /\
    msg_type mc = MSGTYPE_FILE_COMPLETE.
Proof.
  intros Hs Hl Hb Hsz Hi.
  pose proof (buildMsgOffer_wf seq uuid f Hs Hl Hb) as Ho.
  pose proof (buildMsgChunkReq_wf seq uuid f i UINT16_MAX Hs) as Hr.
  pose proof (buildMsgComplete_wf seq uuid f Hs) as Hc.
  rewrite !serialize_encode by done. cbn [app].
  eexists _, _, _, _, _, _.
  split; [done|]. split; [by apply parse_encode|]. split; [done|]. split.
  { simpl. rewrite !wrap_small; [done| |lia].
    pose proof (n_chunks_bounds (f_size f) ltac:(lia)).
    change (0 <= n_chunks (f_size f) < 2 ^ 32). rewrite CHUNK_SIZE_eq in *. lia. }
  split; [done|]. split; [by apply parse_encode|]. split; [done|]. split.
  { simpl. by rewrite wrap_small. }
  split; [done|]. split; [by apply parse_encode|done].
Qed.
End ChunkData.

(** ** Witnesses *)
Section Witnesses.
Import ToyHash.

Lemma sample_sender : sender_ok sample_uuid sample_local.
Proof. constructor; [reflexivity|decide_closed|decide_closed]. Qed.

Lemma sample_local_at : local_at sample_local_fs sample_local sample_content.
Proof.
  constructor; [reflexivity|decide_closed|apply lookup_singleton_eq|reflexivity
    |decide_closed].
Qed.

Lemma buildMsgChunkData_serialize_witness :
  exists frame m,
    (m ← buildMsgChunkData 5 sample_uuid sample_local 1; lift (serialize m [7]))
      sample_local_fs = (Ok ([7] ++ frame), sample_local_fs) /\
    parse (frame ++ [8]) = Ok m /\ data (chunk_data m) = chunk_of sample_content 1.
Proof.
  pose proof (buildMsgChunkData_serialize sample_local_fs 5 sample_uuid sample_local
    sample_content 1 [7] [8] sample_local_at sample_sender ltac:(decide_closed)
    ltac:(lia)) as P.
  destruct ((m ← buildMsgChunkData 5 sample_uuid sample_local 1; lift (serialize m [7]))
    sample_local_fs) as [[buf|e|] σ'].
  - destruct P as (-> & _ & frame & m & -> & P1 & _ & P2 & _).
    exists frame, m. split_and!; [reflexivity|exact P1|exact P2].
  - exfalso. destruct P as [_ [[_ P]|[_ P]]]; vm_compute in P; discriminate P.
  - destruct P.
Defined.

Lemma built_messages_received_witness :
  let f := mk_file sample_path sample_hash 5000 sample_path FileLocal in
  exists fo mo, serialize (buildMsgOffer 1 sample_uuid f) [] = Ok fo /\
    parse (fo ++ [1; 2; 3]) = Ok mo /\ offer mo = mk_offer 5000 (n_chunks 5000) sample_hash.
Proof.
  intros f.
  destruct (built_messages_received sample_uuid f 1 3 [1; 2; 3])
    as (fo & fr & fc & mo & mr & mc & P1 & P2 & _ & P3 & _);
    [constructor; decide_closed|reflexivity|decide_closed|decide_closed|lia|].
  exists fo, mo. split_and!; [exact P1|exact P2|exact P3].
Defined.
End Witnesses.
