(* ===== verification/Conn.v ===== *)
(** * Connections (src/netwrk/ft_conn.hpp, ft_conn.cpp; src/request/ft_req.hpp)

    The byte-by-byte state machine of Connection::handleEvent, which cuts the received
    stream into messages and queues them as requests, and sendBuffer. A socket is the
    list of what the successive calls of [recv] return; at the end of the list there is
    no data for now. *)
From S2P Require Import Prelude Msg.

(** ** errno *)
Definition EINTR : Z := 4.
Definition EBADF : Z := 9.
Definition EAGAIN : Z := 11.
Definition EWOULDBLOCK : Z := EAGAIN.

Inductive recv_result : Type :=
| RecvByte (b : Z)
| RecvClosed
| RecvError (errno : Z).

(** ** Request: a weak pointer to the connection and the message *)
Abbreviation conn_id := nat.

Record Request := mk_request {
  rq_connection : conn_id;
  rq_message : Message }.

(** [getConnection]: null when the connection has been destroyed. *)
Definition getConnection (live : gset conn_id) (r : Request) : option conn_id :=
  if decide (rq_connection r ∈ live) then Some (rq_connection r) else None.

(** ** Connection, with its file descriptor from Pollable *)
Record Connection := mk_conn {
  c_fd : Z;
  c_msg_buf : bytes;
  c_msg_len : Z }.

(** What a call of handleEvent works on: the connection, errno, and the broker (its
    queue; none before setRequestBroker). *)
Record env := mk_env {
  e_conn : Connection;
  e_errno : Z;
  e_broker : option (list Request) }.

Definition setRequestBroker (q : option (list Request)) (s : env) : env :=
  mk_env (e_conn s) (e_errno s) q.

Definition set_fd (fd : Z) (s : env) : env :=
  mk_env (mk_conn fd (c_msg_buf (e_conn s)) (c_msg_len (e_conn s))) (e_errno s) (e_broker s).
Definition set_errno (e : Z) (s : env) : env := mk_env (e_conn s) e (e_broker s).

(** [msg_buf.push_back(b)] *)
Definition push_back (b : Z) (s : env) : env :=
  mk_env (mk_conn (c_fd (e_conn s)) (c_msg_buf (e_conn s) ++ [b]) (c_msg_len (e_conn s)))
    (e_errno s) (e_broker s).
Definition set_msg_len (n : Z) (s : env) : env :=
  mk_env (mk_conn (c_fd (e_conn s)) (c_msg_buf (e_conn s)) n) (e_errno s) (e_broker s).
(** [msg_buf.clear(); msg_len = 0U] *)
Definition clear (s : env) : env :=
  mk_env (mk_conn (c_fd (e_conn s)) [] 0) (e_errno s) (e_broker s).

Definition MAGIC1 : Z := u8 (Z.land (Z.shiftr MAGIC 24) 0xff).
Definition MAGIC2 : Z := u8 (Z.land (Z.shiftr MAGIC 16) 0xff).
Definition MAGIC3 : Z := u8 (Z.land (Z.shiftr MAGIC 8) 0xff).
Definition MAX_MSG_TYPE : Z := u8 (Z.land MSGTYPE_MAX 0xff).

Section Connection.
Context (self : conn_id).

Definition handleMessage : M env unit := fun s =>
  match parse (c_msg_buf (e_conn s)) with
  | Ok msg =>
      (Ok tt, match e_broker s with
              | Some q => setRequestBroker (Some (q ++ [mk_request self msg])) s
              | None => s
              end)
  | Throw e => (Throw e, s)
  | Undef => (Undef, s)
  end.

(** One turn of the loop that received the byte [b]. *)
Definition on_byte (b : Z) : M env unit := fun s =>
  let buf_curr_size := zlen (c_msg_buf (e_conn s)) in
  let len := c_msg_len (e_conn s) in
  if (buf_curr_size =? 0) && (b =? MAGIC1) then (Ok tt, push_back b s)
  else if (buf_curr_size =? 1) && (b =? MAGIC2) then (Ok tt, push_back b s)
  else if (buf_curr_size =? 2) && (b =? MAGIC3) then (Ok tt, push_back b s)
  else if (buf_curr_size =? 3) && (0 <? b) && (b <? MAX_MSG_TYPE) then
    (Ok tt, push_back b s)
  else if buf_curr_size =? 4 then
    (Ok tt, set_msg_len (Z.land (Z.shiftl b 8) 0xff00) (push_back b s))
  else if buf_curr_size =? 5 then
    (Ok tt, set_msg_len (Z.lor len (Z.land b 0x00ff)) (push_back b s))
  else if (6 <=? buf_curr_size) && (buf_curr_size <? u64 (len + 6 - 1)) then
    (Ok tt, push_back b s)
  else if buf_curr_size =? u64 (len + 6 - 1) then
    (handleMessage;; modify clear) (push_back b s)
  else (Ok tt, clear s).

(** The do-while loop; also gives what is left in the socket. *)
Fixpoint recv_loop (rs : list recv_result) (s : env) : res unit * env * list recv_result :=
  match rs with
  | [] => (Ok tt, set_errno EAGAIN s, [])
  | RecvByte b :: rs' =>
      match on_byte b s with
      | (Ok _, s') => recv_loop rs' (set_errno 0 s')
      | (r, s') => (r, s', rs')
      end
  | RecvClosed :: rs' => (Ok tt, set_fd (-1) s, rs')
  | RecvError e :: rs' => (Ok tt, set_errno e s, rs')
  end.

Definition handleEvent (rs : list recv_result) (s : env) :
    res unit * env * list recv_result :=
  match recv_loop rs s with
  | (Ok _, s, rs) =>
      let errno := e_errno s in
      if negb (errno =? EAGAIN) && negb (errno =? EWOULDBLOCK) && negb (errno =? EINTR) &&
         negb (errno =? EBADF)
      then (Throw (system_error errno "Fail reading from the socket"), set_fd (-1) s, rs)
      else (Ok tt, s, rs)
  | r => r
  end.

(** Successive poll events, each with the bytes that are there by then. *)
Fixpoint handleEvents (segments : list (list recv_result)) (s : env) : res unit * env :=
  match segments with
  | [] => (Ok tt, s)
  | rs :: segments' =>
      match handleEvent rs s with
      | (Ok _, s', _) => handleEvents segments' s'
      | (r, s', _) => (r, s')
      end
  end.
End Connection.

(** The constructor from an accepted socket does not initialise msg_len: it holds
    whatever was in memory. *)
Definition new_Connection (fd garbage : Z) : Connection := mk_conn fd [] garbage.

(** The destructor: the descriptors it shuts down and closes. *)
Definition destructor (c : Connection) : list Z :=
  if 0 <=? c_fd c then [c_fd c] else [].

(** ** sendBuffer: what [send] returns, and the bytes the socket took *)

(** The flags of the call are 0 and SIGPIPE is neither blocked nor ignored (the mask of
    SignalHandler does not have it): on a connection that the peer has closed, send does not
    return EPIPE but the process is killed. That is not a value of this type; what it leaves
    behind is that of a process killed at a call, see [Crash] and [Network]. *)
Inductive send_result : Type :=
| Sent (n : nat)
| SendError (errno : Z).

Definition sendBuffer (r : send_result) (buf : bytes) : res bytes :=
  match r with
  | Sent n => Ok (take n buf)
  | SendError e =>
      if negb (e =? EAGAIN) && negb (e =? EWOULDBLOCK) && negb (e =? EINTR)
      then Throw (system_error e "Failed sending data through the socket")
      else Ok []
  end.

(** The bytes that are on their way afterwards: the first ones of the message. *)
Definition taken (r : send_result) (buf : bytes) : bytes :=
  match sendBuffer r buf with Ok sent => sent | _ => [] end.

Lemma taken_prefix (r : send_result) (buf : bytes) : exists lost, buf = taken r buf ++ lost.
Proof.
  unfold taken. destruct r as [n|e]; cbn [sendBuffer].
  - exists (drop n buf). by rewrite take_drop.
  - exists buf. by destruct (_ && _).
Qed.

Lemma taken_nil (r : send_result) : taken r [] = [].
Proof. destruct (taken_prefix r []) as [lost E]. by destruct (taken r []). Qed.

Lemma sendBuffer_cases (r : send_result) (buf : bytes) :
  sendBuffer r buf = Ok (taken r buf) \/ (taken r buf = [] /\ exists x, sendBuffer r buf = Throw x).
Proof.
  unfold taken. destruct r as [n|e]; cbn [sendBuffer]; [by left|].
  destruct (_ && _); [right; eauto|by left].
Qed.

(** ** Streams of bytes *)

(** A run of the loop body over bytes that are all there. *)
Fixpoint on_bytes (self : conn_id) (bs : bytes) : M env unit :=
  match bs with
  | [] => mret tt
  | b :: bs' => on_byte self b;; modify (set_errno 0);; on_bytes self bs'
  end.

Section Streams.
Context (self : conn_id).

Lemma recv_loop_bytes bs rs s :
  recv_loop self (RecvByte <$> bs ++ []) s = recv_loop self (RecvByte <$> bs) s /\
  recv_loop self ((RecvByte <$> bs) ++ rs) s =
    match on_bytes self bs s with
    | (Ok _, s') => recv_loop self rs s'
    | (r, s') => (r, s', snd (recv_loop self ((RecvByte <$> bs) ++ rs) s))
    end.
Proof.
  split; [by rewrite app_nil_r|]. revert s. induction bs as [|b bs IH]; intros s; [done|].
  cbn [fmap list_fmap app recv_loop on_bytes].
  unfold mbind at 1, M_bind at 1. destruct (on_byte self b s) as [[[]|e|] s1]; [|done..].
  apply IH.
Qed.

(** Only a frame that has been received as a whole, and that the parser cannot read, makes
    handleEvent undefined; it is left in the buffer of the connection. *)
Definition unreadable (c : Connection) : Prop :=
  zlen (c_msg_buf c) = u64 (c_msg_len c + 6 - 1) + 1 /\ parse (c_msg_buf c) = Undef.

Lemma on_byte_undef b s s' : on_byte self b s = (Undef, s') -> unreadable (e_conn s').
Proof.
  destruct s as [[fd buf len] e q]. unfold on_byte. cbn [e_conn c_msg_buf c_msg_len].
  do 7 (match goal with |- (if ?c then _ else _) = _ -> _ => destruct c end; [discriminate|]).
  destruct (Z.eqb_spec (zlen buf) (u64 (len + 6 - 1))) as [El|]; [|discriminate].
  unfold mbind, M_bind, handleMessage. cbn [e_conn push_back c_msg_buf].
  destruct (parse (buf ++ [b])) eqn:Ep; intros [= <-]. split; [|exact Ep].
  cbn. rewrite length_app. cbn [length]. lia.
Qed.

Lemma recv_loop_undef rs s s' rs' : recv_loop self rs s = (Undef, s', rs') -> unreadable (e_conn s').
Proof.
  revert s. induction rs as [|[b| |e] rs IH]; intros s; cbn [recv_loop]; try discriminate.
  destruct (on_byte self b s) as [[[]|x|] s1] eqn:E; [apply IH|discriminate|].
  intros [= <- _]. by apply (on_byte_undef b s).
Qed.

Lemma handleEvent_undef rs s s' rs' : handleEvent self rs s = (Undef, s', rs') -> unreadable (e_conn s').
Proof.
  unfold handleEvent. destruct (recv_loop self rs s) as [[[[]|x|] s1] rs1] eqn:E; [|discriminate|].
  - by destruct (_ && _).
  - intros [= <- _]. by apply (recv_loop_undef rs s s1 rs1).
Qed.

Lemma handleEvent_bytes bs s :
  match on_bytes self bs s with
  | (Ok _, s') => handleEvent self (RecvByte <$> bs) s = (Ok tt, set_errno EAGAIN s', [])
  | (r, s') => exists rs', handleEvent self (RecvByte <$> bs) s = (r, s', rs')
  end.
Proof.
  pose proof (proj2 (recv_loop_bytes bs [] s)) as E. rewrite app_nil_r in E.
  unfold handleEvent. destruct (on_bytes self bs s) as [[[]|e|] s']; rewrite E; eauto.
Qed.

Lemma on_bytes_app a b s : on_bytes self (a ++ b) s = (on_bytes self a;; on_bytes self b) s.
Proof.
  revert s. induction a as [|x a IH]; intros s; [done|]. cbn [app on_bytes].
  rewrite !M_bind_assoc. unfold mbind, M_bind.
  destruct (on_byte self x s) as [[[]|e|] s1]; [|done..].
  cbn [modify]. specialize (IH (set_errno 0 s1)). by rewrite IH.
Qed.

Definition with_conn (c : Connection) (s : env) : env := mk_env c (e_errno s) (e_broker s).

(** A state between two messages. *)
Definition idle (fd : Z) (e : Z) (q : option (list Request)) : env :=
  mk_env (mk_conn fd [] 0) e q.

(** Queueing a message. *)
Definition enqueue (m : Message) (q : option (list Request)) : option (list Request) :=
  (fun q => q ++ [mk_request self m]) <$> q.

Lemma type_byte m : wf_message m -> exists t,
  putU32 (msg_type m) = [MAGIC1; MAGIC2; MAGIC3; t] /\ 0 < t < MAX_MSG_TYPE.
Proof.
  intros H. pose proof (wf_type m H) as Ht.
  rewrite !list.elem_of_cons, elem_of_nil in Ht.
  destruct Ht as [Ht|[Ht|[Ht|[Ht|[]]]]]; rewrite Ht;
    (eexists; split; [vm_compute; reflexivity|vm_compute; done]).
Qed.

Lemma length_bytes n : 0 <= n < 2 ^ 16 -> exists hi lo,
  putU16 n = [hi; lo] /\ Z.lor (Z.land (Z.shiftl hi 8) 0xff00) (Z.land lo 0x00ff) = n.
Proof.
  intros Hn. rewrite putU16_eq. eexists _, _. split; [done|].
  pose proof (getU16_putU16 n [] Hn) as E. rewrite app_nil_r, putU16_eq in E.
  change (2 ^ 8) with 256 in *. change (2 ^ 16) with 65536 in *.
  change 0xff00 with (Z.shiftl 255 8). rewrite <- Z.shiftl_land, !land_ff.
  rewrite lor_shiftl_add by (change (2 ^ 8) with 256; zdiv || lia).
  change (2 ^ 8) with 256. zdiv.
Qed.

(** The bytes of the body up to the last one are collected. *)
Lemma on_bytes_body bs buf fd n e q :
  6 <= zlen buf -> zlen buf + zlen bs <= n + 6 - 1 -> 0 <= n < 2 ^ 16 ->
  exists e', on_bytes self bs (mk_env (mk_conn fd buf n) e q) =
    (Ok tt, mk_env (mk_conn fd (buf ++ bs) n) e' q).
Proof.
  revert buf e. induction bs as [|b bs IH]; intros buf e Hb Hl Hn.
  { exists e. by rewrite app_nil_r. }
  cbn [on_bytes]. cbn [length] in Hl.
  assert (on_byte self b (mk_env (mk_conn fd buf n) e q) =
    (Ok tt, mk_env (mk_conn fd (buf ++ [b]) n) e q)) as E.
  { unfold on_byte. simpl. rewrite wrap_small by lia. ztest. done. }
  mstep E. mstep (@eq_refl _ (modify (set_errno 0) (mk_env (mk_conn fd (buf ++ [b]) n) e q))).
  destruct (IH (buf ++ [b]) 0) as [e' E']; [rewrite length_app; simpl; lia..|lia|].
  exists e'. unfold set_errno. simpl. rewrite E'. by rewrite <- app_assoc.
Qed.

(** The last byte of a message hands the whole frame over to the parser. *)
Lemma on_byte_last b buf fd n e q m :
  6 <= zlen buf -> zlen buf = n + 6 - 1 -> 0 <= n < 2 ^ 16 -> parse (buf ++ [b]) = Ok m ->
  on_byte self b (mk_env (mk_conn fd buf n) e q) = (Ok tt, idle fd e (enqueue m q)).
Proof.
  intros Hb Hl Hn Hp. unfold on_byte. simpl. rewrite wrap_small by lia. ztest. simpl.
  unfold handleMessage, push_back. simpl. unfold mbind, M_bind. simpl. rewrite Hp.
  unfold modify, clear. by destruct q.
Qed.

(** The six bytes of the envelope. *)
Lemma on_bytes_envelope t hi lo fd len e q :
  0 < t < MAX_MSG_TYPE ->
  exists e', on_bytes self [MAGIC1; MAGIC2; MAGIC3; t; hi; lo] (mk_env (mk_conn fd [] len) e q) =
    (Ok tt, mk_env (mk_conn fd [MAGIC1; MAGIC2; MAGIC3; t; hi; lo]
       (Z.lor (Z.land (Z.shiftl hi 8) 0xff00) (Z.land lo 0x00ff))) e' q).
Proof.
  intros Ht. exists 0. cbn [on_bytes]. unfold mbind, M_bind, on_byte at 1. simpl.
  unfold on_byte. simpl. rewrite (proj2 (Z.ltb_lt 0 t)), (proj2 (Z.ltb_lt t MAX_MSG_TYPE)) by lia.
  done.
Qed.

(** A serialized message received between two messages is queued. *)
Lemma on_bytes_encode m fd len e q :
  wf_message m ->
  on_bytes self (encode m) (mk_env (mk_conn fd [] len) e q) =
    (Ok tt, idle fd 0 (enqueue (received m (zlen (enc_body m))) q)).
Proof.
  intros H. pose proof (enc_body_bounds m H) as Hn.
  pose proof (parse_encode m [] H) as Hp. rewrite app_nil_r in Hp.
  destruct (type_byte m H) as (t & Et & Ht). unfold encode in *. rewrite Et in *.
  destruct (length_bytes (zlen (enc_body m))) as (hi & lo & El & Elen); [lia|].
  rewrite El in *. set (n := zlen (enc_body m)) in *.
  set (hdr := [MAGIC1; MAGIC2; MAGIC3; t; hi; lo]).
  change ([MAGIC1; MAGIC2; MAGIC3; t] ++ [hi; lo] ++ enc_body m) with (hdr ++ enc_body m) in *.
  destruct (exists_last (l := enc_body m)) as (body & b & Eb).
  { intros E. unfold n in Hn. rewrite E in Hn. simpl in Hn. lia. }
  assert (zlen body = n - 1) as Hbody by (unfold n; rewrite Eb, length_app; simpl; lia).
  rewrite Eb in *. rewrite app_assoc in *. rewrite !on_bytes_app.
  destruct (on_bytes_envelope t hi lo fd len e q Ht) as [e1 E1]. rewrite Elen in E1.
  assert (exists e', (on_bytes self (hdr ++ body)) (mk_env (mk_conn fd [] len) e q) =
    (Ok tt, mk_env (mk_conn fd (hdr ++ body) n) e' q)) as [e2 E2].
  { rewrite on_bytes_app. mstep E1.
    apply on_bytes_body; [simpl; lia|change (zlen hdr) with 6; lia|lia]. }
  mstep E2. cbn [on_bytes].
  mstep (on_byte_last b (hdr ++ body) fd n e2 q _ ltac:(rewrite length_app; simpl; lia)
    ltac:(rewrite length_app, Nat2Z.inj_add; change (zlen hdr) with 6; lia)
    ltac:(lia) Hp).
  done.
Qed.

(** A sequence of messages. *)
Definition encode_all (ms : list Message) : bytes := concat (encode <$> ms).

Definition requests (ms : list Message) : list Request :=
  (fun m => mk_request self (received m (zlen (enc_body m)))) <$> ms.

Lemma on_bytes_encode_all ms fd len e q :
  Forall wf_message ms ->
  exists e' len', on_bytes self (encode_all ms) (mk_env (mk_conn fd [] len) e (Some q)) =
    (Ok tt, mk_env (mk_conn fd [] len') e' (Some (q ++ requests ms))).
Proof.
  intros H. revert len e q. induction H as [|m ms Hm _ IH]; intros len e q.
  { exists e, len. by rewrite app_nil_r. }
  unfold encode_all. cbn [fmap list_fmap concat]. rewrite on_bytes_app.
  mstep (on_bytes_encode m fd len e (Some q) Hm). unfold idle. simpl.
  destruct (IH 0 0 (q ++ [mk_request self (received m (zlen (enc_body m)))]))
    as (e' & len' & E').
  exists e', len'. fold (encode_all ms). rewrite E'. by rewrite <- app_assoc.
Qed.

(** errno is only written by the loop, so two runs agree up to it. *)
Lemma on_bytes_errno bs s1 e :
  exists e', on_bytes self bs (set_errno e s1) =
    (fst (on_bytes self bs s1), set_errno e' (snd (on_bytes self bs s1))).
Proof.
  revert s1 e. induction bs as [|b bs IH]; intros s1 e; [by exists e|].
  cbn [on_bytes]. unfold mbind, M_bind.
  assert (on_byte self b (set_errno e s1) =
    (fst (on_byte self b s1), set_errno e (snd (on_byte self b s1)))) as ->.
  { unfold on_byte. cbn [e_conn set_errno]. repeat case_match; try done.
    unfold mbind, M_bind, handleMessage. cbn [e_conn push_back set_errno e_broker].
    destruct (parse _); [|done..]. by destruct (e_broker s1). }
  destruct (on_byte self b s1) as [[[]|x|] s2]; cbn [fst snd]; eauto.
  unfold modify. exists (e_errno (snd (on_bytes self bs (set_errno 0 s2)))).
  change (set_errno 0 (set_errno e s2)) with (set_errno 0 s2).
  destruct (on_bytes self bs (set_errno 0 s2)) as [? [? ? ?]]. done.
Qed.

(** Poll events cut the stream anywhere. *)
Definition bytes_events (bs : bytes) : list recv_result := RecvByte <$> bs.

Lemma handleEvents_bytes segments s s' :
  on_bytes self (concat segments) s = (Ok tt, s') ->
  exists e', handleEvents self (bytes_events <$> segments) s =
    (Ok tt, set_errno e' s').
Proof.
  revert s s'. induction segments as [|bs segments IH]; intros s s' E.
  { injection E as <-. exists (e_errno s). by destruct s. }
  cbn [concat] in E. rewrite on_bytes_app in E. apply M_bind_inv in E as ([] & s1 & E1 & E2).
  cbn [fmap list_fmap handleEvents]. pose proof (handleEvent_bytes bs s) as Hev.
  rewrite E1 in Hev. unfold bytes_events at 1. rewrite Hev.
  destruct (on_bytes_errno (concat segments) s1 EAGAIN) as [e1 E3]. rewrite E2 in E3. cbn [fst snd] in E3.
  destruct (IH _ _ E3) as [e' ->]. exists e'. done.
Qed.
End Streams.

(** ** Arbitrary input *)

Definition no_throw {A} (r : res A) : Prop := forall e, r <> Throw e.

Lemma no_throw_ok {A} (a : A) : no_throw (Ok a).
Proof. done. Qed.

Lemma no_throw_bind {A B} (r : res A) (f : A -> res B) :
  no_throw r -> (forall a, r = Ok a -> no_throw (f a)) -> no_throw (r ≫= f).
Proof. intros Hr Hf e. destruct r as [a|x|]; simpl; [by apply Hf|by destruct (Hr x)|done]. Qed.

Lemma no_throw_deref it : no_throw (deref it).
Proof. by destruct it. Qed.

Lemma no_throw_getU32 it : no_throw (getU32 it).
Proof.
  with_strategy transparent [getU32] unfold getU32.
  repeat (apply no_throw_bind; [apply no_throw_deref|intros [] _]). done.
Qed.

Lemma no_throw_getU16 it : no_throw (getU16 it).
Proof.
  with_strategy transparent [getU16] unfold getU16.
  repeat (apply no_throw_bind; [apply no_throw_deref|intros [] _]). done.
Qed.

Lemma no_throw_copy_n it n : no_throw (copy_n it n).
Proof. with_strategy transparent [copy_n] unfold copy_n. by case_match. Qed.

Lemma no_throw_get_uuid n it : no_throw (get_uuid n it).
Proof. rewrite get_uuid_case. by case_match. Qed.

#[export] Hint Resolve no_throw_ok no_throw_deref no_throw_getU32 no_throw_getU16
  no_throw_copy_n no_throw_get_uuid : ft.

(** On a frame with one of the four types the constructor does not throw. *)
Lemma parse_known t rest :
  0 < t < MAX_MSG_TYPE -> bytes_ok rest ->
  no_throw (parse ([MAGIC1; MAGIC2; MAGIC3; t] ++ rest)).
Proof.
  intros Ht Hr. change MAX_MSG_TYPE with 5 in Ht. unfold parse. simpl app.
  rewrite getU32_cons by (repeat constructor; unfold is_byte; try (vm_compute; done); lia).
  cbn [mbind res_bind].
  repeat (apply no_throw_bind; [auto with ft|intros [] _]).
  assert (t = 1 \/ t = 2 \/ t = 3 \/ t = 4) as [-> |[-> |[-> | ->]]] by lia.
  all: repeat match goal with |- context [if ?c then _ else _] =>
    first [change c with true|change c with false]; cbn iota end.
  all: repeat (apply no_throw_bind; [auto with ft|intros [] _]); auto with ft.
Qed.

(** The states the loop can be in: a proper prefix of a frame. *)
Inductive conn_ok : bytes -> Z -> Prop :=
| ok_magic n : (n <= 3)%nat -> conn_ok (take n [MAGIC1; MAGIC2; MAGIC3]) 0
| ok_type t : 0 < t < MAX_MSG_TYPE -> conn_ok [MAGIC1; MAGIC2; MAGIC3; t] 0
| ok_len t hi : 0 < t < MAX_MSG_TYPE -> is_byte hi ->
    conn_ok [MAGIC1; MAGIC2; MAGIC3; t; hi] (Z.land (Z.shiftl hi 8) 0xff00)
| ok_body t hi lo body n : 0 < t < MAX_MSG_TYPE -> is_byte hi -> is_byte lo -> bytes_ok body ->
    n = Z.lor (Z.land (Z.shiftl hi 8) 0xff00) (Z.land lo 0x00ff) -> 0 <= n < 2 ^ 16 ->
    zlen body <= Z.max 0 (n - 1) ->
    conn_ok ([MAGIC1; MAGIC2; MAGIC3; t; hi; lo] ++ body) n.

Lemma conn_ok_start : conn_ok [] 0.
Proof. apply (ok_magic 0). lia. Qed.

Lemma conn_ok_size buf n : conn_ok buf n -> zlen buf <= 65540.
Proof.
  intros [k Hk|t Ht|t hi Ht Hh|t hi lo body m Ht Hh Hl Hb -> Hn Hs].
  - rewrite length_take. simpl. lia.
  - simpl. lia.
  - simpl. lia.
  - rewrite length_app. simpl length at 1. lia.
Qed.

Lemma announced_length hi lo :
  is_byte hi -> is_byte lo ->
  0 <= Z.lor (Z.land (Z.shiftl hi 8) 0xff00) (Z.land lo 0x00ff) < 2 ^ 16.
Proof.
  unfold is_byte. intros Hh Hl. change 0xff00 with (Z.shiftl 255 8).
  rewrite <- Z.shiftl_land, !land_ff, !Z.mod_small by lia.
  rewrite lor_shiftl_add by (change (2 ^ 8) with 256; lia).
  change (2 ^ 16) with 65536. change (2 ^ 8) with 256. lia.
Qed.

Section Arbitrary.
Context (self : conn_id).

(** One byte: the buffer grows, or is dropped, or is a frame and handed over. *)
Lemma on_byte_ok b s :
  conn_ok (c_msg_buf (e_conn s)) (c_msg_len (e_conn s)) -> is_byte b ->
  match on_byte self b s with
  | (Ok _, s') =>
      conn_ok (c_msg_buf (e_conn s')) (c_msg_len (e_conn s')) /\
      (c_msg_buf (e_conn s') = c_msg_buf (e_conn s) ++ [b] \/ c_msg_buf (e_conn s') = [])
  | (Throw _, _) => False
  | (Undef, _) => parse (c_msg_buf (e_conn s) ++ [b]) = Undef
  end.
Proof.
  destruct s as [[fd buf n] e q]. cbn [e_conn c_msg_buf c_msg_len]. intros Hok Hb.
  assert (conn_ok [] 0) as H0 by apply conn_ok_start.
  unfold on_byte. cbn [e_conn c_msg_buf c_msg_len].
  destruct Hok as [k Hk|t Ht|t hi Ht Hh|t hi lo body m Ht Hh Hl Hbd En Hn Hs].
  - assert (k = 0 \/ k = 1 \/ k = 2 \/ k = 3)%nat as [-> |[-> |[-> | ->]]] by lia; simpl.
    + destruct (Z.eqb_spec b MAGIC1) as [->|]; simpl; (split; [|auto]); [|done].
      apply (ok_magic 1). lia.
    + destruct (Z.eqb_spec b MAGIC2) as [->|]; simpl; (split; [|auto]); [|done].
      apply (ok_magic 2). lia.
    + destruct (Z.eqb_spec b MAGIC3) as [->|]; simpl; (split; [|auto]); [|done].
      apply (ok_magic 3). lia.
    + destruct ((0 <? b) && (b <? MAX_MSG_TYPE)) eqn:E; simpl; (split; [|auto]); [|done].
      apply ok_type. bool_to_prop. lia.
  - simpl. split; [|auto]. by apply ok_len.
  - simpl. split; [|auto]. apply (ok_body t hi b []); try done.
    + by apply announced_length.
    + simpl. lia.
  - rewrite length_app, Nat2Z.inj_add.
    change (zlen [MAGIC1; MAGIC2; MAGIC3; t; hi; lo]) with 6.
    rewrite wrap_small by lia. ztest. cbn [andb].
    destruct (Z.ltb_spec (6 + zlen body) (m + 6 - 1)).
    + simpl. split; [|auto]. apply (ok_body t hi lo (body ++ [b])); try done.
      * apply Forall_app_2; [done|by constructor].
      * rewrite length_app. simpl. lia.
    + destruct (Z.eqb_spec (6 + zlen body) (m + 6 - 1)); [|by simpl; auto].
      unfold handleMessage, mbind, M_bind, push_back. cbn [e_conn c_msg_buf].
      pose proof (parse_known t ([hi; lo] ++ body ++ [b]) Ht) as Hp.
      change ([MAGIC1; MAGIC2; MAGIC3; t] ++ [hi; lo] ++ body ++ [b]) with
        ([MAGIC1; MAGIC2; MAGIC3; t; hi; lo] ++ body ++ [b]) in Hp. rewrite <- app_assoc.
      destruct (parse _) as [msg|x|]; [|destruct (Hp ltac:(auto 10 with ft) x eq_refl)|done].
      destruct q; simpl; auto.
Qed.

Lemma on_bytes_ok bs s :
  conn_ok (c_msg_buf (e_conn s)) (c_msg_len (e_conn s)) -> bytes_ok bs ->
  match on_bytes self bs s with
  | (Ok _, s') => conn_ok (c_msg_buf (e_conn s')) (c_msg_len (e_conn s'))
  | (Throw _, _) => False
  | (Undef, _) => exists pre frame rest,
      c_msg_buf (e_conn s) ++ bs = pre ++ frame ++ rest /\ parse frame = Undef
  end.
Proof.
  revert s. induction bs as [|b bs IH]; intros s Hok Hbs; [done|].
  apply Forall_cons_iff in Hbs as [Hb Hbs]. cbn [on_bytes].
  unfold mbind, M_bind. pose proof (on_byte_ok b s Hok Hb) as Hstep.
  destruct (on_byte self b s) as [[[]|e|] s1]; [|done|].
  - destruct Hstep as [Hok1 Hbuf]. specialize (IH (set_errno 0 s1) Hok1 Hbs).
    cbn [modify]. destruct (on_bytes self bs (set_errno 0 s1)) as [[[]|e|] s2]; [done..|].
    destruct IH as (pre & frame & rest & E & Hp). cbn [e_conn set_errno] in E.
    destruct Hbuf as [Hbuf|Hbuf]; rewrite Hbuf in E.
    + exists pre, frame, rest. split; [|done]. by rewrite <- E, <- app_assoc.
    + exists (c_msg_buf (e_conn s) ++ [b] ++ pre), frame, rest. split; [|done].
      simpl in E. rewrite E. by rewrite <- !app_assoc.
  - exists [], (c_msg_buf (e_conn s) ++ [b]), bs. split; [by rewrite <- app_assoc|done].
Qed.
End Arbitrary.

(** ** Properties *)
Section Properties.
Context (self : conn_id).

(** Framing: a stream of serialized messages is cut back into exactly these
    messages, queued in order, however the network splits the stream over poll events;
    nothing is left in the buffer, and no assumption is made on the value msg_len starts
    with. *)
Theorem messages_framed ms segments fd len e q :
  Forall wf_message ms -> concat segments = encode_all ms ->
  exists e' len',
    handleEvents self (bytes_events <$> segments) (mk_env (mk_conn fd [] len) e (Some q)) =
      (Ok tt, mk_env (mk_conn fd [] len') e' (Some (q ++ requests self ms))).
Proof.
  intros H E. destruct (on_bytes_encode_all self ms fd len e q H) as (e1 & len' & E1).
  rewrite <- E in E1. apply handleEvents_bytes in E1 as [e' E1].
  exists e', len'. exact E1.
Qed.

(** Any bytes at all: the buffer is always a proper prefix of a frame of at most
    65540 bytes, handleEvent never throws (so the exception for an unknown message type
    cannot be raised by a peer), and the only way to undefined behaviour is a frame whose
    length field is too small for its type. *)
Theorem handleEvent_any_bytes bs s :
  conn_ok (c_msg_buf (e_conn s)) (c_msg_len (e_conn s)) -> bytes_ok bs ->
  match handleEvent self (bytes_events bs) s with
  | (Ok _, s', rs) =>
      rs = [] /\ conn_ok (c_msg_buf (e_conn s')) (c_msg_len (e_conn s')) /\
      zlen (c_msg_buf (e_conn s')) <= 65540
  | (Throw _, _, _) => False
  | (Undef, _, _) => exists pre frame rest,
      c_msg_buf (e_conn s) ++ bs = pre ++ frame ++ rest /\ parse frame = Undef
  end.
Proof.
  intros Hok Hbs. pose proof (on_bytes_ok self bs s Hok Hbs) as Hon.
  pose proof (handleEvent_bytes self bs s) as Hev. fold (bytes_events bs) in Hev.
  destruct (on_bytes self bs s) as [[[]|e|] s'].
  - rewrite Hev. split_and!; [done|done|]. by eapply conn_ok_size.
  - done.
  - by destruct Hev as [rs' ->].
Qed.

(** A peer can make the process read out of bounds with seven bytes: a frame of any
    type that announces one byte of payload. *)
Theorem short_frame_undef t b fd len e q :
  0 < t < MAX_MSG_TYPE -> is_byte b ->
  exists s', handleEvent self (bytes_events [MAGIC1; MAGIC2; MAGIC3; t; 0; 1; b])
    (mk_env (mk_conn fd [] len) e q) = (Undef, s', []).
Proof.
  intros Ht Hb. destruct (on_bytes_envelope self t 0 1 fd len e q Ht) as [e1 E1].
  pose proof (proj2 (recv_loop_bytes self [MAGIC1; MAGIC2; MAGIC3; t; 0; 1] [RecvByte b]
    (mk_env (mk_conn fd [] len) e q))) as E2. rewrite E1 in E2.
  unfold handleEvent, bytes_events.
  change (RecvByte <$> [MAGIC1; MAGIC2; MAGIC3; t; 0; 1; b]) with
    ((RecvByte <$> [MAGIC1; MAGIC2; MAGIC3; t; 0; 1]) ++ [RecvByte b]).
  rewrite E2. cbn [recv_loop]. unfold on_byte. simpl. unfold mbind, M_bind, handleMessage.
  cbn [e_conn c_msg_buf push_back app].
  assert (bytes_ok [MAGIC1; MAGIC2; MAGIC3; t; 0; 1; b]) as Hok.
  { change MAX_MSG_TYPE with 5 in Ht. repeat constructor; unfold is_byte in *;
      try (vm_compute; done); lia. }
  rewrite (proj2 (parse_undef_iff_lem _ Hok)); [by eexists|].
  unfold bytes_needed. simpl. lia.
Qed.

(** What a connection does with a first byte that is not the start of a message
    depends on uninitialised memory: it is dropped, unless msg_len happens to hold
    2^64 - 5, when the one byte is parsed as a message. *)
Theorem first_byte_garbage fd garbage b e q :
  0 <= garbage < 2 ^ 64 -> b <> MAGIC1 -> is_byte b ->
  (garbage <> 2 ^ 64 - 5 ->
     handleEvent self [RecvByte b] (mk_env (new_Connection fd garbage) e q) =
       (Ok tt, mk_env (mk_conn fd [] 0) EAGAIN q, [])) /\
  (garbage = 2 ^ 64 - 5 ->
     exists s', handleEvent self [RecvByte b] (mk_env (new_Connection fd garbage) e q) =
       (Undef, s', [])).
Proof.
  intros Hg Hb Hbyte. set (s := mk_env (new_Connection fd garbage) e q).
  assert (on_byte self b s =
    if 0 =? (garbage + 6 - 1) mod 2 ^ 64 then (handleMessage self;; modify clear) (push_back b s)
    else (Ok tt, clear s)) as E.
  { unfold on_byte. rewrite (proj2 (Z.eqb_neq b MAGIC1) Hb). reflexivity. }
  unfold handleEvent, recv_loop. rewrite E. split; intros Hv.
  - assert ((garbage + 6 - 1) mod 2 ^ 64 <> 0) as Hne by (zify; zdiv).
    rewrite (proj2 (Z.eqb_neq 0 _)) by congruence. done.
  - rewrite Hv. change (0 =? (2 ^ 64 - 5 + 6 - 1) mod 2 ^ 64) with true. cbn iota.
    unfold mbind, M_bind, handleMessage. cbn [e_conn c_msg_buf push_back app].
    change (c_msg_buf (e_conn s) ++ [b]) with [b].
    rewrite (proj2 (parse_undef_iff_lem [b] (proj2 (Forall_singleton _ _) Hbyte))) by done.
    by eexists.
Qed.

Lemma on_bytes_skip junk fd e q :
  Forall (fun b => b <> MAGIC1) junk ->
  exists e', on_bytes self junk (idle fd e q) = (Ok tt, idle fd e' q).
Proof.
  intros H. revert e. induction H as [|b junk Hb _ IH]; intros e; [by eexists|].
  cbn [on_bytes]. assert (on_byte self b (idle fd e q) = (Ok tt, idle fd e q)) as E.
  { unfold on_byte. simpl. by rewrite (proj2 (Z.eqb_neq b MAGIC1) Hb). }
  mstep E. apply (IH 0).
Qed.

(** Resynchronisation: junk without the byte 0x87 is skipped and the message after
    it is received; but a stray 0x87, or a frame that announces no payload, right before
    a message makes the connection lose that message (when no other 0x87 is in it). *)
Theorem resynchronisation m junk t fd e q :
  wf_message m -> Forall (fun b => b <> MAGIC1) junk -> 0 < t < MAX_MSG_TYPE ->
  (exists e', handleEvent self (bytes_events (junk ++ encode m)) (idle fd e q) =
     (Ok tt, idle fd e' (enqueue self (received m (zlen (enc_body m))) q), [])) /\
  (Forall (fun b => b <> MAGIC1) (drop 1 (encode m)) ->
     (exists e', handleEvent self (bytes_events (MAGIC1 :: encode m)) (idle fd e q) =
        (Ok tt, idle fd e' q, [])) /\
     (exists e', handleEvent self
          (bytes_events ([MAGIC1; MAGIC2; MAGIC3; t; 0; 0] ++ encode m)) (idle fd e q) =
        (Ok tt, idle fd e' q, []))).
Proof.
  intros Hm Hj Ht.
  assert (forall bs s s', on_bytes self bs s = (Ok tt, s') ->
    handleEvent self (bytes_events bs) s = (Ok tt, set_errno EAGAIN s', [])) as Hrun.
  { intros bs s s' E. pose proof (handleEvent_bytes self bs s) as Hev. by rewrite E in Hev. }
  destruct (type_byte m Hm) as (t' & Et & _).
  assert (exists tl, encode m = MAGIC1 :: tl) as [tl Etl]
    by (unfold encode; rewrite Et; by eexists).
  split.
  - destruct (on_bytes_skip junk fd e q Hj) as [e1 E1].
    assert (on_bytes self (junk ++ encode m) (idle fd e q) =
      (Ok tt, idle fd 0 (enqueue self (received m (zlen (enc_body m))) q))) as E2.
    { rewrite on_bytes_app. mstep E1. by apply on_bytes_encode. }
    rewrite (Hrun _ _ _ E2). by eexists.
  - rewrite Etl. simpl drop. rewrite drop_0. intros Htl.
    destruct (on_bytes_skip tl fd 0 q Htl) as [e1 E1]. split.
    + assert (on_bytes self (MAGIC1 :: MAGIC1 :: tl) (idle fd e q) = (Ok tt, idle fd e1 q))
        as E2 by (cbn [on_bytes]; unfold mbind, M_bind; simpl; exact E1).
      rewrite (Hrun _ _ _ E2). by eexists.
    + destruct (on_bytes_envelope self t 0 0 fd 0 e q Ht) as [e2 E2].
      assert (on_bytes self ([MAGIC1; MAGIC2; MAGIC3; t; 0; 0] ++ MAGIC1 :: tl)
        (idle fd e q) = (Ok tt, idle fd e1 q)) as E3.
      { rewrite on_bytes_app. unfold idle at 1. mstep E2. cbn [on_bytes].
        unfold mbind, M_bind. simpl. exact E1. }
      rewrite (Hrun _ _ _ E3). by eexists.
Qed.

(** An orderly close after the last message: the messages are queued, then
    handleEvent reports the failure "errno 0" although nothing failed, and the descriptor
    is overwritten without being closed, so that the destructor does not close it
    either. *)
Theorem close_after_messages ms fd len e q :
  Forall wf_message ms -> ms <> [] ->
  exists s', handleEvent self (bytes_events (encode_all ms) ++ [RecvClosed])
      (mk_env (mk_conn fd [] len) e (Some q)) =
      (Throw (system_error 0 "Fail reading from the socket"), s', []) /\
    e_broker s' = Some (q ++ requests self ms) /\ destructor (e_conn s') = [].
Proof.
  intros H Hne. destruct (on_bytes_encode_all self ms fd len e q H) as (e1 & len' & E1).
  pose proof (proj2 (recv_loop_bytes self (encode_all ms) [RecvClosed]
    (mk_env (mk_conn fd [] len) e (Some q)))) as E2. rewrite E1 in E2.
  assert (e1 = 0) as ->.
  { destruct (exists_last Hne) as (ms' & m & ->). apply Forall_app in H as [H Hm].
    apply Forall_cons_iff in Hm as [Hm _].
    destruct (on_bytes_encode_all self ms' fd len e q H) as (e2 & len2 & E3).
    unfold encode_all in E1. rewrite fmap_app, concat_app in E1.
    change (concat (encode <$> [m])) with (encode m ++ []) in E1.
    rewrite app_nil_r, on_bytes_app in E1. fold (encode_all ms') in E1.
    rewrite (M_bind_ok _ _ _ _ _ E3), on_bytes_encode in E1 by done.
    by injection E1. }
  unfold handleEvent, bytes_events. rewrite E2. simpl. by eexists.
Qed.
End Properties.

(** ** Witnesses *)

(** A socket that takes every buffer whole. *)
Definition sent_whole (buf : bytes) : send_result := Sent (length buf).

Definition small_message : Message :=
  mk_message MSGTYPE_FILE_COMPLETE 0 7 sample_uuid (str "f.txt") no_offer no_chunk_req
    no_chunk_data.

Lemma small_message_wf : wf_message small_message.
Proof.
  constructor; try (intros Ht; vm_compute in Ht; discriminate Ht); decide_closed.
Qed.

(** Two messages, the second cut in the middle. *)
Lemma messages_framed_witness :
  exists e' len',
    handleEvents 3 (bytes_events <$>
        [encode small_message ++ take 5 (encode small_message); []; drop 5 (encode small_message)])
      (mk_env (mk_conn 9 [] 77) 0 (Some [])) =
    (Ok tt, mk_env (mk_conn 9 [] len') e'
       (Some (requests 3 [small_message; small_message]))).
Proof.
  apply (messages_framed 3 [small_message; small_message]).
  - repeat apply Forall_cons_2; auto using small_message_wf, Forall_nil_2.
  - vm_compute. reflexivity.
Defined.

Lemma handleEvent_any_bytes_witness :
  match handleEvent 3 (bytes_events [1; 135; 254; 119; 9; 135]) (idle 9 0 None) with
  | (Ok _, s', rs) =>
      rs = [] /\ conn_ok (c_msg_buf (e_conn s')) (c_msg_len (e_conn s')) /\
      zlen (c_msg_buf (e_conn s')) <= 65540
  | (Throw _, _, _) => False
  | (Undef, _, _) => exists pre frame rest,
      [1; 135; 254; 119; 9; 135] = pre ++ frame ++ rest /\ parse frame = Undef
  end.
Proof.
  apply (handleEvent_any_bytes 3 [1; 135; 254; 119; 9; 135] (idle 9 0 None));
    [apply conn_ok_start|decide_closed].
Defined.

Lemma short_frame_undef_witness :
  exists s', handleEvent 3 (bytes_events [MAGIC1; MAGIC2; MAGIC3; 4; 0; 1; 65])
    (mk_env (mk_conn 9 [] 0) 0 None) = (Undef, s', []).
Proof. apply (short_frame_undef 3 4 65 9 0 0 None); decide_closed. Defined.

Lemma first_byte_garbage_witness :
  exists s', handleEvent 3 [RecvByte 65] (mk_env (new_Connection 9 (2 ^ 64 - 5)) 0 None) =
    (Undef, s', []).
Proof.
  destruct (first_byte_garbage 3 9 (2 ^ 64 - 5) 65 0 None) as [_ P];
    [decide_closed|decide_closed|decide_closed|].
  apply P. reflexivity.
Defined.

Lemma resynchronisation_witness :
  (exists e', handleEvent 3 (bytes_events ([1; 2; 254] ++ encode small_message)) (idle 9 0 (Some [])) =
     (Ok tt, idle 9 e' (Some (requests 3 [small_message])), [])) /\
  (exists e', handleEvent 3 (bytes_events (MAGIC1 :: encode small_message)) (idle 9 0 (Some [])) =
     (Ok tt, idle 9 e' (Some []), [])).
Proof.
  destruct (resynchronisation 3 small_message [1; 2; 254] 1 9 0 (Some []))
    as [P1 P2]; [apply small_message_wf|decide_closed|decide_closed|].
  split; [exact P1|]. destruct P2 as [P2 _]; [decide_closed|exact P2].
Defined.

Lemma close_after_messages_witness :
  exists s', handleEvent 3 (bytes_events (encode_all [small_message]) ++ [RecvClosed])
      (mk_env (mk_conn 9 [] 0) 0 (Some [])) =
      (Throw (system_error 0 "Fail reading from the socket"), s', []) /\
    e_broker s' = Some ([] ++ requests 3 [small_message]) /\ destructor (e_conn s') = [].
Proof.
  apply (close_after_messages 3 [small_message] 9 0 0 []); [|discriminate].
  repeat apply Forall_cons_2; auto using small_message_wf, Forall_nil_2.
Defined.
