(* ===== verification/Framing.v ===== *)
(** * What a byte stream means to a connection

    A reference definition of the framing, on the whole stream instead of byte by byte:
    [frames] cuts any list of bytes into the frames it contains and an unfinished rest.
    The state machine of Connection::handleEvent ([Conn]) is proved equivalent to it, for
    every stream and every way the network splits it. *)
From S2P Require Import Prelude Msg Conn.

(** ** The reference definition *)

(** The first thing in a stream: a whole frame, bytes that are dropped, or the beginning
    of a frame. *)
Inductive piece : Type :=
| Whole (frame rest : bytes)
| Skipped (dropped rest : bytes)
| Unfinished.

(** The next byte must be [ok], else it is dropped with what was read before ([seen]). *)
Definition expect (ok : Z -> bool) (seen bs : bytes) (k : bytes -> piece) : piece :=
  match bs with
  | [] => Unfinished
  | b :: rest => if ok b then k rest else Skipped (seen ++ [b]) rest
  end.

(** Three magic bytes, a known type, the length [n] in two bytes and [n] bytes. With a
    length of zero the byte after it is dropped too. *)
Definition next_piece (bs : bytes) : piece :=
  expect (fun b => b =? MAGIC1) [] bs (fun r =>
  expect (fun b => b =? MAGIC2) (take 1 bs) r (fun r =>
  expect (fun b => b =? MAGIC3) (take 2 bs) r (fun r =>
  expect (fun b => (0 <? b) && (b <? MAX_MSG_TYPE)) (take 3 bs) r (fun r =>
  match r with
  | hi :: lo :: body =>
      let n := hi * 256 + lo in
      if n =? 0 then expect (fun _ => false) (take 6 bs) body (fun _ => Unfinished)
      else if zlen body <? n then Unfinished
      else Whole (take (6 + Z.to_nat n) bs) (drop (Z.to_nat n) body)
  | _ => Unfinished
  end)))).

(** Every piece is at least one byte long: the fuel is the length of the stream. *)
Fixpoint cut (fuel : nat) (bs : bytes) : list bytes * bytes :=
  match fuel with
  | O => ([], bs)
  | S fuel' =>
      match next_piece bs with
      | Whole frame rest => let (fs, left) := cut fuel' rest in (frame :: fs, left)
      | Skipped _ rest => cut fuel' rest
      | Unfinished => ([], bs)
      end
  end.

Definition frames (bs : bytes) : list bytes * bytes := cut (length bs) bs.

(** The value of msg_len when the unfinished frame [left] has been received. *)
Definition pending_len (left : bytes) : Z :=
  match left with
  | _ :: _ :: _ :: _ :: hi :: lo :: _ => hi * 256 + lo
  | [_; _; _; _; hi] => hi * 256
  | _ => 0
  end.

(** ** The state machine, one piece at a time *)
Section Framing.
Context (self : conn_id).
Implicit Types (bs : bytes) (fd e : Z) (q : option (list Request)).

(** What the connection becomes when it has received a frame. *)
Definition handed (fd e : Z) (q : option (list Request)) (frame : bytes) (r : res unit * env) : Prop :=
  match parse frame with
  | Ok m => r = (Ok tt, idle fd e (enqueue self m q))
  | Throw x => fst r = Throw x
  | Undef => fst r = Undef
  end.

Lemma announced_eq hi lo :
  is_byte hi -> is_byte lo ->
  Z.lor (Z.land (Z.shiftl hi 8) 0xff00) (Z.land lo 0x00ff) = hi * 256 + lo.
Proof.
  unfold is_byte. intros Hh Hl. change 0xff00 with (Z.shiftl 255 8).
  rewrite <- Z.shiftl_land, !land_ff, !Z.mod_small by lia.
  by rewrite lor_shiftl_add by (change (2 ^ 8) with 256; lia).
Qed.

Lemma on_byte_frame (b : Z) (buf : bytes) fd (n : Z) e q :
  6 <= zlen buf -> zlen buf = n + 6 - 1 -> 0 <= n < 2 ^ 16 ->
  handed fd e q (buf ++ [b]) (on_byte self b (mk_env (mk_conn fd buf n) e q)).
Proof.
  intros Hb Hl Hn. unfold handed, on_byte. simpl. rewrite wrap_small by lia. ztest. simpl.
  unfold handleMessage, push_back, mbind, M_bind. simpl.
  destruct (parse (buf ++ [b])) as [m|x|]; [|done..]. by destruct q.
Qed.

(** A whole frame. *)
Lemma on_bytes_frame (t hi lo : Z) (body : bytes) fd e q :
  0 < t < MAX_MSG_TYPE -> is_byte hi -> is_byte lo ->
  0 < hi * 256 + lo -> zlen body = hi * 256 + lo ->
  let frame := [MAGIC1; MAGIC2; MAGIC3; t; hi; lo] ++ body in
  handed fd 0 q frame (on_bytes self frame (idle fd e q)).
Proof.
  intros Ht Hh Hl Hpos Hn frame. unfold frame.
  set (hdr := [MAGIC1; MAGIC2; MAGIC3; t; hi; lo]).
  destruct (exists_last (l := body)) as (body' & b & ->).
  { intros ->. simpl in Hn. lia. }
  rewrite length_app in Hn. cbn [length] in Hn. unfold is_byte in *.
  rewrite app_assoc, on_bytes_app.
  destruct (on_bytes_envelope self t hi lo fd 0 e q Ht) as [e1 E1].
  rewrite announced_eq in E1 by done. fold (idle fd e q) in E1.
  destruct (on_bytes_body self body' hdr fd (hi * 256 + lo) e1 q) as [e2 E2];
    [done|change (zlen hdr) with 6; lia|lia|].
  assert (on_bytes self (hdr ++ body') (idle fd e q) =
    (Ok tt, mk_env (mk_conn fd (hdr ++ body') (hi * 256 + lo)) e2 q)) as E3.
  { rewrite on_bytes_app. by mstep E1. }
  pose proof (on_byte_frame b (hdr ++ body') fd (hi * 256 + lo) e2 q) as Hf.
  rewrite length_app, Nat2Z.inj_add in Hf. change (zlen hdr) with 6 in Hf.
  specialize (Hf ltac:(lia) ltac:(lia) ltac:(lia)).
  mstep E3. cbn [on_bytes]. unfold handed in *. rewrite M_bind_case.
  destruct (parse ((hdr ++ body') ++ [b])) as [m|x|].
  - by rewrite Hf.
  - by destruct (on_byte _ _ _) as [[[]| |] ?].
  - by destruct (on_byte _ _ _) as [[[]| |] ?].
Qed.

(** Evaluates the machine on bytes that have been compared. *)
Ltac run_bytes := cbn [on_bytes app]; unfold mbind, M_bind, on_byte, idle; simpl.

(** One byte of the header: it is what the machine expects, or the machine starts over. *)
Lemma piece_run bs fd e q :
  bytes_ok bs ->
  match next_piece bs with
  | Whole frame rest =>
      bs = frame ++ rest /\ frame <> [] /\ no_throw (parse frame) /\
      handed fd 0 q frame (on_bytes self frame (idle fd e q))
  | Skipped dropped rest =>
      bs = dropped ++ rest /\ dropped <> [] /\
      on_bytes self dropped (idle fd e q) = (Ok tt, idle fd 0 q)
  | Unfinished => exists e', on_bytes self bs (idle fd e q) =
      (Ok tt, mk_env (mk_conn fd bs (pending_len bs)) e' q)
  end.
Proof.
  intros Hbs. unfold next_piece.
  destruct bs as [|b0 bs]; [by eexists|]. cbn [expect take].
  destruct (Z.eqb_spec b0 MAGIC1) as [->|Hne].
  2: { split_and!; [done|done|]. run_bytes. by rewrite (proj2 (Z.eqb_neq _ _) Hne). }
  destruct bs as [|b1 bs]; [by eexists|]. cbn [expect take].
  destruct (Z.eqb_spec b1 MAGIC2) as [->|Hne].
  2: { split_and!; [done|done|]. run_bytes. by rewrite (proj2 (Z.eqb_neq _ _) Hne). }
  destruct bs as [|b2 bs]; [by eexists|]. cbn [expect take].
  destruct (Z.eqb_spec b2 MAGIC3) as [->|Hne].
  2: { split_and!; [done|done|]. run_bytes. by rewrite (proj2 (Z.eqb_neq _ _) Hne). }
  destruct bs as [|t bs]; [by eexists|]. cbn [expect take].
  destruct ((0 <? t) && (t <? MAX_MSG_TYPE)) eqn:Et.
  2: { split_and!; [done|done|]. run_bytes. by rewrite Et. }
  destruct bs as [|hi bs]; [eexists; run_bytes; by rewrite Et|].
  assert (is_byte hi) as Hhi by (by do 5 apply Forall_cons_iff in Hbs as [? Hbs]).
  assert (Z.land (Z.shiftl hi 8) 0xff00 = hi * 256) as Ehi.
  { rewrite <- (Z.add_0_r (hi * 256)), <- (announced_eq hi 0) by done. by rewrite Z.lor_0_r. }
  destruct bs as [|lo body]; [eexists; run_bytes; by rewrite Et, Ehi|].
  assert (is_byte lo) as Hlo by (by do 6 apply Forall_cons_iff in Hbs as [? Hbs]).
  assert (0 < t < MAX_MSG_TYPE) as Ht by (bool_to_prop; lia).
  destruct (on_bytes_envelope self t hi lo fd 0 e q Ht) as [e1 E1].
  rewrite announced_eq in E1 by done. fold (idle fd e q) in E1.
  set (n := hi * 256 + lo) in *. assert (0 <= n < 2 ^ 16) as Hn by (unfold n, is_byte in *; lia).
  destruct (Z.eqb_spec n 0) as [E0|Hn0].
  - destruct body as [|b body].
    + exists e1. rewrite E1. by unfold pending_len.
    + cbn [expect take]. split_and!; [done|done|].
      rewrite on_bytes_app. mstep E1. rewrite E0. by run_bytes.
  - destruct (Z.ltb_spec (zlen body) n) as [Hlt|Hge].
    + set (hdr := [MAGIC1; MAGIC2; MAGIC3; t; hi; lo]) in *.
      destruct (on_bytes_body self body hdr fd n e1 q) as [e2 E2];
        [done|change (zlen hdr) with 6; lia|lia|].
      exists e2. change (on_bytes self (hdr ++ body) (idle fd e q) =
        (Ok tt, mk_env (mk_conn fd (hdr ++ body) n) e2 q)).
      rewrite on_bytes_app. by mstep E1.
    + apply Forall_app with (l1 := [MAGIC1; MAGIC2; MAGIC3; t; hi; lo]) in Hbs as [_ Hbody].
      split_and!; [simpl; by rewrite take_drop|done| |].
      { apply (parse_known t (hi :: lo :: take (Z.to_nat n) body) Ht). auto with ft. }
      apply (on_bytes_frame t hi lo (take (Z.to_nat n) body)); try done.
      * lia.
      * rewrite length_take. lia.
Qed.

(** *** Any stream *)
Lemma on_bytes_cut (fuel : nat) bs fd e (q : list Request) :
  bytes_ok bs -> (length bs <= fuel)%nat ->
  let (fs, left) := cut fuel bs in
  match mapM parse fs with
  | Ok ms => exists e', on_bytes self bs (idle fd e (Some q)) =
      (Ok tt, mk_env (mk_conn fd left (pending_len left)) e'
         (Some (q ++ (mk_request self <$> ms))))
  | Throw _ => False
  | Undef => fst (on_bytes self bs (idle fd e (Some q))) = Undef
  end.
Proof.
  revert bs e q. induction fuel as [|fuel IH]; intros bs e q Hbs Hl.
  { destruct bs; [|simpl in Hl; lia]. exists e. by rewrite app_nil_r. }
  cbn [cut]. pose proof (piece_run bs fd e (Some q) Hbs) as Hp.
  destruct (next_piece bs) as [frame rest|dropped rest|].
  - destruct Hp as (-> & Hne & Hnt & Hh). apply Forall_app in Hbs as [_ Hrest].
    rewrite length_app in Hl. assert (length frame <> 0%nat) by (by destruct frame).
    destruct (cut fuel rest) as [fs left] eqn:Ec. cbn [mapM mbind res_bind].
    rewrite on_bytes_app, M_bind_case. unfold handed in Hh.
    destruct (parse frame) as [m|x|] eqn:Em; [|by destruct (Hnt x)|].
    + rewrite Hh. cbn [res_bind]. change (enqueue self m (Some q)) with
        (Some (q ++ [mk_request self m])).
      pose proof (IH rest 0 (q ++ [mk_request self m]) Hrest ltac:(lia)) as Hi. rewrite Ec in Hi.
      destruct (mapM parse fs) as [ms|x|]; cbn [res_bind mret res_ret]; [|done..].
      destruct Hi as [e' ->]. exists e'. by rewrite <- app_assoc.
    + cbn [res_bind]. by destruct (on_bytes _ _ _) as [[[]|x|] s'].
  - destruct Hp as (-> & Hne & Hh). apply Forall_app in Hbs as [_ Hrest].
    rewrite length_app in Hl. assert (length dropped <> 0%nat) by (by destruct dropped).
    pose proof (IH rest 0 q Hrest ltac:(lia)) as Hi. destruct (cut fuel rest) as [fs left].
    rewrite on_bytes_app, M_bind_case, Hh. exact Hi.
  - destruct Hp as [e' ->]. exists e'. by rewrite app_nil_r.
Qed.

Lemma handleEvents_undef (segments : list bytes) (s : env) :
  fst (on_bytes self (concat segments) s) = Undef ->
  fst (handleEvents self (bytes_events <$> segments) s) = Undef.
Proof.
  revert s. induction segments as [|bs segments IH]; intros s E; [done|].
  cbn [concat fmap list_fmap handleEvents] in *. rewrite on_bytes_app, M_bind_case in E.
  pose proof (handleEvent_bytes self bs s) as Hev. unfold bytes_events at 1.
  destruct (on_bytes self bs s) as [[[]|x|] s1]; [|done|by destruct Hev as [rs ->]].
  rewrite Hev. apply IH. destruct (on_bytes_errno self (concat segments) s1 EAGAIN) as [e' ->].
  done.
Qed.
End Framing.

(** *** The frames of a stream, parsed *)
Lemma mapM_parse_ok (fs : list bytes) (ms : list Message) :
  mapM parse fs = Ok ms -> Forall2 (fun f m => parse f = Ok m) fs ms.
Proof.
  revert ms. induction fs as [|f fs IH]; intros ms E; cbn in E.
  { injection E as <-. constructor. }
  destruct (parse f) as [m|x|] eqn:Ef; [|done..]. cbn in E.
  destruct (mapM parse fs) as [ms'|x|]; [|done..]. cbn in E. injection E as <-. auto.
Qed.

Lemma mapM_parse_undef (fs : list bytes) :
  mapM parse fs = Undef -> exists f, f ∈ fs /\ parse f = Undef.
Proof.
  induction fs as [|f fs IH]; intros E; cbn in E; [done|].
  destruct (parse f) as [m|x|] eqn:Ef; [|done|].
  - cbn in E. destruct (mapM parse fs) as [ms|x|]; [done|done|].
    destruct (IH eq_refl) as (f' & Hin & Hf'). exists f'. split; [by right|done].
  - exists f. split; [by left|done].
Qed.

Lemma cut_bytes (fuel : nat) (bs : bytes) :
  bytes_ok bs -> Forall (bytes_ok) (fst (cut fuel bs)).
Proof.
  revert bs. induction fuel as [|fuel IH]; intros bs Hbs; [constructor|]. cbn [cut].
  pose proof (piece_run 0 bs 0 0 None Hbs) as Hp.
  destruct (next_piece bs) as [frame rest|dropped rest|]; [| |constructor].
  - destruct Hp as (-> & _). apply Forall_app in Hbs as [Hf Hr]. specialize (IH rest Hr).
    destruct (cut fuel rest) as [fs left]. by constructor.
  - destruct Hp as (-> & _). apply Forall_app in Hbs as [_ Hr]. by apply IH.
Qed.

Lemma framing_run (self : conn_id) (segments : list bytes) (fd e : Z) (q : list Request) :
  bytes_ok (concat segments) ->
  let (fs, left) := frames (concat segments) in
  let run := handleEvents self (bytes_events <$> segments) (idle fd e (Some q)) in
  match mapM parse fs with
  | Ok ms => exists e', run =
      (Ok tt, mk_env (mk_conn fd left (pending_len left)) e'
         (Some (q ++ (mk_request self <$> ms))))
  | Throw _ => False
  | Undef => fst run = Undef
  end.
Proof.
  intros Hbs. pose proof (on_bytes_cut self (length (concat segments)) _ fd e q Hbs
    (Nat.le_refl _)) as Hc.
  unfold frames. destruct (cut _ _) as [fs left]. cbv zeta.
  destruct (mapM parse fs) as [ms|x|]; [|done|by apply handleEvents_undef].
  destruct Hc as [e1 E1]. apply handleEvents_bytes in E1 as [e' E']. by exists e'.
Qed.

(** A stream whose frames are as long as they announce is cut into requests with typed
    messages. *)
Lemma frames_typed (self : conn_id) (segments : list bytes) (fd e : Z) (q : list Request) :
  bytes_ok (concat segments) ->
  Forall (fun frame => bytes_needed frame <= zlen frame) (fst (frames (concat segments))) ->
  exists ms e' left len,
    handleEvents self (bytes_events <$> segments) (idle fd e (Some q)) =
      (Ok tt, mk_env (mk_conn fd left len) e' (Some (q ++ (mk_request self <$> ms)))) /\
    Forall typed_message ms.
Proof.
  intros Hbs Hlong. pose proof (framing_run self segments fd e q Hbs) as Hrun.
  pose proof (cut_bytes (length (concat segments)) _ Hbs) as Hok.
  fold (frames (concat segments)) in Hok.
  destruct (frames (concat segments)) as [fs left]. cbn [fst] in *.
  destruct (mapM parse fs) as [ms|x|] eqn:E; [|done|].
  - destruct Hrun as [e' Hrun]. exists ms, e', left, (pending_len left). split; [done|].
    apply mapM_parse_ok in E. clear Hrun Hlong.
    induction E as [|f m fs ms Ef _ IH]; [constructor|].
    apply Forall_cons_iff in Hok as [Hf Hok].
    destruct (parse_exact_lem f m Hf Ef) as [Hm _]. auto.
  - apply mapM_parse_undef in E as (f & Hin & Hf).
    apply list_elem_of_In in Hin. rewrite Forall_forall in Hlong, Hok.
    apply parse_undef_iff_lem in Hf; [|by apply Hok].
    specialize (Hlong f Hin). lia.
Qed.

(** ** A message that has arrived in part *)
Section Arriving.
Context (self : conn_id).

(** The connection has received [pre] since it was between two messages, and has not
    queued anything. *)
Definition holds_part (pre : bytes) (c : Connection) : Prop :=
  exists fd len, forall e q, exists e',
    on_bytes self pre (mk_env (mk_conn fd [] len) e q) = (Ok tt, mk_env c e' q).

Lemma holds_nothing fd len : holds_part [] (mk_conn fd [] len).
Proof. exists fd, len. intros e q. by exists e. Qed.

(** The first bytes of a message. *)
Lemma on_bytes_part (m : Message) (pre rest : bytes) fd len :
  wf_message m -> encode m = pre ++ rest -> rest <> [] ->
  exists c, forall e q, exists e',
    on_bytes self pre (mk_env (mk_conn fd [] len) e q) = (Ok tt, mk_env c e' q).
Proof.
  intros Hm E Hr. pose proof (enc_body_bounds m Hm) as Hn.
  destruct (type_byte m Hm) as (t & Et & Ht).
  destruct (length_bytes (zlen (enc_body m))) as (hi & lo & El & Elen); [lia|].
  unfold encode in E. rewrite Et, El in E.
  assert ((0 <? t) && (t <? MAX_MSG_TYPE) = true) as Htt by (ztest; done).
  do 6 (destruct pre as [|? pre];
    [eexists; intros e q; eexists; cbn [on_bytes]; unfold mbind, M_bind, on_byte; simpl;
       rewrite ?Htt; unfold push_back, set_errno, set_msg_len; simpl; reflexivity|cbn [app] in E; injection E as <- E]).
  exists (mk_conn fd ([MAGIC1; MAGIC2; MAGIC3; t; hi; lo] ++ pre) (zlen (enc_body m))).
  intros e q. destruct (on_bytes_envelope self t hi lo fd len e q Ht) as [e1 E1].
  rewrite Elen in E1.
  apply (f_equal length) in E. rewrite length_app in E.
  assert (length rest <> 0%nat) by (by destruct rest).
  destruct (on_bytes_body self pre [MAGIC1; MAGIC2; MAGIC3; t; hi; lo] fd (zlen (enc_body m)) e1 q)
    as [e2 E2]; [done|change (zlen [MAGIC1; MAGIC2; MAGIC3; t; hi; lo]) with 6; lia|lia|].
  exists e2. change (MAGIC1 :: MAGIC2 :: MAGIC3 :: t :: hi :: lo :: pre) with
    ([MAGIC1; MAGIC2; MAGIC3; t; hi; lo] ++ pre).
  rewrite on_bytes_app. by mstep E1.
Qed.

(** Some more bytes of the message [m]: it stays unfinished, or it is queued. *)
Lemma handleEvent_part (m : Message) (pre got rest : bytes) c e q :
  wf_message m -> holds_part pre c -> encode m = pre ++ got ++ rest ->
  exists c' e', handleEvent self (bytes_events got) (mk_env c e (Some q)) =
      (Ok tt, mk_env c' e' (Some (q ++ if decide (rest = []) then requests self [m] else [])), []) /\
    holds_part (if decide (rest = []) then [] else pre ++ got) c'.
Proof.
  intros Hm (fd & len & Hpre) E. set (q0 := Some q).
  destruct (Hpre e q0) as [e1 E1].
  assert (exists c' e', on_bytes self (pre ++ got) (mk_env (mk_conn fd [] len) e q0) =
      (Ok tt, mk_env c' e' (Some (q ++ if decide (rest = []) then requests self [m] else []))) /\
    holds_part (if decide (rest = []) then [] else pre ++ got) c') as (c' & e2 & E2 & Hc).
  { case_decide as Hr.
    - subst rest. rewrite app_nil_r in E. rewrite <- E, on_bytes_encode by done.
      unfold idle. eexists _, _. split; [done|]. apply holds_nothing.
    - rewrite app_assoc in E. destruct (on_bytes_part m _ _ fd len Hm E Hr) as [c' Hc'].
      destruct (Hc' e q0) as [e' E']. exists c', e'. rewrite app_nil_r. split; [done|].
      by exists fd, len. }
  rewrite on_bytes_app, (M_bind_ok _ _ _ _ _ E1) in E2.
  destruct (on_bytes_errno self got (mk_env c e1 q0) e) as [e3 E3]. rewrite E2 in E3.
  change (set_errno e (mk_env c e1 q0)) with (mk_env c e q0) in E3. cbn [fst snd] in E3.
  pose proof (handleEvent_bytes self got (mk_env c e q0)) as Hev. rewrite E3 in Hev.
  unfold bytes_events. rewrite Hev. unfold set_errno. cbn [e_conn e_broker].
  eexists _, _. split; [done|exact Hc].
Qed.
End Arriving.

(** ** Properties *)

(** C16: the byte-by-byte state machine is the reference framing: whatever bytes arrive,
    however they are spread over poll events, the connection queues exactly the messages
    of the frames that [frames] finds in the whole stream, in their order, keeps the
    unfinished frame at its end and the length it announces, never throws, and is undefined
    exactly when one of these frames is too short for the parser. *)
Theorem framing_equivalence (self : conn_id) (segments : list bytes) (fd e : Z) (q : list Request) :
  bytes_ok (concat segments) ->
  let (fs, left) := frames (concat segments) in
  let run := handleEvents self (bytes_events <$> segments) (idle fd e (Some q)) in
  match mapM parse fs with
  | Ok ms => exists e', run =
      (Ok tt, mk_env (mk_conn fd left (pending_len left)) e'
         (Some (q ++ (mk_request self <$> ms))))
  | Throw _ => False
  | Undef => fst run = Undef
  end.
Proof. apply framing_run. Qed.

(** ** Witnesses *)

(** Two frames; a stray byte before each, a frame without payload that swallows the next
    byte, and the beginning of a third frame, in three poll events. *)
Lemma framing_equivalence_witness :
  let stream := [9] ++ encode small_message ++ [MAGIC1; MAGIC2; MAGIC3; 1; 0; 0; 9] ++
    encode small_message ++ [MAGIC1; MAGIC2; MAGIC3; 4; 1] in
  frames stream =
    ([encode small_message; encode small_message], [MAGIC1; MAGIC2; MAGIC3; 4; 1]) /\
  exists e', handleEvents 3 (bytes_events <$> [take 4 stream; []; drop 4 stream])
      (idle 9 0 (Some [])) =
    (Ok tt, mk_env (mk_conn 9 [MAGIC1; MAGIC2; MAGIC3; 4; 1] 256) e'
       (Some (requests 3 [small_message; small_message]))).
Proof.
  intros stream. split; [vm_compute; reflexivity|].
  pose proof (framing_equivalence 3 [take 4 stream; []; drop 4 stream] 9 0 []
    ltac:(decide_closed)) as H.
  vm_compute in H. exact H.
Defined.
