(* ===== verification/Sockets.v ===== *)
(** * Opening descriptors (src/netwrk/ft_conn_utils.cpp, the constructors of
    src/netwrk/ft_conn.cpp, src/netwrk/ft_conn_listener.cpp and src/loop/ft_signal.cpp)

    setup_socket_options and the constructors that open the process's sockets and its
    signal descriptor. The kernel is the table of the open descriptors with what was set
    on them; which of its calls fail, with which errno, is a function of the number of
    the call, and a new descriptor is any number not in use. *)
From S2P Require Import Prelude Conn.

(** ** Constants of Linux *)
Definition O_NONBLOCK : Z := 2048.
Definition SOL_SOCKET : Z := 1.
Definition SO_REUSEADDR : Z := 2.
Definition SO_KEEPALIVE : Z := 9.
Definition SO_REUSEPORT : Z := 15.
Definition IPPROTO_TCP : Z := 6.
Definition TCP_KEEPIDLE : Z := 4.
Definition TCP_KEEPINTVL : Z := 5.
Definition TCP_KEEPCNT : Z := 6.
Definition SIGHUP : Z := 1.
Definition SIGINT : Z := 2.
Definition SIGQUIT : Z := 3.
Definition SIGTERM : Z := 15.
Definition SIGTSTP : Z := 20.

(** ** The kernel *)
Record sock := mk_sock {
  s_flags : Z;
  s_opts : gmap (Z * Z) Z;
  s_peer : option bytes;
  s_port : option Z;
  s_backlog : option Z }.

Inductive descr : Type :=
| Socket (s : sock)
| SignalFd (mask : list Z).

Record kernel := mk_kernel {
  k_calls : nat;
  k_errno : Z;
  k_descrs : gmap Z descr;
  k_blocked : list Z }.

Definition new_sock : sock := mk_sock 2 ∅ None None None.

Definition on_sock (f : sock -> sock) (fd : Z) (k : kernel) : kernel :=
  match k_descrs k !! fd with
  | Some (Socket s) =>
      mk_kernel (k_calls k) (k_errno k) (<[fd := Socket (f s)]> (k_descrs k)) (k_blocked k)
  | _ => k
  end.

(** The calls that fail, and the choice of a descriptor. *)
Class Kernel := {
  failure : nat -> option Z;
  free_fd : gset Z -> Z }.

Class KernelLaws `{Kernel} : Prop := {
  free_fd_ok (X : gset Z) : 0 <= free_fd X /\ free_fd X ∉ X }.

Section Kernel.
Context `{Kernel}.

(** A system call: its effect and its value, or errno and -1. *)
Definition syscall (run : kernel -> Z * kernel) : M kernel Z := fun k =>
  let n := k_calls k in
  match failure n with
  | Some e => (Ok (-1), mk_kernel (S n) e (k_descrs k) (k_blocked k))
  | None =>
      let (v, k') := run (mk_kernel (S n) (k_errno k) (k_descrs k) (k_blocked k)) in (Ok v, k')
  end.

Definition set_sock (f : sock -> sock) (fd : Z) : M kernel Z :=
  syscall (fun k => (0, on_sock f fd k)).

Definition open_descr (d : descr) : M kernel Z :=
  syscall (fun k =>
    let fd := free_fd (dom (k_descrs k)) in
    (fd, mk_kernel (k_calls k) (k_errno k) (<[fd := d]> (k_descrs k)) (k_blocked k))).

Definition socket : M kernel Z := open_descr (Socket new_sock).
Definition fcntl_getfl (fd : Z) : M kernel Z :=
  syscall (fun k =>
    (match k_descrs k !! fd with Some (Socket s) => s_flags s | _ => 0 end, k)).
Definition fcntl_setfl (fd flags : Z) : M kernel Z :=
  set_sock (fun s => mk_sock flags (s_opts s) (s_peer s) (s_port s) (s_backlog s)) fd.
Definition setsockopt (fd level opt v : Z) : M kernel Z :=
  set_sock (fun s => mk_sock (s_flags s) (<[(level, opt) := v]> (s_opts s)) (s_peer s)
                       (s_port s) (s_backlog s)) fd.
Definition connect (fd : Z) (addr : bytes) : M kernel Z :=
  set_sock (fun s => mk_sock (s_flags s) (s_opts s) (Some addr) (s_port s) (s_backlog s)) fd.
Definition bind (fd port : Z) : M kernel Z :=
  set_sock (fun s => mk_sock (s_flags s) (s_opts s) (s_peer s) (Some port) (s_backlog s)) fd.
Definition listen (fd n : Z) : M kernel Z :=
  set_sock (fun s => mk_sock (s_flags s) (s_opts s) (s_peer s) (s_port s) (Some n)) fd.
Definition sigprocmask_block (mask : list Z) : M kernel Z :=
  syscall (fun k =>
    (0, mk_kernel (k_calls k) (k_errno k) (k_descrs k) (k_blocked k ++ mask))).
Definition signalfd (mask : list Z) : M kernel Z := open_descr (SignalFd mask).

(** [(void)close(fd)] frees the descriptor whatever it returns. *)
Definition close (fd : Z) : M kernel unit :=
  modify (fun k => mk_kernel (S (k_calls k)) (k_errno k) (delete fd (k_descrs k)) (k_blocked k)).

(** [throw std::system_error(errno, what)] *)
Definition throw_errno {A} (what : string) : M kernel A := fun k =>
  (Throw (system_error (k_errno k) what), k).

(** [if (ret < 0) throw ...] *)
Definition check (ret : Z) (what : string) : M kernel unit :=
  if ret <? 0 then throw_errno what else mret tt.

(** [try { c } catch (std::system_error& e) { handler; throw e; }] *)
Definition on_error (c handler : M kernel unit) : M kernel unit := fun k =>
  match c k with
  | (Throw e, k') => match handler k' with
                     | (Ok _, k'') => (Throw e, k'')
                     | r => r
                     end
  | r => r
  end.

(** ** The program *)
Definition setup_socket_options (fd : Z) : M kernel unit :=
  flags ← fcntl_getfl fd;
  check flags "Failed to get socket flags";;
  ret ← fcntl_setfl fd (Z.lor flags O_NONBLOCK);
  (if negb (ret =? 0) then throw_errno "Failed to set socket flags to non block"
   else mret tt);;
  ret ← setsockopt fd SOL_SOCKET SO_KEEPALIVE 1;
  check ret "Failed to set socket keep alive flag";;
  ret ← setsockopt fd IPPROTO_TCP TCP_KEEPIDLE 1;
  check ret "Failed to set socket keep alive idle time";;
  ret ← setsockopt fd IPPROTO_TCP TCP_KEEPINTVL 1;
  check ret "Failed to set socket keep alive interval";;
  ret ← setsockopt fd IPPROTO_TCP TCP_KEEPCNT 10;
  check ret "Failed to set socket keep alive counter".

(** [Connection::Connection(int fd)] *)
Definition Connection_accepted (fd garbage : Z) : M kernel Connection :=
  on_error (setup_socket_options fd) (close fd);;
  mret (new_Connection fd garbage).

(** The loop over the addresses; the descriptor, or -1. *)
Fixpoint connect_first (rp : list bytes) : M kernel Z :=
  match rp with
  | [] => mret (-1)
  | addr :: rp' =>
      tmpfd ← socket;
      if tmpfd <? 0 then connect_first rp'
      else
        ret ← connect tmpfd addr;
        if 0 <=? ret then mret tmpfd
        else close tmpfd;; connect_first rp'
  end.

(** [Connection::Connection(host, port)]; [resolved] is what getaddrinfo returns: the
    error code and the addresses. *)
Definition Connection_client (resolved : Z * list bytes) (garbage : Z) :
    M kernel Connection :=
  let (ret, result) := resolved in
  if negb (ret =? 0) || bool_decide (result = []) then
    throw (runtime_error "Failed to resolve host name: ")
  else
    tmpfd ← connect_first result;
    if tmpfd <? 0 then throw (runtime_error "Failed to connect to host: ")
    else
      on_error (setup_socket_options tmpfd) (close tmpfd);;
      mret (new_Connection tmpfd garbage).

(** [ConnectionListener::ConnectionListener]: the listening descriptor. *)
Definition new_ConnectionListener (listen_port max_conn : Z) : M kernel Z :=
  tmpfd ← socket;
  check tmpfd "Failed to open listener socket";;
  ret ← setsockopt tmpfd SOL_SOCKET (Z.lor SO_REUSEADDR SO_REUSEPORT) 1;
  check ret "Failed to set socket option";;
  setup_socket_options tmpfd;;
  ret ← bind tmpfd listen_port;
  check ret "Failed to bind socket to listen address/port";;
  ret ← listen tmpfd max_conn;
  check ret "Failed to start listening on address/port";;
  mret tmpfd.

Definition sig_mask : list Z := [SIGINT; SIGQUIT; SIGTERM; SIGTSTP; SIGHUP].

(** [SignalHandler::SignalHandler]: the signal descriptor. *)
Definition new_SignalHandler : M kernel Z :=
  ret ← sigprocmask_block sig_mask;
  check ret "Failed to set SIG_BLOCK";;
  tmpfd ← signalfd sig_mask;
  check tmpfd "Failed to create signal fd";;
  mret tmpfd.
End Kernel.

(** ** Reasoning about system calls *)
Section Rules.
Context `{KernelLaws}.

(** An exception made of the errno of a call that failed. *)
Definition failed (e : exn) : Prop :=
  exists n errno what, failure n = Some errno /\ e = system_error errno what.

Lemma ends_check ret what Q E k :
  (0 <= ret -> Q tt k) -> (ret < 0 -> E (system_error (k_errno k) what) k) ->
  ends (check ret what) Q E k.
Proof. intros H1 H2. unfold ends, check. destruct (Z.ltb_spec ret 0); [by apply H2|by apply H1]. Qed.

(** [k] differs from [k0] in the descriptor [fd], the socket [s]. *)
Record only (fd : Z) (k0 k : kernel) (s : sock) : Prop := mk_only {
  on_descrs : k_descrs k = <[fd := Socket s]> (k_descrs k0);
  on_blocked : k_blocked k = k_blocked k0 }.

Lemma ends_set_sock f fd k0 k s (Q : Z -> kernel -> Prop) E :
  only fd k0 k s ->
  (forall k', only fd k0 k' (f s) -> Q 0 k') ->
  (forall k' n, only fd k0 k' s -> failure n = Some (k_errno k') -> Q (-1) k') ->
  ends (set_sock f fd) Q E k.
Proof.
  intros [Hd Hb] Hok Hfail. unfold ends, set_sock, syscall.
  destruct (failure (k_calls k)) as [e|] eqn:Hf.
  - by apply (Hfail _ (k_calls k)).
  - cbn. apply Hok. unfold on_sock. cbn. rewrite Hd, lookup_insert_eq.
    constructor; [|done]. cbn. apply insert_insert_eq.
Qed.

(** One option, and its check. *)
Lemma ends_set_check f fd what {A} (c : M kernel A) k0 k s Q (E : exn -> kernel -> Prop) :
  only fd k0 k s ->
  (forall k', only fd k0 k' (f s) -> ends c Q E k') ->
  (forall e k', only fd k0 k' s -> failed e -> E e k') ->
  ends (ret ← set_sock f fd; check ret what;; c) Q E k.
Proof.
  intros Hk Hok Hfail. apply ends_bind, (ends_set_sock f fd k0 k s); [done|..].
  - intros k' Hk'. apply ends_bind, ends_check; [intros _; by apply Hok|lia].
  - intros k' n Hk' Hn. apply ends_bind, ends_check; [lia|]. intros _.
    apply Hfail; [done|]. by eexists _, _, _.
Qed.

(** What setup_socket_options makes of a socket. *)
Definition configured (s : sock) : sock :=
  mk_sock (Z.lor (s_flags s) O_NONBLOCK)
    (<[(IPPROTO_TCP, TCP_KEEPCNT) := 10]> (<[(IPPROTO_TCP, TCP_KEEPINTVL) := 1]>
      (<[(IPPROTO_TCP, TCP_KEEPIDLE) := 1]> (<[(SOL_SOCKET, SO_KEEPALIVE) := 1]> (s_opts s)))))
    (s_peer s) (s_port s) (s_backlog s).

Lemma ends_setup fd k0 k s (Q : unit -> kernel -> Prop) (E : exn -> kernel -> Prop) :
  only fd k0 k s -> 0 <= s_flags s ->
  (forall k', only fd k0 k' (configured s) -> Q tt k') ->
  (forall e k' s', only fd k0 k' s' -> failed e -> E e k') ->
  ends (setup_socket_options fd) Q E k.
Proof.
  intros Hk Hfl Hok Hfail. unfold setup_socket_options.
  apply ends_bind. unfold ends at 1, fcntl_getfl, syscall.
  destruct (failure (k_calls k)) as [e|] eqn:Hf.
  { apply ends_bind, ends_check; [lia|]. intros _. destruct Hk.
    apply (Hfail _ _ s); [done|]. by eexists _, _, _. }
  assert (only fd k0 (mk_kernel (S (k_calls k)) (k_errno k) (k_descrs k) (k_blocked k)) s)
    as Hk1 by (by destruct Hk).
  cbn [k_descrs]. rewrite (on_descrs _ _ _ _ Hk), lookup_insert_eq.
  rewrite <- (on_descrs _ _ _ _ Hk).
  apply ends_bind, ends_check; [intros _|lia].
  apply ends_bind, (ends_set_sock _ fd k0 _ s); [done| |].
  2: { intros k' n Hk' Hn. apply ends_bind. unfold ends at 1, throw_errno. cbn.
       apply (Hfail _ _ s); [done|]. by eexists _, _, _. }
  intros k2 Hk2. apply ends_bind, ends_mret.
  eapply ends_set_check; [exact Hk2| |by intros; eapply Hfail]. intros k3 Hk3.
  eapply ends_set_check; [exact Hk3| |by intros; eapply Hfail]. intros k4 Hk4.
  eapply ends_set_check; [exact Hk4| |by intros; eapply Hfail]. intros k5 Hk5.
  apply ends_last, ends_assoc.
  eapply ends_set_check; [exact Hk5| |by intros; eapply Hfail]. intros k6 Hk6.
  apply Hok. exact Hk6.
Qed.
End Rules.

(** ** The constructors *)
Section Constructors.
Context `{KernelLaws}.

(** The specification of the client's choice: the first address for which neither
    [socket] nor [connect] fails, counting the calls made from the [n]-th on (three for
    an address that refuses, with its [close]). *)
Fixpoint first_reachable (rp : list bytes) (n : nat) : option bytes :=
  match rp with
  | [] => None
  | addr :: rp' =>
      match failure n, failure (S n) with
      | Some _, _ => first_reachable rp' (S n)
      | None, Some _ => first_reachable rp' (S (S (S n)))
      | None, None => Some addr
      end
  end.

Definition connected (addr : bytes) : sock := mk_sock 2 ∅ (Some addr) None None.

(** The descriptor the next [socket] gets. *)
Definition next_fd (k : kernel) : Z := free_fd (dom (k_descrs k)).

Lemma next_fd_ok k : 0 <= next_fd k /\ k_descrs k !! next_fd k = None.
Proof.
  destruct (free_fd_ok (dom (k_descrs k))) as [H1 H2]. split; [done|].
  by apply not_elem_of_dom.
Qed.

Lemma ends_open d (Q : Z -> kernel -> Prop) E k :
  (forall k', k_descrs k' = <[next_fd k := d]> (k_descrs k) -> k_blocked k' = k_blocked k ->
     k_calls k' = S (k_calls k) -> failure (k_calls k) = None -> Q (next_fd k) k') ->
  (forall k' e, k_descrs k' = k_descrs k -> k_blocked k' = k_blocked k ->
     k_calls k' = S (k_calls k) -> k_errno k' = e -> failure (k_calls k) = Some e ->
     Q (-1) k') ->
  ends (open_descr d) Q E k.
Proof.
  intros Hok Hfail. unfold ends, open_descr, syscall.
  destruct (failure (k_calls k)) as [e|] eqn:Hf; [by eapply Hfail|]. by apply Hok.
Qed.

Definition after (n : nat) (e : Z) (ds : gmap Z descr) (k : kernel) : kernel :=
  mk_kernel n e ds (k_blocked k).

(** One turn of the loop over the addresses. *)
Lemma connect_first_step addr rp k :
  connect_first (addr :: rp) k =
  match failure (k_calls k), failure (S (k_calls k)) with
  | Some e, _ => connect_first rp (after (S (k_calls k)) e (k_descrs k) k)
  | None, Some e => connect_first rp (after (S (S (S (k_calls k)))) e (k_descrs k) k)
  | None, None => (Ok (next_fd k), after (S (S (k_calls k))) (k_errno k)
      (<[next_fd k := Socket (connected addr)]> (k_descrs k)) k)
  end.
Proof.
  destruct (next_fd_ok k) as [Hfd Hfree]. cbn [connect_first].
  unfold socket, open_descr, connect, set_sock, syscall, close, modify, mbind, M_bind.
  destruct (failure (k_calls k)) as [e|]; [done|]. cbn. fold (next_fd k).
  rewrite (proj2 (Z.ltb_ge _ _)) by lia. cbn.
  destruct (failure (S (k_calls k))) as [e|]; cbn.
  - by rewrite delete_insert_id.
  - unfold on_sock. cbn. rewrite lookup_insert_eq. cbn. by rewrite insert_insert_eq.
Qed.

Lemma connect_first_run rp k :
  exists k', k_blocked k' = k_blocked k /\
    match first_reachable rp (k_calls k) with
    | Some addr => connect_first rp k = (Ok (next_fd k), k') /\
        only (next_fd k) k k' (connected addr)
    | None => connect_first rp k = (Ok (-1), k') /\ k_descrs k' = k_descrs k
    end.
Proof.
  revert k. induction rp as [|addr rp IH]; intros k; [by exists k|].
  rewrite connect_first_step. cbn [first_reachable].
  assert (forall n e, exists k', k_blocked k' = k_blocked k /\
    match first_reachable rp n with
    | Some addr => connect_first rp (after n e (k_descrs k) k) = (Ok (next_fd k), k') /\
        only (next_fd k) k k' (connected addr)
    | None => connect_first rp (after n e (k_descrs k) k) = (Ok (-1), k') /\
        k_descrs k' = k_descrs k
    end) as IH'.
  { intros n e. destruct (IH (after n e (k_descrs k) k)) as (k' & Hb & Hr).
    exists k'. split; [exact Hb|]. cbn [k_calls after] in Hr.
    destruct (first_reachable rp n); [|exact Hr]. destruct Hr as [Hr [? ?]]. by repeat split. }
  destruct (failure (k_calls k)) as [e|]; [apply IH'|].
  destruct (failure (S (k_calls k))) as [e|]; [apply IH'|].
  eexists. split; [|split; [reflexivity|]]; [done|]. by constructor.
Qed.
End Constructors.

Section Properties.
Context `{KernelLaws}.

(** A socket that cannot be set up is closed again. *)
Lemma ends_setup_or_close fd k0 k s (Q : unit -> kernel -> Prop) (E : exn -> kernel -> Prop) :
  only fd k0 k s -> 0 <= s_flags s ->
  (forall k', only fd k0 k' (configured s) -> Q tt k') ->
  (forall e k', k_descrs k' = delete fd (k_descrs k0) -> failed e -> E e k') ->
  ends (on_error (setup_socket_options fd) (close fd)) Q E k.
Proof.
  intros Hk Hfl Hok Hfail.
  assert (ends (setup_socket_options fd) (fun _ k' => only fd k0 k' (configured s))
    (fun e k' => (exists s', only fd k0 k' s') /\ failed e) k) as He.
  { apply (ends_setup fd k0 k s); [done|done|done|]. intros e k' s' ? ?. split; [by exists s'|done]. }
  unfold ends, on_error in *. destruct (setup_socket_options fd k) as [[[]|e|] k'].
  - by apply Hok.
  - destruct He as [[s' [Hd _]] Hf]. cbn. apply Hfail; [|done]. cbn.
    by rewrite Hd, delete_insert_eq.
  - done.
Qed.

(** The constructor of the client's connection, on every branch. *)
Lemma client_connects_run resolved garbage k :
  match Connection_client resolved garbage k with
  | (Ok c, k') => exists addr, fst resolved = 0 /\
      first_reachable (snd resolved) (k_calls k) = Some addr /\
      c = new_Connection (next_fd k) garbage /\
      k_descrs k' = <[next_fd k := Socket (configured (connected addr))]> (k_descrs k)
  | (Throw e, k') => k_descrs k' = k_descrs k /\
      (fst resolved <> 0 \/ first_reachable (snd resolved) (k_calls k) = None \/ failed e)
  | (Undef, _) => False
  end.
Proof.
  destruct resolved as [ret result]. unfold Connection_client. cbn [fst snd].
  destruct (Z.eqb_spec ret 0) as [->|Hret]; cbn [negb orb]; [|cbn; tauto].
  case_bool_decide as Hres; [subst; cbn; tauto|].
  destruct (connect_first_run result k) as (k1 & Hb & Hrun).
  destruct (first_reachable result (k_calls k)) as [addr|]; destruct Hrun as [Hrun Hk1].
  2: { rewrite M_bind_case, Hrun. change (-1 <? 0) with true. cbn. tauto. }
  rewrite M_bind_case, Hrun. destruct (next_fd_ok k) as [Hfd Hfree].
  rewrite (proj2 (Z.ltb_ge _ _)) by lia.
  assert (ends (on_error (setup_socket_options (next_fd k)) (close (next_fd k)))
    (fun _ k' => only (next_fd k) k k' (configured (connected addr)))
    (fun e k' => k_descrs k' = k_descrs k /\ failed e) k1) as He.
  { apply (ends_setup_or_close _ k _ (connected addr)); [done|done|done|].
    intros e k' Hd Hf. by rewrite Hd, delete_id. }
  rewrite M_bind_case. unfold ends in He.
  destruct (on_error _ _ k1) as [[[]|e|] k2]; [|tauto|done].
  destruct He as [Hd _]. by exists addr.
Qed.

(** C29: the client's connection: it is made to the first address of the host that can be
    reached, non blocking and with the keep-alive settings of setup_socket_options; when
    the name does not resolve, no address can be reached or an option cannot be set the
    constructor throws. Whatever fails, no descriptor is left open but the connection's. *)
Theorem client_connects resolved garbage k :
  match Connection_client resolved garbage k with
  | (Ok c, k') => exists addr, fst resolved = 0 /\
      first_reachable (snd resolved) (k_calls k) = Some addr /\
      c = new_Connection (next_fd k) garbage /\
      k_descrs k' = <[next_fd k := Socket (configured (connected addr))]> (k_descrs k)
  | (Throw e, k') => k_descrs k' = k_descrs k /\
      (fst resolved <> 0 \/ first_reachable (snd resolved) (k_calls k) = None \/ failed e)
  | (Undef, _) => False
  end.
Proof. apply client_connects_run. Qed.

(** What the listening socket is when everything succeeds. *)
Definition listening (port n : Z) : sock :=
  configured (mk_sock 2 {[(SOL_SOCKET, SO_REUSEPORT) := 1]} None (Some port) (Some n)).

(** The server's socket: on success it is bound to the port, listening, non blocking
    and with the keep-alive settings; of the two reuse options the code wants only
    SO_REUSEPORT is set, because the options are combined with a bitwise or
    (2 | 15 = 15) although they are not flags. When a call after [socket] fails the
    constructor throws with the new descriptor still open. *)
Theorem listener_opens port n k :
  match new_ConnectionListener port n k with
  | (Ok fd, k') => fd = next_fd k /\
      k_descrs k' = <[fd := Socket (listening port n)]> (k_descrs k) /\
      s_opts (listening port n) !! (SOL_SOCKET, SO_REUSEADDR) = None
  | (Throw e, k') => failed e /\
      (k_descrs k' = k_descrs k \/
       exists s, k_descrs k' = <[next_fd k := Socket s]> (k_descrs k))
  | (Undef, _) => False
  end.
Proof.
  change (ends (new_ConnectionListener port n)
    (fun fd k' => fd = next_fd k /\
       k_descrs k' = <[fd := Socket (listening port n)]> (k_descrs k) /\
       s_opts (listening port n) !! (SOL_SOCKET, SO_REUSEADDR) = None)
    (fun e k' => failed e /\ (k_descrs k' = k_descrs k \/
       exists s, k_descrs k' = <[next_fd k := Socket s]> (k_descrs k))) k).
  assert (forall e k' s', only (next_fd k) k k' s' -> failed e -> failed e /\
    (k_descrs k' = k_descrs k \/
     exists s, k_descrs k' = <[next_fd k := Socket s]> (k_descrs k))) as Hleak.
  { intros e k' s' [Hd _] Hf. split; [done|]. right. by exists s'. }
  destruct (next_fd_ok k) as [Hfd Hfree].
  unfold new_ConnectionListener. apply ends_bind, ends_open.
  2: { intros k1 e Hd _ _ He Hf. apply ends_bind, ends_check; [lia|]. intros _.
       split; [|by left]. rewrite He. by eexists _, _, _. }
  intros k1 Hd Hb _ _. apply ends_bind, ends_check; [intros _|lia].
  assert (only (next_fd k) k k1 new_sock) as Hk1 by done.
  eapply ends_set_check; [exact Hk1| |by intros; eapply Hleak]. intros k2 Hk2.
  apply ends_bind. eapply ends_setup; [exact Hk2|done| |exact Hleak]. intros k3 Hk3.
  eapply ends_set_check; [exact Hk3| |by intros; eapply Hleak]. intros k4 Hk4.
  eapply ends_set_check; [exact Hk4| |by intros; eapply Hleak]. intros k5 [Hd5 _].
  apply ends_mret. split; [done|]. split; [exact Hd5|vm_compute; reflexivity].
Qed.

(** The signal handler: the termination signals are blocked, so that they arrive at the
    descriptor. *)
Theorem signal_handler_opens k :
  match new_SignalHandler k with
  | (Ok fd, k') => fd = next_fd k /\
      k_descrs k' = <[fd := SignalFd sig_mask]> (k_descrs k) /\
      k_blocked k' = k_blocked k ++ sig_mask
  | (Throw e, k') => failed e /\ k_descrs k' = k_descrs k
  | (Undef, _) => False
  end.
Proof.
  destruct (next_fd_ok k) as [Hfd Hfree].
  unfold new_SignalHandler, sigprocmask_block, signalfd, open_descr, check, syscall, mbind, M_bind.
  destruct (failure (k_calls k)) as [e|] eqn:E1; cbn.
  { split; [by eexists _, _, _|done]. }
  destruct (failure (S (k_calls k))) as [e|] eqn:E2; cbn.
  { split; [by eexists _, _, _|done]. }
  fold (next_fd k). rewrite (proj2 (Z.ltb_ge _ _)) by lia. done.
Qed.
End Properties.

(** ** A kernel whose second call fails *)
Module ToyKernel.
#[export] Instance toy_kernel : Kernel := {|
  failure n := if decide (n = 1%nat) then Some 111 else None;
  free_fd X := 1 + foldr Z.max 2 (elements X) |}.

Lemma max_ge (l : list Z) x : x ∈ l -> x <= foldr Z.max 2 l.
Proof.
  induction l as [|y l IH]; [by intros ?%not_elem_of_nil|].
  rewrite list.elem_of_cons. cbn. intros [-> | Hx]; [lia|]. apply IH in Hx. lia.
Qed.

#[export] Instance toy_kernel_laws : KernelLaws.
Proof.
  constructor. intros X. cbn. split.
  - assert (2 <= foldr Z.max 2 (elements X)); [|lia].
    generalize (elements X). intros l. induction l; cbn; lia.
  - rewrite <- elem_of_elements. intros Hin. apply max_ge in Hin. lia.
Qed.
End ToyKernel.

Section Witnesses.
Import ToyKernel.

Definition boot : kernel := mk_kernel 0 0 ∅ [].

(** The first address refuses, the second is connected. *)
Lemma client_connects_witness :
  first_reachable [[1]; [2]] 0 = Some [2] /\
  exists k', Connection_client (0, [[1]; [2]]) 7 boot = (Ok (new_Connection 3 7), k') /\
    k_descrs k' = <[3 := Socket (configured (connected [2]))]> ∅.
Proof.
  split; [reflexivity|].
  pose proof (client_connects (0, [[1]; [2]]) 7 boot) as P.
  destruct (Connection_client (0, [[1]; [2]]) 7 boot) as [[c|e|] k'] eqn:E.
  - destruct P as (addr & _ & Ha & -> & Hd). injection Ha as <-. exists k'. split; done.
  - exfalso. vm_compute in E. discriminate.
  - exfalso. exact P.
Defined.

(** The first setsockopt fails: the socket stays open. *)
Lemma listener_opens_witness :
  exists e k', new_ConnectionListener 4444 1024 boot = (Throw e, k') /\ failed e /\
    k_descrs k' <> k_descrs boot.
Proof.
  pose proof (listener_opens 4444 1024 boot) as P.
  destruct (new_ConnectionListener 4444 1024 boot) as [[fd|e|] k'] eqn:E.
  - exfalso. vm_compute in E. discriminate.
  - exists e, k'. split; [done|]. split; [exact (proj1 P)|].
    apply (f_equal (fun x => k_descrs (snd x))) in E. cbn [snd] in E. rewrite <- E.
    vm_compute. discriminate.
  - exfalso. exact P.
Defined.

Lemma signal_handler_opens_witness :
  exists k', new_SignalHandler boot = (Throw (system_error 111 "Failed to create signal fd"), k').
Proof.
  pose proof (signal_handler_opens boot) as P.
  destruct (new_SignalHandler boot) as [[fd|e|] k'] eqn:E.
  - exfalso. vm_compute in E. discriminate.
  - exists k'. vm_compute in E. by injection E as <- <-.
  - exfalso. exact P.
Defined.
End Witnesses.
