(* ===== verification/PollGrp.v ===== *)
(** * The poll group (src/loop/ft_poll_grp.hpp, ft_poll_grp.cpp, ft_pollable.hpp)

    PollGroup with add, remove and pollAndHandle. A pollable is an object reached through
    a shared pointer: an identity whose state is elsewhere in the program, and whose
    handleEvent may call back into the group (the listener adds connections while the
    group is iterating). What the group needs of its members is the class [Pollables];
    what its theorems need is [PollableLaws]. *)
From S2P Require Import Prelude.

Definition POLLIN : Z := 1.
Definition POLLERR : Z := 8.
Definition POLLHUP : Z := 16.

(** [PollablePtr], compared as a pointer. *)
Abbreviation pollable := nat.

Record pollfd := mk_pollfd {
  pfd_fd : Z;
  pfd_events : Z;
  pfd_revents : Z }.

Record PollGroup := mk_poll_group {
  pg_max_pollables : Z;
  pg_pollables : list pollable;
  pg_cached_pollfd : list pollfd }.

Definition new_PollGroup (max_pollables : Z) : PollGroup := mk_poll_group max_pollables [] [].

(** The objects behind the pointers live in [Obj]. *)
Class Pollables (Obj : Type) := {
  getFD : pollable -> Obj -> Z;
  handleEvent : pollable -> M (PollGroup * Obj) unit }.

(** What [poll] reports: an error, or the events of each entry. *)
Inductive poll_result : Type :=
| PollError (errno : Z)
| Polled (revents : list Z).

Section PollGroup.
Context {Obj : Type} `{Pollables Obj}.
Abbreviation world := (PollGroup * Obj)%type.

(** [cached_pollfd.resize(pollables.size())] and the loop that fills in the descriptors;
    [revents] of an entry that was there already is left as it is. *)
Definition rebuild (o : Obj) (ps : list pollable) (cached : list pollfd) : list pollfd :=
  let resized := take (length ps) cached ++
                 replicate (length ps - length cached) (mk_pollfd 0 0 0) in
  zip_with (fun p c => mk_pollfd (getFD p o) POLLIN (pfd_revents c)) ps resized.

Definition with_pollables (g : PollGroup) (o : Obj) (ps : list pollable) : PollGroup :=
  mk_poll_group (pg_max_pollables g) ps (rebuild o ps (pg_cached_pollfd g)).

Definition add (p : pollable) : M world unit := fun w =>
  let (g, o) := w in
  if pg_max_pollables g <=? zlen (pg_pollables g) then
    (Throw (runtime_error "Maximum pollable limit exceeded"), (g, o))
  else (Ok tt, (with_pollables g o (pg_pollables g ++ [p]), o)).

(** [erase(find(...))] *)
Fixpoint erase_first (p : pollable) (ps : list pollable) : list pollable :=
  match ps with
  | [] => []
  | q :: ps' => if decide (q = p) then ps' else q :: erase_first p ps'
  end.

Definition remove (p : pollable) : M world unit := fun w =>
  let (g, o) := w in
  if decide (p ∈ pg_pollables g) then
    (Ok tt, (with_pollables g o (erase_first p (pg_pollables g)), o))
  else (Ok tt, (g, o)).

(** [vector::at] *)
Definition at_revents (i : Z) : M world Z := fun w =>
  match pg_cached_pollfd (fst w) !! Z.to_nat i with
  | Some c => (Ok (pfd_revents c), w)
  | None => (Throw (out_of_range "vector::_M_range_check"), w)
  end.
Definition at_pollable (i : Z) : M world pollable := fun w =>
  match pg_pollables (fst w) !! Z.to_nat i with
  | Some p => (Ok p, w)
  | None => (Throw (out_of_range "vector::_M_range_check"), w)
  end.

Definition is_set (revents flag : Z) : bool := negb (Z.land revents flag =? 0).

(** Lets the pollable handle available data; its exceptions are only printed. *)
Definition handle_available (i revents : Z) : M world unit :=
  if is_set revents POLLIN then p ← at_pollable i; try_ignore (handleEvent p)
  else mret tt.

(** One turn of the loop over the pollables; returns the index before its increment. *)
Definition poll_body (i : Z) : M world Z :=
  revents ← at_revents i;
  if revents =? 0 then mret i
  else
    handle_available i revents;;
    revents ← at_revents i;
    p ← at_pollable i;
    fd ← gets (fun w => getFD p (snd w));
    if is_set revents POLLERR || is_set revents POLLHUP || (fd =? -1) then
      remove p;; mret (u64 (i - 1))
    else mret i.

(** The loop reads the size of the vector at each turn. *)
Fixpoint poll_loop (fuel : nat) (i : Z) : M world unit := fun w =>
  if i <? zlen (pg_pollables (fst w)) then
    match fuel with
    | O => (Undef, w)
    | S fuel' => (i ← poll_body i; poll_loop fuel' (u64 (i + 1))) w
    end
  else (Ok tt, w).

(** [poll] writes [revents] of every entry and returns how many are not zero. *)
Definition poll_write (revents : list Z) (g : PollGroup) : PollGroup :=
  mk_poll_group (pg_max_pollables g) (pg_pollables g)
    (imap (fun i c => mk_pollfd (pfd_fd c) (pfd_events c) (default 0 (revents !! i)))
       (pg_cached_pollfd g)).

Definition ready (g : PollGroup) : nat :=
  length (filter (fun c => pfd_revents c <> 0) (pg_cached_pollfd g)).

Definition pollAndHandle (fuel : nat) (r : poll_result) : M world bool := fun w =>
  match r with
  | PollError e => (Throw (system_error e "Poll failed"), w)
  | Polled revents =>
      let g := poll_write revents (fst w) in
      (if (0 <? ready g)%nat then poll_loop fuel 0;; mret true else mret true) (g, snd w)
  end.
End PollGroup.

(** ** The invariant of the group *)
Record group_ok (g : PollGroup) : Prop := mk_group_ok {
  go_len : length (pg_cached_pollfd g) = length (pg_pollables g);
  go_max : zlen (pg_pollables g) <= pg_max_pollables g < 2 ^ 16 }.

(** The events the entries hold. *)
Definition revs (g : PollGroup) : list Z := pfd_revents <$> pg_cached_pollfd g.

(** [g'] is [g] with [new] added at the end, without events. *)
Record grown (g g' : PollGroup) (new : list pollable) : Prop := mk_grown {
  gr_ok : group_ok g';
  gr_pollables : pg_pollables g' = pg_pollables g ++ new;
  gr_revs : revs g' = revs g ++ zeros (length new);
  gr_max : pg_max_pollables g' = pg_max_pollables g }.

(** A handler adds to the group at most, and no more than a supply that does not refill
    (the connections waiting to be accepted). *)
Class PollableLaws (Obj : Type) `{Pollables Obj} := {
  budget : Obj -> nat;
  handle_grows p g o r g' o' :
    group_ok g -> handleEvent p (g, o) = (r, (g', o')) ->
    exists new, grown g g' new /\ (length new + budget o' <= budget o)%nat }.

Section Facts.
Context `{Pollables Obj}.

Lemma length_rebuild o ps cached : length (rebuild o ps cached) = length ps.
Proof. unfold rebuild. rewrite length_zip_with. autorewrite with ft_len. lia. Qed.

Lemma rebuild_revs o ps cached :
  pfd_revents <$> rebuild o ps cached =
  take (length ps) (pfd_revents <$> cached) ++ zeros (length ps - length cached).
Proof.
  unfold rebuild. set (l := take (length ps) cached ++ _).
  assert (length ps = length l) as Hl by (unfold l; autorewrite with ft_len; lia).
  assert (take (length ps) (pfd_revents <$> cached) ++ zeros (length ps - length cached) =
          pfd_revents <$> l) as ->.
  { unfold l. by rewrite fmap_app, <- fmap_take, fmap_replicate. }
  clearbody l. revert l Hl. induction ps as [|p ps IH]; intros [|c l] Hl; try done.
  simpl. f_equal. apply IH. simpl in Hl. lia.
Qed.

Lemma grown_refl g : group_ok g -> grown g g [].
Proof. intros. constructor; [done|by rewrite app_nil_r|simpl; by rewrite app_nil_r|done]. Qed.

Lemma grown_trans g1 g2 g3 a b : grown g1 g2 a -> grown g2 g3 b -> grown g1 g3 (a ++ b).
Proof.
  intros [? P1 R1 M1] [? P2 R2 M2]. constructor; [done| | |congruence].
  - by rewrite P2, P1, app_assoc.
  - by rewrite R2, R1, <- app_assoc, length_app, replicate_add.
Qed.

Lemma add_grown p g o :
  group_ok g -> zlen (pg_pollables g) < pg_max_pollables g ->
  exists g', add p (g, o) = (Ok tt, (g', o)) /\ grown g g' [p].
Proof.
  intros [Hl Hm] Hlt. unfold add. ztest. eexists. split; [reflexivity|].
  unfold with_pollables. constructor; cbn [pg_pollables pg_max_pollables]; try done.
  - constructor; cbn; [by rewrite length_rebuild|rewrite length_app; simpl; lia].
  - unfold revs. cbn [pg_cached_pollfd]. rewrite rebuild_revs, Hl, length_app. simpl length.
    rewrite take_ge by (rewrite length_fmap; lia). f_equal. f_equal. lia.
Qed.

Lemma length_erase_first p ps :
  p ∈ ps -> length (erase_first p ps) = (length ps - 1)%nat.
Proof.
  induction ps as [|q ps IH]; [by intros ?%not_elem_of_nil|].
  rewrite list.elem_of_cons. intros Hp. simpl. destruct (decide (q = p)) as [->|Hne]; [lia|].
  destruct Hp as [->|Hp]; [done|]. simpl. rewrite IH by done.
  destruct ps; [by apply not_elem_of_nil in Hp|simpl; lia].
Qed.

Lemma erase_first_middle p l1 l2 : p ∉ l1 -> erase_first p (l1 ++ p :: l2) = l1 ++ l2.
Proof.
  induction l1 as [|q l1 IH]; simpl; [by rewrite decide_True|].
  rewrite list.elem_of_cons. intros Hn. rewrite decide_False by naive_solver.
  f_equal. apply IH. naive_solver.
Qed.

(** Removing shortens the vector of entries at its end: the events stay where they are. *)
Lemma remove_run p g o :
  group_ok g -> p ∈ pg_pollables g ->
  exists g', remove p (g, o) = (Ok tt, (g', o)) /\ group_ok g' /\
    pg_pollables g' = erase_first p (pg_pollables g) /\
    revs g' = take (length (pg_pollables g) - 1) (revs g) /\
    pg_max_pollables g' = pg_max_pollables g.
Proof.
  intros [Hl Hm] Hp. unfold remove. rewrite decide_True by done.
  eexists. split; [reflexivity|]. unfold with_pollables. cbn [pg_pollables pg_max_pollables].
  pose proof (length_erase_first p _ Hp) as He. split_and!; try done.
  - constructor; cbn; [apply length_rebuild|]. rewrite He. lia.
  - unfold revs. cbn [pg_cached_pollfd]. rewrite rebuild_revs, He, Hl.
    replace (length (pg_pollables g) - 1 - length (pg_pollables g))%nat with 0%nat by lia.
    simpl. by rewrite app_nil_r.
Qed.

Lemma at_revents_run i g o v :
  revs g !! Z.to_nat i = Some v -> at_revents (Obj := Obj) i (g, o) = (Ok v, (g, o)).
Proof.
  unfold revs, at_revents. rewrite list_lookup_fmap. cbn [fst].
  destruct (pg_cached_pollfd g !! Z.to_nat i); simpl; [|done]. by intros [= ->].
Qed.

Lemma at_pollable_run i g o p :
  pg_pollables g !! Z.to_nat i = Some p ->
  at_pollable (Obj := Obj) i (g, o) = (Ok p, (g, o)).
Proof. unfold at_pollable. cbn [fst]. by intros ->. Qed.

Lemma index_lookup g i :
  group_ok g -> 0 <= i < zlen (pg_pollables g) ->
  exists v p, revs g !! Z.to_nat i = Some v /\ pg_pollables g !! Z.to_nat i = Some p.
Proof.
  intros [Hl _] Hi. destruct (lookup_lt_is_Some_2 (revs g) (Z.to_nat i)) as [v Hv].
  { unfold revs. rewrite length_fmap. lia. }
  destruct (lookup_lt_is_Some_2 (pg_pollables g) (Z.to_nat i)) as [p Hp]; [lia|].
  by exists v, p.
Qed.

Lemma poll_write_ok revents g : group_ok g -> group_ok (poll_write revents g).
Proof. intros [Hl Hm]. constructor; cbn; [by rewrite length_imap|done]. Qed.

Lemma poll_write_revs revents g :
  length revents = length (pg_cached_pollfd g) -> revs (poll_write revents g) = revents.
Proof.
  intros Hl. unfold revs. cbn. apply list_eq. intros i.
  rewrite list_lookup_fmap, list_lookup_imap.
  destruct (pg_cached_pollfd g !! i) as [c|] eqn:E; simpl.
  - apply lookup_lt_Some in E. rewrite <- Hl in E.
    apply lookup_lt_is_Some_2 in E as [x ->]. done.
  - apply lookup_ge_None in E. symmetry. apply lookup_ge_None. lia.
Qed.
End Facts.

Section Safety.
Context `{PollableLaws Obj}.

(** The try block around a handler. *)
Lemma handle_step i g o p v :
  group_ok g -> pg_pollables g !! Z.to_nat i = Some p ->
  match handle_available i v (g, o) with
  | (Ok _, (g', o')) =>
      exists new, grown g g' new /\ (length new + budget o' <= budget o)%nat
  | (Throw _, _) => False
  | (Undef, _) => fst (handleEvent p (g, o)) = Undef
  end.
Proof.
  intros Hg Hp. unfold handle_available.
  destruct (is_set v POLLIN); [|exists []; split; [by apply grown_refl|simpl; lia]].
  unfold mbind, M_bind. rewrite (at_pollable_run _ _ _ _ Hp). unfold try_ignore.
  destruct (handleEvent p (g, o)) as [r [g' o']] eqn:E.
  pose proof (handle_grows p g o r g' o' Hg E) as (new & Hgrow & Hb).
  destruct r; [by exists new|by exists new|done].
Qed.

(** Each turn handles an entry or removes it: the distance to the end shrinks. *)
Lemma poll_body_step i g o :
  group_ok g -> 0 <= i < zlen (pg_pollables g) ->
  match poll_body i (g, o) with
  | (Ok j, (g', o')) =>
      group_ok g' /\ (budget o' <= budget o)%nat /\
      pg_max_pollables g' = pg_max_pollables g /\
      0 <= u64 (j + 1) <= zlen (pg_pollables g') /\
      zlen (pg_pollables g') - u64 (j + 1) + Z.of_nat (budget o') <
        zlen (pg_pollables g) - i + Z.of_nat (budget o)
  | (Throw _, _) => False
  | (Undef, _) => exists p w, fst (handleEvent p w) = Undef
  end.
Proof.
  intros Hg Hi. destruct (index_lookup g i Hg Hi) as (v & p & Hv & Hp).
  pose proof (go_max g Hg) as Hmax.
  unfold poll_body. mstep (at_revents_run i g o v Hv).
  destruct (Z.eqb_spec v 0).
  { unfold mret, M_ret. rewrite wrap_small by lia. split_and!; [done|done|done|lia..]. }
  pose proof (handle_step i g o p v Hg Hp) as Hh. rewrite M_bind_case.
  destruct (handle_available i v (g, o)) as [[[]|e|] [g1 o1]];
    [|done|by exists p, (g, o)].
  destruct Hh as (new & Hgrow & Hb). pose proof Hgrow as [Hg1 Hps Hrev Hm].
  pose proof (go_max g1 Hg1) as Hmax1. rewrite Hm in Hmax1.
  assert (revs g1 !! Z.to_nat i = Some v) as Hv1
    by (rewrite Hrev; by apply lookup_app_l_Some).
  assert (pg_pollables g1 !! Z.to_nat i = Some p) as Hp1
    by (rewrite Hps; by apply lookup_app_l_Some).
  assert (zlen (pg_pollables g1) = zlen (pg_pollables g) + zlen new) as Hlen1
    by (rewrite Hps, length_app; lia).
  mstep (at_revents_run i g1 o1 v Hv1). mstep (at_pollable_run i g1 o1 p Hp1).
  mstep (@eq_refl _ (gets (fun w : PollGroup * Obj => getFD p w.2) (g1, o1))). cbn [snd].
  destruct (is_set v POLLERR || is_set v POLLHUP || (getFD p o1 =? -1)).
  - destruct (remove_run p g1 o1 Hg1) as (g2 & Hrm & Hg2 & Hps2 & _ & Hm2).
    { by eapply list_elem_of_lookup_2. }
    mstep Hrm. unfold mret, M_ret.
    pose proof (length_erase_first p (pg_pollables g1)
      ltac:(by eapply list_elem_of_lookup_2)) as He. rewrite <- Hps2 in He.
    assert (u64 (u64 (i - 1) + 1) = i) as ->.
    { unfold wrap. rewrite Z.add_mod_idemp_l by lia. rewrite Z.sub_add.
      apply Z.mod_small. lia. }
    split_and!; [done|lia|congruence|lia..].
  - unfold mret, M_ret. rewrite wrap_small by lia. split_and!; [done|lia|done|lia..].
Qed.

Lemma poll_loop_safe fuel i g o :
  group_ok g -> 0 <= i <= zlen (pg_pollables g) ->
  zlen (pg_pollables g) - i + Z.of_nat (budget o) <= Z.of_nat fuel ->
  match poll_loop fuel i (g, o) with
  | (Ok _, (g', o')) =>
      group_ok g' /\ (budget o' <= budget o)%nat /\ pg_max_pollables g' = pg_max_pollables g
  | (Throw _, _) => False
  | (Undef, _) => exists p w, fst (handleEvent p w) = Undef
  end.
Proof.
  revert i g o. induction fuel as [|fuel IH]; intros i g o Hg Hi Hf; cbn [poll_loop fst].
  { rewrite (proj2 (Z.ltb_ge _ _)) by lia. done. }
  destruct (Z.ltb_spec i (zlen (pg_pollables g))) as [Hlt|]; [|done].
  pose proof (poll_body_step i g o Hg ltac:(lia)) as Hs.
  rewrite M_bind_case. destruct (poll_body i (g, o)) as [[j|e|] [g1 o1]]; try done.
  destruct Hs as (Hg1 & Hb & Hm & Hj & Hd). pose proof (IH _ g1 o1 Hg1 Hj ltac:(lia)) as Hl.
  destruct (poll_loop fuel (u64 (j + 1)) (g1, o1)) as [[[]|e|] [g2 o2]]; [|done|done].
  destruct Hl as (? & ? & ?). split_and!; [done|lia|congruence].
Qed.

Lemma pollAndHandle_run fuel r g o :
  group_ok g -> (length (pg_pollables g) + budget o <= fuel)%nat ->
  match pollAndHandle fuel r (g, o) with
  | (Ok b, (g', o')) => b = true /\ group_ok g' /\ (budget o' <= budget o)%nat /\
      pg_max_pollables g' = pg_max_pollables g /\ exists revents, r = Polled revents
  | (Throw e, (g', o')) =>
      (g', o') = (g, o) /\ exists errno, r = PollError errno /\
        e = system_error errno "Poll failed"
  | (Undef, _) => exists p w, fst (handleEvent p w) = Undef
  end.
Proof.
  intros Hg Hf. destruct r as [e|revents]; cbn [pollAndHandle fst snd].
  { split; [done|]. by exists e. }
  pose proof (poll_write_ok revents g Hg) as Hg0.
  destruct (0 <? ready _)%nat; [|split_and!; [done|done|done|done|by eexists]].
  pose proof (poll_loop_safe fuel 0 (poll_write revents g) o Hg0) as Hl.
  change (pg_pollables (poll_write revents g)) with (pg_pollables g) in Hl.
  rewrite M_bind_case. specialize (Hl ltac:(lia) ltac:(lia)).
  destruct (poll_loop fuel 0 (poll_write revents g, o)) as [[[]|e|] [g1 o1]]; [|done|done].
  destruct Hl as (? & ? & ?). split_and!; [done|done|done|done|by eexists].
Qed.

(** C23: pollAndHandle keeps the group well formed (one poll entry per pollable, no more
    than the maximum), terminates whatever events are reported and whatever its handlers
    add to it, never runs past its vectors (the checks of [at] never throw), and no
    exception of a handler leaves it: undefined behaviour inside a handler is the only
    other outcome. The unsigned index that is decremented below zero comes back to 0. *)
Theorem pollAndHandle_safe fuel r g o :
  group_ok g -> (length (pg_pollables g) + budget o <= fuel)%nat ->
  match pollAndHandle fuel r (g, o) with
  | (Ok b, (g', _)) => b = true /\ group_ok g' /\ exists revents, r = Polled revents
  | (Throw e, (g', o')) =>
      (g', o') = (g, o) /\ exists errno, r = PollError errno /\
        e = system_error errno "Poll failed"
  | (Undef, _) => exists p w, fst (handleEvent p w) = Undef
  end.
Proof.
  intros Hg Hf. pose proof (pollAndHandle_run fuel r g o Hg Hf) as Hrun.
  destruct (pollAndHandle fuel r (g, o)) as [[b|e|] [g' o']];
    [by destruct Hrun as (? & ? & _ & _ & ?)|done|done].
Qed.
End Safety.

Lemma erase_first_subset p ps : erase_first p ps ⊆ ps.
Proof.
  induction ps as [|x ps IH]; [done|]. cbn. destruct (decide (x = p)); set_solver.
Qed.

(** ** Invariants of what is behind the pointers

    What every handler keeps and what does not mind a pollable leaving the group holds after
    a call of pollAndHandle, whatever events it finds; and if the call is undefined then one
    of the handlers was, and has left the objects in a state that is [Bad]. *)
Section Invariants.
Context `{PollableLaws Obj} (Inv : list pollable -> Obj -> Prop) (Bad : Obj -> Prop).

Definition handled {A} (x : res A * (PollGroup * Obj)) : Prop :=
  match x with
  | (Undef, (_, o')) => Bad o'
  | (_, (g', o')) => Inv (pg_pollables g') o'
  end.

Definition returned {A} (x : res A * (PollGroup * Obj)) : Prop :=
  match x with
  | (Ok _, (g', o')) => Inv (pg_pollables g') o'
  | (Throw _, _) => False
  | (Undef, (_, o')) => Bad o'
  end.

Context (Hhandle : forall p g o, group_ok g -> p ∈ pg_pollables g -> Inv (pg_pollables g) o ->
  handled (handleEvent p (g, o))).
Context (Hremove : forall p ps o, p ∈ ps -> Inv ps o -> Inv (erase_first p ps) o).

Lemma handle_available_inv i g o p v :
  group_ok g -> pg_pollables g !! Z.to_nat i = Some p -> Inv (pg_pollables g) o ->
  returned (handle_available i v (g, o)).
Proof.
  intros Hg Hp Hi. unfold handle_available. destruct (is_set v POLLIN); [|done].
  rewrite (M_bind_ok _ _ _ _ _ (at_pollable_run i g o p Hp)). unfold try_ignore.
  pose proof (Hhandle p g o Hg ltac:(by eapply list_elem_of_lookup_2) Hi) as Hh.
  by destruct (handleEvent p (g, o)) as [[[]|e|] [g' o']].
Qed.

Lemma poll_body_inv i g o :
  group_ok g -> 0 <= i < zlen (pg_pollables g) -> Inv (pg_pollables g) o ->
  returned (poll_body i (g, o)).
Proof.
  intros Hg Hi HI. destruct (index_lookup g i Hg Hi) as (v & p & Hv & Hp).
  unfold poll_body. mstep (at_revents_run i g o v Hv).
  destruct (Z.eqb_spec v 0); [done|].
  pose proof (handle_available_inv i g o p v Hg Hp HI) as HI1.
  pose proof (handle_step i g o p v Hg Hp) as Hh. rewrite M_bind_case.
  destruct (handle_available i v (g, o)) as [[[]|e|] [g1 o1]]; [|done..].
  destruct Hh as (new & [Hg1 Hps Hrev _] & _).
  assert (revs g1 !! Z.to_nat i = Some v) as Hv1 by (rewrite Hrev; by apply lookup_app_l_Some).
  assert (pg_pollables g1 !! Z.to_nat i = Some p) as Hp1 by (rewrite Hps; by apply lookup_app_l_Some).
  mstep (at_revents_run i g1 o1 v Hv1). mstep (at_pollable_run i g1 o1 p Hp1).
  mstep (@eq_refl _ (gets (fun w : PollGroup * Obj => getFD p w.2) (g1, o1))). cbn [snd].
  destruct (is_set v POLLERR || is_set v POLLHUP || (getFD p o1 =? -1)); [|done].
  assert (p ∈ pg_pollables g1) as Hin by (by eapply list_elem_of_lookup_2).
  destruct (remove_run p g1 o1 Hg1 Hin) as (g2 & Hrm & _ & Hps2 & _).
  mstep Hrm. cbn. rewrite Hps2. by apply Hremove.
Qed.

Lemma poll_loop_inv fuel i g o :
  group_ok g -> 0 <= i <= zlen (pg_pollables g) ->
  zlen (pg_pollables g) - i + Z.of_nat (budget o) <= Z.of_nat fuel -> Inv (pg_pollables g) o ->
  returned (poll_loop fuel i (g, o)).
Proof.
  revert i g o. induction fuel as [|fuel IH]; intros i g o Hg Hi Hf HI; cbn [poll_loop fst].
  { by rewrite (proj2 (Z.ltb_ge _ _)) by lia. }
  destruct (Z.ltb_spec i (zlen (pg_pollables g))) as [Hlt|]; [|done].
  pose proof (poll_body_inv i g o Hg ltac:(lia) HI) as HI1.
  pose proof (poll_body_step i g o Hg ltac:(lia)) as Hs. rewrite M_bind_case.
  destruct (poll_body i (g, o)) as [[j|e|] [g1 o1]]; [|done..].
  destruct Hs as (Hg1 & _ & _ & Hj & Hd). apply IH; [done|done|lia|done].
Qed.

Lemma pollAndHandle_inv fuel revents g o :
  group_ok g -> (length (pg_pollables g) + budget o <= fuel)%nat -> Inv (pg_pollables g) o ->
  match pollAndHandle fuel (Polled revents) (g, o) with
  | (Ok b, (g', o')) => b = true /\ group_ok g' /\ Inv (pg_pollables g') o'
  | (Throw _, _) => False
  | (Undef, (_, o')) => Bad o'
  end.
Proof.
  intros Hg Hf HI. pose proof (pollAndHandle_run fuel (Polled revents) g o Hg Hf) as Hrun.
  assert (returned (pollAndHandle fuel (Polled revents) (g, o))) as HI'.
  { unfold pollAndHandle. cbn [fst snd].
    destruct (0 <? ready _)%nat; [|done].
    pose proof (poll_loop_inv fuel 0 (poll_write revents g) o (poll_write_ok _ _ Hg)
      ltac:(cbn; lia) ltac:(cbn; lia) HI) as Hl.
    rewrite M_bind_case. by destruct (poll_loop _ _ _) as [[[]|e|] [g' o']]. }
  destruct (pollAndHandle fuel (Polled revents) (g, o)) as [[b|e|] [g' o']]; [|done..].
  by destruct Hrun as (-> & ? & _).
Qed.
End Invariants.

(** ** Dispatching *)

(** The handlers of the pollables with available data, one after another. *)
Definition run_one `{Pollables Obj} (p : pollable) (v : Z) : M (PollGroup * Obj) unit :=
  if is_set v POLLIN then try_ignore (handleEvent p) else mret tt.

Fixpoint run_ready `{Pollables Obj} (l : list (pollable * Z)) : M (PollGroup * Obj) unit :=
  match l with
  | [] => mret tt
  | (p, v) :: l' => run_one p v;; run_ready l'
  end.

(** The handlers leave their own descriptor valid along this run. *)
Fixpoint keeps_fd `{Pollables Obj} (l : list (pollable * Z)) (w : PollGroup * Obj) : Prop :=
  match l with
  | [] => True
  | (p, v) :: l' =>
      (v = POLLIN -> getFD p (snd (snd (run_one p v w))) <> -1) /\
      keeps_fd l' (snd (run_one p v w))
  end.

Lemma keeps_fd_zeros `{Pollables Obj} l l0 w :
  keeps_fd l w -> Forall (fun pv => pv.2 = 0) l0 -> keeps_fd (l ++ l0) w.
Proof.
  intros Hl H0. revert w Hl. induction l as [|[p v] l IH]; intros w Hl.
  - revert w Hl. induction H0 as [|[p v] l0 E _ IH]; intros w Hl; [done|].
    simpl in E. subst v. split; [done|]. by apply IH.
  - destruct Hl as [H1 H2]. split; [done|]. by apply IH.
Qed.

Lemma run_ready_zeros `{Pollables Obj} l w :
  Forall (fun pv => pv.2 = 0) l -> run_ready (Obj := Obj) l w = (Ok tt, w).
Proof. induction 1 as [|[p v] l E _ IH]; [done|]. simpl in E. subst v. apply IH. Qed.

Section Dispatch.
Context `{PollableLaws Obj}.

Lemma zip_zeros_snd (ps : list pollable) n : Forall (fun pv => pv.2 = 0) (zip ps (zeros n)).
Proof.
  revert n. induction ps as [|p ps IH]; intros [|n]; simpl; constructor; auto.
Qed.

(** Entries without events behind the others change nothing. *)
Lemma run_ready_app (l k : list (pollable * Z)) w :
  Forall (fun pv => pv.2 = 0) k -> run_ready (Obj := Obj) (l ++ k) w = run_ready l w.
Proof.
  intros Hk. revert w. induction l as [|[q x] l IH]; intros w; cbn [app run_ready].
  { by apply run_ready_zeros. }
  rewrite !M_bind_case. destruct (run_one q x w) as [[[]|e|] w']; [apply IH|done|done].
Qed.

(** What a handler has added comes behind what is still to be looked at. *)
Lemma zip_grown (i : nat) g g' new :
  group_ok g -> grown g g' new -> (i <= length (pg_pollables g))%nat ->
  zip (drop i (pg_pollables g')) (drop i (revs g')) =
  zip (drop i (pg_pollables g)) (drop i (revs g)) ++ zip new (zeros (length new)).
Proof.
  intros Hg [_ -> -> _] Hi.
  assert (length (revs g) = length (pg_pollables g)) as Hlr
    by (unfold revs; rewrite length_fmap; apply Hg).
  rewrite !drop_app_le by lia. by rewrite zip_with_app by (rewrite !length_drop; lia).
Qed.

Lemma poll_loop_ready fuel i g o :
  group_ok g -> 0 <= i <= zlen (pg_pollables g) ->
  zlen (pg_pollables g) - i + Z.of_nat (budget o) <= Z.of_nat fuel ->
  Forall (fun v => v = 0 \/ v = POLLIN) (revs g) ->
  keeps_fd (zip (drop (Z.to_nat i) (pg_pollables g)) (drop (Z.to_nat i) (revs g))) (g, o) ->
  poll_loop fuel i (g, o) =
  run_ready (zip (drop (Z.to_nat i) (pg_pollables g)) (drop (Z.to_nat i) (revs g))) (g, o).
Proof.
  revert i g o. induction fuel as [|fuel IH]; intros i g o Hg Hi Hf Hrevs Hfd; cbn [poll_loop fst].
  { rewrite (proj2 (Z.ltb_ge _ _)) by lia. by rewrite drop_ge by lia. }
  pose proof (go_max g Hg) as Hmax.
  destruct (Z.ltb_spec i (zlen (pg_pollables g))) as [Hlt|]; [|by rewrite drop_ge by lia].
  destruct (index_lookup g i Hg ltac:(lia)) as (v & p & Hv & Hp).
  rewrite (drop_S _ _ _ Hv), (drop_S _ _ _ Hp) in *. cbn [zip zip_with run_ready keeps_fd] in *.
  replace (S (Z.to_nat i)) with (Z.to_nat (i + 1)) in * by lia.
  assert (forall g' o' new, grown g g' new -> (length new + budget o' <= budget o)%nat ->
    keeps_fd (zip (drop (Z.to_nat (i + 1)) (pg_pollables g))
                  (drop (Z.to_nat (i + 1)) (revs g))) (g', o') ->
    poll_loop fuel (i + 1) (g', o') =
    run_ready (zip (drop (Z.to_nat (i + 1)) (pg_pollables g))
                   (drop (Z.to_nat (i + 1)) (revs g))) (g', o')) as Hrest.
  { intros g' o' new Hgrow Hb Hkeep. pose proof Hgrow as [Hg' Hps' Hr' Hm'].
    pose proof (zip_grown (Z.to_nat (i + 1)) g g' new Hg Hgrow ltac:(lia)) as Ez.
    rewrite (IH (i + 1) g' o'); [|done|rewrite Hps', length_app; lia
      |rewrite Hps', length_app; lia|rewrite Hr'; apply Forall_app_2;
        [done|apply Forall_replicate; by left]
      |rewrite Ez; apply keeps_fd_zeros; [done|apply zip_zeros_snd]].
    rewrite Ez. apply run_ready_app, zip_zeros_snd. }
  pose proof (Forall_lookup_1 _ _ _ _ Hrevs Hv) as Hcase.
  unfold poll_body. rewrite M_bind_assoc.
  rewrite (M_bind_ok _ _ _ _ _ (at_revents_run i g o v Hv)). cbn beta.
  destruct Hcase as [-> | ->]; cbn [Z.eqb].
  { unfold run_one. change (is_set 0 POLLIN) with false. cbn iota.
    rewrite !M_bind_ret, wrap_small by lia. apply (Hrest g o []); [by apply grown_refl|simpl; lia|apply Hfd]. }
  change (run_one p POLLIN) with (try_ignore (handleEvent p)).
  change (POLLIN =? 0) with false. cbn iota. rewrite !M_bind_case. pose proof (handle_step i g o p POLLIN Hg Hp) as Hh.
  assert (handle_available i POLLIN (g, o) = try_ignore (handleEvent p) (g, o)) as E.
  { unfold handle_available. change (is_set POLLIN POLLIN) with true. cbn iota.
    by rewrite (M_bind_ok _ _ _ _ _ (at_pollable_run i g o p Hp)). }
  rewrite E in *. destruct Hfd as [Hfd Hkeep]. specialize (Hfd eq_refl).
  change (run_one p POLLIN) with (try_ignore (handleEvent p)) in Hfd, Hkeep.
  destruct (try_ignore (handleEvent p) (g, o)) as [[[]|e|] [g1 o1]]; [|done|done].
  cbn [snd] in Hfd, Hkeep. destruct Hh as (new & Hgrow & Hb). pose proof Hgrow as [Hg1 Hps Hrev Hm].
  rewrite (M_bind_ok _ _ _ _ _ (at_revents_run i g1 o1 POLLIN
    ltac:(rewrite Hrev; by apply lookup_app_l_Some))).
  rewrite (M_bind_ok _ _ _ _ _ (at_pollable_run i g1 o1 p
    ltac:(rewrite Hps; by apply lookup_app_l_Some))).
  rewrite M_bind_case. cbn [gets snd].
  rewrite (proj2 (Z.eqb_neq (getFD p o1) (-1)) Hfd).
  change (is_set POLLIN POLLERR || is_set POLLIN POLLHUP || false) with false. cbn iota.
  unfold mret, M_ret. rewrite wrap_small by lia. by apply (Hrest g1 o1 new).
Qed.
End Dispatch.

(** ** A hangup *)
Section Hangup.
Context `{Pollables Obj}.

(** The handler changes its own objects only, and has defined behaviour. *)
Definition inert (p : pollable) : Prop := forall g o, exists r o',
  handleEvent p (g, o) = (r, (g, o')) /\ r <> Undef.

Lemma poll_body_zero i g o :
  revs g !! Z.to_nat i = Some 0 -> poll_body i (g, o) = (Ok i, (g, o)).
Proof. intros Hv. unfold poll_body. by mstep (at_revents_run i g o 0 Hv). Qed.

(** Entries without events are passed over. *)
Lemma poll_loop_skip k fuel i g o :
  group_ok g -> 0 <= i -> i + Z.of_nat k <= zlen (pg_pollables g) ->
  (forall j, i <= j < i + Z.of_nat k -> revs g !! Z.to_nat j = Some 0) ->
  poll_loop (k + fuel) i (g, o) = poll_loop fuel (i + Z.of_nat k) (g, o).
Proof.
  intros Hg. revert i. induction k as [|k IH]; intros i Hi Hk Hz.
  { by rewrite Z.add_0_r. }
  pose proof (go_max g Hg). cbn [Nat.add poll_loop fst].
  rewrite (proj2 (Z.ltb_lt _ _)) by lia.
  rewrite (M_bind_ok _ _ _ _ _ (poll_body_zero i g o (Hz i ltac:(lia)))).
  rewrite wrap_small, IH by (lia || (intros; apply Hz; lia)). f_equal. lia.
Qed.

Lemma land_zero_is_set v flag : is_set v flag = true -> v <> 0.
Proof. intros E ->. done. Qed.

(** [i--] and then [i++], below zero and back. *)
Lemma index_again (i : Z) : 0 <= i < 2 ^ 64 -> u64 (u64 (i - 1) + 1) = i.
Proof.
  intros Hi. unfold wrap. rewrite Z.add_mod_idemp_l by lia. rewrite Z.sub_add.
  by apply Z.mod_small.
Qed.

Lemma ready_event g (i : nat) v : revs g !! i = Some v -> v <> 0 -> (0 <? ready g)%nat = true.
Proof.
  intros Hv Hv0. apply Nat.ltb_lt. unfold ready. unfold revs in Hv.
  rewrite list_lookup_fmap in Hv.
  destruct (_ !! i) as [c|] eqn:E in Hv; [|done]. injection Hv as Hv.
  assert (c ∈ filter (fun c => pfd_revents c <> 0) (pg_cached_pollfd g)) as Hc.
  { apply list_elem_of_filter. split; [congruence|]. by eapply list_elem_of_lookup_2. }
  destruct (filter _ _); [by apply not_elem_of_nil in Hc|simpl; lia].
Qed.

(** An entry that hung up, or whose descriptor is gone, is removed. *)
Lemma poll_body_removes l1 p l2 v g o o1 :
  group_ok g -> p ∉ l1 -> pg_pollables g = l1 ++ p :: l2 ->
  revs g !! length l1 = Some v -> v <> 0 ->
  handle_available (zlen l1) v (g, o) = (Ok tt, (g, o1)) ->
  is_set v POLLERR || is_set v POLLHUP || (getFD p o1 =? -1) = true ->
  exists g2, poll_body (zlen l1) (g, o) = (Ok (u64 (zlen l1 - 1)), (g2, o1)) /\
    group_ok g2 /\ pg_pollables g2 = l1 ++ l2 /\
    revs g2 = take (length l1 + length l2) (revs g).
Proof.
  intros Hg Hnp Hps Hv Hv0 Hh Hset.
  assert (revs g !! Z.to_nat (zlen l1) = Some v) as Hv' by (by rewrite Nat2Z.id).
  assert (pg_pollables g !! Z.to_nat (zlen l1) = Some p) as Hp
    by (rewrite Nat2Z.id, Hps; by apply list_lookup_middle).
  destruct (remove_run p g o1 Hg) as (g2 & Hrm & Hg2 & Hps2 & Hr2 & _).
  { by eapply list_elem_of_lookup_2. }
  rewrite Hps, erase_first_middle in Hps2 by done. exists g2.
  split; [|split; [done|split; [done|]]].
  - unfold poll_body. mstep (at_revents_run _ g o v Hv').
    rewrite (proj2 (Z.eqb_neq v 0) Hv0). mstep Hh.
    mstep (at_revents_run _ g o1 v Hv'). mstep (at_pollable_run _ g o1 p Hp).
    mstep (@eq_refl _ (gets (fun w : PollGroup * Obj => getFD p w.2) (g, o1))).
    cbn [snd]. rewrite Hset. by mstep Hrm.
  - rewrite Hr2. f_equal. rewrite Hps, length_app. simpl. lia.
Qed.

(** Once an entry with a hangup is reached, every pollable moves into its place. *)
Lemma poll_loop_drop l l1 v fuel g o :
  group_ok g -> NoDup (pg_pollables g) -> pg_pollables g = l1 ++ l ->
  (l <> [] -> revs g !! length l1 = Some v) ->
  is_set v POLLERR || is_set v POLLHUP = true ->
  (is_set v POLLIN = true -> Forall inert l) -> (length l <= fuel)%nat ->
  exists g' o', poll_loop fuel (zlen l1) (g, o) = (Ok tt, (g', o')) /\ group_ok g' /\
    pg_pollables g' = l1 /\ (is_set v POLLIN = false -> o' = o).
Proof.
  revert fuel g o. induction l as [|p l IH]; intros fuel g o Hg Hnd Hps Hv Hset Hin Hf.
  { exists g, o. rewrite app_nil_r in Hps. destruct fuel; cbn [poll_loop fst];
      rewrite Hps, Z.ltb_irrefl; done. }
  destruct fuel as [|fuel]; [simpl in Hf; lia|]. cbn [poll_loop fst].
  pose proof (go_max g Hg) as Hmax. rewrite Hps, length_app in Hmax. simpl in Hmax.
  assert ((zlen l1 <? zlen (pg_pollables g)) = true) as ->
    by (rewrite Hps, length_app; simpl; apply Z.ltb_lt; lia).
  specialize (Hv ltac:(done)).
  assert (revs g !! Z.to_nat (zlen l1) = Some v) as Hv' by (by rewrite Nat2Z.id).
  assert (pg_pollables g !! Z.to_nat (zlen l1) = Some p) as Hp
    by (rewrite Nat2Z.id, Hps; by apply list_lookup_middle).
  assert (exists o1, handle_available (zlen l1) v (g, o) = (Ok tt, (g, o1)) /\
    (is_set v POLLIN = false -> o1 = o)) as (o1 & Hh & Ho1).
  { unfold handle_available. destruct (is_set v POLLIN) eqn:E.
    - specialize (Hin eq_refl). apply Forall_cons_iff in Hin as [Hp' _].
      destruct (Hp' g o) as (r & o1 & E1 & Hr). exists o1. split; [|done].
      rewrite (M_bind_ok _ _ _ _ _ (at_pollable_run _ g o p Hp)). unfold try_ignore.
      rewrite E1. by destruct r as [[]|e|].
    - by exists o. }
  assert (p ∉ l1) as Hnp.
  { rewrite Hps in Hnd. apply list.NoDup_app in Hnd as (_ & Hd & _). intros Hpl.
    apply (Hd p Hpl). by left. }
  assert (v <> 0) as Hv0
    by (apply orb_prop in Hset as [E|E]; by apply land_zero_is_set in E).
  destruct (poll_body_removes l1 p l v g o o1 Hg Hnp Hps Hv Hv0 Hh ltac:(by rewrite Hset))
    as (g2 & Hbody & Hg2 & Hps2 & Hr2).
  rewrite (M_bind_ok _ _ _ _ _ Hbody).
  rewrite index_again by lia.
  destruct (IH fuel g2 o1) as (g' & o' & Hrun & Hg' & Hl1 & Ho'); try done.
  - rewrite Hps2. rewrite Hps in Hnd. apply list.NoDup_app in Hnd as (N1 & N2 & N3).
    apply list.NoDup_cons in N3 as [_ N3]. apply list.NoDup_app. split_and!; [done| |done].
    intros x Hx Hxl. apply (N2 x Hx). by right.
  - intros Hne. rewrite Hr2, lookup_take_lt; [done|]. destruct l; [done|simpl; lia].
  - intros E. specialize (Hin E). by apply Forall_cons_iff in Hin as [_ Hin].
  - simpl in Hf. lia.
  - exists g', o'. split_and!; [done..|]. intros E. by rewrite Ho', Ho1.
Qed.
End Hangup.

(** ** Properties *)
Section Properties.
Context `{PollableLaws Obj}.

Lemma pollAndHandle_ready fuel revents g o :
  group_ok g -> length revents = length (pg_pollables g) ->
  Forall (fun v => v = 0 \/ v = POLLIN) revents ->
  keeps_fd (zip (pg_pollables g) revents) (poll_write revents g, o) ->
  (length (pg_pollables g) + budget o <= fuel)%nat ->
  pollAndHandle fuel (Polled revents) (g, o) =
  (run_ready (zip (pg_pollables g) revents);; mret true) (poll_write revents g, o).
Proof.
  intros Hg Hl Hrev Hfd Hf. pose proof (poll_write_ok revents g Hg) as Hg0.
  pose proof (poll_write_revs revents g ltac:(rewrite Hl; symmetry; apply Hg)) as Hr0.
  unfold pollAndHandle. cbn [fst snd].
  destruct (0 <? ready (poll_write revents g))%nat eqn:E.
  - rewrite !M_bind_case.
    rewrite (poll_loop_ready fuel 0 (poll_write revents g) o); rewrite ?Hr0; try done.
    + simpl. lia.
    + change (pg_pollables (poll_write revents g)) with (pg_pollables g). lia.
  - rewrite M_bind_case, run_ready_zeros; [done|].
    apply Nat.ltb_ge in E. unfold ready in E.
    assert (Forall (fun v => v = 0) revents) as Hz.
    { rewrite <- Hr0. unfold revs. apply Forall_fmap.
      destruct (filter _ _) as [|c l] eqn:Ef in E; [|simpl in E; lia].
      apply Forall_forall. intros c Hc. destruct (decide (pfd_revents c = 0)); [done|].
      exfalso. assert (c ∈ filter (fun c => pfd_revents c <> 0)
        (pg_cached_pollfd (poll_write revents g))) as Hin.
      { apply list_elem_of_filter. split; [done|]. by apply list_elem_of_In. }
      rewrite Ef in Hin. by apply not_elem_of_nil in Hin. }
    clear -Hz. revert Hz. generalize (pg_pollables g) as ps. intros ps Hz. revert ps.
    induction Hz as [|v l -> _ IH]; intros [|p ps]; simpl; constructor; auto.
Qed.

(** One pollable is ready and nobody else. *)
Lemma pollAndHandle_one fuel l1 p l2 g o :
  let revents := zeros (length l1) ++ POLLIN :: zeros (length l2) in
  let w := (poll_write revents g, o) in
  group_ok g -> pg_pollables g = l1 ++ p :: l2 ->
  getFD p (snd (snd (try_ignore (handleEvent p) w))) <> -1 ->
  (length (pg_pollables g) + budget o <= fuel)%nat ->
  pollAndHandle fuel (Polled revents) (g, o) = (try_ignore (handleEvent p);; mret true) w.
Proof.
  intros revents w Hg Hps Hfd Hf.
  assert (zip (pg_pollables g) revents =
    zip l1 (zeros (length l1)) ++ (p, POLLIN) :: zip l2 (zeros (length l2))) as Ez.
  { rewrite Hps. unfold revents. rewrite zip_with_app by (by rewrite length_replicate).
    done. }
  rewrite pollAndHandle_ready; [|done| | | |done].
  - fold w. rewrite Ez. generalize w. intros w0.
    assert (forall l k w0, Forall (fun pv : pollable * Z => pv.2 = 0) l ->
      run_ready (Obj := Obj) (l ++ k) w0 = run_ready k w0) as Hskip.
    { intros l k w1 Hl. induction Hl as [|[q x] l E _ IH]; [done|].
      simpl in E. subst x. exact IH. }
    rewrite !M_bind_case, Hskip by apply zip_zeros_snd. cbn [run_ready].
    rewrite !M_bind_case. change (run_one p POLLIN) with (try_ignore (handleEvent p)).
    destruct (try_ignore (handleEvent p) w0) as [[[]|e|] w1]; [|done|done].
    by rewrite run_ready_zeros by apply zip_zeros_snd.
  - rewrite Hps. unfold revents. rewrite !length_app. simpl. by rewrite !length_replicate.
  - unfold revents. apply Forall_app_2; [apply Forall_replicate; by left|].
    constructor; [by right|apply Forall_replicate; by left].
  - fold w. rewrite Ez. clear -Hfd. revert Hfd. generalize w. intros w0 Hfd.
    generalize (zip_zeros_snd l1 (length l1)).
    generalize (zip l1 (zeros (length l1))) as l. intros l Hl.
    induction Hl as [|[q x] l E _ IH]; cbn [app keeps_fd].
    + split; [by intros _|]. apply (keeps_fd_zeros []); [done|apply zip_zeros_snd].
    + simpl in E. subst x. split; [done|]. exact IH.
Qed.

(** The last pollable is ready, and its handler finds its descriptor gone. *)
Lemma pollAndHandle_drop_last fuel l1 p g o o1 :
  let revents := zeros (length l1) ++ [POLLIN] in
  let w := (poll_write revents g, o) in
  group_ok g -> p ∉ l1 -> pg_pollables g = l1 ++ [p] ->
  try_ignore (handleEvent p) w = (Ok tt, (poll_write revents g, o1)) -> getFD p o1 = -1 ->
  (S (length l1) <= fuel)%nat ->
  exists g', pollAndHandle fuel (Polled revents) (g, o) = (Ok true, (g', o1)) /\
    group_ok g' /\ pg_pollables g' = l1.
Proof.
  intros revents w Hg Hnp Hps Hh Hfd Hf. pose proof (poll_write_ok revents g Hg) as Hg0.
  assert (revs (poll_write revents g) = revents) as Hr0.
  { apply poll_write_revs. rewrite (go_len g Hg), Hps. unfold revents.
    rewrite !length_app. simpl. by rewrite length_replicate. }
  assert (revs (poll_write revents g) !! length l1 = Some POLLIN) as Hv.
  { rewrite Hr0. apply list_lookup_middle. by rewrite length_replicate. }
  assert (pg_pollables (poll_write revents g) !! Z.to_nat (zlen l1) = Some p) as Hp
    by (rewrite Nat2Z.id; cbn; rewrite Hps; by apply list_lookup_middle).
  assert (handle_available (zlen l1) POLLIN w = (Ok tt, (poll_write revents g, o1))) as Ha.
  { unfold handle_available. change (is_set POLLIN POLLIN) with true. cbn iota.
    rewrite (M_bind_ok _ _ _ _ _ (at_pollable_run (zlen l1) _ o p Hp)). exact Hh. }
  destruct (poll_body_removes l1 p [] POLLIN (poll_write revents g) o o1 Hg0 Hnp Hps Hv
    ltac:(done) Ha) as (g2 & Hbody & Hg2 & Hps2 & _); [by rewrite Hfd|].
  rewrite app_nil_r in Hps2. exists g2. split; [|done].
  unfold pollAndHandle. cbn [fst snd].
  rewrite (ready_event _ _ _ Hv) by done.
  assert (fuel = length l1 + S (fuel - length l1 - 1))%nat as Ef by lia.
  rewrite M_bind_case, Ef, poll_loop_skip; [|done|lia| |].
  - rewrite Z.add_0_l. cbn [poll_loop fst].
    pose proof (go_max _ Hg) as Hm. rewrite Hps, length_app in Hm. simpl in Hm.
    change (pg_pollables (poll_write revents g)) with (pg_pollables g).
    assert ((zlen l1 <? zlen (pg_pollables g)) = true) as ->
      by (rewrite Hps, length_app; simpl; apply Z.ltb_lt; lia).
    rewrite (M_bind_ok _ _ _ _ _ Hbody).
    rewrite index_again by lia.
    destruct (fuel - length l1 - 1)%nat; cbn [poll_loop fst]; by rewrite Hps2, Z.ltb_irrefl.
  - change (pg_pollables (poll_write revents g)) with (pg_pollables g).
    rewrite Hps, length_app. simpl. lia.
  - intros j Hj. rewrite Hr0. unfold revents. rewrite lookup_app_l by (rewrite length_replicate; lia).
    apply lookup_replicate_2. lia.
Qed.

(** When only readiness to read is reported, pollAndHandle runs the handler of every
    ready pollable exactly once, in the order of the group, and of no other, and removes
    nobody whose descriptor stays valid; pollables added on the way wait for the next
    poll. *)
Theorem pollAndHandle_dispatch fuel revents g o :
  group_ok g -> length revents = length (pg_pollables g) ->
  Forall (fun v => v = 0 \/ v = POLLIN) revents ->
  keeps_fd (zip (pg_pollables g) revents) (poll_write revents g, o) ->
  (length (pg_pollables g) + budget o <= fuel)%nat ->
  pollAndHandle fuel (Polled revents) (g, o) =
  (run_ready (zip (pg_pollables g) revents);; mret true) (poll_write revents g, o).
Proof. apply pollAndHandle_ready. Qed.

(** C33: a hangup drops everybody behind it: remove shortens the array of poll entries at
    its end but keeps the events where they were, so after the pollable with POLLHUP (or
    POLLERR) is removed the next one is taken to have hung up too, and so on to the end
    of the group, whatever poll reported about them; without POLLIN in the first one's
    events their pending data is not even handled. *)
Theorem hangup_drops_later fuel l1 p l2 r1 v r2 g o :
  group_ok g -> NoDup (pg_pollables g) -> pg_pollables g = l1 ++ p :: l2 ->
  length r1 = length l1 -> length r2 = length l2 -> Forall (fun v => v = 0) r1 ->
  is_set v POLLERR || is_set v POLLHUP = true ->
  (is_set v POLLIN = true -> Forall inert (p :: l2)) ->
  (length (pg_pollables g) <= fuel)%nat ->
  exists g' o', pollAndHandle fuel (Polled (r1 ++ v :: r2)) (g, o) = (Ok true, (g', o')) /\
    pg_pollables g' = l1 /\ (is_set v POLLIN = false -> o' = o).
Proof.
  intros Hg Hnd Hps Hr1 Hr2 Hz Hset Hin Hf. set (revents := r1 ++ v :: r2).
  pose proof (poll_write_ok revents g Hg) as Hg0.
  assert (revs (poll_write revents g) = revents) as Hr0.
  { apply poll_write_revs. rewrite (go_len g Hg), Hps. unfold revents.
    rewrite !length_app. simpl. lia. }
  assert (revs (poll_write revents g) !! length l1 = Some v) as Hv
    by (rewrite Hr0; unfold revents; rewrite <- Hr1; by apply list_lookup_middle).
  unfold pollAndHandle. cbn [fst snd].
  assert (v <> 0) as Hv0 by (apply orb_prop in Hset as [E|E]; by apply land_zero_is_set in E).
  rewrite (ready_event _ _ _ Hv Hv0).
  destruct (poll_loop_drop (p :: l2) l1 v (fuel - length l1) (poll_write revents g) o)
    as (g' & o' & Hrun & _ & Hl1 & Ho'); try done.
  { rewrite Hps, length_app in Hf. simpl in *. lia. }
  exists g', o'. split_and!; [|done|done].
  assert (fuel = length l1 + (fuel - length l1))%nat as Ef
    by (rewrite Hps, length_app in Hf; simpl in Hf; lia).
  rewrite M_bind_case, Ef, poll_loop_skip; [by rewrite Z.add_0_l, Hrun|done|lia| |].
  - change (pg_pollables (poll_write revents g)) with (pg_pollables g).
    rewrite Hps, length_app. lia.
  - intros j Hj. rewrite Hr0. unfold revents. rewrite lookup_app_l by lia.
    destruct (lookup_lt_is_Some_2 r1 (Z.to_nat j)) as [x Hx]; [lia|].
    rewrite Hx. f_equal. by apply (Forall_lookup_1 _ _ _ _ Hz Hx).
Qed.
End Properties.
