(* ===== verification/Loop.v ===== *)
(** * The members of the poll group and the main loops (src/netwrk/ft_conn_listener.cpp,
    src/loop/ft_signal.cpp, the loops of src/ft_server.cpp and src/ft_client.cpp)

    The three classes that implement Pollable, as objects of one store, with the
    instances of [Pollables] and [PollableLaws] they make up; and the loops that drive
    them. The kernel's side is explicit: what is waiting to be accepted, what each socket
    has to read. *)
From S2P Require Import Prelude Msg Conn PollGrp.

(** What the successive calls of [accept] return: a socket (with the errno and message of
    what setup_socket_options fails with, if it does, see [Sockets], and the memory its
    Connection is made in), or an error. At the end of the list nobody is waiting. *)
Inductive accept_result : Type :=
| Accepted (fd : Z) (garbage : Z) (setup_error : option (Z * string))
| AcceptError (errno : Z).

Inductive object : Type :=
| ConnectionListener (fd : Z)
| SignalHandler (fd : Z) (terminate_signal : bool)
| AConnection (c : Connection).

Record objects := mk_objects {
  ob_objs : gmap pollable object;
  ob_next : pollable;
  ob_accepts : list accept_result;
  ob_sockets : gmap Z (list recv_result);
  ob_errno : Z;
  ob_broker : option (list Request) }.

Definition fd_of (x : object) : Z :=
  match x with
  | ConnectionListener fd | SignalHandler fd _ => fd
  | AConnection c => c_fd c
  end.

Definition get_fd (p : pollable) (o : objects) : Z :=
  match ob_objs o !! p with Some x => fd_of x | None => -1 end.

Definition set_obj (p : pollable) (x : object) (o : objects) : objects :=
  mk_objects (<[p := x]> (ob_objs o)) (ob_next o) (ob_accepts o) (ob_sockets o) (ob_errno o)
    (ob_broker o).

(** [std::make_shared<Connection>(fd)], and the end of the last pointer to it. *)
Definition make_conn (c : Connection) (l : list accept_result) (o : objects) : objects :=
  mk_objects (<[ob_next o := AConnection c]> (ob_objs o)) (S (ob_next o)) l (ob_sockets o)
    (ob_errno o) (ob_broker o).
Definition drop_obj (p : pollable) (o : objects) : objects :=
  mk_objects (delete p (ob_objs o)) (ob_next o) (ob_accepts o) (ob_sockets o) (ob_errno o)
    (ob_broker o).
Definition accepted (l : list accept_result) (e : Z) (o : objects) : objects :=
  mk_objects (ob_objs o) (ob_next o) l (ob_sockets o) e (ob_broker o).

(** getFD is a method of the base class and needs nothing of the handlers; [add] is used
    by a handler. *)
Section Listener.
#[local] Instance fds_only : Pollables objects := {|
  getFD := get_fd;
  handleEvent := fun _ => mret tt |}.

(** [while((conn_sock_fd = accept(...)) >= 0)] and the check of errno behind it. *)
Fixpoint accept_loop (l : list accept_result) : M (PollGroup * objects) unit := fun w =>
  let (g, o) := w in
  match l with
  | [] => (Ok tt, (g, accepted [] EAGAIN o))
  | AcceptError e :: l' =>
      if negb (e =? EWOULDBLOCK) && negb (e =? EAGAIN)
      then (Throw (system_error e "Accept failed on socket listener"), (g, accepted l' e o))
      else (Ok tt, (g, accepted l' e o))
  | Accepted fd garbage (Some (e, what)) :: l' =>
      (Throw (system_error e what), (g, accepted l' e o))
  | Accepted fd garbage None :: l' =>
      let conn := ob_next o in
      match add conn (g, make_conn (new_Connection fd garbage) l' o) with
      | (Ok _, w') => accept_loop l' w'
      | (r, (g', o')) => (r, (g', drop_obj conn o'))
      end
  end.
End Listener.

(** Connection::handleEvent on the connection's socket. *)
Definition connection_event (p : pollable) (c : Connection) (o : objects) :
    res unit * objects :=
  match Conn.handleEvent p (default [] (ob_sockets o !! c_fd c))
          (mk_env c (ob_errno o) (ob_broker o)) with
  | (r, s, rest) =>
      (r, mk_objects (<[p := AConnection (e_conn s)]> (ob_objs o)) (ob_next o)
            (ob_accepts o) (<[c_fd c := rest]> (ob_sockets o)) (e_errno s) (e_broker s))
  end.

(** That a pollable is not in the store does not happen in a group that is [stored]. *)
Definition handle_object (p : pollable) : M (PollGroup * objects) unit := fun w =>
  let (g, o) := w in
  match ob_objs o !! p with
  | Some (ConnectionListener _) => accept_loop (ob_accepts o) (g, o)
  | Some (SignalHandler fd _) => (Ok tt, (g, set_obj p (SignalHandler fd true) o))
  | Some (AConnection c) => let (r, o') := connection_event p c o in (r, (g, o'))
  | None => (Undef, w)
  end.

#[export] Instance objects_pollables : Pollables objects := {|
  getFD := get_fd;
  handleEvent := handle_object |}.

Definition receivedTermSignal (signals : pollable) (o : objects) : bool :=
  match ob_objs o !! signals with Some (SignalHandler _ b) => b | _ => false end.

(** ** The main loops *)

(** [Running]: the polls given are used up. An exception out of the loop ends the
    process. *)
Inductive loop_end : Type :=
| Running
| Terminating.

(** [while(poll_group->pollAndHandle() && !signals->receivedTermSignal());] *)
Fixpoint server_loop (fuel : nat) (signals : pollable) (polls : list poll_result) :
    M (PollGroup * objects) loop_end :=
  match polls with
  | [] => mret Running
  | r :: polls' =>
      continue ← pollAndHandle fuel r;
      if continue : bool then
        stop ← gets (fun w => receivedTermSignal signals (snd w));
        if stop : bool then mret Terminating else server_loop fuel signals polls'
      else mret Terminating
  end.

(** The client's loop also looks whether the uploads are completed, before each poll. *)
Fixpoint client_loop (fuel : nat) (signals : pollable)
    (polls : list (bool * poll_result)) : M (PollGroup * objects) loop_end :=
  match polls with
  | [] => mret Running
  | (uploadsCompleted, r) :: polls' =>
      if uploadsCompleted then mret Terminating
      else
        continue ← pollAndHandle fuel r;
        if continue : bool then
          stop ← gets (fun w => receivedTermSignal signals (snd w));
          if stop : bool then mret Terminating else client_loop fuel signals polls'
        else mret Terminating
  end.

(** ** The laws *)
Lemma add_same p w : add (H := fds_only) p w = add (H := objects_pollables) p w.
Proof. done. Qed.

Lemma accept_loop_grows l g o r g' o' :
  group_ok g -> accept_loop l (g, o) = (r, (g', o')) ->
  exists new, grown g g' new /\ (length new + length (ob_accepts o') <= length l)%nat.
Proof.
  revert g o. induction l as [|[fd garbage [[e what]|]|e] l IH]; intros g o Hg; cbn [accept_loop].
  - intros [= <- <- <-]. exists []. split; [by apply grown_refl|done].
  - intros [= <- <- <-]. exists []. split; [by apply grown_refl|simpl; lia].
  - rewrite add_same. set (o1 := make_conn _ _ _).
    destruct (decide (zlen (pg_pollables g) < pg_max_pollables g)) as [Hlt|Hge].
    + destruct (add_grown (ob_next o) g o1 Hg Hlt) as (g1 & -> & Hgrow).
      intros E. destruct (IH g1 o1) as (new & Hg2 & Hl); [apply Hgrow|done|].
      exists ([ob_next o] ++ new). split; [by eapply grown_trans|].
      rewrite length_app. simpl. lia.
    + unfold add. rewrite (proj2 (Z.leb_le _ _)) by lia. intros [= <- <- <-].
      exists []. split; [by apply grown_refl|simpl; lia].
  - destruct (_ && _); intros [= <- <- <-];
      (exists []; split; [by apply grown_refl|simpl; lia]).
Qed.

#[export] Instance objects_laws : PollableLaws objects.
Proof.
  refine {| budget := fun o => length (ob_accepts o) |}.
  intros p g o r g' o' Hg. cbn [handleEvent objects_pollables]. unfold handle_object.
  destruct (ob_objs o !! p) as [[fd|fd b|c]|].
  - by apply accept_loop_grows.
  - intros [= <- <- <-]. exists []. split; [by apply grown_refl|simpl; lia].
  - unfold connection_event. destruct (Conn.handleEvent _ _ _) as [[r1 s1] rest].
    intros [= <- <- <-]. exists []. split; [by apply grown_refl|simpl; lia].
  - intros [= <- <- <-]. exists []. split; [by apply grown_refl|simpl; lia].
Defined.

(** ** Properties *)

(** The members of the group are there, and made before those that will be. *)
Definition stored (ps : list pollable) (o : objects) : Prop :=
  Forall (fun p => (p < ob_next o)%nat /\ is_Some (ob_objs o !! p)) ps.

(** A connection has received a frame that is too short for the parser. *)
Definition short_frame (o : objects) : Prop :=
  exists p c, ob_objs o !! p = Some (AConnection c) /\ unreadable c.

Lemma stored_grows ps o o' :
  (ob_next o <= ob_next o')%nat ->
  (forall p, (p < ob_next o)%nat -> is_Some (ob_objs o !! p) -> is_Some (ob_objs o' !! p)) ->
  stored ps o -> stored ps o'.
Proof. intros Hn Ho. apply Forall_impl. intros p [Hp Hs]. split; [lia|by apply Ho]. Qed.

Lemma stored_set ps o p x l sockets e q :
  stored ps o -> stored ps (mk_objects (<[p := x]> (ob_objs o)) (ob_next o) l sockets e q).
Proof.
  apply stored_grows; [done|]. intros k _ Hk. cbn. destruct (decide (k = p)) as [->|Hne].
  - rewrite lookup_insert_eq. by eexists.
  - by rewrite lookup_insert_ne.
Qed.

Lemma accept_loop_stored l g o :
  stored (pg_pollables g) o ->
  handled stored short_frame (accept_loop l (g, o)).
Proof.
  revert g o. induction l as [|[fd garbage [[e what]|]|e] l IH]; intros g o Hs; cbn [accept_loop];
    [done|done| |by destruct (_ && _)].
  set (o1 := make_conn _ _ _). unfold add.
  assert (stored (pg_pollables g) o1) as Hs1.
  { revert Hs. apply stored_grows; [cbn; lia|]. intros k Hk Hsome. cbn.
    by rewrite lookup_insert_ne by lia. }
  destruct (pg_max_pollables g <=? zlen (pg_pollables g)); cbn.
  - revert Hs. apply stored_grows; [cbn; lia|]. intros k Hk Hsome. cbn.
    by rewrite lookup_delete_ne, lookup_insert_ne by lia.
  - apply IH. cbn. apply Forall_app. split; [done|]. apply Forall_singleton. cbn.
    split; [lia|]. rewrite lookup_insert_eq. by eexists.
Qed.

Lemma handle_object_stored p g o :
  group_ok g -> p ∈ pg_pollables g -> stored (pg_pollables g) o ->
  handled stored short_frame (handle_object p (g, o)).
Proof.
  intros _ Hp Hs. unfold handle_object.
  destruct (proj1 (list.Forall_forall _ _) Hs p Hp) as [_ [x Ex]]. rewrite Ex.
  destruct x as [fd|fd b|c].
  - by apply accept_loop_stored.
  - cbn. by apply stored_set.
  - unfold connection_event.
    destruct (Conn.handleEvent p _ _) as [[r s] rest] eqn:E. cbn.
    pose proof (fun l k e q => stored_set _ o p (AConnection (e_conn s)) l k e q Hs) as Hset.
    destruct r as [[]|x|]; [apply Hset|apply Hset|]. exists p, (e_conn s). cbn.
    rewrite lookup_insert_eq. split; [done|]. by apply (handleEvent_undef p _ _ _ _ E).
Qed.

Lemma stored_erase p ps o : p ∈ ps -> stored ps o -> stored (erase_first p ps) o.
Proof.
  intros _ Hs. apply list.Forall_forall. intros x Hx.
  by apply (proj1 (list.Forall_forall _ _) Hs), (erase_first_subset p).
Qed.

(** C27: the server's main loop goes on whatever its peers do, with one exception: whatever the
    polls report and the connections receive, the group stays well formed; the loop ends only
    because a signal has arrived, throws only because a poll has failed, and is undefined
    only when a connection has just received what it takes for a whole frame and the parser
    reads past its end (the frame is left in its buffer): any peer can send one, see
    [parse_undef_iff] and [short_frame_undef]. (The loop does not send: a worker that does,
    to a peer that is gone, may get the process killed by SIGPIPE, see [sendBuffer].) *)
Theorem server_loop_safe fuel signals polls g o :
  group_ok g -> stored (pg_pollables g) o ->
  pg_max_pollables g + Z.of_nat (budget o) <= Z.of_nat fuel ->
  match server_loop fuel signals polls (g, o) with
  | (Ok e, (g', o')) => group_ok g' /\ (e = Terminating -> receivedTermSignal signals o' = true)
  | (Throw e, _) => exists errno, PollError errno ∈ polls /\ e = system_error errno "Poll failed"
  | (Undef, (_, o')) => exists p c, ob_objs o' !! p = Some (AConnection c) /\
      zlen (c_msg_buf c) = u64 (c_msg_len c + 6 - 1) + 1 /\ parse (c_msg_buf c) = Undef
  end.
Proof.
  revert g o. induction polls as [|r polls IH]; intros g o Hg Hs Hf; cbn [server_loop]; [done|].
  pose proof (go_max g Hg). pose proof (pollAndHandle_run fuel r g o Hg ltac:(lia)) as Hrun.
  rewrite M_bind_case. destruct r as [errno|revents].
  { cbn in *. exists errno. split; [by left|done]. }
  pose proof (pollAndHandle_inv stored short_frame handle_object_stored stored_erase fuel revents
    g o Hg ltac:(lia) Hs) as Hinv.
  destruct (pollAndHandle fuel (Polled revents) (g, o)) as [[b|e|] [g1 o1]]; [|done|exact Hinv].
  destruct Hinv as (-> & Hg1 & Hs1), Hrun as (_ & _ & Hb & Hm & _). cbn iota. rewrite M_bind_case.
  cbn [gets snd]. destruct (receivedTermSignal signals o1) eqn:Et; [done|].
  specialize (IH g1 o1 Hg1 Hs1 ltac:(rewrite Hm; lia)).
  destruct (server_loop fuel signals polls (g1, o1)) as [[a|e|] [g2 o2]]; [done| |done].
  destruct IH as (errno & Hin & ->). exists errno. split; [by right|done].
Qed.

(** A termination signal ends both main loops at the poll that reports it, whatever
    polls would follow. *)
Theorem signal_ends_loops fuel l1 s l2 fd b g o polls polls' :
  let revents := zeros (length l1) ++ POLLIN :: zeros (length l2) in
  group_ok g -> pg_pollables g = l1 ++ s :: l2 ->
  ob_objs o !! s = Some (SignalHandler fd b) -> fd <> -1 ->
  (length (pg_pollables g) + budget o <= fuel)%nat ->
  fst (server_loop fuel s (Polled revents :: polls) (g, o)) = Ok Terminating /\
  fst (client_loop fuel s ((false, Polled revents) :: polls') (g, o)) = Ok Terminating.
Proof.
  intros revents Hg Hps Hs Hfd Hf.
  assert (try_ignore (handleEvent s) (poll_write revents g, o) =
    (Ok tt, (poll_write revents g, set_obj s (SignalHandler fd true) o))) as E.
  { unfold try_ignore. cbn [handleEvent objects_pollables]. unfold handle_object.
    by rewrite Hs. }
  assert (ob_objs (set_obj s (SignalHandler fd true) o) !! s = Some (SignalHandler fd true))
    as Hs' by apply lookup_insert_eq.
  assert (pollAndHandle fuel (Polled revents) (g, o) =
    (Ok true, (poll_write revents g, set_obj s (SignalHandler fd true) o))) as Hrun.
  { unfold revents. rewrite (pollAndHandle_one fuel l1 s l2 g o Hg Hps); [|fold revents|done].
    - fold revents. by rewrite M_bind_case, E.
    - rewrite E. cbn [snd getFD objects_pollables]. unfold get_fd. by rewrite Hs'. }
  cbn [server_loop client_loop]. rewrite !M_bind_case, Hrun. cbn iota.
  rewrite !M_bind_case. cbn [gets snd]. unfold receivedTermSignal. by rewrite Hs'.
Qed.

(** One connection has data. *)
Lemma poll_queues_run fuel l1 p l2 fd len ms q g o :
  group_ok g -> pg_pollables g = l1 ++ p :: l2 ->
  ob_objs o !! p = Some (AConnection (mk_conn fd [] len)) -> fd <> -1 ->
  ob_sockets o !! fd = Some (bytes_events (encode_all ms)) -> Forall wf_message ms ->
  ob_broker o = Some q -> (length (pg_pollables g) + budget o <= fuel)%nat ->
  exists g' o',
    pollAndHandle fuel (Polled (zeros (length l1) ++ POLLIN :: zeros (length l2))) (g, o) =
      (Ok true, (g', o')) /\ pg_pollables g' = pg_pollables g /\
    ob_broker o' = Some (q ++ requests p ms) /\ ob_sockets o' !! fd = Some [] /\
    group_ok g' /\ (forall k, k <> p -> ob_objs o' !! k = ob_objs o !! k) /\
    exists len', ob_objs o' !! p = Some (AConnection (mk_conn fd [] len')).
Proof.
  intros Hg Hps Hp Hfd Hsock Hms Hq Hf. set (revents := zeros (length l1) ++ _).
  destruct (on_bytes_encode_all p ms fd len (ob_errno o) q Hms) as (e' & len' & E).
  pose proof (handleEvent_bytes p (encode_all ms)
    (mk_env (mk_conn fd [] len) (ob_errno o) (Some q))) as Hev. rewrite E in Hev.
  assert (handleEvent p (poll_write revents g, o) =
    (Ok tt, (poll_write revents g,
       mk_objects (<[p := AConnection (mk_conn fd [] len')]> (ob_objs o)) (ob_next o)
         (ob_accepts o) (<[fd := []]> (ob_sockets o)) EAGAIN
         (Some (q ++ requests p ms))))) as Eh.
  { cbn [handleEvent objects_pollables]. unfold handle_object. rewrite Hp.
    unfold connection_event. cbn [c_fd]. rewrite Hsock, Hq.
    change (default [] (Some (bytes_events (encode_all ms)))) with
      (RecvByte <$> encode_all ms). by rewrite Hev. }
  eexists _, _. split_and!.
  - unfold revents. rewrite (pollAndHandle_one fuel l1 p l2 g o Hg Hps); fold revents;
      unfold try_ignore; [by rewrite M_bind_case, Eh| |done].
    rewrite Eh. cbn [snd getFD objects_pollables]. unfold get_fd. cbn [ob_objs].
    by rewrite lookup_insert_eq.
  - done.
  - done.
  - apply lookup_insert_eq.
  - by apply poll_write_ok.
  - intros k Hk. by apply lookup_insert_ne.
  - exists len'. apply lookup_insert_eq.
Qed.

(** From the socket to the queue: when poll reports data on a connection whose socket
    holds serialized messages, pollAndHandle queues exactly the requests of these
    messages, in order, each with this connection; the group is unchanged and the
    connection stays open, with an empty buffer. *)
Theorem poll_queues_requests fuel l1 p l2 fd len ms q g o :
  group_ok g -> pg_pollables g = l1 ++ p :: l2 ->
  ob_objs o !! p = Some (AConnection (mk_conn fd [] len)) -> fd <> -1 ->
  ob_sockets o !! fd = Some (bytes_events (encode_all ms)) -> Forall wf_message ms ->
  ob_broker o = Some q -> (length (pg_pollables g) + budget o <= fuel)%nat ->
  exists g' o',
    pollAndHandle fuel (Polled (zeros (length l1) ++ POLLIN :: zeros (length l2))) (g, o) =
      (Ok true, (g', o')) /\ pg_pollables g' = pg_pollables g /\
    ob_broker o' = Some (q ++ requests p ms) /\ ob_sockets o' !! fd = Some [] /\
    get_fd p o' = fd /\ exists len', ob_objs o' !! p = Some (AConnection (mk_conn fd [] len')).
Proof.
  intros Hg Hps Hp Hfd Hsock Hms Hq Hf.
  destruct (poll_queues_run fuel l1 p l2 fd len ms q g o Hg Hps Hp Hfd Hsock Hms Hq Hf)
    as (g' & o' & H1 & H2 & H3 & H4 & _ & _ & len' & H5).
  exists g', o'. split_and!; try done; [|by exists len']. unfold get_fd. by rewrite H5.
Qed.

(** Polls without an event change nothing the loop looks at. *)
Lemma client_loop_idle (n fuel : nat) s fd g o :
  group_ok g -> pg_pollables g = [s] -> ob_objs o !! s = Some (SignalHandler fd false) ->
  (1 + budget o <= fuel)%nat ->
  exists g', client_loop fuel s (replicate n (false, Polled [0])) (g, o) = (Ok Running, (g', o)) /\
    pg_pollables g' = [s].
Proof.
  intros Hg Hps Hs Hf. revert g Hg Hps. induction n as [|n IH]; intros g Hg Hps.
  { by exists g. }
  destruct (IH (poll_write [0] g) (poll_write_ok _ _ Hg) Hps) as (g' & Hrun & Hps').
  exists g'. split; [|done]. cbn [replicate client_loop]. rewrite M_bind_case.
  rewrite (pollAndHandle_ready fuel [0] g o Hg); rewrite ?Hps; [|done|..].
  - cbn [zip zip_with]. rewrite M_bind_case, run_ready_zeros by (constructor; done).
    cbn [mret M_ret]. rewrite M_bind_case. cbn [gets snd]. unfold receivedTermSignal.
    rewrite Hs. exact Hrun.
  - constructor; [by left|done].
  - split; [|done]. done.
  - exact Hf.
Qed.

(** C31: a client whose server has closed the connection never ends: the connection is taken
    out of the poll group, so that no message can complete the upload any more
    (uploadsCompleted stays false), and the loop goes on with polls that report nothing,
    however many, until a signal arrives. *)
Theorem client_never_ends fuel s c fd fds buf len rest g o (n : nat) :
  group_ok g -> pg_pollables g = [s; c] -> s <> c ->
  ob_objs o !! s = Some (SignalHandler fds false) ->
  ob_objs o !! c = Some (AConnection (mk_conn fd buf len)) ->
  ob_sockets o !! fd = Some (RecvClosed :: rest) -> (2 + budget o <= fuel)%nat ->
  exists g' o',
    client_loop fuel s ((false, Polled [0; POLLIN]) :: replicate n (false, Polled [0])) (g, o) =
      (Ok Running, (g', o')) /\ pg_pollables g' = [s] /\ get_fd c o' = -1.
Proof.
  intros Hg Hps Hne Hs Hc Hsock Hf.
  set (o1 := mk_objects (<[c := AConnection (mk_conn (-1) buf len)]> (ob_objs o)) (ob_next o)
    (ob_accepts o) (<[fd := rest]> (ob_sockets o)) (ob_errno o) (ob_broker o)).
  assert (try_ignore (handleEvent c) (poll_write [0; POLLIN] g, o) =
    (Ok tt, (poll_write [0; POLLIN] g, o1))) as Eh.
  { unfold try_ignore. cbn [handleEvent objects_pollables]. unfold handle_object. rewrite Hc.
    unfold connection_event. cbn [c_fd]. rewrite Hsock. cbn [default from_option id].
    unfold Conn.handleEvent. cbn [recv_loop]. by destruct (_ && _). }
  destruct (pollAndHandle_drop_last fuel [s] c g o o1 Hg) as (g1 & Hrun & Hg1 & Hps1).
  - by intros ->%list_elem_of_singleton.
  - exact Hps.
  - exact Eh.
  - cbn [getFD objects_pollables]. unfold get_fd, o1. cbn [ob_objs]. by rewrite lookup_insert_eq.
  - simpl. lia.
  - destruct (client_loop_idle n fuel s fds g1 o1 Hg1 Hps1) as (g' & Hidle & Hps').
    + unfold o1. cbn [ob_objs]. by rewrite lookup_insert_ne.
    + exact ltac:(cbn in *; lia).
    + exists g', o1. split; [|split; [done|]].
      * cbn [client_loop]. rewrite M_bind_case.
        change (zeros (length [s]) ++ [POLLIN]) with [0; POLLIN] in Hrun. rewrite Hrun.
        cbn iota. rewrite M_bind_case. cbn [gets snd]. unfold receivedTermSignal at 1.
        unfold o1 at 1. cbn [ob_objs]. rewrite lookup_insert_ne, Hs by done. exact Hidle.
      * unfold get_fd, o1. cbn [ob_objs]. by rewrite lookup_insert_eq.
Qed.

(** The connections made for a list of sockets. *)
Definition waiting (l : list (Z * Z)) : list accept_result :=
  (fun fg => Accepted fg.1 fg.2 None) <$> l.

Lemma accept_loop_run l room g o :
  group_ok g -> zlen (pg_pollables g) + Z.of_nat room = pg_max_pollables g ->
  exists g' o', accept_loop (waiting l) (g, o) =
      (if decide (length l <= room)%nat then Ok tt
       else Throw (runtime_error "Maximum pollable limit exceeded"), (g', o')) /\
    group_ok g' /\
    pg_pollables g' = pg_pollables g ++ seq (ob_next o) (Nat.min room (length l)) /\
    ob_accepts o' = waiting (drop (S room) l) /\
    (forall k fd garbage, (k < room)%nat -> l !! k = Some (fd, garbage) ->
       ob_objs o' !! (ob_next o + k)%nat = Some (AConnection (new_Connection fd garbage))) /\
    (forall k, (k < ob_next o)%nat -> ob_objs o' !! k = ob_objs o !! k) /\
    ob_sockets o' = ob_sockets o /\ ob_broker o' = ob_broker o /\
    pg_max_pollables g' = pg_max_pollables g.
Proof.
  revert room g o. induction l as [|[fd garbage] l IH]; intros room g o Hg Hroom.
  { eexists _, _. rewrite decide_True by (simpl; lia). split; [reflexivity|].
    rewrite Nat.min_0_r. simpl. by rewrite app_nil_r. }
  cbn [waiting fmap list_fmap accept_loop]. fold (waiting l). rewrite add_same.
  cbn [length fst snd] in *. set (o1 := make_conn _ _ _).
  assert (forall k, (k < ob_next o)%nat -> ob_objs o1 !! k = ob_objs o !! k) as Hold1
    by (intros k Hk; apply lookup_insert_ne; lia).
  destruct room as [|room].
  { unfold add. rewrite (proj2 (Z.leb_le _ _)) by lia. rewrite decide_False by lia.
    eexists _, _. split; [reflexivity|]. simpl. rewrite app_nil_r, drop_0.
    split_and!; [done|done|done|lia| |done|done|done].
    intros k Hk. rewrite lookup_delete_ne by lia. by apply Hold1. }
  destruct (add_grown (ob_next o) g o1 Hg ltac:(lia)) as (g1 & -> & [Hg1 Hps _ Hm]).
  destruct (IH room g1 o1 Hg1) as (g2 & o2 & -> & Hg2 & Hps2 & Ha & Hobj & Hold & Hs2 & Hb2 & Hm2).
  { rewrite Hps, Hm, length_app. simpl. lia. }
  exists g2, o2. split_and!; [|done| |done| | |by rewrite Hs2|by rewrite Hb2|by rewrite Hm2, Hm].
  - destruct (decide (length l <= room)%nat);
      [rewrite decide_True by lia|rewrite decide_False by lia]; done.
  - rewrite Hps2, Hps, <- app_assoc. done.
  - intros [|k] fd' gb Hk; cbn [lookup list_lookup].
    + intros [= <- <-]. rewrite Hold by (unfold o1, make_conn; cbn [ob_next]; lia).
      rewrite Nat.add_0_r. apply lookup_insert_eq.
    + intros Hlk. rewrite <- (Hobj k fd' gb ltac:(lia) Hlk). unfold o1, make_conn.
      cbn [ob_next]. f_equal. lia.
  - intros k Hk. rewrite Hold by (unfold o1, make_conn; cbn [ob_next]; lia). by apply Hold1.
Qed.

(** The listener accepts everybody who is waiting: one new connection object per
    socket, added to the group in the order of arrival; when the group fills up it
    throws, the connection that did not fit is destroyed, and the others keep
    waiting. *)
Theorem listener_accepts p fd l g o :
  group_ok g -> ob_objs o !! p = Some (ConnectionListener fd) -> ob_accepts o = waiting l ->
  let room := Z.to_nat (pg_max_pollables g - zlen (pg_pollables g)) in
  exists g' o',
    handleEvent p (g, o) =
      (if decide (length l <= room)%nat then Ok tt
       else Throw (runtime_error "Maximum pollable limit exceeded"), (g', o')) /\
    group_ok g' /\
    pg_pollables g' = pg_pollables g ++ seq (ob_next o) (Nat.min room (length l)) /\
    ob_accepts o' = waiting (drop (S room) l) /\
    (forall k fd garbage, (k < room)%nat -> l !! k = Some (fd, garbage) ->
       ob_objs o' !! (ob_next o + k)%nat = Some (AConnection (new_Connection fd garbage))).
Proof.
  intros Hg Hp Hl room. pose proof (go_max g Hg) as Hmax.
  cbn [handleEvent objects_pollables]. unfold handle_object. rewrite Hp, Hl.
  destruct (accept_loop_run l room g o Hg ltac:(lia))
    as (g' & o' & E & H1 & H2 & H3 & H4 & _).
  exists g', o'. split_and!; done.
Qed.

(** ** Witnesses: a server with a listener, the signals and two connections *)
Definition sample_group : PollGroup :=
  mk_poll_group 4 [0; 1; 2; 3]%nat
    ((fun fd => mk_pollfd fd POLLIN 0) <$> [3; 4; 5; 6]).

Definition sample_objects : objects :=
  mk_objects {[ 0%nat := ConnectionListener 3; 1%nat := SignalHandler 4 false;
                2%nat := AConnection (mk_conn 5 [] 0); 3%nat := AConnection (mk_conn 6 [] 0) ]}
    4 (waiting [(7, 0); (8, 0)])
    {[ 5 := bytes_events (encode_all [small_message; small_message]) ]} 0 (Some []).

Lemma sample_group_ok : group_ok sample_group.
Proof. constructor; decide_closed. Qed.

Lemma pollAndHandle_safe_witness :
  match pollAndHandle 10 (Polled [1; 0; 1; 0]) (sample_group, sample_objects) with
  | (Ok b, (g', _)) => b = true /\ group_ok g' /\ exists r, Polled [1; 0; 1; 0] = Polled r
  | (Throw e, (g', o')) =>
      (g', o') = (sample_group, sample_objects) /\
      exists errno, Polled [1; 0; 1; 0] = PollError errno /\ e = system_error errno "Poll failed"
  | (Undef, _) => exists p w, fst (handleEvent p w) = Undef
  end.
Proof.
  apply (pollAndHandle_safe 10 (Polled [1; 0; 1; 0]) sample_group sample_objects
    sample_group_ok).
  decide_closed.
Defined.

Lemma pollAndHandle_dispatch_witness :
  pollAndHandle 10 (Polled [0; 1; 1; 0]) (sample_group, sample_objects) =
  (run_ready (zip (pg_pollables sample_group) [0; 1; 1; 0]);; mret true)
    (poll_write [0; 1; 1; 0] sample_group, sample_objects).
Proof.
  apply (pollAndHandle_dispatch 10 [0; 1; 1; 0] sample_group sample_objects
    sample_group_ok).
  - reflexivity.
  - repeat (apply Forall_cons_2; [first [left; reflexivity|right; reflexivity]|]).
    apply Forall_nil_2.
  - vm_compute. repeat split; discriminate.
  - decide_closed.
Defined.

(** The second connection has data; it is dropped when the first one hangs up. *)
Lemma hangup_drops_later_witness :
  exists g' o', pollAndHandle 10 (Polled [0; 0; 24; 1]) (sample_group, sample_objects) =
      (Ok true, (g', o')) /\
    pg_pollables g' = [0; 1]%nat /\ o' = sample_objects.
Proof.
  destruct (hangup_drops_later 10 [0; 1]%nat 2%nat [3%nat] [0; 0] 24 [1] sample_group
    sample_objects sample_group_ok) as (g' & o' & H1 & H2 & H3);
    [decide_closed|reflexivity|reflexivity|reflexivity|decide_closed|reflexivity|discriminate
    |decide_closed|].
  exists g', o'. split_and!; [exact H1|exact H2|apply H3; reflexivity].
Defined.

(** Seven bytes of a peer: a frame that announces one byte of payload. *)
Definition short_objects : objects :=
  mk_objects (ob_objs sample_objects) 4 []
    {[ 5 := bytes_events [MAGIC1; MAGIC2; MAGIC3; 4; 0; 1; 65] ]} 0 (Some []).

Lemma server_loop_safe_witness :
  exists o' p c, ob_objs o' !! p = Some (AConnection c) /\ parse (c_msg_buf c) = Undef /\
    snd (snd (server_loop 10 1 [Polled [0; 0; 1; 0]; PollError 4] (sample_group, short_objects))) = o'.
Proof.
  pose proof (server_loop_safe 10 1 [Polled [0; 0; 1; 0]; PollError 4] sample_group short_objects
    sample_group_ok ltac:(decide_closed) ltac:(decide_closed)) as P.
  assert (fst (server_loop 10 1 [Polled [0; 0; 1; 0]; PollError 4] (sample_group, short_objects)) =
    Undef) as E by (vm_compute; reflexivity).
  destruct (server_loop _ _ _ _) as [[|e|] [g' o']]; [discriminate E|discriminate E|].
  destruct P as (p & c & P1 & _ & P2). exists o', p, c. split; [exact P1|split; [exact P2|reflexivity]].
Defined.

Lemma signal_ends_loops_witness :
  fst (server_loop 10 1 [Polled [0; 1; 0; 0]; PollError 4] (sample_group, sample_objects)) =
    Ok Terminating.
Proof.
  destruct (signal_ends_loops 10 [0%nat] 1%nat [2; 3]%nat 4 false sample_group sample_objects
    [PollError 4] [] sample_group_ok) as [P _];
    [reflexivity|reflexivity|decide_closed|decide_closed|exact P].
Defined.

Lemma poll_queues_requests_witness :
  exists g' o',
    pollAndHandle 10 (Polled [0; 0; 1; 0]) (sample_group, sample_objects) =
      (Ok true, (g', o')) /\ pg_pollables g' = [0; 1; 2; 3]%nat /\
    ob_broker o' = Some (requests 2 [small_message; small_message]) /\
    ob_sockets o' !! 5 = Some [] /\ get_fd 2%nat o' = 5 /\
    exists len', ob_objs o' !! 2%nat = Some (AConnection (mk_conn 5 [] len')).
Proof.
  apply (poll_queues_requests 10 [0; 1]%nat 2%nat [3%nat] 5 0 [small_message; small_message]
    [] sample_group sample_objects sample_group_ok);
    [reflexivity|reflexivity|decide_closed|reflexivity| |reflexivity|decide_closed].
  repeat apply Forall_cons_2; auto using small_message_wf, Forall_nil_2.
Defined.

(** The group is full: nobody is accepted. *)
Lemma listener_accepts_witness :
  exists g' o',
    handleEvent 0%nat (sample_group, sample_objects) =
      (Throw (runtime_error "Maximum pollable limit exceeded"), (g', o')) /\
    pg_pollables g' = [0; 1; 2; 3]%nat /\ ob_accepts o' = waiting [(8, 0)].
Proof.
  destruct (listener_accepts 0%nat 3 [(7, 0); (8, 0)] sample_group sample_objects
    sample_group_ok eq_refl eq_refl) as (g' & o' & H1 & _ & H2 & H3 & _).
  exists g', o'. split_and!; [exact H1|exact H2|exact H3].
Defined.

(** The client's group after its server has closed the connection with descriptor 5. *)
Definition client_group : PollGroup :=
  mk_poll_group 2 [0; 1]%nat [mk_pollfd 4 POLLIN 0; mk_pollfd 5 POLLIN 0].
Definition client_objects : objects :=
  mk_objects (<[0%nat := SignalHandler 4 false]> {[1%nat := AConnection (mk_conn 5 [] 0)]})
    2 [] {[5 := [RecvClosed]]} 0 (Some []).

Lemma client_never_ends_witness :
  exists g' o',
    client_loop 2 0%nat ((false, Polled [0; POLLIN]) :: replicate 100 (false, Polled [0]))
      (client_group, client_objects) = (Ok Running, (g', o')) /\ pg_pollables g' = [0%nat] /\
    get_fd 1%nat o' = -1.
Proof.
  apply (client_never_ends 2 0%nat 1%nat 5 4 [] 0 [] client_group client_objects 100);
    [constructor; cbn; [done|lia]|reflexivity|done|reflexivity|reflexivity|reflexivity|].
  vm_compute. lia.
Defined.
