(* ===== verification/Broker.v ===== *)
(** * The request broker (src/request/ft_req_brkr.hpp, ft_req_brkr.cpp)

    The queue of requests shared by the main thread, which runs queueRequest and the
    broker's destructor, and the worker threads, which run RequestBrokerWorker::run: a
    transition system whose steps are the pieces of code between two points where
    another thread can get in. The mutex, the condition variable (with spurious wakeups)
    and the join are as the C++ standard has them. [R] is the type of requests; what
    handling one does is in [Server] and [Client]. *)
From S2P Require Import Prelude.
From stdpp Require Import relations.

(** ** Program points *)

(** Where a worker is in run(). *)
Inductive worker (R : Type) : Type :=
| WLoop                 (* at [while(!sm_terminate)] *)
| WLock                 (* before taking the lock *)
| WHold                 (* holds it, at the test of the inner loop *)
| WWaiting              (* blocked in [wait], lock released *)
| WWoken                (* woken up, must take the lock again *)
| WTake                 (* holds it, after the inner loop *)
| WHandle (r : R)       (* in handleRequest *)
| WDone.
Arguments WLoop {R}.
Arguments WLock {R}.
Arguments WHold {R}.
Arguments WWaiting {R}.
Arguments WWoken {R}.
Arguments WTake {R}.
Arguments WHandle {R} r.
Arguments WDone {R}.

(** Where the main thread is: outside, in queueRequest, or in stopWorkers. *)
Inductive main_pc (R : Type) : Type :=
| MReady
| MPushLock (r : R)
| MPush (r : R)
| MNotify
| MStopLock
| MStop
| MStopNotify
| MJoin
| MDone.
Arguments MReady {R}.
Arguments MPushLock {R} r.
Arguments MPush {R} r.
Arguments MNotify {R}.
Arguments MStopLock {R}.
Arguments MStop {R}.
Arguments MStopNotify {R}.
Arguments MJoin {R}.
Arguments MDone {R}.

Inductive owner : Type :=
| Main
| Worker (i : nat).

#[export] Instance owner_eq_dec : EqDecision owner.
Proof. solve_decision. Defined.

(** What the main thread still has to do: queue a request, or destroy the broker. *)
Inductive command (R : Type) : Type :=
| Queue (r : R)
| Destroy.
Arguments Queue {R} r.
Arguments Destroy {R}.

(** The static members of RequestBroker, the threads, and two histories: the requests
    queued so far, and those taken so far with the worker that took them. *)
Record broker (R : Type) := mk_broker {
  sm_req_list : list R;
  sm_terminate : bool;
  sm_req_brkr_mtx : option owner;
  workers : list (worker R);
  main : main_pc R;
  commands : list (command R);
  queued : list R;
  taken : list (nat * R) }.
Arguments mk_broker {R}.
Arguments sm_req_list {R}.
Arguments sm_terminate {R}.
Arguments sm_req_brkr_mtx {R}.
Arguments workers {R}.
Arguments main {R}.
Arguments commands {R}.
Arguments queued {R}.
Arguments taken {R}.

Section Broker.
Context {R : Type}.
Implicit Types (s : broker R).

(** The constructor: startWorkers starts the threads. *)
Definition startWorkers (n_workers : nat) (cmds : list (command R)) : broker R :=
  mk_broker [] false None (replicate n_workers WLoop) MReady cmds [] [].

Definition set_worker (i : nat) (w : worker R) s : broker R :=
  mk_broker (sm_req_list s) (sm_terminate s) (sm_req_brkr_mtx s) (<[i := w]> (workers s))
    (main s) (commands s) (queued s) (taken s).
Definition set_mtx (o : option owner) s : broker R :=
  mk_broker (sm_req_list s) (sm_terminate s) o (workers s) (main s) (commands s) (queued s)
    (taken s).
Definition set_main (m : main_pc R) s : broker R :=
  mk_broker (sm_req_list s) (sm_terminate s) (sm_req_brkr_mtx s) (workers s) m (commands s)
    (queued s) (taken s).
Definition set_commands (c : list (command R)) s : broker R :=
  mk_broker (sm_req_list s) (sm_terminate s) (sm_req_brkr_mtx s) (workers s) (main s) c
    (queued s) (taken s).
Definition set_terminate s : broker R :=
  mk_broker (sm_req_list s) true (sm_req_brkr_mtx s) (workers s) (main s) (commands s)
    (queued s) (taken s).
Definition push_back (r : R) s : broker R :=
  mk_broker (sm_req_list s ++ [r]) (sm_terminate s) (sm_req_brkr_mtx s) (workers s) (main s)
    (commands s) (queued s ++ [r]) (taken s).
Definition pop_front (i : nat) (r : R) (q : list R) s : broker R :=
  mk_broker q (sm_terminate s) (sm_req_brkr_mtx s) (workers s) (main s) (commands s)
    (queued s) (taken s ++ [(i, r)]).

(** [sm_req_list_cv.notify_all()] *)
Definition wake (w : worker R) : worker R :=
  match w with WWaiting => WWoken | _ => w end.
Definition notify_all s : broker R :=
  mk_broker (sm_req_list s) (sm_terminate s) (sm_req_brkr_mtx s) (wake <$> workers s)
    (main s) (commands s) (queued s) (taken s).

(** The next step of worker [i], if it is not blocked. *)
Definition run_step (i : nat) s : option (broker R) :=
  match workers s !! i with
  | Some WLoop => Some (set_worker i (if sm_terminate s then WDone else WLock) s)
  | Some WLock | Some WWoken =>
      match sm_req_brkr_mtx s with
      | None => Some (set_mtx (Some (Worker i)) (set_worker i WHold s))
      | Some _ => None
      end
  | Some WHold =>
      match sm_req_list s, sm_terminate s with
      | [], false => Some (set_mtx None (set_worker i WWaiting s))
      | _, _ => Some (set_worker i WTake s)
      end
  | Some WTake =>
      if sm_terminate s then Some (set_mtx None (set_worker i WLoop s))
      else
        match sm_req_list s with
        | r :: q => Some (set_mtx None (pop_front i r q (set_worker i (WHandle r) s)))
        | [] => None (* front() of an empty deque, see [broker_safe] *)
        end
  | Some (WHandle _) => Some (set_worker i WLoop s)
  | Some WWaiting | Some WDone | None => None
  end.

Definition is_done (w : worker R) : bool := match w with WDone => true | _ => false end.

(** The next step of the main thread: queueRequest and stopWorkers. *)
Definition main_step s : option (broker R) :=
  match main s with
  | MReady =>
      match commands s with
      | Queue r :: c => Some (set_main (MPushLock r) (set_commands c s))
      | Destroy :: c => Some (set_main MStopLock (set_commands c s))
      | [] => None
      end
  | MPushLock r =>
      match sm_req_brkr_mtx s with
      | None => Some (set_mtx (Some Main) (set_main (MPush r) s))
      | Some _ => None
      end
  | MPush r => Some (set_main MNotify (push_back r s))
  | MNotify => Some (set_mtx None (set_main MReady (notify_all s)))
  | MStopLock =>
      match sm_req_brkr_mtx s with
      | None => Some (set_mtx (Some Main) (set_main MStop s))
      | Some _ => None
      end
  | MStop => Some (set_main MStopNotify (set_terminate s))
  | MStopNotify => Some (set_mtx None (set_main MJoin (notify_all s)))
  | MJoin => if forallb is_done (workers s) then Some (set_main MDone s) else None
  | MDone => None
  end.

(** A step of some thread. *)
Inductive step s : broker R -> Prop :=
| step_worker i s' : run_step i s = Some s' -> step s s'
| step_main s' : main_step s = Some s' -> step s s'.

(** The same, with spurious wakeups of [wait]. *)
Inductive step_any s : broker R -> Prop :=
| step_thread s' : step s s' -> step_any s s'
| step_spurious i : workers s !! i = Some WWaiting -> step_any s (set_worker i WWoken s).

Definition reachable (n : nat) (cmds : list (command R)) s : Prop :=
  rtc step_any (startWorkers n cmds) s.

(** ** The invariant *)
Definition holding (w : worker R) : bool :=
  match w with WHold | WTake => true | _ => false end.
Definition main_holding (m : main_pc R) : bool :=
  match m with MPush _ | MNotify | MStop | MStopNotify => true | _ => false end.
Definition stopping (m : main_pc R) : bool :=
  match m with MStopNotify | MJoin | MDone => true | _ => false end.

Record inv s : Prop := mk_inv {
  inv_workers i w : workers s !! i = Some w ->
    holding w = true <-> sm_req_brkr_mtx s = Some (Worker i);
  inv_owner i : sm_req_brkr_mtx s = Some (Worker i) -> is_Some (workers s !! i);
  inv_main : main_holding (main s) = true <-> sm_req_brkr_mtx s = Some Main;
  inv_fifo : (taken s).*2 ++ sm_req_list s = queued s;
  inv_wait i : workers s !! i = Some WWaiting ->
    (sm_req_list s = [] \/ main s = MNotify) /\
    (sm_terminate s = false \/ main s = MStopNotify);
  inv_take i : workers s !! i = Some WTake -> sm_terminate s = true \/ sm_req_list s <> [];
  inv_handle i r : workers s !! i = Some (WHandle r) -> (i, r) ∈ taken s;
  inv_terminate : sm_terminate s = stopping (main s);
  inv_done i : workers s !! i = Some WDone -> sm_terminate s = true;
  inv_joined : main s = MDone -> forall i w, workers s !! i = Some w -> w = WDone }.
End Broker.

(** ** Every step keeps the invariant *)
Section Invariant.
Context {R : Type}.
Implicit Types (s : broker R).

Lemma inv_init n (cmds : list (command R)) : inv (startWorkers n cmds).
Proof.
  constructor; simpl; try done.
  all: intros; try match goal with
    | E : replicate _ _ !! _ = Some _ |- _ => apply lookup_replicate in E as [? _] end;
    naive_solver.
Qed.

(** Cases of a lookup after a change. *)
Ltac lookups :=
  repeat match goal with
  | E : <[?i := _]> _ !! ?j = Some _ |- _ =>
      apply list_lookup_insert_Some in E as [(? & ? & ?)|[? ?]]; subst; try discriminate
  | E : (wake <$> _) !! _ = Some _ |- _ =>
      rewrite list_lookup_fmap in E; apply fmap_Some in E as (? & ? & ?); subst
  end.

Lemma wake_holding (w : worker R) : holding (wake w) = holding w.
Proof. by destruct w. Qed.

Lemma is_Some_insert (l : list (worker R)) i j w :
  is_Some (l !! j) -> is_Some (<[i := w]> l !! j).
Proof. rewrite !lookup_lt_is_Some, length_insert. done. Qed.

(** Conditions on the state a worker gets to, in [s]. *)
Record fits (i : nat) (w : worker R) s : Prop := mk_fits {
  fit_wait : w = WWaiting ->
    (sm_req_list s = [] \/ main s = MNotify) /\
    (sm_terminate s = false \/ main s = MStopNotify);
  fit_take : w = WTake -> sm_terminate s = true \/ sm_req_list s <> [];
  fit_handle r : w = WHandle r -> (i, r) ∈ taken s;
  fit_done : w = WDone -> sm_terminate s = true;
  fit_joined : main s = MDone -> w = WDone }.

(** Replacing the state of worker [i], and the owner of the mutex with it. *)
Lemma inv_set_worker i w w' o s :
  inv s -> workers s !! i = Some w -> fits i w' s ->
  (holding w' = true <-> o = Some (Worker i)) ->
  (forall x, x <> Worker i -> o = Some x <-> sm_req_brkr_mtx s = Some x) ->
  inv (set_mtx o (set_worker i w' s)).
Proof.
  intros [Iw Io Im If Ia It Ih Ie Id Ij] Ei [Fw Ft Fh Fd Fj] Ho Hx.
  constructor; simpl; try done.
  - intros j v E. lookups; [done|]. rewrite (Iw j v) by done. symmetry. apply Hx. congruence.
  - intros j E. apply is_Some_insert. destruct (decide (j = i)) as [->|Hne]; [by eexists|].
    apply Io, Hx; [congruence|done].
  - rewrite Im. symmetry. by apply Hx.
  - intros j E. lookups; [by apply Fw|by apply (Ia j)].
  - intros j E. lookups; [by apply Ft|by apply (It j)].
  - intros j r E. lookups; [by apply Fh|by apply Ih].
  - intros j E. lookups; [by apply Fd|by apply (Id j)].
  - intros E j v Ev. lookups; [by apply Fj|by apply (Ij E j)].
Qed.

Lemma set_mtx_same s : set_mtx (sm_req_brkr_mtx s) s = s.
Proof. by destruct s. Qed.

(** A step that neither takes nor releases the mutex. *)
Lemma inv_set_quiet i w w' s :
  inv s -> workers s !! i = Some w -> fits i w' s -> holding w' = holding w ->
  inv (set_worker i w' s).
Proof.
  intros H Ei Hf Hh. rewrite <- (set_mtx_same (set_worker i w' s)).
  apply (inv_set_worker i w); [done|done|done| |done].
  rewrite Hh. by apply (inv_workers s H).
Qed.

Lemma inv_pop i r q s :
  inv s -> sm_req_list s = r :: q -> sm_req_brkr_mtx s = Some (Worker i) ->
  inv (set_mtx None (pop_front i r q (set_worker i (WHandle r) s))).
Proof.
  intros [Iw Io Im If Ia It Ih Ie Id Ij] Eq Em.
  assert (forall j v, workers s !! j = Some v -> holding v = true -> j = i) as Huniq.
  { intros j v E Hv. apply (Iw j v E) in Hv. congruence. }
  assert (main s <> MNotify) as Hmn.
  { intros E. destruct Im as [Im _]. rewrite E in Im. specialize (Im eq_refl). congruence. }
  constructor; simpl.
  - intros j v E. lookups; [done|]. split; [|done]. intros Hv.
    pose proof (Huniq j v ltac:(done) Hv). congruence.
  - done.
  - rewrite Im, Em. done.
  - rewrite fmap_app, <- app_assoc. cbn. rewrite <- Eq. exact If.
  - intros j E. lookups. destruct (Ia j ltac:(done)) as [[E'|E'] _]; congruence.
  - intros j E. lookups. pose proof (Huniq j WTake ltac:(done) eq_refl). congruence.
  - intros j r0 E. apply elem_of_app. lookups; [right|left; by apply Ih].
    apply list.elem_of_cons. left. congruence.
  - done.
  - intros j E. lookups. by apply (Id j).
  - intros E j v Ev. destruct (Io i Em) as [w Ew]. pose proof (Ij E i w Ew) as ->.
    apply (Iw i WDone Ew) in Em. done.
Qed.

Lemma run_step_inv i s s' : inv s -> run_step i s = Some s' -> inv s'.
Proof.
  intros H Hrun. unfold run_step in Hrun.
  destruct (workers s !! i) as [w|] eqn:Ei; [|done].
  pose proof (inv_workers s H i w Ei) as Hw.
  assert (main s = MDone -> w = WDone) as Hdone by (intros E; by apply (inv_joined s H E i)).
  assert (forall x, sm_req_brkr_mtx s = None -> x <> Worker i ->
    Some (Worker i) = Some x <-> sm_req_brkr_mtx s = Some x) as Hacq
    by (intros x Em Hx; rewrite Em; split; congruence).
  assert (forall x, sm_req_brkr_mtx s = Some (Worker i) -> x <> Worker i ->
    None = Some x <-> sm_req_brkr_mtx s = Some x) as Hrel
    by (intros x Em Hx; rewrite Em; split; congruence).
  destruct w; simpl in Hw.
  - injection Hrun as <-. apply (inv_set_quiet i WLoop); [done|done| |].
    + destruct (sm_terminate s) eqn:Et; constructor; try done. intros E. by apply Hdone in E.
    + by destruct (sm_terminate s).
  - destruct (sm_req_brkr_mtx s) eqn:Em; [done|]. injection Hrun as <-.
    apply (inv_set_worker i WLock); [done|done| |done|intros x Hx; rewrite Em; by apply Hacq].
    constructor; try done. intros E. by apply Hdone in E.
  - assert (sm_req_brkr_mtx s = Some (Worker i)) as Em by tauto.
    destruct (sm_req_list s) eqn:Eq, (sm_terminate s) eqn:Et; injection Hrun as <-.
    2: { apply (inv_set_worker i WHold); [done|done| |done|intros x Hx; by apply Hrel].
      constructor; try done; [by auto|]. intros E. by apply Hdone in E. }
    all: apply (inv_set_quiet i WHold); [done|done| |done].
    all: constructor; try done; [rewrite ?Et, ?Eq; auto|intros E; by apply Hdone in E].
  - done.
  - destruct (sm_req_brkr_mtx s) eqn:Em; [done|]. injection Hrun as <-.
    apply (inv_set_worker i WWoken); [done|done| |done|intros x Hx; rewrite Em; by apply Hacq].
    constructor; try done. intros E. by apply Hdone in E.
  - assert (sm_req_brkr_mtx s = Some (Worker i)) as Em by tauto.
    destruct (sm_terminate s) eqn:Et; [injection Hrun as <-|].
    + apply (inv_set_worker i WTake); [done|done| |done|intros x Hx; by apply Hrel].
      constructor; try done. intros E. by apply Hdone in E.
    + destruct (sm_req_list s) as [|r q] eqn:Eq; [done|]. injection Hrun as <-.
      by apply inv_pop.
  - injection Hrun as <-. apply (inv_set_quiet i (WHandle r)); [done|done| |done].
    constructor; try done. intros E. by apply Hdone in E.
  - done.
Qed.

(** A step of the main thread that leaves the workers, the queue and the flag alone. *)
Lemma inv_set_main m o s :
  inv s -> main_holding m = bool_decide (o = Some Main) -> stopping m = stopping (main s) ->
  m <> MDone -> main s <> MNotify -> main s <> MStopNotify ->
  (forall i, o = Some (Worker i) <-> sm_req_brkr_mtx s = Some (Worker i)) ->
  inv (set_mtx o (set_main m s)).
Proof.
  intros [Iw Io Im If Ia It Ih Ie Id Ij] Hm Hs Hnd Hn1 Hn2 Ho.
  constructor; simpl; try done.
  - intros i w E. rewrite Ho. by apply Iw.
  - intros i E. by apply Io, Ho.
  - rewrite Hm. apply bool_decide_eq_true.
  - intros i E. destruct (Ia i E) as [[?|?] [?|?]]; [auto|done..].
  - by rewrite Hs.
Qed.
Lemma inv_set_commands c s : inv s -> inv (set_commands c s).
Proof. intros []. by constructor. Qed.

Lemma inv_enter m s :
  inv s -> sm_req_brkr_mtx s = None -> main_holding m = true -> stopping m = stopping (main s) ->
  m <> MDone -> main s <> MNotify -> main s <> MStopNotify ->
  inv (set_mtx (Some Main) (set_main m s)).
Proof.
  intros H Em Hm Hs H1 H2 H3. apply inv_set_main; try done.
  intros i. rewrite Em. split; congruence.
Qed.

Lemma inv_quiet_main m s :
  inv s -> main_holding m = main_holding (main s) -> stopping m = stopping (main s) ->
  m <> MDone -> main s <> MNotify -> main s <> MStopNotify -> inv (set_main m s).
Proof.
  intros H Hm Hs H1 H2 H3. rewrite <- (set_mtx_same (set_main m s)).
  apply inv_set_main; try done. rewrite Hm. simpl.
  destruct (main_holding (main s)) eqn:E.
  - rewrite bool_decide_true; [done|]. by apply (inv_main s H).
  - rewrite bool_decide_false; [done|]. intros Em. apply (inv_main s H) in Em. congruence.
Qed.

(** Waking everybody up and leaving the critical region. *)
Lemma inv_notify m s :
  inv s -> main_holding (main s) = true -> main_holding m = false ->
  stopping m = stopping (main s) -> m <> MDone ->
  inv (set_mtx None (set_main m (notify_all s))).
Proof.
  intros [Iw Io Im If Ia It Ih Ie Id Ij] Hh Hm Hs Hd.
  assert (sm_req_brkr_mtx s = Some Main) as Em by tauto.
  constructor; simpl; try done.
  - intros i w E. lookups. rewrite wake_holding, (Iw i) by done. rewrite Em. done.
  - by rewrite Hm.
  - intros i E. lookups. by destruct x.
  - intros i E. lookups. apply (It i). by destruct x; simplify_eq/=.
  - intros i r E. lookups. apply Ih. by destruct x; simplify_eq/=.
  - by rewrite Hs.
  - intros i E. lookups. apply (Id i). by destruct x; simplify_eq/=.
Qed.

Lemma main_step_inv s s' : inv s -> main_step s = Some s' -> inv s'.
Proof.
  intros H Hrun. unfold main_step in Hrun. pose proof (inv_terminate s H) as Ht.
  destruct (main s) as [|r|r| | | | | |] eqn:Em.
  - destruct (commands s) as [|[r|] c]; [done| |]; injection Hrun as <-;
      (apply inv_quiet_main; [by apply inv_set_commands|simpl; by rewrite ?Em..]).
  - destruct (sm_req_brkr_mtx s) eqn:Eo; [done|]. injection Hrun as <-.
    apply inv_enter; try done; by rewrite ?Em.
  - injection Hrun as <-.
    assert (sm_req_brkr_mtx s = Some Main) as Eo by (apply (inv_main s H); by rewrite Em).
    destruct H as [Iw Io Im If Ia It Ih Ie Id Ij]. constructor; simpl; try done.
    + by rewrite app_assoc, If.
    + intros i E. split; [by right|]. by left.
    + intros i E. right. by destruct (sm_req_list s).
  - injection Hrun as <-. apply inv_notify; by rewrite ?Em.
  - destruct (sm_req_brkr_mtx s) eqn:Eo; [done|]. injection Hrun as <-.
    apply inv_enter; try done; by rewrite ?Em.
  - injection Hrun as <-.
    assert (sm_req_brkr_mtx s = Some Main) as Eo by (apply (inv_main s H); by rewrite Em).
    destruct H as [Iw Io Im If Ia It Ih Ie Id Ij]. constructor; simpl; try done.
    + intros i E. split; [|by right]. destruct (Ia i E) as [[?|?] _]; [by left|congruence].
    + intros i E. by left.
  - injection Hrun as <-. apply inv_notify; by rewrite ?Em.
  - destruct (forallb is_done (workers s)) eqn:Ed; [|done]. injection Hrun as <-.
    assert (sm_req_brkr_mtx s <> Some Main) as Eo.
    { intros E. apply (inv_main s H) in E. by rewrite Em in E. }
    assert (forall i w, workers s !! i = Some w -> w = WDone) as Hall.
    { intros i w E. rewrite forallb_forall in Ed. specialize (Ed w).
      destruct w; try done; exfalso; (discriminate Ed || idtac);
      by specialize (Ed ltac:(by apply list_elem_of_In; eapply list_elem_of_lookup_2)). }
    destruct H as [Iw Io Im If Ia It Ih Ie Id Ij]. constructor; simpl; try done.
    + intros i E. by pose proof (Hall i _ E).
  - done.
Qed.

Lemma step_any_inv s s' : inv s -> step_any s s' -> inv s'.
Proof.
  intros H [s1 [i s2 Hs|s2 Hs]|i Ei].
  - by eapply run_step_inv.
  - by eapply main_step_inv.
  - apply (inv_set_quiet i WWaiting); [done|done| |done]. constructor; try done.
    intros E. by pose proof (inv_joined s H E i _ Ei).
Qed.

Lemma reachable_inv n cmds s : reachable n cmds s -> inv s.
Proof.
  intros Hr. unfold reachable in Hr. revert Hr. generalize (inv_init n cmds).
  generalize (startWorkers n cmds). intros s0 H0 Hr. induction Hr as [|s1 s2 s3 H12 _ IH]; [done|].
  apply IH. by eapply step_any_inv.
Qed.
End Invariant.

(** ** Progress *)
Section Progress.
Context {R : Type}.
Implicit Types (s : broker R).

Lemma run_step_length i s s' : run_step i s = Some s' -> length (workers s') = length (workers s).
Proof. unfold run_step. repeat case_match; intros [= <-]; simpl; by rewrite length_insert. Qed.

Lemma main_step_length s s' : main_step s = Some s' -> length (workers s') = length (workers s).
Proof. unfold main_step. repeat case_match; intros [= <-]; simpl; by rewrite ?length_fmap. Qed.

Lemma reachable_length n cmds s : reachable n cmds s -> length (workers s) = n.
Proof.
  unfold reachable. assert (length (workers (startWorkers n cmds)) = n) as E
    by (simpl; by rewrite length_replicate).
  revert E. generalize (startWorkers n cmds). intros s0 E Hr.
  induction Hr as [|s1 s2 s3 [s2' [i s4 Hs|s4 Hs]|i Ei] _ IH]; [done|apply IH..].
  - by rewrite (run_step_length i s1).
  - by rewrite (main_step_length s1).
  - simpl. by rewrite length_insert.
Qed.

(** What is still to be queued. *)
Fixpoint requests_of (cmds : list (command R)) : list R :=
  match cmds with
  | [] => []
  | Queue r :: c => r :: requests_of c
  | Destroy :: _ => []
  end.

Definition in_hand (m : main_pc R) : list R :=
  match m with MPushLock r | MPush r => [r] | _ => [] end.

Definition in_stop (m : main_pc R) : bool :=
  match m with MStopLock | MStop | MStopNotify | MJoin | MDone => true | _ => false end.

(** The requests queued so far and those to come are those of the commands. *)
Record follows (cmds : list (command R)) s : Prop := mk_follows {
  fo_requests : requests_of cmds =
    queued s ++ in_hand (main s) ++ (if in_stop (main s) then [] else requests_of (commands s));
  fo_stop : Destroy ∉ cmds -> (Destroy ∉ commands s) /\ in_stop (main s) = false;
  fo_destroy : Destroy ∈ cmds -> in_stop (main s) = true \/ Destroy ∈ commands s }.

Lemma follows_init n cmds : follows cmds (startWorkers n cmds).
Proof. constructor; simpl; auto. Qed.

Lemma run_step_frame i s s' :
  run_step i s = Some s' ->
  queued s' = queued s /\ main s' = main s /\ commands s' = commands s.
Proof. unfold run_step. repeat case_match; by intros [= <-]. Qed.

Lemma run_step_follows cmds i s s' :
  follows cmds s -> run_step i s = Some s' -> follows cmds s'.
Proof.
  intros [H1 H2 H3] Hs. destruct (run_step_frame i s s' Hs) as (E1 & E2 & E3).
  constructor; by rewrite ?E1, E2, E3.
Qed.

Lemma main_step_follows cmds s s' :
  follows cmds s -> main_step s = Some s' -> follows cmds s'.
Proof.
  intros [H1 H2 H3] Hs. unfold main_step in Hs.
  destruct (main s) as [|r|r| | | | | |] eqn:Em; simpl in H1, H2, H3.
  - destruct (commands s) as [|[r|] c] eqn:Ec; [done| |]; injection Hs as <-;
      constructor; simpl.
    + done.
    + intros Hn. destruct (H2 Hn) as [H4 _]. rewrite list.elem_of_cons in H4. tauto.
    + intros Hd. destruct (H3 Hd) as [?|H4]; [done|].
      apply list.elem_of_cons in H4 as [?|?]; [done|by right].
    + by rewrite app_nil_r in *.
    + intros Hn. destruct (H2 Hn) as [H4 _]. destruct H4. by left.
    + by left.
  - destruct (sm_req_brkr_mtx s); [done|]. injection Hs as <-. by constructor.
  - injection Hs as <-. constructor; simpl; [|done..]. by rewrite <- app_assoc.
  - injection Hs as <-. by constructor.
  - destruct (sm_req_brkr_mtx s); [done|]. injection Hs as <-. by constructor.
  - injection Hs as <-. by constructor.
  - injection Hs as <-. by constructor.
  - destruct (forallb is_done (workers s)); [|done]. injection Hs as <-. by constructor.
  - done.
Qed.

Lemma reachable_follows n cmds s : reachable n cmds s -> follows cmds s.
Proof.
  unfold reachable. generalize (follows_init n cmds). generalize (startWorkers n cmds).
  intros s0 H0 Hr. induction Hr as [|s1 s2 s3 [s2' [i s4 Hs|s4 Hs]|i Ei] _ IH]; [done|apply IH..].
  - by eapply run_step_follows.
  - by eapply main_step_follows.
  - destruct H0. by constructor.
Qed.

(** *** When nobody can go on *)
Lemma nf_mutex_free s : inv s -> nf step s -> sm_req_brkr_mtx s = None.
Proof.
  intros H Hnf. destruct (sm_req_brkr_mtx s) as [[|i]|] eqn:Em; [exfalso..|done].
  - pose proof (proj2 (inv_main s H) Em) as Hm. apply Hnf.
    destruct (main s) eqn:E; try done; eexists; apply step_main; unfold main_step; by rewrite E.
  - destruct (inv_owner s H i Em) as [w Ew].
    pose proof (proj2 (inv_workers s H i w Ew) Em) as Hw. apply Hnf. destruct w; try done.
    + destruct (sm_req_list s) eqn:Eq, (sm_terminate s) eqn:Et; eexists;
        apply (step_worker s i); unfold run_step; rewrite Ew, Eq, ?Et; reflexivity.
    + destruct (sm_terminate s) eqn:Et.
      * eexists. apply (step_worker s i). unfold run_step. by rewrite Ew, Et.
      * destruct (inv_take s H i Ew) as [?|Hq]; [congruence|].
        destruct (sm_req_list s) eqn:Eq; [done|]. eexists. apply (step_worker s i).
        unfold run_step. by rewrite Ew, Et, Eq.
Qed.

Lemma nf_workers s i w :
  inv s -> nf step s -> workers s !! i = Some w -> w = WWaiting \/ w = WDone.
Proof.
  intros H Hnf Ew. pose proof (nf_mutex_free s H Hnf) as Em.
  assert (run_step i s = None) as Hr.
  { destruct (run_step i s) as [s'|] eqn:E; [|done]. exfalso. apply Hnf. exists s'.
    by apply (step_worker s i). }
  unfold run_step in Hr. rewrite Ew, Em in Hr. destruct w; try done; auto.
  - pose proof (proj1 (inv_workers s H i _ Ew) eq_refl). congruence.
  - pose proof (proj1 (inv_workers s H i _ Ew) eq_refl). congruence.
Qed.

Lemma nf_main s :
  inv s -> nf step s ->
  (main s = MReady /\ commands s = [] /\ sm_terminate s = false /\
     forall i w, workers s !! i = Some w -> w = WWaiting) \/
  (main s = MDone /\ forall i w, workers s !! i = Some w -> w = WDone).
Proof.
  intros H Hnf. pose proof (nf_mutex_free s H Hnf) as Em.
  assert (main_step s = None) as Hr.
  { destruct (main_step s) as [s'|] eqn:E; [|done]. exfalso. apply Hnf. exists s'.
    by apply step_main. }
  pose proof (inv_terminate s H) as Et.
  unfold main_step in Hr. rewrite Em in Hr. destruct (main s) eqn:E; try done.
  - left. destruct (commands s) as [|[]]; try done. split_and!; try done.
    intros i w Ew. destruct (nf_workers s i w H Hnf Ew) as [ | -> ]; [done|].
    pose proof (inv_done s H i Ew). simpl in Et. congruence.
  - exfalso. destruct (forallb is_done (workers s)) eqn:Ed; [done|].
    assert (forallb is_done (workers s) = true); [|congruence].
    apply forallb_forall. intros w Hw. apply list_elem_of_In in Hw.
    apply list_elem_of_lookup in Hw as [i Ew].
    destruct (nf_workers s i w H Hnf Ew) as [-> | ->]; [|done].
    destruct (inv_wait s H i Ew) as [_ [Ht|Ht]]; [simpl in Et; congruence|congruence].
  - right. split; [done|]. intros i w Ew. by apply (inv_joined s H E i).
Qed.
End Progress.

(** ** Termination *)
Section Termination.
Context {R : Type}.
Implicit Types (s : broker R).

(** How far a worker is from blocking or ending. *)
Definition worker_rank (terminate : bool) (w : worker R) : nat :=
  if terminate then
    match w with
    | WDone => 0 | WLoop => 1 | WHandle _ | WTake => 2 | WHold => 3
    | WLock | WWoken => 4 | WWaiting => 5
    end
  else
    match w with
    | WWaiting | WDone => 0 | WTake => 1 | WHold => 2 | WLock | WWoken => 3
    | WLoop => 4 | WHandle _ => 5
    end%nat.

Definition main_rank (n : nat) (m : main_pc R) : nat :=
  match m with
  | MReady => 0 | MPushLock _ => 8 * n + 19 | MPush _ => 8 * n + 18 | MNotify => 8 * n + 12
  | MStopLock => 8 * n + 19 | MStop => 8 * n + 18 | MStopNotify => 3 * n + 17
  | MJoin => 1 | MDone => 0
  end%nat.

Definition rank s : nat :=
  (sum_list_with (worker_rank (sm_terminate s)) (workers s) + 5 * length (sm_req_list s) +
   main_rank (length (workers s)) (main s) +
   (8 * length (workers s) + 20) * length (commands s))%nat.

Lemma sum_set t (ws : list (worker R)) i w w' :
  ws !! i = Some w ->
  (sum_list_with (worker_rank t) (<[i := w']> ws) + worker_rank t w =
   sum_list_with (worker_rank t) ws + worker_rank t w')%nat.
Proof.
  revert i. induction ws as [|v ws IH]; intros [|i] E; try done; simpl in *.
  - simplify_eq. lia.
  - specialize (IH i E). lia.
Qed.

Lemma sum_wake t (ws : list (worker R)) :
  (sum_list_with (worker_rank t) (wake <$> ws) <=
   sum_list_with (worker_rank t) ws + if t then 0 else 3 * length ws)%nat.
Proof.
  induction ws as [|w ws IH]; [simpl; lia|].
  cbn [sum_list_with fmap list_fmap length] in *.
  destruct t, w; cbn [worker_rank wake] in *; lia.
Qed.

Lemma sum_terminate (ws : list (worker R)) :
  (sum_list_with (worker_rank true) ws <=
   sum_list_with (worker_rank false) ws + 5 * length ws)%nat.
Proof. induction ws as [|w ws IH]; simpl; [lia|]. destruct w; simpl in *; lia. Qed.

Lemma run_step_rank i s s' : inv s -> run_step i s = Some s' -> (rank s' < rank s)%nat.
Proof.
  intros H Hs. unfold run_step in Hs. destruct (workers s !! i) as [w|] eqn:Ei; [|done].
  pose proof (fun w' => sum_set (sm_terminate s) (workers s) i w w' Ei) as Hsum.
  unfold rank. destruct w; try done.
  - injection Hs as <-. simpl. rewrite length_insert.
    destruct (sm_terminate s); [specialize (Hsum WDone)|specialize (Hsum WLock)];
      simpl in Hsum; lia.
  - destruct (sm_req_brkr_mtx s); [done|]. injection Hs as <-. simpl. rewrite length_insert.
    specialize (Hsum WHold). destruct (sm_terminate s); simpl in Hsum; lia.
  - destruct (sm_req_list s) eqn:Eq, (sm_terminate s) eqn:Et; injection Hs as <-; simpl;
      rewrite length_insert, ?Et, ?Eq;
      [specialize (Hsum WTake)|specialize (Hsum WWaiting)|specialize (Hsum WTake)..];
      simpl in *; lia.
  - destruct (sm_req_brkr_mtx s); [done|]. injection Hs as <-. simpl. rewrite length_insert.
    specialize (Hsum WHold). destruct (sm_terminate s); simpl in Hsum; lia.
  - destruct (sm_terminate s) eqn:Et.
    + injection Hs as <-. simpl. rewrite length_insert, Et. specialize (Hsum WLoop).
      simpl in Hsum. lia.
    + destruct (sm_req_list s) as [|r q]; [done|]. injection Hs as <-. simpl.
      rewrite length_insert, Et. specialize (Hsum (WHandle r)). simpl in Hsum. lia.
  - injection Hs as <-. simpl. rewrite length_insert. specialize (Hsum WLoop).
    destruct (sm_terminate s); simpl in Hsum; lia.
Qed.

Lemma main_step_rank s s' : inv s -> main_step s = Some s' -> (rank s' < rank s)%nat.
Proof.
  intros H Hs. pose proof (inv_terminate s H) as Et. unfold main_step in Hs. unfold rank.
  pose proof (sum_wake (sm_terminate s) (workers s)) as Hw.
  pose proof (sum_terminate (workers s)) as Hterm.
  destruct (main s) as [|r|r| | | | | |] eqn:Em; simpl in Et; rewrite ?Et in *.
  - destruct (commands s) as [|[r|] c]; [done|injection Hs as <-; simpl; rewrite ?Et; lia..].
  - destruct (sm_req_brkr_mtx s); [done|]. injection Hs as <-. simpl. rewrite ?Et. lia.
  - injection Hs as <-. simpl. rewrite length_app, ?Et. simpl. lia.
  - injection Hs as <-. simpl. rewrite length_fmap, ?Et. lia.
  - destruct (sm_req_brkr_mtx s); [done|]. injection Hs as <-. simpl. rewrite ?Et. lia.
  - injection Hs as <-. simpl. lia.
  - injection Hs as <-. simpl. rewrite length_fmap, ?Et. lia.
  - destruct (forallb is_done (workers s)); [|done]. injection Hs as <-. simpl.
    rewrite ?Et. lia.
  - done.
Qed.

Lemma step_sn s : inv s -> sn step s.
Proof.
  remember (rank s) as k eqn:Ek. revert s Ek.
  induction (lt_wf k) as [k _ IH]. intros s -> H. constructor. intros s' Hs. unfold flip in Hs.
  assert (rank s' < rank s)%nat as Hlt.
  { destruct Hs as [i s' Hs|s' Hs]; [by eapply run_step_rank|by eapply main_step_rank]. }
  apply (IH _ Hlt); [done|]. eapply step_any_inv; [done|by apply step_thread].
Qed.
End Termination.

(** ** Running a schedule *)
Section Schedules.
Context {R : Type}.
Implicit Types (s : broker R).

Fixpoint run_schedule (l : list owner) s : option (broker R) :=
  match l with
  | [] => Some s
  | Main :: l' => main_step s ≫= run_schedule l'
  | Worker i :: l' => run_step i s ≫= run_schedule l'
  end.

Lemma run_schedule_steps l s s' : run_schedule l s = Some s' -> rtc step_any s s'.
Proof.
  revert s. induction l as [|[|i] l IH]; intros s E; simpl in E.
  - injection E as <-. done.
  - apply bind_Some in E as (s1 & E1 & E). eapply rtc_l; [|by apply IH].
    by apply step_thread, step_main.
  - apply bind_Some in E as (s1 & E1 & E). eapply rtc_l; [|by apply IH].
    apply step_thread. by apply (step_worker s i).
Qed.

Lemma run_schedule_app l1 l2 s :
  run_schedule (l1 ++ l2) s = run_schedule l1 s ≫= run_schedule l2.
Proof.
  revert s. induction l1 as [|[|i] l1 IH]; intros s; simpl; [done| |].
  - by destruct (main_step s); simpl.
  - by destruct (run_step i s); simpl.
Qed.

Lemma wake_loops n : wake <$> replicate n (WLoop (R := R)) = replicate n WLoop.
Proof. by rewrite fmap_replicate. Qed.

(** queueRequest and stopWorkers without interruption. *)
Lemma queue_one r c q ws (qd : list R) tk :
  run_schedule [Main; Main; Main; Main]
    (mk_broker q false None ws MReady (Queue r :: c) qd tk) =
  Some (mk_broker (q ++ [r]) false None (wake <$> ws) MReady c (qd ++ [r]) tk).
Proof. reflexivity. Qed.

Lemma stop_one c q ws (qd : list R) tk :
  run_schedule [Main; Main; Main; Main]
    (mk_broker q false None ws MReady (Destroy :: c) qd tk) =
  Some (mk_broker q true None (wake <$> ws) MJoin c qd tk).
Proof. reflexivity. Qed.

(** The main thread queues everything before a worker starts. *)
Lemma queue_all n rs c q (qd : list R) tk :
  exists l, run_schedule l (mk_broker q false None (replicate n WLoop) MReady
      ((Queue <$> rs) ++ c) qd tk) =
    Some (mk_broker (q ++ rs) false None (replicate n WLoop) MReady c (qd ++ rs) tk).
Proof.
  revert q qd. induction rs as [|r rs IH]; intros q qd.
  { exists []. by rewrite !app_nil_r. }
  destruct (IH (q ++ [r]) (qd ++ [r])) as [l E].
  exists ([Main; Main; Main; Main] ++ l). cbn [fmap list_fmap app].
  rewrite (run_schedule_app [Main; Main; Main; Main] l), queue_one, wake_loops.
  cbn [mbind option_bind]. rewrite E. by rewrite <- !app_assoc.
Qed.

(** Then it sets the termination flag, and every worker leaves its loop. *)
Lemma leave_all k n q m c (qd : list R) tk :
  exists l, run_schedule l (mk_broker q true None (replicate k WDone ++ replicate n WLoop) m c
      qd tk) =
    Some (mk_broker q true None (replicate (k + n) WDone) m c qd tk).
Proof.
  revert k. induction n as [|n IH]; intros k.
  { exists []. by rewrite Nat.add_0_r, app_nil_r. }
  destruct (IH (S k)) as [l E]. exists (Worker k :: l). cbn [run_schedule].
  unfold run_step. cbn [workers]. simpl replicate at 2.
  assert ((replicate k WDone ++ WLoop :: replicate n WLoop) !! k = Some (WLoop (R := R))) as ->
    by (apply list_lookup_middle; by rewrite length_replicate).
  unfold set_worker. cbn [sm_terminate workers sm_req_list sm_req_brkr_mtx main commands
    queued taken mbind option_bind].
  rewrite insert_app_r_alt by (by rewrite length_replicate).
  rewrite length_replicate, Nat.sub_diag. cbn [insert list_insert].
  replace (k + S n)%nat with (S k + n)%nat by lia.
  assert (replicate (S k) WDone ++ replicate n (WLoop (R := R)) =
    replicate k WDone ++ WDone :: replicate n WLoop) as Er
    by (rewrite replicate_S_end, <- app_assoc; done).
  rewrite <- E, Er. done.
Qed.
End Schedules.

(** ** Properties *)
Section Properties.
Context {R : Type}.
Implicit Types (s : broker R).

(** C22: the broker's critical regions and its queue are safe in every reachable state, for
    any number of workers, any interleaving and any spurious wakeups: at most one thread
    is inside a critical region; the requests taken so far followed by those in the queue
    are the requests queued so far, in order (each is taken exactly once, first in first
    out); a request being handled was taken by that worker; and front() is never called
    on an empty queue. *)
Theorem broker_safe n cmds s :
  reachable n cmds s ->
  (forall i j v w, workers s !! i = Some v -> workers s !! j = Some w ->
     holding v = true -> holding w = true -> i = j) /\
  (main_holding (main s) = true ->
     forall i w, workers s !! i = Some w -> holding w = false) /\
  (taken s).*2 ++ sm_req_list s = queued s /\
  (forall i r, workers s !! i = Some (WHandle r) -> (i, r) ∈ taken s) /\
  (forall i, workers s !! i = Some WTake -> sm_terminate s = false -> sm_req_list s <> []).
Proof.
  intros Hr. pose proof (reachable_inv n cmds s Hr) as [Iw Io Im If Ia It Ih Ie Id Ij].
  split_and!; [| |done|done|].
  - intros i j v w Ei Ej Hv Hw. apply (Iw i v Ei) in Hv. apply (Iw j w Ej) in Hw. congruence.
  - intros Hm i w Ew. apply Im in Hm. destruct (holding w) eqn:E; [|done].
    apply (Iw i w Ew) in E. congruence.
  - intros i Ei Ht. destruct (It i Ei); congruence.
Qed.

(** No wakeup is lost: whenever a worker is blocked on the condition variable and the
    main thread is not just about to notify, the queue is empty and nobody has asked to
    terminate. *)
Theorem no_lost_wakeup n cmds s i :
  reachable n cmds s -> workers s !! i = Some WWaiting ->
  main s <> MNotify -> main s <> MStopNotify ->
  sm_req_list s = [] /\ sm_terminate s = false.
Proof.
  intros Hr Hw H1 H2. pose proof (reachable_inv n cmds s Hr) as H.
  destruct (inv_wait s H i Hw) as [[?|?] [?|?]]; done.
Qed.

(** Every queued request is handled: with at least one worker and no stop, the threads
    cannot run forever nor block each other, and when nobody can go on every request has
    been taken in the order of the calls of queueRequest and all workers wait for more. *)
Theorem all_requests_handled n rs s :
  (0 < n)%nat -> reachable n (Queue <$> rs) s ->
  sn step s /\
  (nf step s -> (taken s).*2 = rs /\ sm_req_list s = [] /\
     forall i, (i < n)%nat -> workers s !! i = Some WWaiting).
Proof.
  intros Hn Hr. pose proof (reachable_inv _ _ s Hr) as H.
  pose proof (reachable_length _ _ s Hr) as Hl.
  destruct (reachable_follows _ _ s Hr) as [Hreq Hstop _].
  assert (Destroy ∉ (Queue <$> rs : list (command R))) as Hnd.
  { intros (r & E & _)%list_elem_of_fmap. done. }
  destruct (Hstop Hnd) as [_ Hns]. rewrite Hns in Hreq.
  assert (requests_of (Queue <$> rs) = rs) as Hrs
    by (clear; induction rs as [|r rs IH]; cbn in *; [done|by rewrite IH]).
  split; [by apply step_sn|]. intros Hnf.
  destruct (nf_main s H Hnf) as [(Em & Ec & Et & Hall)|[Em _]];
    [|by rewrite Em in Hns].
  rewrite Em, Ec, Hrs in Hreq. simpl in Hreq. rewrite app_nil_r in Hreq.
  assert (forall i, (i < n)%nat -> workers s !! i = Some WWaiting) as Hwait.
  { intros i Hi. destruct (lookup_lt_is_Some_2 (workers s) i) as [w Ew]; [lia|].
    by rewrite Ew, (Hall i w Ew). }
  destruct (inv_wait s H 0 (Hwait 0%nat Hn)) as [[Eq|?] _]; [|congruence].
  pose proof (inv_fifo s H) as Hf. rewrite Eq, app_nil_r in Hf. split_and!; [congruence|done|done].
Qed.

(** C26: destroying the broker ends: after it no run is infinite, and when nobody can go on
    every worker has left its loop and been joined; the requests handled by then are a
    prefix of those queued. *)
Theorem shutdown_terminates n rs s :
  reachable n ((Queue <$> rs) ++ [Destroy]) s ->
  sn step s /\
  (nf step s -> main s = MDone /\ (forall i w, workers s !! i = Some w -> w = WDone) /\
     (taken s).*2 `prefix_of` rs).
Proof.
  intros Hr. pose proof (reachable_inv _ _ s Hr) as H.
  destruct (reachable_follows _ _ s Hr) as [Hreq _ Hdes].
  assert (requests_of ((Queue <$> rs) ++ [Destroy]) = rs) as Hrs
    by (clear; induction rs as [|r rs IH]; cbn in *; [done|by rewrite IH]).
  split; [by apply step_sn|]. intros Hnf.
  rewrite Hrs in Hreq. pose proof (inv_fifo s H) as Hf.
  destruct (nf_main s H Hnf) as [(Em & Ec & _ & _)|[Em Hall]].
  - exfalso. destruct (Hdes ltac:(apply elem_of_app; right; by left)) as [Hs|Hs].
    + by rewrite Em in Hs.
    + rewrite Ec in Hs. by apply not_elem_of_nil in Hs.
  - split_and!; [done|done|]. rewrite Hreq, Em, <- Hf. simpl.
    rewrite app_nil_r. by apply prefix_app_r.
Qed.

(** The requests still in the queue when the broker is destroyed are dropped: there is
    a run, for any requests and any number of workers, in which none of them is ever
    handled. *)
Theorem shutdown_may_drop n rs :
  exists s, reachable n ((Queue <$> rs) ++ [Destroy]) s /\ nf step s /\
    taken s = [] /\ sm_req_list s = rs.
Proof.
  destruct (queue_all n rs [Destroy] [] [] []) as [l1 E1]. cbn [app] in E1.
  destruct (leave_all 0 n rs MJoin [] rs []) as [l2 E2]. cbn [replicate app Nat.add] in E2.
  exists (mk_broker rs true None (replicate n WDone) MDone [] rs []).
  split; [|split; [|done]].
  - apply (run_schedule_steps (l1 ++ [Main; Main; Main; Main] ++ l2 ++ [Main])).
    rewrite run_schedule_app. unfold startWorkers. rewrite E1. cbn [mbind option_bind].
    rewrite (run_schedule_app [Main; Main; Main; Main]), stop_one, wake_loops.
    cbn [mbind option_bind]. rewrite run_schedule_app, E2. cbn [mbind option_bind].
    cbn [run_schedule]. unfold main_step. cbn [main workers].
    assert (forallb is_done (replicate n (WDone (R := R))) = true) as ->
      by (clear; by induction n). done.
  - intros [s' [i s1 Hs|s1 Hs]]; unfold run_step, main_step in Hs; simpl in Hs; [|done].
    destruct (replicate n WDone !! i) as [w|] eqn:E; [|done].
    apply lookup_replicate in E as [-> _]. done.
Qed.
End Properties.

(** ** Witnesses: two workers, three requests *)
Definition sample_schedule : list owner :=
  [Main; Main; Worker 0; Worker 1; Main; Main; Worker 1; Worker 1; Worker 1; Main; Main].

Definition sample_commands : list (command nat) := [Queue 10; Queue 20; Queue 30]%nat.

Definition sample_broker : broker nat :=
  mk_broker [] false (Some Main) [WLock; WHandle 10%nat] (MPush 20%nat) [Queue 30%nat]
    [10%nat] [(1%nat, 10%nat)].

Lemma sample_reachable : reachable 2 sample_commands sample_broker.
Proof. apply (run_schedule_steps sample_schedule). vm_compute. reflexivity. Qed.

Lemma broker_safe_witness :
  reachable 2 sample_commands sample_broker /\ (1%nat, 10%nat) ∈ taken sample_broker.
Proof.
  split; [apply sample_reachable|].
  destruct (broker_safe 2 sample_commands sample_broker sample_reachable)
    as (_ & _ & _ & P & _).
  apply (P 1%nat 10%nat). reflexivity.
Defined.

Definition sample_waiting : broker nat :=
  mk_broker [] false None [WWaiting; WLoop] MReady sample_commands [] [].

Lemma no_lost_wakeup_witness : sm_req_list sample_waiting = [] /\ sm_terminate sample_waiting = false.
Proof.
  apply (no_lost_wakeup 2 sample_commands sample_waiting 0).
  - apply (run_schedule_steps [Worker 0; Worker 0; Worker 0]). vm_compute. reflexivity.
  - reflexivity.
  - discriminate.
  - discriminate.
Defined.

Lemma all_requests_handled_witness : sn step sample_broker.
Proof.
  destruct (all_requests_handled 2 [10; 20; 30]%nat sample_broker ltac:(lia)
    sample_reachable) as [P _].
  exact P.
Defined.

Lemma shutdown_terminates_witness :
  sn step (startWorkers 2 ((Queue <$> [10; 20]%nat) ++ [Destroy])).
Proof.
  destruct (shutdown_terminates 2 [10; 20]%nat _ (rtc_refl _ _)) as [P _]. exact P.
Defined.
