(* ===== verification/Server.v ===== *)
(** * The server's request handler (src/ft_server.cpp)

    ServerRequestHandler::handleRequest over the server's file system and the bytes its
    connection's socket has taken. *)
From S2P Require Import Prelude StdFs Msg FileMeta Identity File Upload MsgFctry Conn.
Import FsFacts DirFacts.

Definition SERVER_BASE_PATH : bytes := str "/in".

(** Code on the file system, next to the output. *)
Definition on_fs {A} (c : M fs A) : M (fs * bytes) A := fun s =>
  let (r, σ') := c (fst s) in (r, (σ', snd s)).

Section Server.
Context `{Blake2b} `{UuidText} (send : bytes -> send_result).

(** [std::filesystem::path file_path = to_string(uuid); file_path /= file_name] *)
Definition request_path (msg : Message) : bytes :=
  Path.append (to_string (client_uuid msg)) (file_name msg).

(** What the server answers about a file: complete, or the next chunk to send. *)
Definition answer (msg : Message) (file : File) : M fs Message :=
  complete ← isComplete file;
  if complete : bool then
    mret (buildMsgComplete (seq_number msg) (client_uuid msg) file)
  else
    req_chunk_idx ← getNextMissingChunk file 0;
    mret (buildMsgChunkReq (seq_number msg + 1) (client_uuid msg) file req_chunk_idx
            UINT16_MAX).

(** The switch over the message type. *)
Definition respond (msg : Message) : M fs (option Message) :=
  let file_path := request_path msg in
  if msg_type msg =? MSGTYPE_FILE_OFFER then
    file ← makeRemoteFile_offer SERVER_BASE_PATH file_path (file_hash (offer msg))
             (file_size (offer msg));
    response ← answer msg file;
    mret (Some response)
  else if msg_type msg =? MSGTYPE_FILE_CHUNK_DATA then
    file ← makeRemoteFile SERVER_BASE_PATH file_path;
    match file with
    | Some file =>
        saveChunk file (mk_chunk (idx (chunk_data msg)) (data (chunk_data msg))
                          (chunk_hash (chunk_data msg)));;
        response ← answer msg file;
        mret (Some response)
    | None => mret None
    end
  else mret None.

(** [conn] tells whether the connection still exists. *)
Definition handleRequest (conn : bool) (msg : Message) : M (fs * bytes) unit :=
  response ← on_fs (respond msg);
  match response with
  | Some response =>
      if conn then
        buf ← lift (serialize response []);
        sent ← lift (sendBuffer (send buf) buf);
        modify (fun s => (fst s, snd s ++ sent))
      else mret tt
  | None => mret tt
  end.
End Server.

(** ** Handling a request, for a file placed anywhere *)
Section Generic.
Context `{Blake2bLaws} `{UuidText} (send : bytes -> send_result).
Context (msg : Message) (e d n : bytes).
Context (He : Path.append SERVER_BASE_PATH (request_path msg) = e) (Hplaced : placed e d n).

(** The answer about an upload. *)
Definition reply (u : upload) : Message :=
  let f := handle (request_path msg) e u in
  if up_complete u then buildMsgComplete (seq_number msg) (client_uuid msg) f
  else buildMsgChunkReq (seq_number msg + 1) (client_uuid msg) f (up_next u) UINT16_MAX.

Lemma answer_run (σ : fs) u :
  represents σ d n u -> answer msg (handle (request_path msg) e u) σ = (Ok (reply u), σ).
Proof.
  intros Hrep. unfold answer, reply.
  mstep (isComplete_run (request_path msg) e d n Hplaced σ u Hrep).
  destruct (up_complete u); [done|].
  by mstep (getNextMissingChunk_run (request_path msg) e d n Hplaced σ u Hrep).
Qed.

Lemma handle_up_save p u i c : handle p e (up_save u i c) = handle p e u.
Proof. unfold up_save. by destruct (decide _). Qed.

Lemma respond_data (σ : fs) u :
  msg_type msg = MSGTYPE_FILE_CHUNK_DATA -> 0 <= idx (chunk_data msg) < 2 ^ 32 ->
  represents σ d n u ->
  let u' := up_save u (idx (chunk_data msg)) (data (chunk_data msg)) in
  exists σ', respond msg σ = (Ok (Some (reply u')), σ') /\ represents σ' d n u' /\
    same_elsewhere d n σ σ'.
Proof.
  intros Ht Hi Hrep u'. unfold respond. rewrite Ht. cbn [Z.eqb].
  change (MSGTYPE_FILE_CHUNK_DATA =? MSGTYPE_FILE_OFFER) with false.
  rewrite Z.eqb_refl. cbn iota.
  mstep (makeRemoteFile_run (request_path msg) e d n Hplaced σ SERVER_BASE_PATH u He Hrep).
  set (ch := mk_chunk _ _ _).
  destruct (saveChunk_run (request_path msg) e d n Hplaced σ u ch Hrep Hi)
    as (σ' & Hsave & Hrep' & Hsame). mstep Hsave.
  change (up_save u (fc_idx ch) (fc_data ch)) with u' in Hrep'.
  rewrite <- (handle_up_save (request_path msg) u (idx (chunk_data msg))
    (data (chunk_data msg))).
  mstep (answer_run σ' u' Hrep'). exists σ'. done.
Qed.

Lemma respond_data_unknown (σ : fs) :
  msg_type msg = MSGTYPE_FILE_CHUNK_DATA -> σ !! data_key d (meta_name n) = None ->
  respond msg σ = (Ok None, σ).
Proof.
  intros Ht Hm. unfold respond. rewrite Ht.
  change (MSGTYPE_FILE_CHUNK_DATA =? MSGTYPE_FILE_OFFER) with false.
  rewrite Z.eqb_refl. cbn iota.
  by mstep (makeRemoteFile_none (request_path msg) e d n Hplaced σ SERVER_BASE_PATH He Hm).
Qed.

Lemma respond_offer_fresh (σ : fs) :
  let u := up_start (file_size (offer msg)) (file_hash (offer msg)) in
  msg_type msg = MSGTYPE_FILE_OFFER -> 0 <= file_size (offer msg) < 2 ^ 32 ->
  zlen (file_hash (offer msg)) = HASH_SIZE -> dirs_free σ (Path.resolve d) ->
  σ !! data_key d n = None -> σ !! data_key d (meta_name n) = None ->
  exists σ1 σ', respond msg σ = (Ok (Some (reply u)), σ') /\ represents σ' d n u /\
    with_dirs σ σ1 (Path.resolve d) /\ same_elsewhere d n σ1 σ'.
Proof.
  intros u Ht Hs Hh Hfree Hd Hm. unfold respond. rewrite Ht, Z.eqb_refl. cbn iota.
  unfold makeRemoteFile_offer. rewrite He.
  destruct (new_FileRemote_run (request_path msg) e d n Hplaced σ _ _ Hs Hh Hfree Hd Hm)
    as (σ1 & σ' & Hnew & Hrep & Hw & Hsame).
  mstep Hnew. mstep (answer_run σ' u Hrep). by exists σ1, σ'.
Qed.

Lemma respond_offer_again (σ : fs) u :
  msg_type msg = MSGTYPE_FILE_OFFER -> file_size (offer msg) = up_size u ->
  file_hash (offer msg) = up_hash u -> represents σ d n u ->
  respond msg σ = (Ok (Some (reply u)), σ).
Proof.
  intros Ht Hs Hh Hrep. unfold respond. rewrite Ht, Z.eqb_refl. cbn iota.
  unfold makeRemoteFile_offer. rewrite He, Hs, Hh.
  mstep (new_FileRemote_again (request_path msg) e d n Hplaced σ u Hrep).
  by mstep (answer_run σ u Hrep).
Qed.

Lemma respond_other (σ : fs) :
  msg_type msg <> MSGTYPE_FILE_OFFER -> msg_type msg <> MSGTYPE_FILE_CHUNK_DATA ->
  respond msg σ = (Ok None, σ).
Proof.
  intros Ho Hd. unfold respond. rewrite (proj2 (Z.eqb_neq _ _) Ho).
  by rewrite (proj2 (Z.eqb_neq _ _) Hd).
Qed.

(** What the answer needs to be serialized. *)
Definition answerable : Prop :=
  length (client_uuid msg) = UUID_SIZE /\ bytes_ok (client_uuid msg) /\
  bytes_ok (Path.filename (request_path msg)).

Lemma reply_wf u : answerable -> wf_message (reply u).
Proof.
  intros (Hu & Hub & Hn). unfold reply. destruct (up_complete u).
  - by apply buildMsgComplete_wf.
  - by apply buildMsgChunkReq_wf.
Qed.

(** The socket takes whole messages. *)
Definition sends_all : Prop := forall buf, send buf = Sent (length buf).

Lemma handleRequest_reply conn m σ σ' out :
  respond msg σ = (Ok (Some m), σ') -> wf_message m -> sends_all ->
  handleRequest send conn msg (σ, out) =
    (Ok tt, (σ', out ++ if conn : bool then encode m else [])).
Proof.
  intros Hr Hm Hs. unfold handleRequest.
  assert (on_fs (respond msg) (σ, out) = (Ok (Some m), (σ', out))) as E
    by (unfold on_fs; cbn [fst snd]; by rewrite Hr).
  mstep E. destruct conn; [|unfold mret, M_ret; by rewrite app_nil_r].
  pose proof (serialize_encode m [] Hm) as Hser. cbn [app] in Hser. rewrite Hser.
  mstep (@eq_refl _ (lift (Ok (encode m)) (σ', out))).
  rewrite Hs. unfold sendBuffer. rewrite take_ge by lia. done.
Qed.

Lemma handleRequest_silent conn σ σ' out :
  respond msg σ = (Ok None, σ') -> handleRequest send conn msg (σ, out) = (Ok tt, (σ', out)).
Proof.
  intros Hr. unfold handleRequest.
  assert (on_fs (respond msg) (σ, out) = (Ok None, (σ', out))) as E
    by (unfold on_fs; cbn [fst snd]; by rewrite Hr).
  by mstep E.
Qed.
End Generic.

(** ** Well-behaved requests *)

(** The directory of a client under the base path. *)
Definition upload_dir `{UuidText} (uuid : bytes) : bytes :=
  SERVER_BASE_PATH ++ [Path.sep] ++ to_string uuid.

(** A request whose file name is one component of a path. *)
Record valid_request (msg : Message) : Prop := mk_valid_request {
  vr_uuid : length (client_uuid msg) = UUID_SIZE;
  vr_uuid_bytes : bytes_ok (client_uuid msg);
  vr_name : Path.simple (file_name msg);
  vr_name_bytes : bytes_ok (file_name msg) }.

(** The server's path of the file of a client. *)
Definition server_path `{UuidText} (uuid name : bytes) : bytes :=
  to_string uuid ++ [Path.sep] ++ name.

Section Paths.
Context `{UuidTextLaws}.

Lemma simple_has_filename s : Path.simple s -> Path.has_filename s = true.
Proof.
  intros []. unfold Path.has_filename. rewrite PathFacts.filename_none by done.
  by destruct s.
Qed.

Lemma request_path_eq msg :
  valid_request msg -> request_path msg = server_path (client_uuid msg) (file_name msg).
Proof.
  intros [Hu _ Hn _]. apply PathFacts.append_simple; [|done].
  by apply simple_has_filename, to_string_simple.
Qed.

Lemma request_filename msg :
  valid_request msg -> Path.filename (request_path msg) = file_name msg.
Proof.
  intros Hv. rewrite request_path_eq by done. destruct (vr_name msg Hv).
  by apply PathFacts.filename_app.
Qed.

Lemma request_placed msg :
  valid_request msg ->
  placed (Path.append SERVER_BASE_PATH (request_path msg)) (upload_dir (client_uuid msg))
    (file_name msg).
Proof.
  intros Hv. pose proof (to_string_simple _ (vr_uuid msg Hv)) as Hu.
  constructor.
  - rewrite request_path_eq by done. unfold server_path, upload_dir, Path.append.
    destruct (to_string (client_uuid msg)) as [|c s] eqn:E; [by destruct Hu|].
    assert (Path.is_absolute ((c :: s) ++ [Path.sep] ++ file_name msg) = false) as ->.
    { simpl. apply Z.eqb_neq. intros ->. apply (Path.simple_no_sep _ Hu). by left. }
    change (Path.has_filename SERVER_BASE_PATH) with true. by rewrite <- !app_assoc.
  - destruct Hu. by apply PathFacts.has_filename_app.
  - unfold upload_dir. rewrite !elem_of_app. destruct Hu. intros [Hin|[Hin|Hin]]; [| |done].
    + revert Hin. apply (bool_decide_unpack _). reflexivity.
    + revert Hin. apply (bool_decide_unpack _). reflexivity.
  - apply Hv.
Qed.

Lemma request_answerable msg : valid_request msg -> answerable msg.
Proof.
  intros Hv. split; [apply Hv|]. split; [apply Hv|]. rewrite request_filename by done.
  apply Hv.
Qed.
End Paths.

(** ** Properties *)
Section Properties.
Context `{Blake2bLaws} `{UuidTextLaws} (send : bytes -> send_result) (Hsend : sends_all send).

(** What the server's answer says about the upload [u]. *)
Record answers (msg m : Message) (u : upload) : Prop := mk_answers {
  an_wf : wf_message m;
  an_uuid : client_uuid m = client_uuid msg;
  an_name : file_name m = file_name msg;
  an_complete : up_complete u = true -> msg_type m = MSGTYPE_FILE_COMPLETE;
  an_next : up_complete u = false ->
    msg_type m = MSGTYPE_FILE_CHUNK_REQ /\ chunk_idx_first (chunk_req m) = u16 (up_next u) }.

Lemma reply_answers msg e u :
  valid_request msg -> Path.append SERVER_BASE_PATH (request_path msg) = e ->
  answers msg (reply msg e u) u.
Proof.
  intros Hv He. pose proof (reply_wf msg e u (request_answerable msg Hv)) as Hwf.
  pose proof (request_filename msg Hv) as Hn.
  constructor; [done|..]; unfold reply in *; destruct (up_complete u); done.
Qed.

(** The two files of the client of [msg], and the upload they hold. *)
Abbreviation stored msg σ u := (represents σ (upload_dir (client_uuid msg)) (file_name msg) u).

Lemma chunk_run conn msg σ out u :
  valid_request msg -> msg_type msg = MSGTYPE_FILE_CHUNK_DATA ->
  0 <= idx (chunk_data msg) < 2 ^ 32 -> stored msg σ u ->
  let u' := up_save u (idx (chunk_data msg)) (data (chunk_data msg)) in
  exists σ' m,
    handleRequest send conn msg (σ, out) =
      (Ok tt, (σ', out ++ if conn : bool then encode m else [])) /\
    answers msg m u' /\ stored msg σ' u' /\
    same_elsewhere (upload_dir (client_uuid msg)) (file_name msg) σ σ'.
Proof.
  intros Hv Ht Hi Hrep u'.
  destruct (respond_data msg _ _ _ eq_refl (request_placed msg Hv) σ u Ht Hi Hrep)
    as (σ' & Hr & Hrep' & Hsame). fold u' in Hr, Hrep'.
  pose proof (reply_answers msg _ u' Hv eq_refl) as Ha.
  eexists σ', _. split; [|split; [exact Ha|by split]].
  apply handleRequest_reply; [done|apply Ha|done].
Qed.

(** C20: receiving a chunk: the server's handler stores exactly the abstract [up_save] in
    the client's own directory, touches no other file, and answers COMPLETE when and only
    when the upload is complete (all chunks received, and the stored contents have the
    hash of the offer), else it requests the first missing chunk (its low 16 bits). *)
Theorem server_stores_chunk conn msg σ out u :
  valid_request msg -> msg_type msg = MSGTYPE_FILE_CHUNK_DATA ->
  0 <= idx (chunk_data msg) < 2 ^ 32 -> stored msg σ u ->
  let u' := up_save u (idx (chunk_data msg)) (data (chunk_data msg)) in
  exists σ' m,
    handleRequest send conn msg (σ, out) =
      (Ok tt, (σ', out ++ if conn : bool then encode m else [])) /\
    answers msg m u' /\ stored msg σ' u' /\
    same_elsewhere (upload_dir (client_uuid msg)) (file_name msg) σ σ'.
Proof. by apply chunk_run. Qed.

Lemma offer_run conn msg σ out :
  let u := up_start (file_size (offer msg)) (file_hash (offer msg)) in
  let d := upload_dir (client_uuid msg) in
  valid_request msg -> msg_type msg = MSGTYPE_FILE_OFFER ->
  0 <= file_size (offer msg) < 2 ^ 32 -> zlen (file_hash (offer msg)) = HASH_SIZE ->
  dirs_free σ (Path.resolve d) -> σ !! data_key d (file_name msg) = None ->
  σ !! data_key d (meta_name (file_name msg)) = None ->
  exists σ1 σ' m,
    handleRequest send conn msg (σ, out) =
      (Ok tt, (σ', out ++ if conn : bool then encode m else [])) /\
    answers msg m u /\ stored msg σ' u /\
    with_dirs σ σ1 (Path.resolve d) /\ same_elsewhere d (file_name msg) σ1 σ'.
Proof.
  intros u d Hv Ht Hs Hh Hfree Hd Hm.
  destruct (respond_offer_fresh msg _ _ _ eq_refl (request_placed msg Hv) σ Ht Hs Hh Hfree
    Hd Hm) as (σ1 & σ' & Hr & Hrep & Hw & Hsame).
  pose proof (reply_answers msg _ u Hv eq_refl) as Ha.
  eexists σ1, σ', _. split; [|split; [exact Ha|by split_and!]].
  apply handleRequest_reply; [done|apply Ha|done].
Qed.

(** An offer: for a new file the server creates the client's directory, a file of the
    offered size and its metadata, and asks for the first chunk (or answers COMPLETE for
    the empty file with its hash); the same offer for a file it has already, in part or
    in whole, changes nothing and continues where the upload stands. *)
Theorem server_accepts_offer conn msg σ out :
  let d := upload_dir (client_uuid msg) in
  valid_request msg -> msg_type msg = MSGTYPE_FILE_OFFER ->
  0 <= file_size (offer msg) < 2 ^ 32 -> zlen (file_hash (offer msg)) = HASH_SIZE ->
  (dirs_free σ (Path.resolve d) -> σ !! data_key d (file_name msg) = None ->
   σ !! data_key d (meta_name (file_name msg)) = None ->
   exists σ1 σ' m, let u := up_start (file_size (offer msg)) (file_hash (offer msg)) in
     handleRequest send conn msg (σ, out) =
       (Ok tt, (σ', out ++ if conn : bool then encode m else [])) /\
     answers msg m u /\ stored msg σ' u /\
     with_dirs σ σ1 (Path.resolve d) /\ same_elsewhere d (file_name msg) σ1 σ') /\
  (forall u, stored msg σ u -> file_size (offer msg) = up_size u ->
   file_hash (offer msg) = up_hash u ->
   exists m,
     handleRequest send conn msg (σ, out) =
       (Ok tt, (σ, out ++ if conn : bool then encode m else [])) /\ answers msg m u).
Proof.
  intros d Hv Ht Hs Hh. split.
  - intros Hfree Hd Hm.
    destruct (offer_run conn msg σ out Hv Ht Hs Hh Hfree Hd Hm) as (σ1 & σ' & m & Hrun).
    by exists σ1, σ', m.
  - intros u Hrep Es Eh.
    pose proof (respond_offer_again msg _ _ _ eq_refl (request_placed msg Hv) σ u Ht Es Eh
      Hrep) as Hr.
    pose proof (reply_answers msg _ u Hv eq_refl) as Ha.
    eexists. split; [|exact Ha]. apply handleRequest_reply; [done|apply Ha|done].
Qed.

(** What the server does not expect it ignores: a chunk of a file it has no metadata
    of, and every message type that is not an offer or a chunk, change nothing on the
    disk and are not answered. *)
Theorem server_ignores conn msg σ out :
  valid_request msg ->
  (msg_type msg = MSGTYPE_FILE_CHUNK_DATA /\
     σ !! data_key (upload_dir (client_uuid msg)) (meta_name (file_name msg)) = None) \/
  (msg_type msg <> MSGTYPE_FILE_OFFER /\ msg_type msg <> MSGTYPE_FILE_CHUNK_DATA) ->
  handleRequest send conn msg (σ, out) = (Ok tt, (σ, out)).
Proof.
  intros Hv [[Ht Hm]|[Ho Hd]]; apply handleRequest_silent.
  - by apply (respond_data_unknown msg _ _ _ eq_refl (request_placed msg Hv)).
  - by apply respond_other.
Qed.

(** C34: the server's base path does not confine clients: a file name that is an absolute
    path replaces it, so an offer creates a file of any size anywhere on the server's
    file system (here: the file [n] of any directory [d]), and the chunks that follow
    fill it. *)
Theorem offer_escapes_directory msg ch σ out d n :
  let u := up_start (file_size (offer msg)) (file_hash (offer msg)) in
  placed (file_name msg) d n -> Path.is_absolute (file_name msg) = true ->
  length (client_uuid msg) = UUID_SIZE -> bytes_ok (client_uuid msg) -> bytes_ok n ->
  msg_type msg = MSGTYPE_FILE_OFFER -> 0 <= file_size (offer msg) < 2 ^ 32 ->
  zlen (file_hash (offer msg)) = HASH_SIZE ->
  dirs_free σ (Path.resolve d) -> σ !! data_key d n = None ->
  σ !! data_key d (meta_name n) = None ->
  client_uuid ch = client_uuid msg -> file_name ch = file_name msg ->
  msg_type ch = MSGTYPE_FILE_CHUNK_DATA -> 0 <= idx (chunk_data ch) < 2 ^ 32 ->
  exists σ1 σ2 out1 out2,
    handleRequest send true msg (σ, out) = (Ok tt, (σ1, out1)) /\ represents σ1 d n u /\
    handleRequest send true ch (σ1, out1) = (Ok tt, (σ2, out2)) /\
    represents σ2 d n (up_save u (idx (chunk_data ch)) (data (chunk_data ch))).
Proof.
  intros u Hp Habs Hul Hub Hnb Ht Hs Hh Hfree Hd Hm Eu En Htc Hi.
  assert (forall m, file_name m = file_name msg -> request_path m = file_name msg) as Hpath.
  { intros m E. unfold request_path. rewrite E. by apply PathFacts.append_absolute. }
  assert (forall m, file_name m = file_name msg -> client_uuid m = client_uuid msg ->
    answerable m) as Hans.
  { intros m E E'. unfold answerable. rewrite Hpath, E', (placed_filename _ _ _ Hp) by done.
    done. }
  assert (forall m, file_name m = file_name msg ->
    Path.append SERVER_BASE_PATH (request_path m) = file_name msg) as He.
  { intros m E. rewrite Hpath by done. by apply PathFacts.append_absolute. }
  destruct (respond_offer_fresh msg _ d n (He msg eq_refl) Hp σ Ht Hs Hh Hfree Hd Hm)
    as (σ0 & σ1 & Hr & Hrep & _).
  destruct (respond_data ch _ d n (He ch En) Hp σ1 u Htc Hi Hrep) as (σ2 & Hr2 & Hrep2 & _).
  eexists σ1, σ2, _, _. split; [|split; [exact Hrep|split; [|exact Hrep2]]].
  - apply handleRequest_reply; [done|by apply reply_wf, Hans|done].
  - apply handleRequest_reply; [done|by apply reply_wf, Hans|done].
Qed.

(** Whether the bitmap of an upload has a bit behind those of its chunks, for a chunk of a file
    of [size]. *)
Definition spare_bit (u : upload) (size : Z) : Prop :=
  up_chunks u < Z.min (n_chunks size) (8 * bitmap_len (up_size u)).

#[export] Instance spare_bit_dec u size : Decision (spare_bit u size).
Proof. unfold spare_bit. apply _. Defined.

Lemma changed_meta_at (σ : fs) e d n u bm size hash :
  placed e d n -> up_ok u -> bitmap_of u bm ->
  σ !! data_key d (meta_name n) = Some (Reg (header (up_size u) CHUNK_SIZE (up_hash u) ++ bm)) ->
  meta_at σ (uncounted (meta_of e size hash)) (header (up_size u) CHUNK_SIZE (up_hash u)) bm.
Proof.
  intros Hp Hu Hbm Hm. destruct (represents_meta_at _ _ _ _ _ _ Hp Hu Hbm Hm) as [M1 M2 M3 M4 M5 M6].
  constructor; [done|done|done|cbn; lia|done|done].
Qed.

(** A file whose chunks are all there, offered with another hash, and without a spare bit. *)
Lemma changed_file_run (σ : fs) path e d n u size hash :
  placed e d n -> represents σ d n u -> up_missing u = [] ->
  0 <= n_chunks size -> ~ spare_bit u size -> zlen hash = HASH_SIZE ->
  hash <> calc_hash_vec (up_data u) ->
  let f := mk_file path hash size e (FileRemote (meta_of e size hash)) in
  new_FileRemote path hash size e σ = (Ok f, σ) /\ isComplete f σ = (Ok false, σ) /\
  getNextMissingChunk f 0 σ = (Ok UINT64_MAX, σ).
Proof.
  intros Hp [Hu Hd Hdata (bm & Hm & Hbm)] Hmiss Hn Hspare Hh Hne f.
  pose proof (changed_meta_at _ _ _ _ _ _ size hash Hp Hu Hbm Hm) as Hat.
  unfold spare_bit in Hspare. rewrite <- (bo_len _ _ Hbm) in Hspare.
  assert (nextMissingChunk (meta_of e size hash) 0 σ = (Ok UINT64_MAX, σ)) as Hnext.
  { destruct (nextMissingChunk_bits _ _ _ _ 0 Hat ltac:(lia)) as (r & -> & Hr).
    do 2 f_equal. destruct Hr as [(Hr & Hbit & _)|[-> _]]; [|done].
    exfalso. change (8 * (0 / 8)) with 0 in Hr. cbn [fm_file_n_chunks meta_of] in Hr.
    rewrite (bo_bits _ _ Hbm) in Hbit by lia. apply bool_decide_eq_false in Hbit.
    apply Hbit. apply up_missing_nil; [done|lia]. }
  split; [by eapply new_FileRemote_old|]. split; [|exact Hnext].
  unfold isComplete. cbn [f f_kind f_effective_path f_hash].
  pose proof (exists_stat σ e _ (placed_key _ _ _ Hp) (child_ne _ _)) as Hex.
  fold (data_key d n) in Hex. rewrite Hdata in Hex. mstep Hex. mstep Hnext.
  rewrite Z.eqb_refl. mstep (calc_hash_run σ e).
  rewrite (placed_key _ _ _ Hp). fold (data_key d n).
  rewrite stat_ne, Hdata by apply child_ne.
  pose proof (blake_digest_size (blake_Update blake_init (up_data u))) as Hsz.
  fold (calc_hash_vec (up_data u)) in Hsz. ztest. unfold mret, M_ret. do 2 f_equal.
  apply bool_decide_eq_false. rewrite take_ge by lia. done.
Qed.

(** An offer of a changed file for which the bitmap has no spare bit (the file has not more
    chunks than the one that is there, or that one fills its bitmap): the metadata of the
    first upload is kept, so the server finds no missing chunk, does not take the file for
    complete either, and asks for the chunk 65535 (UINT64_MAX cut to 16 bits); nothing on
    the disk changes. *)
Theorem changed_file_stalls msg σ out u :
  valid_request msg -> msg_type msg = MSGTYPE_FILE_OFFER -> stored msg σ u ->
  up_missing u = [] -> 0 <= n_chunks (file_size (offer msg)) -> ~ spare_bit u (file_size (offer msg)) ->
  zlen (file_hash (offer msg)) = HASH_SIZE ->
  file_hash (offer msg) <> calc_hash_vec (up_data u) ->
  exists m,
    handleRequest send true msg (σ, out) = (Ok tt, (σ, out ++ encode m)) /\
    wf_message m /\ client_uuid m = client_uuid msg /\ file_name m = file_name msg /\
    msg_type m = MSGTYPE_FILE_CHUNK_REQ /\ chunk_idx_first (chunk_req m) = 65535.
Proof.
  intros Hv Ht Hrep Hmiss Hs Hspare Hh Hne.
  destruct (changed_file_run σ (request_path msg) _ _ _ u _ _ (request_placed msg Hv) Hrep
    Hmiss Hs Hspare Hh Hne) as (Hnew & Hcomp & Hnext).
  set (f := mk_file _ _ _ _ _) in *.
  set (m := buildMsgChunkReq (seq_number msg + 1) (client_uuid msg) f UINT64_MAX UINT16_MAX).
  assert (Path.filename (f_path f) = file_name msg) as Hfn by (by apply request_filename).
  assert (wf_message m) as Hwf.
  { apply buildMsgChunkReq_wf. constructor; [apply Hv|apply Hv|].
    rewrite Hfn. apply Hv. }
  exists m. split; [|split_and!; try done].
  apply (handleRequest_reply send msg true m); [|done|done].
  unfold respond. rewrite Ht, Z.eqb_refl. cbn iota. unfold makeRemoteFile_offer.
  mstep Hnew. unfold answer. mstep Hcomp. by mstep Hnext.
Qed.
End Properties.

(** ** Witnesses *)
Section Witnesses.
Import ToyHash ToyUuid.

Definition sample_offer_msg : Message :=
  mk_message MSGTYPE_FILE_OFFER 0 1 sample_uuid (str "a.txt")
    (mk_offer 5000 2 (calc_hash_vec (replicate 5000 65))) no_chunk_req no_chunk_data.
Definition sample_chunk_msg : Message :=
  mk_message MSGTYPE_FILE_CHUNK_DATA 0 1 sample_uuid (str "a.txt") no_offer no_chunk_req
    (mk_chunk_data 1 (replicate 1032 65) []).

Lemma sample_offer_valid : valid_request sample_offer_msg.
Proof. constructor; decide_closed. Qed.
Lemma sample_chunk_valid : valid_request sample_chunk_msg.
Proof. constructor; decide_closed. Qed.

(** A server with one upload of the sample client. *)
Definition one_upload_fs (n : bytes) (u : upload) (bm : bytes) : fs :=
  let d := upload_dir sample_uuid in
  <[data_key d n := Reg (up_data u)]>
  (<[data_key d (meta_name n) :=
       Reg (header (up_size u) CHUNK_SIZE (up_hash u) ++ bm)]>
   {[ [str "in"] := Dir; [str "in"; to_string sample_uuid] := Dir ]}).

Lemma one_upload_represents n u bm :
  data_key (upload_dir sample_uuid) n <> data_key (upload_dir sample_uuid) (meta_name n) ->
  up_ok u -> bitmap_of u bm ->
  represents (one_upload_fs n u bm) (upload_dir sample_uuid) n u.
Proof.
  intros Hn Hu Hb. constructor; [done| | |].
  - intros q (i & Hi & ->).
    change (length (Path.resolve (upload_dir sample_uuid))) with 2%nat in Hi.
    assert (forall m, data_key (upload_dir sample_uuid) m <>
      [] ++ take (S i) (Path.resolve (upload_dir sample_uuid))) as Hne.
    { intros m E. apply (f_equal length) in E. unfold data_key in E.
      autorewrite with ft_len in E. cbn [length] in E. lia. }
    unfold one_upload_fs. cbv zeta.
    rewrite lookup_insert_ne by apply Hne. rewrite lookup_insert_ne by apply Hne.
    assert (i = 0%nat \/ i = 1%nat) as [-> | ->] by lia; vm_compute; reflexivity.
  - apply lookup_insert_eq.
  - exists bm. split; [|done]. unfold one_upload_fs.
    rewrite lookup_insert_ne by done. apply lookup_insert_eq.
Qed.

Definition sample_server_fs : upload -> bytes -> fs := one_upload_fs (str "a.txt").

Lemma sample_server_represents u bm :
  up_ok u -> bitmap_of u bm ->
  represents (sample_server_fs u bm) (upload_dir sample_uuid) (str "a.txt") u.
Proof. apply one_upload_represents. vm_compute. discriminate. Qed.

Lemma sent_whole_all : sends_all sent_whole.
Proof. done. Qed.

(** The last chunk arrives: the upload is complete. *)
Lemma server_stores_chunk_witness :
  let u' := up_save sample_upload 1 (replicate 1032 65) in
  exists σ' m,
    handleRequest sent_whole true sample_chunk_msg (sample_server_fs sample_upload [128], []) =
      (Ok tt, (σ', encode m)) /\
    answers sample_chunk_msg m u' /\
    represents σ' (upload_dir sample_uuid) (str "a.txt") u'.
Proof.
  destruct (server_stores_chunk sent_whole sent_whole_all true sample_chunk_msg
    (sample_server_fs sample_upload [128]) [] sample_upload sample_chunk_valid eq_refl
    ltac:(decide_closed) (sample_server_represents _ _ sample_up_ok sample_bitmap))
    as (σ' & m & P1 & P2 & P3 & _).
  exists σ', m. split_and!; [exact P1|exact P2|exact P3].
Defined.

Lemma server_accepts_offer_witness :
  exists m,
    handleRequest sent_whole true sample_offer_msg (sample_server_fs sample_upload [128], []) =
      (Ok tt, (sample_server_fs sample_upload [128], encode m)) /\
    answers sample_offer_msg m sample_upload.
Proof.
  destruct (server_accepts_offer sent_whole sent_whole_all true sample_offer_msg
    (sample_server_fs sample_upload [128]) [] sample_offer_valid eq_refl
    ltac:(decide_closed) ltac:(vm_compute; reflexivity)) as [_ P].
  apply P; [|reflexivity|reflexivity].
  apply (sample_server_represents _ _ sample_up_ok sample_bitmap).
Defined.

Lemma server_ignores_witness :
  handleRequest sent_whole true sample_chunk_msg (∅, [7]) = (Ok tt, (∅, [7])).
Proof.
  apply (server_ignores sent_whole true sample_chunk_msg ∅ [7] sample_chunk_valid).
  left. split; reflexivity.
Defined.

(** A file in the server's /etc. *)
Definition escape_offer : Message :=
  mk_message MSGTYPE_FILE_OFFER 0 1 sample_uuid (str "/etc/passwd")
    (mk_offer 5 1 sample_hash) no_chunk_req no_chunk_data.
Definition escape_chunk : Message :=
  mk_message MSGTYPE_FILE_CHUNK_DATA 0 1 sample_uuid (str "/etc/passwd") no_offer
    no_chunk_req (mk_chunk_data 0 (str "root:") []).

Lemma offer_escapes_directory_witness :
  exists σ1 σ2 out1 out2,
    handleRequest sent_whole true escape_offer (∅, []) = (Ok tt, (σ1, out1)) /\
    represents σ1 (str "/etc") (str "passwd") (up_start 5 sample_hash) /\
    handleRequest sent_whole true escape_chunk (σ1, out1) = (Ok tt, (σ2, out2)) /\
    represents σ2 (str "/etc") (str "passwd")
      (up_save (up_start 5 sample_hash) 0 (str "root:")).
Proof.
  apply (offer_escapes_directory sent_whole sent_whole_all escape_offer escape_chunk ∅ []
    (str "/etc") (str "passwd")); try reflexivity; try decide_closed.
  - constructor; [reflexivity|reflexivity|decide_closed|decide_closed].
  - intros q c _. by rewrite lookup_empty.
Defined.

(** The same file name and size, one byte of the contents changed. *)
Definition full_upload : upload :=
  mk_upload 5 (calc_hash_vec (str "hello")) (str "hello") {[0]}.
Definition changed_offer : Message :=
  mk_message MSGTYPE_FILE_OFFER 0 1 sample_uuid (str "a.txt")
    (mk_offer 5 1 (calc_hash_vec (str "jello"))) no_chunk_req no_chunk_data.

Lemma full_upload_ok : up_ok full_upload.
Proof.
  constructor; [decide_closed|reflexivity|reflexivity|].
  simpl. intros i Hi. apply elem_of_singleton in Hi as ->. decide_closed.
Qed.

Lemma full_bitmap : bitmap_of full_upload [128].
Proof.
  constructor; [reflexivity|decide_closed|].
  intros i Hi. change (up_chunks full_upload) with 1 in Hi.
  assert (i = 0) as -> by lia; vm_compute; reflexivity.
Qed.

Lemma changed_file_stalls_witness :
  exists m,
    handleRequest sent_whole true changed_offer (sample_server_fs full_upload [128], []) =
      (Ok tt, (sample_server_fs full_upload [128], encode m)) /\
    msg_type m = MSGTYPE_FILE_CHUNK_REQ /\ chunk_idx_first (chunk_req m) = 65535.
Proof.
  destruct (changed_file_stalls sent_whole sent_whole_all changed_offer
    (sample_server_fs full_upload [128]) [] full_upload) as (m & P1 & _ & _ & _ & P2 & P3).
  - constructor; decide_closed.
  - reflexivity.
  - apply (sample_server_represents _ _ full_upload_ok full_bitmap).
  - vm_compute. reflexivity.
  - vm_compute. discriminate.
  - intros Hs. vm_compute in Hs. discriminate Hs.
  - reflexivity.
  - vm_compute. discriminate.
  - exists m. split_and!; [exact P1|exact P2|exact P3].
Defined.
End Witnesses.
