(* ===== verification/Disk.v ===== *)
(** * The server's disk is safe from its clients

    Whatever the messages say and whatever is on the disk, the server's handler runs into
    no undefined behaviour, keeps the file system well formed ([disk_ok]: a tree, files of
    bytes) and never removes or replaces a node ([grows]). The proof follows the code: a
    rule for each operation of [StdFs], and one lemma for each method that uses them. *)
From S2P Require Import Prelude StdFs Msg FileMeta Identity File MsgFctry Conn Server.
Import FsFacts DirFacts.

Implicit Types (σ : fs) (p : bytes) (e : exn) (st : stream) (k : list bytes).

(** ** Well-formed file systems, and how they change *)
Definition is_reg (σ : fs) (k : list bytes) : Prop := exists c, σ !! k = Some (Reg c).

Record disk_ok (σ : fs) : Prop := mk_disk_ok {
  do_root : σ !! [] = None;
  do_parent : forall k n, is_Some (σ !! (k ++ [n])) -> Fs.stat σ k = Some Dir;
  do_bytes : forall k c, σ !! k = Some (Reg c) -> bytes_ok c }.

Record grows (σ σ' : fs) : Prop := mk_grows {
  gr_dir : forall k, σ !! k = Some Dir -> σ' !! k = Some Dir;
  gr_reg : forall k, is_reg σ k -> is_reg σ' k }.

#[export] Instance grows_preorder : PreOrder grows.
Proof. constructor; [by constructor|]. intros σ σ1 σ2 [] []. constructor; auto. Qed.

Lemma grows_stat_dir (σ σ' : fs) k :
  grows σ σ' -> Fs.stat σ k = Some Dir -> Fs.stat σ' k = Some Dir.
Proof. intros [Hd _]. destruct k; [done|]. apply Hd. Qed.

(** Adding a directory where nothing is, or a file where no directory is. *)
Definition fits_at (σ : fs) (k : list bytes) (x : node) : Prop :=
  match x with
  | Dir => forall c, σ !! k <> Some (Reg c)
  | Reg c => σ !! k <> Some Dir /\ bytes_ok c
  end.

Lemma disk_ok_insert (σ : fs) k (n : bytes) (x : node) :
  disk_ok σ -> Fs.stat σ k = Some Dir -> fits_at σ (k ++ [n]) x ->
  disk_ok (<[k ++ [n] := x]> σ) /\ grows σ (<[k ++ [n] := x]> σ).
Proof.
  intros [Hr Hp Hb] Hk Hx.
  assert (grows σ (<[k ++ [n] := x]> σ)) as Hg.
  { constructor; intros q; destruct (decide (q = k ++ [n])) as [-> |Hne]; unfold is_reg;
      rewrite ?lookup_insert_eq, ?lookup_insert_ne by done; try done; destruct x; cbn in Hx.
    - done.
    - intros E. by destruct Hx.
    - intros [c E]. by apply Hx in E.
    - eauto. }
  split; [|done]. constructor.
  - rewrite lookup_insert_ne; [done|apply child_ne].
  - intros q m. destruct (decide (q ++ [m] = k ++ [n])) as [E|Hne].
    + intros _. apply app_inj_tail in E as [-> ->]. by apply (grows_stat_dir σ).
    + rewrite lookup_insert_ne by done. intros H. by apply (grows_stat_dir σ), (Hp q m).
  - intros q c. destruct (decide (q = k ++ [n])) as [-> |Hne].
    + rewrite lookup_insert_eq. intros [= ->]. by apply Hx.
    + rewrite lookup_insert_ne by done. apply Hb.
Qed.

(** ** Sound code: defined, and good to a well-formed disk *)
Definition sound {A} (c : M fs A) (Q : A -> fs -> Prop) (σ : fs) : Prop :=
  ends c (fun a σ' => disk_ok σ' /\ grows σ σ' /\ Q a σ')
    (fun _ σ' => disk_ok σ' /\ grows σ σ') σ.

Lemma sound_bind {A B : Type} (c : M fs A) (f : A -> M fs B) (Q : A -> fs -> Prop) (R : B -> fs -> Prop) (σ : fs) :
  sound c Q σ ->
  (forall (a : A) σ', disk_ok σ' -> grows σ σ' -> Q a σ' -> sound (f a) R σ') ->
  sound (c ≫= f) R σ.
Proof.
  intros Hc Hf. apply ends_bind. eapply ends_mono; [exact Hc| |done].
  cbn. intros a σ1 (Hd & Hg & Ha). eapply ends_mono; [by apply (Hf a σ1)| |].
  - cbn. intros b σ2 (Hd2 & Hg2 & Hb). split; [done|]. split; [by etrans|done].
  - cbn. intros e σ2 [Hd2 Hg2]. split; [done|by etrans].
Qed.

Lemma sound_mret {A : Type} (a : A) (Q : A -> fs -> Prop) (σ : fs) : disk_ok σ -> Q a σ -> sound (mret a) Q σ.
Proof. intros ? ?. split; [done|]. by split. Qed.

Lemma sound_throw {A : Type} e (Q : A -> fs -> Prop) (σ : fs) : disk_ok σ -> sound (throw e) Q σ.
Proof. by split. Qed.

Lemma sound_gets {A : Type} (f : fs -> A) (Q : A -> fs -> Prop) (σ : fs) :
  disk_ok σ -> Q (f σ) σ -> sound (gets f) Q σ.
Proof. intros ? ?. split; [done|]. by split. Qed.

(** Code that returns without touching the disk. *)
Lemma sound_run {A : Type} (c : M fs A) (a : A) (Q : A -> fs -> Prop) (σ : fs) :
  disk_ok σ -> c σ = (Ok a, σ) -> Q a σ -> sound c Q σ.
Proof. intros Hd E HQ. unfold sound, ends. by rewrite E. Qed.

(** The same once the computation has been evaluated. *)
Ltac stays := split; [done|split; [reflexivity|try done]].

(** *** Queries and directories *)
Lemma sound_exists p σ : disk_ok σ -> sound (Fs.exists_ p) (fun _ _ => True) σ.
Proof. intros. by apply sound_gets. Qed.

Lemma sound_make_dirs (rest : list bytes) k σ :
  disk_ok σ -> Fs.stat σ k = Some Dir -> sound (Fs.make_dirs k rest) (fun _ _ => True) σ.
Proof.
  revert k σ. induction rest as [|n rest IH]; intros k σ Hd Hk; [by apply sound_mret|].
  cbn [Fs.make_dirs]. unfold sound, ends.
  destruct (σ !! (k ++ [n])) as [[|c]|] eqn:E.
  - apply IH; [done|]. by rewrite stat_ne by apply child_ne.
  - by split.
  - destruct (disk_ok_insert σ k n Dir Hd Hk) as [Hd' Hg]; [cbn; congruence|].
    eapply ends_mono; [apply (IH (k ++ [n]) _ Hd')| |].
    + rewrite stat_ne by apply child_ne. apply lookup_insert_eq.
    + cbn. intros _ σ' (? & ? & _). split; [done|]. split; [by etrans|done].
    + cbn. intros _ σ' []. split; [done|by etrans].
Qed.

Lemma sound_create_directories p σ :
  disk_ok σ -> sound (Fs.create_directories p) (fun _ _ => True) σ.
Proof.
  intros Hd. unfold Fs.create_directories. destruct p; [by apply sound_throw|].
  by apply sound_make_dirs.
Qed.

(** *** Streams: an open stream has a file on the disk *)
Definition stream_ok σ st : Prop :=
  match st_file st with Some k => k <> [] /\ is_reg σ k | None => True end.

Lemma stream_ok_grows σ σ' st : grows σ σ' -> stream_ok σ st -> stream_ok σ' st.
Proof. unfold stream_ok. intros [_ Hr]. destruct (st_file st); [|done]. intros []. auto. Qed.

Lemma content_bytes σ k : disk_ok σ -> bytes_ok (Stream.content σ k).
Proof.
  intros [_ _ Hb]. unfold Stream.content.
  destruct (σ !! k) as [[|c]|] eqn:E; [constructor|by apply (Hb k)|constructor].
Qed.

Lemma sound_open_existing p σ :
  disk_ok σ -> sound (Stream.open_existing p) (fun st σ' => stream_ok σ' st) σ.
Proof.
  intros Hd. apply sound_gets; [done|].
  destruct (Fs.stat σ (Path.resolve p)) as [[|c]|] eqn:E; [done| |done].
  destruct (reg_not_root _ _ _ E) as [Hk Hc]. split; [done|by exists c].
Qed.

Lemma sound_open_trunc p σ :
  disk_ok σ -> sound (Stream.open_trunc p) (fun st σ' => stream_ok σ' st) σ.
Proof.
  intros Hd. unfold Stream.open_trunc, sound, ends.
  set (k := Path.resolve p). destruct (Fs.stat σ (take (length k - 1) k)) as [[|?]|] eqn:Ep;
    [|stays..].
  destruct (decide (k = [])) as [-> |Hk]; [stays|].
  destruct (exists_last Hk) as (k0 & n & Ek). rewrite Ek, child_parent in Ep.
  rewrite stat_ne by done. rewrite Ek.
  set (σ' := <[k0 ++ [n] := Reg []]> σ).
  assert (σ !! (k0 ++ [n]) <> Some Dir ->
    disk_ok σ' /\ grows σ σ' /\ stream_ok σ' (Stream.opened (k0 ++ [n]))) as Hgo.
  { intros Hy. destruct (disk_ok_insert σ k0 n (Reg []) Hd Ep) as [Hd' Hg]; [by split|].
    split_and!; [done|done|split; [apply child_ne|]]. exists []. apply lookup_insert_eq. }
  destruct (σ !! (k0 ++ [n])) as [[|c]|]; [stays|by apply Hgo..].
Qed.

Lemma stream_ok_file σ st st' : st_file st' = st_file st -> stream_ok σ st -> stream_ok σ st'.
Proof. unfold stream_ok. by intros ->. Qed.

Lemma seek_file st (off : Z) : st_file (Stream.seek_to st off) = st_file st.
Proof. unfold Stream.seek_to. by destruct (st_fail st), (swrap 64 off <? 0). Qed.

Lemma stream_ok_seekg σ st (off : Z) : stream_ok σ st -> stream_ok σ (Stream.seekg st off).
Proof. apply stream_ok_file. unfold Stream.seekg. by rewrite seek_file. Qed.
Lemma stream_ok_seekp σ st (off : Z) : stream_ok σ st -> stream_ok σ (Stream.seekp st off).
Proof. apply stream_ok_file, seek_file. Qed.

Lemma sound_read st (n : Z) σ :
  disk_ok σ -> stream_ok σ st ->
  sound (Stream.read st n) (fun r σ' => bytes_ok (fst r) /\ stream_ok σ' (snd r)) σ.
Proof.
  intros Hd Hs. unfold Stream.read, sound, ends. unfold stream_ok in Hs.
  destruct (st_file st) as [k|] eqn:Ek; [|stays].
  destruct (Stream.good st); [|stays].
  split; [done|]. split; [reflexivity|]. split; [|done]. cbn [fst].
  unfold Stream.sub. destruct (_ <=? _); [constructor|].
  pose proof (content_bytes σ k Hd). auto with ft.
Qed.

Lemma sound_write st (d : bytes) σ :
  disk_ok σ -> stream_ok σ st -> bytes_ok d ->
  sound (Stream.write st d) (fun st' σ' => stream_ok σ' st') σ.
Proof.
  intros Hd Hs Hb. unfold Stream.write, sound, ends. pose proof Hs as Hs'. unfold stream_ok in Hs'.
  destruct (st_file st) as [k|] eqn:Ek; [|stays].
  destruct (Stream.good st); [|stays].
  destruct Hs' as [Hk [c Hc]]. destruct (exists_last Hk) as (k0 & n & ->).
  destruct (disk_ok_insert σ k0 n (Reg (Stream.overwrite (st_pos st) d
    (Stream.content σ (k0 ++ [n])))) Hd) as [Hd' Hg].
  - apply (do_parent _ Hd k0 n). by eexists.
  - split; [congruence|]. pose proof (content_bytes σ (k0 ++ [n]) Hd).
    unfold Stream.overwrite. destruct d; auto with ft.
  - split; [done|]. split; [done|]. split; [done|]. eexists. apply lookup_insert_eq.
Qed.

(** ** The metadata file *)
#[export] Hint Resolve stream_ok_seekg stream_ok_seekp stream_ok_grows : ft.

(** The sequencing of two calls: [v] and [H] are the value of the first one and what it
    established, [s] the file system it leaves. *)
Tactic Notation "step" simple_intropattern(v) ident(s) simple_intropattern(H) :=
  eapply sound_bind; cbn beta iota;
  [|intros v s; let Hd := fresh "Hd" in let Hg := fresh "Hg" in intros Hd Hg H;
    cbn beta iota].

Lemma sound_write_bitmap (n : nat) st σ :
  disk_ok σ -> stream_ok σ st ->
  sound (write_bitmap n st) (fun _ _ => True) σ.
Proof.
  revert st σ. induction n as [|n IH]; intros st σ Hd Hs; [by apply sound_mret|].
  cbn [write_bitmap].
  step st1 σ1 Hs1; [apply sound_write; [done|done|decide_closed]|by apply IH].
Qed.

(** What the constructors guarantee of the metadata object. *)
Definition meta_ok (fm : FileMetadata) : Prop :=
  zlen (fm_file_hash fm) = HASH_SIZE /\ bytes_ok (fm_file_hash fm).

Lemma sound_createIfNotExist (fm : FileMetadata) σ :
  disk_ok σ -> meta_ok fm -> sound (createIfNotExist fm) (fun _ _ => True) σ.
Proof.
  intros Hd [Hl Hb]. unfold createIfNotExist.
  step u σ1 _; [by apply sound_create_directories|].
  step found σ2 _; [by apply sound_exists|]. destruct found; [by apply sound_mret|].
  step st σ3 Hs3; [by apply sound_open_trunc|].
  step st4 σ4 Hs4; [apply sound_write; auto using mem64_bytes|].
  step st5 σ5 Hs5; [apply sound_write; auto using mem64_bytes|].
  rewrite copy_n_take by lia.
  step hr σ6 H6.
  { eapply (sound_run _ _ (fun hr _ => bytes_ok (fst hr)) _); [done|reflexivity|cbn; auto with ft]. }
  destruct hr as [hash rest].
  step st7 σ7 Hs7; [apply sound_write; eauto with ft|].
  step st8 σ8 _; [by apply sound_write_bitmap|]. by apply sound_mret.
Qed.

Lemma sound_markChunk (fm : FileMetadata) (i : Z) (v : bool) σ :
  disk_ok σ -> sound (markChunk fm i v) (fun _ _ => True) σ.
Proof.
  intros Hd. unfold markChunk, mark_read, mark_write.
  step r σ1 Hs1.
  { step st σ1 Hs1; [by apply sound_open_existing|].
    step r σ2 Hs2; [apply sound_read; eauto with ft|]. destruct r as [got ms].
    apply sound_mret with (Q := fun r σ => stream_ok σ (snd r)); [done|apply Hs2]. }
  destruct r as [bitmap ms]. step ms' σ2 _; [|by apply sound_mret].
  apply sound_write; [done|by apply stream_ok_seekp|].
  constructor; [apply set_bit_byte|constructor].
Qed.

Lemma sound_nextMissingChunk (fm : FileMetadata) (i : Z) σ :
  disk_ok σ -> sound (nextMissingChunk fm i) (fun _ _ => True) σ.
Proof.
  intros Hd. destruct (nextMissingChunk_returns σ fm i) as (r & E & _). by eapply sound_run.
Qed.

Lemma fill_length (buf got : bytes) :
  zlen got <= zlen buf -> zlen (Stream.fill buf got) = zlen buf.
Proof. intros. unfold Stream.fill. autorewrite with ft_len. lia. Qed.

Lemma fill_bytes (buf got : bytes) : bytes_ok buf -> bytes_ok got -> bytes_ok (Stream.fill buf got).
Proof. intros. unfold Stream.fill. auto with ft. Qed.

Lemma length_resize (h : bytes) (n : nat) : length (resize h n) = n.
Proof. unfold resize. autorewrite with ft_len. lia. Qed.

(** A read gives no more than was asked for. *)
Lemma read_length st (n : Z) σ :
  0 <= n -> match Stream.read st n σ with (Ok (got, _), _) => zlen got <= n | _ => True end.
Proof.
  intros Hn. unfold Stream.read. destruct (st_file st) as [k|]; [|done].
  destruct (Stream.good st); [|done]. unfold Stream.sub.
  destruct (_ <=? _); [done|]. autorewrite with ft_len. lia.
Qed.

Lemma sound_read_upto st (n : Z) σ :
  disk_ok σ -> stream_ok σ st -> 0 <= n ->
  sound (Stream.read st n)
    (fun r σ' => zlen (fst r) <= n /\ bytes_ok (fst r) /\ stream_ok σ' (snd r)) σ.
Proof.
  intros Hd Hs Hn. pose proof (sound_read st n σ Hd Hs) as H.
  pose proof (read_length st n σ Hn) as Hl. unfold sound, ends in *.
  destruct (Stream.read st n σ) as [[[got st']|e|] σ']; [|done..].
  destruct H as (? & ? & ? & ?). by split_and!.
Qed.

Definition hash_ok (h : bytes) : Prop := zlen h = HASH_SIZE /\ bytes_ok h.

Lemma sound_readHeader p σ :
  disk_ok σ -> sound (readHeader p []) (fun r _ => hash_ok (snd r)) σ.
Proof.
  intros Hd. unfold readHeader.
  assert (hash_ok (resize [] (Z.to_nat HASH_SIZE))) as Hz by (split; [done|decide_closed]).
  generalize dependent (resize [] (Z.to_nat HASH_SIZE)). intros h [Hl Hb].
  step found σ1 _; [by apply sound_exists|]. destruct found; [|by apply sound_mret].
  step st σ2 Hs2; [by apply sound_open_existing|].
  step r σ3 Hs3; [by apply sound_read|]. destruct r as [got1 st3], Hs3 as [_ Hs3].
  step r σ4 Hs4; [by apply sound_read|]. destruct r as [got2 st4], Hs4 as [_ Hs4].
  step r σ5 Hs5; [by apply sound_read_upto|]. destruct r as [got3 st5].
  cbn [fst snd] in Hs5. destruct Hs5 as (Hle & Hgot & _).
  apply sound_mret; [done|]. split; cbn [snd].
  - rewrite fill_length; lia.
  - by apply fill_bytes.
Qed.

(** ** The methods of FileRemote *)
Section Remote.
Context `{Blake2bLaws}.

(** A file object of the server. *)
Definition remote_ok (f : File) : Prop :=
  hash_ok (f_hash f) /\ exists fm, f_kind f = FileRemote fm.

Lemma sound_new_FileRemote p (hash : bytes) (size : Z) (e : bytes) σ :
  disk_ok σ -> hash_ok hash ->
  sound (new_FileRemote p hash size e) (fun f _ => remote_ok f) σ.
Proof.
  intros Hd Hh. unfold new_FileRemote, new_FileMetadata.
  rewrite (proj2 (Z.eqb_neq CHUNK_SIZE 0)) by done. cbv zeta.
  step fm σ1 Hfm.
  { eapply (sound_run _ _ (fun fm _ => meta_ok fm)); [done|reflexivity|exact Hh]. }
  step u σ2 _; [by apply sound_create_directories|].
  step u2 σ3 _; [by apply sound_createIfNotExist|].
  step found σ4 _; [by apply sound_exists|].
  step u4 σ5 _.
  { destruct found; [by apply sound_mret with (Q := fun _ _ => True)|].
    step st σ5 Hs; [by apply sound_open_trunc|].
    step st' σ6 _; [apply sound_write; auto with ft; decide_closed|].
    by apply sound_mret. }
  apply sound_mret; [done|]. split; [done|]. by exists fm.
Qed.

Lemma sound_makeRemoteFile (prefix : bytes) p σ :
  disk_ok σ ->
  sound (makeRemoteFile prefix p)
    (fun f _ => match f with Some f => remote_ok f | None => True end) σ.
Proof.
  intros Hd. unfold makeRemoteFile. step r σ1 Hr; [by apply sound_readHeader|].
  destruct r as [[size cs] hash]. destruct (0 <? cs); [|by apply sound_mret].
  step f σ2 Hf; [by apply sound_new_FileRemote|]. by apply sound_mret.
Qed.

Lemma sound_saveChunk (f : File) (ch : FileChunk) σ :
  disk_ok σ -> remote_ok f -> bytes_ok (fc_data ch) ->
  sound (saveChunk f ch) (fun _ _ => True) σ.
Proof.
  intros Hd [_ [fm Hk]] Hb. unfold saveChunk. rewrite Hk. cbv zeta.
  destruct (_ <? _); [by apply sound_mret|]. destruct (negb _); [by apply sound_mret|].
  step st σ1 Hs; [by apply sound_open_existing|].
  step st2 σ2 _; [apply sound_write; auto with ft|]. by apply sound_markChunk.
Qed.

Lemma sound_isComplete (f : File) σ :
  disk_ok σ -> remote_ok f -> sound (isComplete f) (fun _ _ => True) σ.
Proof.
  intros Hd [[Hl _] [fm Hk]]. unfold isComplete. rewrite Hk.
  step found σ1 _; [by apply sound_exists|]. destruct found; [|by apply sound_mret].
  step next σ2 _; [by apply sound_nextMissingChunk|].
  destruct (next =? UINT64_MAX); [|by apply sound_mret].
  step h σ3 Hh.
  { eapply (sound_run _ _ (fun h _ => zlen h = HASH_SIZE)); [done|apply calc_hash_run|].
    apply blake_digest_size. }
  cbn beta in Hh. rewrite (proj2 (Z.ltb_ge _ _)) by lia. by apply sound_mret.
Qed.

Lemma sound_getNextMissingChunk (f : File) (i : Z) σ :
  disk_ok σ -> sound (getNextMissingChunk f i) (fun _ _ => True) σ.
Proof.
  intros Hd. unfold getNextMissingChunk.
  destruct (f_kind f); [by apply sound_mret|by apply sound_nextMissingChunk].
Qed.

(** ** The handler *)
Context `{UuidText}.

(** Messages without arrays can always be serialized. *)
Definition plain (m : Message) : Prop :=
  msg_type m = MSGTYPE_FILE_COMPLETE \/ msg_type m = MSGTYPE_FILE_CHUNK_REQ.

Lemma serialize_plain (m : Message) : plain m -> exists buf, serialize m [] = Ok buf.
Proof.
  intros Hm. unfold serialize. rewrite copy_n_take.
  2: { unfold filename_len, UINT8_MAX. case_match; bool_to_prop; lia. }
  unfold serialize_fields. destruct Hm as [-> | ->]; eexists; reflexivity.
Qed.

Lemma sound_answer (msg : Message) (f : File) σ :
  disk_ok σ -> remote_ok f -> sound (answer msg f) (fun m _ => plain m) σ.
Proof.
  intros Hd Hf. unfold answer. step complete σ1 _; [by apply sound_isComplete|].
  destruct complete; [apply sound_mret; [done|by left]|].
  step next σ2 _; [by apply sound_getNextMissingChunk|].
  apply sound_mret; [done|by right].
Qed.

Lemma sound_respond (msg : Message) σ :
  disk_ok σ -> typed_message msg ->
  sound (respond msg) (fun r _ => match r with Some m => plain m | None => True end) σ.
Proof.
  intros Hd Ht. unfold respond.
  destruct (Z.eqb_spec (msg_type msg) MSGTYPE_FILE_OFFER) as [E|_].
  { destruct (ty_offer _ Ht E) as (_ & _ & Hl & Hb). unfold makeRemoteFile_offer.
    step f σ1 Hf; [by apply sound_new_FileRemote|].
    step m σ2 Hm; [by apply sound_answer|]. by apply sound_mret. }
  destruct (Z.eqb_spec (msg_type msg) MSGTYPE_FILE_CHUNK_DATA) as [E|_]; [|by apply sound_mret].
  destruct (ty_data _ Ht E) as (_ & _ & Hb).
  step f σ1 Hf; [by apply sound_makeRemoteFile|]. destruct f as [f|]; [|by apply sound_mret].
  step u σ2 _; [by apply sound_saveChunk|].
  step m σ3 Hm; [by apply sound_answer|]. by apply sound_mret.
Qed.

(** The same over the bytes sent. *)
Lemma handleRequest_sound (send : bytes -> send_result) (conn : bool) (msg : Message) σ (out : bytes) :
  disk_ok σ -> typed_message msg ->
  exists r σ' sent, handleRequest send conn msg (σ, out) = (r, (σ', out ++ sent)) /\
    r <> Undef /\ disk_ok σ' /\ grows σ σ'.
Proof.
  intros Hd Ht. pose proof (sound_respond msg σ Hd Ht) as Hr. unfold sound, ends in Hr.
  assert (forall r σ', r <> Undef -> disk_ok σ' /\ grows σ σ' ->
    exists r' σ1 sent, (r : res unit, (σ', out)) = (r', (σ1, out ++ sent)) /\
      r' <> Undef /\ disk_ok σ1 /\ grows σ σ1) as Hno.
  { intros r σ' Hu [? ?]. exists r, σ', []. by rewrite app_nil_r. }
  unfold handleRequest, on_fs. rewrite M_bind_case. cbn [fst snd].
  destruct (respond msg σ) as [[m|e|] σ']; [|by apply Hno|done].
  destruct Hr as (Hd' & Hg & Hm). destruct m as [m|]; [|by apply Hno].
  destruct conn; [|by apply Hno].
  destruct (serialize_plain m Hm) as [buf ->]. rewrite !M_bind_case. cbn [lift].
  unfold sendBuffer. destruct (send buf) as [n|err].
  - exists (Ok tt), σ', (take n buf). by split_and!.
  - destruct (_ && _); [by apply Hno|]. exists (Ok tt), σ', []. by split_and!.
Qed.
End Remote.

(** ** Properties *)
Section Properties.
Context `{Blake2bLaws} `{UuidText} (send : bytes -> send_result).

(** C17: no message makes the server misbehave: whatever buffer was parsed into a request,
    whatever is on the disk and whatever send does, the handler returns or throws (no
    undefined behaviour, no endless loop), leaves a well-formed file system (a tree, files
    of bytes) from which no file and no directory has disappeared, and only adds to what
    it has sent. *)
Theorem server_total (conn : bool) (buf : bytes) (msg : Message) σ (out : bytes) :
  bytes_ok buf -> parse buf = Ok msg -> disk_ok σ ->
  exists r σ' sent, handleRequest send conn msg (σ, out) = (r, (σ', out ++ sent)) /\
    r <> Undef /\ disk_ok σ' /\ grows σ σ'.
Proof.
  intros Hb Hp Hd. destruct (parse_exact_lem buf msg Hb Hp) as [Ht _].
  by apply handleRequest_sound.
Qed.
End Properties.

(** ** Witnesses *)
Section Witnesses.
Import ToyHash ToyUuid.

Lemma disk_ok_empty : disk_ok ∅.
Proof.
  constructor; [done|intros k n [x E]; by rewrite lookup_empty in E|].
  intros k c E. by rewrite lookup_empty in E.
Qed.

(** An offer with an absolute name, on an empty disk, to a client that does not read. *)
Lemma server_total_witness :
  exists r σ' sent,
    handleRequest (fun _ => SendError EAGAIN) true (received escape_offer 102) (∅, [7]) =
      (r, (σ', [7] ++ sent)) /\ r <> Undef /\ disk_ok σ' /\ grows ∅ σ'.
Proof.
  apply (server_total (fun _ => SendError EAGAIN) true (encode escape_offer)
    (received escape_offer 102)
    ∅ [7]); [decide_closed|vm_compute; reflexivity|apply disk_ok_empty].
Defined.
End Witnesses.
