(* ===== verification/Calls.v ===== *)
(** * The server's handler as a sequence of system calls

    What a handler of src/ft_server.cpp does to the file system, one call after the other,
    so that the calls of several threads can be interleaved ([Workers]). The functions
    are those of [FileMeta], [File] and [Server] once more; run without interruption they
    are the same ([run_respond_calls]). *)
From S2P Require Import Prelude StdFs Msg FileMeta Identity File MsgFctry Server.
Import FsFacts.

(** ** Calls and programs *)

(** The calls, each atomic. [Length] is none of the program's: it bounds its loops. *)
Inductive call : Set -> Type :=
| Exists (p : bytes) : call bool
| Mkdir (k : list bytes) : call unit
| OpenExisting (p : bytes) : call stream
| OpenTrunc (p : bytes) : call stream
| Read (st : stream) (n : Z) : call (bytes * stream)
| Write (st : stream) (data : bytes) : call stream
| Length (p : bytes) : call nat.

(** A directory that is there already is no error of mkdir for create_directories. *)
Definition mkdir (k : list bytes) : M fs unit := fun σ =>
  match σ !! k with
  | Some Dir => (Ok tt, σ)
  | Some (Reg _) => (Throw (filesystem_error "cannot create directories"), σ)
  | None => (Ok tt, <[k := Dir]> σ)
  end.

Definition sem {X : Set} (c : call X) : M fs X :=
  match c with
  | Exists p => Fs.exists_ p
  | Mkdir k => mkdir k
  | OpenExisting p => Stream.open_existing p
  | OpenTrunc p => Stream.open_trunc p
  | Read st n => Stream.read st n
  | Write st data => Stream.write st data
  | Length p => file_length p
  end.

Inductive prog (A : Type) : Type :=
| Done (r : res A)
| Call {X : Set} (c : call X) (k : X -> prog A).
Arguments Done {A} r.
Arguments Call {A X} c k.

#[export] Instance prog_ret : MRet prog := fun A a => Done (Ok a).
#[export] Instance prog_bind : MBind prog := fun A B f =>
  fix bind (p : prog A) : prog B :=
    match p with
    | Done (Ok a) => f a
    | Done (Throw e) => Done (Throw e)
    | Done Undef => Done Undef
    | Call c k => Call c (fun x => bind (k x))
    end.

Definition do {X : Set} (c : call X) : prog X := Call c (fun x => Done (Ok x)).

(** The program alone. *)
Fixpoint exec {A : Type} (p : prog A) : M fs A :=
  match p with
  | Done r => lift r
  | Call c k => x ← sem c; exec (k x)
  end.

(** ** The functions *)
Fixpoint make_dirs_calls (k rest : list bytes) : prog unit :=
  match rest with
  | [] => mret tt
  | c :: rest' => do (Mkdir (k ++ [c]));; make_dirs_calls (k ++ [c]) rest'
  end.

Definition create_directories_calls (p : bytes) : prog unit :=
  match p with
  | [] => Done (Throw (filesystem_error "cannot create directories"))
  | _ => make_dirs_calls [] (Path.resolve p)
  end.

Fixpoint write_bitmap_calls (n : nat) (ms : stream) : prog stream :=
  match n with
  | O => mret ms
  | S n' => ms ← do (Write ms [0]); write_bitmap_calls n' ms
  end.

Definition createIfNotExist_calls (fm : FileMetadata) : prog unit :=
  create_directories_calls (Path.parent_path (fm_effective_path fm));;
  found ← do (Exists (fm_metadata_file fm));
  if found : bool then mret tt
  else
    ms ← do (OpenTrunc (fm_metadata_file fm));
    ms ← do (Write ms (mem64 (fm_file_size fm)));
    ms ← do (Write ms (mem64 (fm_file_chunk_size fm)));
    '(hash, _) ← Done (copy_n (fm_file_hash fm) HASH_SIZE);
    ms ← do (Write ms hash);
    write_bitmap_calls (Z.to_nat (fm_bitmap_size fm)) ms;;
    mret tt.

Definition markChunk_calls (fm : FileMetadata) (chunk_idx : Z) (valid : bool) : prog unit :=
  ms ← do (OpenExisting (fm_metadata_file fm));
  let ms := Stream.seekg ms (u64 (fm_header_size fm + chunk_idx / 8)) in
  '(got, ms) ← do (Read ms 1);
  let bitmap := set_bit (the_byte (Stream.fill [0] got)) chunk_idx valid in
  let ms := Stream.seekp ms (u64 (fm_header_size fm + chunk_idx / 8)) in
  do (Write ms [bitmap]);;
  mret tt.

Fixpoint skip_full_calls (fuel : nat) (ms : stream) (bitmap : Z) : prog (Z * stream) :=
  if negb (st_fail ms) && (bitmap =? 0xFF) then
    match fuel with
    | O => Done Undef
    | S fuel' =>
        '(got, ms) ← do (Read ms 1);
        skip_full_calls fuel' ms (the_byte (Stream.fill [bitmap] got))
    end
  else mret (bitmap, ms).

Definition nextMissingChunk_calls (fm : FileMetadata) (from_chunk_idx : Z) : prog Z :=
  ms ← do (OpenExisting (fm_metadata_file fm));
  let ms := Stream.seekg ms (u64 (fm_header_size fm + from_chunk_idx / 8)) in
  len ← do (Length (fm_metadata_file fm));
  '(bitmap, ms) ← skip_full_calls (len + 2) ms 0xFF;
  if negb (bitmap =? 0xFF) then
    let ret := u64 (u64 (u64 (swrap 32 (Stream.tellg ms)) - fm_header_size fm - 1) * 8) in
    let ret := count_set 8 bitmap ret in
    mret (if ret <? fm_file_n_chunks fm then ret else UINT64_MAX)
  else mret UINT64_MAX.

Definition readHeader_calls (file_effective_path : bytes) (file_hash : bytes) :
    prog (Z * Z * bytes) :=
  let metadata_file := metadata_path file_effective_path in
  let file_hash := resize file_hash (Z.to_nat HASH_SIZE) in
  found ← do (Exists metadata_file);
  if found : bool then
    ms ← do (OpenExisting metadata_file);
    '(got, ms) ← do (Read ms SIZEOF_SIZE_T);
    let file_size := of_mem64 (Stream.fill (mem64 0) got) in
    '(got, ms) ← do (Read ms SIZEOF_SIZE_T);
    let file_chunk_size := of_mem64 (Stream.fill (mem64 0) got) in
    '(got, ms) ← do (Read ms HASH_SIZE);
    mret (file_size, file_chunk_size, Stream.fill file_hash got)
  else mret (0, 0, file_hash).

Section Handler.
Context `{Blake2b} `{UuidText}.

Fixpoint hash_blocks_calls (fuel : nat) (ist : stream) (s : blake_state) : prog blake_state :=
  match fuel with
  | O => Done Undef
  | S fuel' =>
      '(got, ist) ← do (Read ist blake_BlockSize);
      let s := blake_Update s got in
      if st_fail ist then mret s else hash_blocks_calls fuel' ist s
  end.

Definition calc_hash_calls (file : bytes) : prog bytes :=
  ist ← do (OpenExisting file);
  len ← do (Length file);
  s ← hash_blocks_calls (len + 2) (Stream.seekg ist 0) blake_init;
  mret (blake_TruncatedFinal s).

Definition new_FileRemote_calls (path hash : bytes) (size : Z) (effective_path : bytes) :
    prog File :=
  fm ← Done (new_FileMetadata effective_path size CHUNK_SIZE hash);
  create_directories_calls (Path.parent_path effective_path);;
  createIfNotExist_calls fm;;
  found ← do (Exists effective_path);
  (if found : bool then mret tt
   else
     os ← do (OpenTrunc effective_path);
     let os := Stream.seekp os (u64 (size - 1)) in
     do (Write os [0]);;
     mret tt);;
  mret (mk_file path hash size effective_path (FileRemote fm)).

Definition makeRemoteFile_calls (prefix path : bytes) : prog (option File) :=
  let effective_path := Path.append prefix path in
  '(file_size, file_chunk_size, file_hash) ← readHeader_calls effective_path [];
  if 0 <? file_chunk_size then
    f ← new_FileRemote_calls path file_hash file_size effective_path;
    mret (Some f)
  else mret None.

Definition isComplete_calls (f : File) : prog bool :=
  match f_kind f with
  | FileLocal => mret true
  | FileRemote fm =>
      found ← do (Exists (f_effective_path f));
      if found : bool then
        next ← nextMissingChunk_calls fm 0;
        if next =? UINT64_MAX then
          local_hash ← calc_hash_calls (f_effective_path f);
          if zlen local_hash <? zlen (f_hash f) then Done Undef
          else mret (bool_decide (f_hash f = take (length (f_hash f)) local_hash))
        else mret false
      else mret false
  end.

Definition saveChunk_calls (f : File) (chunk : FileChunk) : prog unit :=
  match f_kind f with
  | FileLocal => Done (Throw (domain_error "File chunks cannot be saved in local files"))
  | FileRemote fm =>
      let offset := u64 (fc_idx chunk * CHUNK_SIZE) in
      if f_size f <? offset then mret tt
      else if negb (chunk_len (f_size f) offset =? zlen (fc_data chunk)) then mret tt
      else
        os ← do (OpenExisting (f_effective_path f));
        let os := Stream.seekp os offset in
        do (Write os (fc_data chunk));;
        markChunk_calls fm (fc_idx chunk) true
  end.

Definition getNextMissingChunk_calls (f : File) (from_chunk_idx : Z) : prog Z :=
  match f_kind f with
  | FileLocal => mret UINT64_MAX
  | FileRemote fm => nextMissingChunk_calls fm from_chunk_idx
  end.

Definition answer_calls (msg : Message) (file : File) : prog Message :=
  complete ← isComplete_calls file;
  if complete : bool then
    mret (buildMsgComplete (seq_number msg) (client_uuid msg) file)
  else
    req_chunk_idx ← getNextMissingChunk_calls file 0;
    mret (buildMsgChunkReq (seq_number msg + 1) (client_uuid msg) file req_chunk_idx
            UINT16_MAX).

Definition respond_calls (msg : Message) : prog (option Message) :=
  let file_path := request_path msg in
  if msg_type msg =? MSGTYPE_FILE_OFFER then
    file ← new_FileRemote_calls file_path (file_hash (offer msg)) (file_size (offer msg))
             (Path.append SERVER_BASE_PATH file_path);
    response ← answer_calls msg file;
    mret (Some response)
  else if msg_type msg =? MSGTYPE_FILE_CHUNK_DATA then
    file ← makeRemoteFile_calls SERVER_BASE_PATH file_path;
    match file with
    | Some file =>
        saveChunk_calls file (mk_chunk (idx (chunk_data msg)) (data (chunk_data msg))
                                (chunk_hash (chunk_data msg)));;
        response ← answer_calls msg file;
        mret (Some response)
    | None => mret None
    end
  else mret None.
End Handler.

(** ** Run alone, the calls are the functions *)
Definition same {A : Type} (p : prog A) (c : M fs A) : Prop := forall σ, exec p σ = c σ.

Lemma exec_bind {A B : Type} (p : prog A) (f : A -> prog B) (σ : fs) :
  exec (p ≫= f) σ = (a ← exec p; exec (f a)) σ.
Proof.
  revert σ. induction p as [[a|e|]|X c k IH]; intros σ; [done..|].
  change ((x ← sem c; exec (k x ≫= f)) σ = (a ← (x ← sem c; exec (k x)); exec (f a)) σ).
  unfold mbind at 1 3 4, M_bind. destruct (sem c σ) as [[x|e|] σ1]; [|done..].
  apply IH.
Qed.

Lemma same_bind {A B : Type} (p : prog A) (c : M fs A) (f : A -> prog B) (g : A -> M fs B) :
  same p c -> (forall a, same (f a) (g a)) -> same (p ≫= f) (c ≫= g).
Proof.
  intros Hp Hf σ. rewrite exec_bind. unfold mbind, M_bind. rewrite Hp.
  destruct (c σ) as [[a|e|] σ1]; [apply Hf|done..].
Qed.

Lemma same_do {X : Set} (c : call X) : same (do c) (sem c).
Proof. intros σ. cbn. unfold mbind, M_bind. by destruct (sem c σ) as [[]]. Qed.

Lemma same_done {A : Type} (r : res A) : same (Done r) (lift r).
Proof. done. Qed.

Lemma same_mret {A : Type} (a : A) : same (mret a) (mret a).
Proof. done. Qed.

Create HintDb calls.
#[export] Hint Resolve same_done same_mret : calls.

(** Follows the code of both sides. *)
Ltac follow :=
  repeat match goal with
    | |- same (match ?x with _ => _ end) _ => destruct x
    | |- same (let _ := _ in _) _ => cbv zeta
    | |- same (_ ≫= _) _ => apply same_bind; [|intros ?]
    | |- same (do ?c) _ => apply (same_do c)
    | |- _ => solve [eauto with calls]
    end.

Lemma same_make_dirs k rest : same (make_dirs_calls k rest) (Fs.make_dirs k rest).
Proof.
  revert k. induction rest as [|c rest IH]; intros k; [done|]. intros σ.
  cbn [make_dirs_calls Fs.make_dirs]. rewrite exec_bind.
  unfold mbind, M_bind. rewrite (same_do (Mkdir _) σ). cbn [sem]. unfold mkdir.
  destruct (σ !! (k ++ [c])) as [[|d]|]; [apply IH|done|apply IH].
Qed.

Lemma same_create_directories p : same (create_directories_calls p) (Fs.create_directories p).
Proof. unfold create_directories_calls, Fs.create_directories. destruct p; [done|apply same_make_dirs]. Qed.

Lemma same_write_bitmap (n : nat) ms : same (write_bitmap_calls n ms) (write_bitmap n ms).
Proof. revert ms. induction n; intros ms; cbn [write_bitmap_calls write_bitmap]; follow. Qed.
#[export] Hint Resolve same_create_directories same_write_bitmap : calls.

Lemma same_createIfNotExist fm : same (createIfNotExist_calls fm) (createIfNotExist fm).
Proof. unfold createIfNotExist_calls, createIfNotExist. follow. Qed.

(** The functions nest their sequences differently. *)
Lemma same_nested {A B C : Type} (p : prog C) (c : M fs A) (f : A -> M fs B) (g : B -> M fs C) :
  same p (a ← c; f a ≫= g) -> same p ((c ≫= f) ≫= g).
Proof. intros Hp σ. rewrite Hp. symmetry. apply M_bind_assoc. Qed.

Lemma same_ret_bind {A B : Type} (p : prog B) (a : A) (f : A -> M fs B) :
  same p (f a) -> same p (mret a ≫= f).
Proof. done. Qed.

Lemma same_markChunk fm i v : same (markChunk_calls fm i v) (markChunk fm i v).
Proof.
  unfold markChunk_calls, markChunk, mark_read. apply same_nested.
  apply same_bind; [apply (same_do (OpenExisting _))|]. intros ms. apply same_nested.
  apply same_bind; [apply (same_do (Read _ _))|]. intros [got ms1]. apply same_ret_bind.
  unfold mark_write. follow.
Qed.

Lemma same_skip_full (fuel : nat) ms b : same (skip_full_calls fuel ms b) (skip_full fuel ms b).
Proof.
  revert ms b. induction fuel as [|fuel IH]; intros ms b; cbn [skip_full_calls skip_full]; follow.
Qed.
#[export] Hint Resolve same_createIfNotExist same_markChunk same_skip_full : calls.

Lemma same_nextMissingChunk fm i : same (nextMissingChunk_calls fm i) (nextMissingChunk fm i).
Proof. unfold nextMissingChunk_calls, nextMissingChunk. follow. Qed.

Lemma same_readHeader p h : same (readHeader_calls p h) (readHeader p h).
Proof. unfold readHeader_calls, readHeader. follow. Qed.
#[export] Hint Resolve same_nextMissingChunk same_readHeader : calls.

Section Same.
Context `{Blake2b} `{UuidText}.

Lemma same_hash_blocks (fuel : nat) ist s :
  same (hash_blocks_calls fuel ist s) (hash_blocks fuel ist s).
Proof.
  revert ist s. induction fuel as [|fuel IH]; intros ist s;
    cbn [hash_blocks_calls hash_blocks]; follow.
Qed.
#[local] Hint Resolve same_hash_blocks : calls.

Lemma same_calc_hash p : same (calc_hash_calls p) (calc_hash p).
Proof. unfold calc_hash_calls, calc_hash, calc_hash_stream. follow. Qed.
#[local] Hint Resolve same_calc_hash : calls.

Lemma same_new_FileRemote p h s e : same (new_FileRemote_calls p h s e) (new_FileRemote p h s e).
Proof. unfold new_FileRemote_calls, new_FileRemote. follow. Qed.
#[local] Hint Resolve same_new_FileRemote : calls.

Lemma same_makeRemoteFile prefix p :
  same (makeRemoteFile_calls prefix p) (makeRemoteFile prefix p).
Proof. unfold makeRemoteFile_calls, makeRemoteFile. follow. Qed.

Lemma same_isComplete f : same (isComplete_calls f) (isComplete f).
Proof. unfold isComplete_calls, isComplete. follow. Qed.

Lemma same_saveChunk f ch : same (saveChunk_calls f ch) (saveChunk f ch).
Proof. unfold saveChunk_calls, saveChunk. follow. Qed.

Lemma same_getNextMissingChunk f i :
  same (getNextMissingChunk_calls f i) (getNextMissingChunk f i).
Proof. unfold getNextMissingChunk_calls, getNextMissingChunk. follow. Qed.
#[local] Hint Resolve same_makeRemoteFile same_isComplete same_saveChunk
  same_getNextMissingChunk : calls.

Lemma same_answer (msg : Message) f : same (answer_calls msg f) (answer msg f).
Proof. unfold answer_calls, answer. follow. Qed.
#[local] Hint Resolve same_answer : calls.

Lemma run_respond_calls (msg : Message) (σ : fs) : exec (respond_calls msg) σ = respond msg σ.
Proof.
  revert σ. change (same (respond_calls msg) (respond msg)).
  unfold respond_calls, respond, makeRemoteFile_offer. follow.
Qed.
End Same.
