(* ===== verification/Client.v ===== *)
(** * The client's request handler (src/ft_client.cpp)

    ClientRequestHandler: offering a file, answering the server's chunk requests, and
    knowing when every upload is completed; over the client's file system, its map of
    offered files and the bytes the socket has taken. *)
From S2P Require Import Prelude StdFs Msg FileMeta File MsgFctry Conn.
Import FsFacts.

Record client := mk_client {
  cl_fs : fs;
  client_files : gmap bytes File;
  cl_sent : bytes }.

Definition on_client_fs {A} (c : M fs A) : M client A := fun s =>
  let (r, σ') := c (cl_fs s) in (r, mk_client σ' (client_files s) (cl_sent s)).

Section Client.
Context `{Blake2b} (this_uuid : bytes) (send : bytes -> send_result).

(** [serialize] to a new buffer and [conn->sendBuffer] *)
Definition send_message (m : Message) : M client unit :=
  buf ← lift (serialize m []);
  sent ← lift (sendBuffer (send buf) buf);
  modify (fun s => mk_client (cl_fs s) (client_files s) (cl_sent s ++ sent)).

(** [conn] tells whether the connection still exists. *)
Definition handleRequest (conn : bool) (msg : Message) : M client unit :=
  if negb (bool_decide (client_uuid msg = this_uuid)) then mret tt
  else
    found ← gets (fun s => client_files s !! file_name msg);
    match found with
    | None => mret tt
    | Some file =>
        response ←
          (if msg_type msg =? MSGTYPE_FILE_CHUNK_REQ then
             m ← on_client_fs (buildMsgChunkData (seq_number msg) this_uuid file
                                 (chunk_idx_first (chunk_req msg)));
             mret (Some m)
           else if msg_type msg =? MSGTYPE_FILE_COMPLETE then
             modify (fun s => mk_client (cl_fs s) (delete (file_name msg) (client_files s))
                                (cl_sent s));;
             mret None
           else mret None);
        match response with
        | Some m => if conn then send_message m else mret tt
        | None => mret tt
        end
    end.

(** [std::map::insert] keeps an entry that is there already. *)
Definition insert_new (k : bytes) (f : File) (files : gmap bytes File) : gmap bytes File :=
  match files !! k with Some _ => files | None => <[k := f]> files end.

Definition offer_file (file : File) : M client unit :=
  modify (fun s => mk_client (cl_fs s)
            (insert_new (Path.filename (f_path file)) file (client_files s)) (cl_sent s));;
  send_message (buildMsgOffer 1 this_uuid file).

Definition uploadsCompleted (s : client) : bool := bool_decide (client_files s = ∅).

(** What main does before its loop: the handler with no files, the local file (the prefix
    is empty on the client), and its offer. *)
Definition client_start (path : bytes) : M client File :=
  localFile ← on_client_fs (makeLocalFile [] path);
  offer_file localFile;;
  mret localFile.
End Client.

(** ** Runs *)
Section Runs.
Context `{Blake2bLaws} (this_uuid : bytes) (send : bytes -> send_result).
Context (Hsend : forall buf, send buf = Sent (length buf)).

Lemma send_message_run m s :
  wf_message m ->
  send_message send m s = (Ok tt, mk_client (cl_fs s) (client_files s) (cl_sent s ++ encode m)).
Proof.
  intros Hm. unfold send_message. pose proof (serialize_encode m [] Hm) as Hser.
  cbn [app] in Hser. rewrite Hser. mstep (@eq_refl _ (lift (Ok (encode m)) s)).
  rewrite Hsend. unfold sendBuffer. by rewrite take_ge by lia.
Qed.

(** A request for a chunk of an offered file, on every branch. *)
Lemma chunk_request_any msg s f c :
  client_uuid msg = this_uuid -> client_files s !! file_name msg = Some f ->
  msg_type msg = MSGTYPE_FILE_CHUNK_REQ -> local_at (cl_fs s) f c -> sender_ok this_uuid f ->
  bytes_ok c ->
  let i := u16 (chunk_idx_first (chunk_req msg)) in
  handleRequest this_uuid send true msg s =
    (if i * CHUNK_SIZE <? zlen c then
       (Ok tt, mk_client (cl_fs s) (client_files s) (cl_sent s ++
          encode (chunk_message (seq_number msg) this_uuid f c i)))
     else if i * CHUNK_SIZE =? zlen c then (Throw (length_error "Invalid chunk length"), s)
     else (Throw (range_error "Chunk index outside file length range"), s)).
Proof.
  intros Hu Hf Ht Hl Hs Hc i. unfold handleRequest.
  rewrite bool_decide_true by done. cbn [negb].
  mstep (@eq_refl _ (gets (fun s => client_files s !! file_name msg) s)). rewrite Hf, Ht.
  rewrite Z.eqb_refl. cbn iota. pose proof (u16_range (chunk_idx_first (chunk_req msg))) as Hi.
  fold i in Hi.
  assert (forall j, u16 j = i -> buildMsgChunkData (seq_number msg) this_uuid f j (cl_fs s) =
    buildMsgChunkData (seq_number msg) this_uuid f i (cl_fs s)) as Hj.
  { intros j E. unfold buildMsgChunkData. by rewrite E, (wrap_small 16 i) by lia. }
  assert (on_client_fs (buildMsgChunkData (seq_number msg) this_uuid f
      (chunk_idx_first (chunk_req msg))) s =
    (fst (buildMsgChunkData (seq_number msg) this_uuid f i (cl_fs s)),
     mk_client (snd (buildMsgChunkData (seq_number msg) this_uuid f i (cl_fs s)))
       (client_files s) (cl_sent s))) as E.
  { unfold on_client_fs. rewrite Hj by done. by destruct (buildMsgChunkData _ _ _ _ _). }
  destruct (Z.ltb_spec (zlen c) (i * CHUNK_SIZE)) as [Hgt|Hle].
  - rewrite (buildMsgChunkData_range (cl_fs s) _ _ f c i) in E by (done || lia).
    rewrite !M_bind_case, E. ztest. by destruct s.
  - rewrite (buildMsgChunkData_run (cl_fs s) _ _ f c i) in E by (done || lia).
    cbn [fst snd] in E. mstep E.
    assert (mk_client (cl_fs s) (client_files s) (cl_sent s) = s) as -> by (by destruct s).
    destruct (Z.ltb_spec (i * CHUNK_SIZE) (zlen c)).
    + apply send_message_run. by apply chunk_message_wf.
    + ztest. unfold send_message. rewrite M_bind_case.
      by rewrite serialize_empty_chunk by lia.
Qed.

(** The answer to a request for a chunk of an offered file. *)
Lemma chunk_request_run msg s f c :
  client_uuid msg = this_uuid -> client_files s !! file_name msg = Some f ->
  msg_type msg = MSGTYPE_FILE_CHUNK_REQ -> local_at (cl_fs s) f c -> sender_ok this_uuid f ->
  bytes_ok c -> 0 <= chunk_idx_first (chunk_req msg) < 2 ^ 16 ->
  chunk_idx_first (chunk_req msg) * CHUNK_SIZE < zlen c ->
  handleRequest this_uuid send true msg s =
    (Ok tt, mk_client (cl_fs s) (client_files s) (cl_sent s ++
       encode (chunk_message (seq_number msg) this_uuid f c
                 (chunk_idx_first (chunk_req msg))))).
Proof.
  intros Hu Hf Ht Hl Hs Hc Hi Hlt. pose proof (chunk_request_any msg s f c Hu Hf Ht Hl Hs Hc) as Hany.
  cbv zeta in Hany. rewrite (wrap_small 16 (chunk_idx_first _)) in Hany by lia.
  by rewrite (proj2 (Z.ltb_lt _ _) Hlt) in Hany.
Qed.

(** A request for a chunk outside the file. *)
Lemma chunk_request_range msg s f c :
  client_uuid msg = this_uuid -> client_files s !! file_name msg = Some f ->
  msg_type msg = MSGTYPE_FILE_CHUNK_REQ -> local_at (cl_fs s) f c ->
  0 <= chunk_idx_first (chunk_req msg) < 2 ^ 16 ->
  zlen c < chunk_idx_first (chunk_req msg) * CHUNK_SIZE ->
  handleRequest this_uuid send true msg s =
    (Throw (range_error "Chunk index outside file length range"), s).
Proof.
  intros Hu Hf Ht Hl Hi Hgt. unfold handleRequest.
  rewrite bool_decide_true by done. cbn [negb].
  mstep (@eq_refl _ (gets (fun s => client_files s !! file_name msg) s)). rewrite Hf, Ht.
  rewrite Z.eqb_refl. cbn iota. rewrite !M_bind_case. unfold on_client_fs.
  rewrite (buildMsgChunkData_range (cl_fs s) _ _ f c) by done. by destruct s.
Qed.

Lemma complete_run conn msg s f :
  client_uuid msg = this_uuid -> client_files s !! file_name msg = Some f ->
  msg_type msg = MSGTYPE_FILE_COMPLETE ->
  handleRequest this_uuid send conn msg s =
    (Ok tt, mk_client (cl_fs s) (delete (file_name msg) (client_files s)) (cl_sent s)).
Proof.
  intros Hu Hf Ht. unfold handleRequest. rewrite bool_decide_true by done. cbn [negb].
  mstep (@eq_refl _ (gets (fun s => client_files s !! file_name msg) s)). by rewrite Hf, Ht.
Qed.

(** What the socket takes of the answer makes no difference otherwise. *)
Lemma handleRequest_taken (send1 send2 : bytes -> send_result) msg s r1 s1 :
  (forall buf, send1 buf = Sent (length buf)) -> cl_sent s = [] ->
  handleRequest this_uuid send1 true msg s = (r1, s1) -> r1 <> Undef ->
  exists r2, handleRequest this_uuid send2 true msg s =
      (r2, mk_client (cl_fs s1) (client_files s1) (taken (send2 (cl_sent s1)) (cl_sent s1))) /\
    r2 <> Undef.
Proof.
  intros H1 Es. assert (forall s0 : client, cl_sent s0 = [] -> s0 =
    mk_client (cl_fs s0) (client_files s0) (taken (send2 (cl_sent s0)) (cl_sent s0))) as Hnil.
  { intros [σ0 files sent] E0. cbn in *. subst. by rewrite taken_nil. }
  unfold handleRequest. destruct (negb _).
  { intros [= <- <-] _. exists (Ok tt). by rewrite <- Hnil. }
  rewrite !M_bind_case. unfold gets. destruct (client_files s !! file_name msg) as [file|].
  2: { intros [= <- <-] _. exists (Ok tt). by rewrite <- Hnil. }
  rewrite !M_bind_case. destruct (msg_type msg =? MSGTYPE_FILE_CHUNK_REQ).
  - rewrite !M_bind_case. unfold on_client_fs.
    destruct (buildMsgChunkData _ _ _ _ (cl_fs s)) as [[m|e|] σ'].
    2: { intros [= <- <-] _. exists (Throw e). rewrite Es. cbn. by rewrite taken_nil. }
    2: { by intros [= <- <-]. }
    cbn [mret M_ret]. unfold send_message. rewrite !M_bind_case. unfold lift.
    destruct (serialize m []) as [buf|e|].
    2: { intros [= <- <-] _. exists (Throw e). cbn. by rewrite Es, taken_nil. }
    2: { by intros [= <- <-]. }
    rewrite !M_bind_case, H1. cbn [sendBuffer modify]. rewrite take_ge by done.
    intros [= <- <-] _. cbn [cl_fs client_files cl_sent]. rewrite Es. cbn [app].
    destruct (sendBuffer_cases (send2 buf) buf) as [->|[-> [x ->]]]; by eexists.
  - destruct (msg_type msg =? MSGTYPE_FILE_COMPLETE); rewrite ?M_bind_case;
      cbn [modify mret M_ret]; intros [= <- <-] _; exists (Ok tt);
      cbn [cl_fs client_files cl_sent]; (split; [|done]); [by rewrite Es, taken_nil|by rewrite <- Hnil].
Qed.

(** A regular file becomes a local file with the digest of its contents. *)
Lemma makeLocalFile_run (σ : fs) path c :
  Fs.stat σ (Path.resolve path) = Some (Reg c) -> zlen c < 2 ^ 63 ->
  let f := mk_file path (calc_hash_vec c) (zlen c) path FileLocal in
  makeLocalFile [] path σ = (Ok f, σ) /\ local_at σ f c.
Proof.
  intros Hst Hlen f. destruct (reg_not_root _ _ _ Hst) as [Hk Hc].
  assert (Path.append [] path = path) as Ep by (unfold Path.append; by destruct (Path.is_absolute path)).
  split; [|by constructor]. unfold makeLocalFile. rewrite Ep.
  assert (Fs.is_regular_file path σ = (Ok true, σ)) as E1
    by (unfold Fs.is_regular_file, gets; by rewrite Hst).
  assert (Fs.exists_ path σ = (Ok true, σ)) as E2
    by (unfold Fs.exists_, gets; by rewrite Hst).
  assert (Fs.file_size path σ = (Ok (zlen c), σ)) as E3
    by (unfold Fs.file_size; by rewrite Hst).
  mstep E1. mstep E2. cbn [negb orb]. pose proof (calc_hash_run σ path) as E4. rewrite Hst in E4.
  mstep E4. by mstep E3.
Qed.

Lemma offer_file_run f s :
  sender_ok this_uuid f -> zlen (f_hash f) = HASH_SIZE -> bytes_ok (f_hash f) ->
  offer_file this_uuid send f s =
    (Ok tt, mk_client (cl_fs s)
       (insert_new (Path.filename (f_path f)) f (client_files s))
       (cl_sent s ++ encode (buildMsgOffer 1 this_uuid f))).
Proof.
  intros Hs Hl Hb. unfold offer_file.
  mstep (@eq_refl _ (modify (fun s => mk_client (cl_fs s)
    (insert_new (Path.filename (f_path f)) f (client_files s)) (cl_sent s)) s)).
  apply send_message_run. by apply buildMsgOffer_wf.
Qed.

Lemma client_start_run (σ : fs) path c :
  Fs.stat σ (Path.resolve path) = Some (Reg c) -> zlen c < 2 ^ 63 ->
  length this_uuid = UUID_SIZE -> bytes_ok this_uuid -> bytes_ok (Path.filename path) ->
  let f := mk_file path (calc_hash_vec c) (zlen c) path FileLocal in
  client_start this_uuid send path (mk_client σ ∅ []) =
    (Ok f, mk_client σ {[Path.filename path := f]} (encode (buildMsgOffer 1 this_uuid f))) /\
  local_at σ f c /\ sender_ok this_uuid f.
Proof.
  intros Hst Hlen Hu Hub Hn f. destruct (makeLocalFile_run σ path c Hst Hlen) as [Hmk Hl].
  fold f in Hmk, Hl. assert (sender_ok this_uuid f) as Hs by (by constructor).
  split; [|done]. unfold client_start.
  assert (on_client_fs (makeLocalFile [] path) (mk_client σ ∅ []) =
    (Ok f, mk_client σ ∅ [])) as E by (unfold on_client_fs; cbn; by rewrite Hmk).
  mstep E.
  assert (bytes_ok (f_hash f)) as Hb by (cbn; apply blake_digest_bytes).
  assert (zlen (f_hash f) = HASH_SIZE) as Hhl by (cbn; apply blake_digest_size).
  mstep (offer_file_run f (mk_client σ ∅ []) Hs Hhl Hb). done.
Qed.
End Runs.

(** ** Properties *)
Section Properties.
Context `{Blake2bLaws} (this_uuid : bytes) (send : bytes -> send_result).
Context (Hsend : forall buf, send buf = Sent (length buf)).

(** The client answers a request for a chunk of an offered file with that chunk, but
    takes only the low 16 bits of the index; for an index outside the file the handler
    throws (range_error, or length_error at the very end of a file that is a multiple of
    the chunk size) and nothing is sent. Its files and the map never change. *)
Theorem client_answers_chunk_request msg s f c :
  client_uuid msg = this_uuid -> client_files s !! file_name msg = Some f ->
  msg_type msg = MSGTYPE_FILE_CHUNK_REQ -> local_at (cl_fs s) f c -> sender_ok this_uuid f ->
  bytes_ok c ->
  let i := u16 (chunk_idx_first (chunk_req msg)) in
  handleRequest this_uuid send true msg s =
    (if i * CHUNK_SIZE <? zlen c then
       (Ok tt, mk_client (cl_fs s) (client_files s) (cl_sent s ++
          encode (chunk_message (seq_number msg) this_uuid f c i)))
     else if i * CHUNK_SIZE =? zlen c then (Throw (length_error "Invalid chunk length"), s)
     else (Throw (range_error "Chunk index outside file length range"), s)).
Proof. by apply chunk_request_any. Qed.

(** The client's other branches: a message with another client's id or about a file
    that was not offered changes nothing; COMPLETE removes exactly that file from the
    map, so the uploads are completed when it was the only one; any other type changes
    nothing; nothing is sent. *)
Theorem client_completes conn msg s :
  (client_uuid msg <> this_uuid \/ client_files s !! file_name msg = None ->
     handleRequest this_uuid send conn msg s = (Ok tt, s)) /\
  (forall f, client_uuid msg = this_uuid -> client_files s !! file_name msg = Some f ->
     (msg_type msg = MSGTYPE_FILE_COMPLETE ->
        exists s', handleRequest this_uuid send conn msg s = (Ok tt, s') /\
          client_files s' = delete (file_name msg) (client_files s) /\
          cl_fs s' = cl_fs s /\ cl_sent s' = cl_sent s /\
          (uploadsCompleted s' = true <->
             forall k, is_Some (client_files s !! k) -> k = file_name msg)) /\
     (msg_type msg <> MSGTYPE_FILE_COMPLETE -> msg_type msg <> MSGTYPE_FILE_CHUNK_REQ ->
        handleRequest this_uuid send conn msg s = (Ok tt, s))).
Proof.
  split.
  - intros [Hu|Hf]; unfold handleRequest.
    + by rewrite bool_decide_false by done.
    + destruct (negb _); [done|].
      mstep (@eq_refl _ (gets (fun s => client_files s !! file_name msg) s)). by rewrite Hf.
  - intros f Hu Hf. split; intros Ht.
    + eexists. split; [by eapply complete_run|]. split_and!; try done.
      unfold uploadsCompleted. rewrite bool_decide_eq_true. cbn [client_files]. split.
      * intros E k [x Hk]. destruct (decide (k = file_name msg)) as [|Hne]; [done|].
        assert (delete (file_name msg) (client_files s) !! k = Some x) as Hk'
          by (by rewrite lookup_delete_ne). rewrite E in Hk'. done.
      * intros Hall. apply map_eq. intros k. rewrite lookup_empty.
        destruct (decide (k = file_name msg)) as [->|Hne]; [apply lookup_delete_eq|].
        rewrite lookup_delete_ne by done. destruct (client_files s !! k) eqn:E; [|done].
        destruct Hne. apply Hall. by rewrite E.
    + intros Hr. unfold handleRequest. rewrite bool_decide_true by done. cbn [negb].
      mstep (@eq_refl _ (gets (fun s => client_files s !! file_name msg) s)). rewrite Hf.
      rewrite (proj2 (Z.eqb_neq _ _) Hr), (proj2 (Z.eqb_neq _ _) Ht). done.
Qed.

(** Starting the client on a regular file: the local file has the size and the hash
    of the contents, it is the one entry of the map of offered files, and exactly one
    well-formed offer with this size, the number of chunks and this hash is sent. *)
Theorem client_start_offers (σ : fs) path c :
  Fs.stat σ (Path.resolve path) = Some (Reg c) -> zlen c < 2 ^ 32 ->
  length this_uuid = UUID_SIZE -> bytes_ok this_uuid -> bytes_ok (Path.filename path) ->
  exists f m,
    client_start this_uuid send path (mk_client σ ∅ []) =
      (Ok f, mk_client σ {[Path.filename path := f]} (encode m)) /\
    local_at σ f c /\ wf_message m /\ msg_type m = MSGTYPE_FILE_OFFER /\
    offer m = mk_offer (zlen c) (n_chunks (zlen c)) (calc_hash_vec c).
Proof.
  intros Hst Hlen Hu Hub Hn.
  destruct (client_start_run this_uuid send Hsend σ path c Hst ltac:(lia) Hu Hub Hn)
    as (Hrun & Hl & Hs).
  eexists _, _. split; [exact Hrun|]. split; [done|]. split; [|split; [done|]].
  - apply buildMsgOffer_wf; [done|apply blake_digest_size|apply blake_digest_bytes].
  - simpl. pose proof (n_chunks_bounds (zlen c) ltac:(lia)) as Hnc.
    rewrite CHUNK_SIZE_eq in Hnc.
    rewrite (local_chunks σ _ c Hl), !wrap_small by lia. done.
Qed.
End Properties.

(** ** Witnesses *)
Section Witnesses.
Import ToyHash.

Definition sample_client : client :=
  mk_client sample_local_fs {[str "file.txt" := sample_local]} [].

Definition sample_request : Message :=
  mk_message MSGTYPE_FILE_CHUNK_REQ 0 2 sample_uuid (str "file.txt") no_offer
    (mk_chunk_req 65537 65535) no_chunk_data.

(** Chunk 65537 is asked for, chunk 1 is sent. *)
Lemma client_answers_chunk_request_witness :
  handleRequest sample_uuid sent_whole true sample_request sample_client =
    (Ok tt, mk_client sample_local_fs {[str "file.txt" := sample_local]}
       (encode (chunk_message 2 sample_uuid sample_local sample_content 1))).
Proof.
  rewrite (client_answers_chunk_request sample_uuid sent_whole (fun _ => eq_refl)
    sample_request sample_client sample_local sample_content eq_refl eq_refl eq_refl
    sample_local_at sample_sender ltac:(decide_closed)).
  reflexivity.
Defined.

Definition sample_complete : Message :=
  mk_message MSGTYPE_FILE_COMPLETE 0 2 sample_uuid (str "file.txt") no_offer no_chunk_req
    no_chunk_data.

Lemma client_completes_witness :
  exists s', handleRequest sample_uuid sent_whole true sample_complete sample_client =
      (Ok tt, s') /\ uploadsCompleted s' = true.
Proof.
  destruct (client_completes sample_uuid sent_whole true sample_complete sample_client)
    as [_ P].
  destruct (P sample_local eq_refl eq_refl) as [Q _].
  destruct (Q eq_refl) as (s' & Q1 & _ & _ & _ & Q2).
  exists s'. split; [exact Q1|]. apply Q2. intros k [x Hk].
  destruct (decide (k = str "file.txt")) as [|Hne]; [done|].
  cbn [client_files sample_client] in Hk. by rewrite lookup_singleton_ne in Hk.
Defined.

Lemma client_start_offers_witness :
  exists f m,
    client_start sample_uuid sent_whole sample_path (mk_client sample_local_fs ∅ []) =
      (Ok f, mk_client sample_local_fs {[str "file.txt" := f]} (encode m)) /\
    offer m = mk_offer 5000 2 (calc_hash_vec sample_content).
Proof.
  destruct (client_start_offers sample_uuid sent_whole (fun _ => eq_refl) sample_local_fs
    sample_path sample_content) as (f & m & P1 & _ & _ & _ & P2);
    [apply lookup_singleton_eq|decide_closed|reflexivity|decide_closed|decide_closed|].
  exists f, m. split; [exact P1|rewrite P2; reflexivity].
Defined.
End Witnesses.
