(* ===== verification/Handler.v ===== *)
(** * The interface between the broker and the two programs (src/request/ft_req_hndlr.hpp)

    RequestHandler is the abstract class the broker is given: one virtual method. It is a
    type class here, with the contract the workers rely on as its laws; the server and the
    client are its two implementations. *)
From S2P Require Import Prelude StdFs Msg FileMeta Identity File.
From S2P Require Import MsgFctry Conn Framing Server Disk Client.
Import FsFacts.

(** [virtual void handleRequest(RequestPtr request)], on the state [S] of the process: what
    the request's two getters return, whether the connection still exists and the
    message. *)
Class RequestHandler (S : Type) := handleRequest (conn : bool) (msg : Message) : M S unit.

(** The contract: from a state of [Inv] any message the parser can produce is handled
    without undefined behaviour, and whether it returns or throws, [Inv] holds again. *)
Class HandlerLaws {S : Type} (h : RequestHandler S) (Inv : S -> Prop) : Prop :=
  handler_total (conn : bool) (msg : Message) (s : S) :
    typed_message msg -> Inv s -> ends (h conn msg) (fun _ => Inv) (fun _ => Inv) s.

(** ** The worker's side *)
Section Worker.
Context {S : Type} (h : RequestHandler S).

(** RequestBrokerWorker::run on the requests it takes: each is handed to the handler, and
    the exceptions of the handler are caught. *)
Fixpoint work (reqs : list (bool * Message)) : M S unit :=
  match reqs with
  | [] => mret tt
  | (conn, msg) :: reqs' => try_ignore (handleRequest conn msg);; work reqs'
  end.

Lemma work_one (conn : bool) (msg : Message) (s s' : S) :
  h conn msg s = (Ok tt, s') -> work [(conn, msg)] s = (Ok tt, s').
Proof. intros E. cbn [work]. rewrite M_bind_case. unfold try_ignore, handleRequest. by rewrite E. Qed.

(** A worker survives every sequence of requests. *)
Lemma work_total (Inv : S -> Prop) {Hlaws : HandlerLaws h Inv} (reqs : list (bool * Message)) (s : S) :
  Forall (fun r => typed_message (snd r)) reqs -> Inv s ->
  exists s', work reqs s = (Ok tt, s') /\ Inv s'.
Proof.
  intros H. revert s. induction H as [|[conn msg] reqs Hm _ IH]; intros s Hs; [by exists s|].
  cbn [work]. pose proof (handler_total conn msg s Hm Hs) as Ht. unfold ends in Ht.
  rewrite M_bind_case. unfold try_ignore, handleRequest.
  destruct (h conn msg s) as [[[]|e|] s1]; [by apply IH|by apply IH|done].
Qed.
End Worker.

(** ** The implementations *)
Section Implementations.
Context `{Blake2bLaws} (send : bytes -> send_result).

#[export] Instance server_handler `{UuidText} : RequestHandler (fs * bytes) :=
  Server.handleRequest send.

#[export] Instance client_handler (this_uuid : bytes) : RequestHandler client :=
  Client.handleRequest this_uuid send.

(** The server, from the disk [σ0] and the output [out0] on. *)
Definition server_inv (σ0 : fs) (out0 : bytes) (s : fs * bytes) : Prop :=
  disk_ok (fst s) /\ grows σ0 (fst s) /\ exists sent, snd s = out0 ++ sent.

#[export] Instance server_laws `{UuidText} (σ0 : fs) (out0 : bytes) :
  HandlerLaws server_handler (server_inv σ0 out0).
Proof.
  intros conn msg [σ out] Ht (Hd & Hg & [sent0 E]). cbn [fst snd] in *.
  destruct (handleRequest_sound send conn msg σ out Hd Ht)
    as (r & σ' & sent & Hrun & Hu & Hd' & Hg').
  assert (server_inv σ0 out0 (σ', out ++ sent)) as Hi.
  { split; [done|]. split; [by etrans|]. exists (sent0 ++ sent). cbn [snd].
    by rewrite E, app_assoc. }
  unfold ends, server_handler. rewrite Hrun. by destruct r.
Qed.

(** *** The client *)

(** Reading a chunk of whatever is on the disk returns or throws. *)
Lemma buildMsgChunkData_total (seq : Z) (uuid : bytes) (f : File) (i : Z) (σ : fs) :
  match buildMsgChunkData seq uuid f i σ with
  | (Ok m, σ') => σ' = σ /\ msg_type m = MSGTYPE_FILE_CHUNK_DATA
  | (Throw _, σ') => σ' = σ
  | (Undef, _) => False
  end.
Proof.
  unfold buildMsgChunkData, getChunk. destruct (f_kind f) as [|fm]; [|done]. cbv zeta.
  destruct (_ <? _); [done|].
  unfold Stream.open_existing, gets, Stream.read, mbind, M_bind. cbn beta iota.
  set (st := Stream.seekg _ _). generalize st. clear st. intros st.
  destruct (st_file st) as [k|]; [|done]. by destruct (Stream.good st).
Qed.

Lemma serialize_defined (m : Message) :
  msg_type m <> MSGTYPE_FILE_OFFER -> serialize m [] <> Undef.
Proof.
  intros Hm. unfold serialize. rewrite copy_n_take.
  2: { unfold filename_len, UINT8_MAX. case_match; bool_to_prop; lia. }
  unfold serialize_fields. rewrite (proj2 (Z.eqb_neq _ _) Hm).
  repeat case_match; cbn; congruence.
Qed.

(** The client, from the disk [σ0] and the output [out0] on: it reads its disk only, and
    its map of offered files only shrinks. *)
Definition client_inv (s0 s : client) : Prop :=
  cl_fs s = cl_fs s0 /\ client_files s ⊆ client_files s0 /\
  exists sent, cl_sent s = cl_sent s0 ++ sent.

#[export] Instance client_laws (this_uuid : bytes) (s0 : client) :
  HandlerLaws (client_handler this_uuid) (client_inv s0).
Proof.
  intros conn msg [σ files out] _ (Efs & Hsub & [sent0 Eout]). cbn in Efs, Hsub, Eout.
  assert (forall files' sent, files' ⊆ files ->
    client_inv s0 (mk_client σ files' (out ++ sent))) as Hinv.
  { intros files' sent Hs. split; [done|]. split; [by etrans|]. exists (sent0 ++ sent).
    cbn. by rewrite Eout, app_assoc. }
  assert (client_inv s0 (mk_client σ files out)) as Hsame
    by (rewrite <- (app_nil_r out); by apply Hinv).
  unfold ends, client_handler, Client.handleRequest.
  destruct (negb _); [done|]. rewrite M_bind_case. cbn [gets client_files].
  destruct (files !! file_name msg) as [f|]; [|done]. rewrite M_bind_case.
  destruct (msg_type msg =? MSGTYPE_FILE_CHUNK_REQ).
  - rewrite M_bind_case. unfold on_client_fs. cbn [cl_fs client_files cl_sent].
    pose proof (buildMsgChunkData_total (seq_number msg) this_uuid f
      (chunk_idx_first (chunk_req msg)) σ) as Hb.
    destruct (buildMsgChunkData _ _ _ _ σ) as [[m|e|] σ']; [|by subst σ'|done].
    destruct Hb as [-> Ht]. cbn. destruct conn; [|done]. unfold send_message.
    rewrite M_bind_case. cbn [lift]. pose proof (serialize_defined m) as Hs.
    rewrite Ht in Hs. destruct (serialize m []) as [buf|e|]; [|done|by apply Hs].
    rewrite M_bind_case. cbn [lift]. unfold sendBuffer.
    destruct (send buf) as [n|err]; [by apply Hinv|]. destruct (_ && _); [done|by apply Hinv].
  - destruct (msg_type msg =? MSGTYPE_FILE_COMPLETE); [|done]. cbn.
    rewrite <- (app_nil_r out). apply Hinv. apply delete_subseteq.
Qed.
End Implementations.

(** ** Properties *)

(** What run gets from a request: whether its connection is still there, and the message. *)
Definition seen (live : gset conn_id) (r : Request) : bool * Message :=
  (bool_decide (is_Some (getConnection live r)), rq_message r).

(** From the bytes of a peer to the end of their handling nothing goes wrong: whatever
    is received, in any pieces, and unless one of its frames is shorter than it announces,
    the connection queues its requests without an exception, and a worker that serves
    them with any handler that keeps the contract [HandlerLaws] comes back to its loop,
    whether the connection still exists or not, with the handler's invariant intact. (The
    server and the client keep the contract, by [server_laws] and [client_laws].) *)
Theorem stream_served {S : Type} (h : RequestHandler S) (Inv : S -> Prop)
    {Hlaws : HandlerLaws h Inv} (self : conn_id) (segments : list bytes) (fd e : Z) :
  bytes_ok (concat segments) ->
  Forall (fun frame => bytes_needed frame <= zlen frame) (fst (frames (concat segments))) ->
  exists reqs conn' e',
    handleEvents self (bytes_events <$> segments) (idle fd e (Some [])) =
      (Ok tt, mk_env conn' e' (Some reqs)) /\
    forall live s, Inv s -> exists s', work h (seen live <$> reqs) s = (Ok tt, s') /\ Inv s'.
Proof.
  intros Hbs Hlong.
  destruct (frames_typed self segments fd e [] Hbs Hlong) as (ms & e' & left & len & Hrun & Hms).
  eexists _, _, e'. split; [exact Hrun|]. intros live s Hs.
  apply (work_total h Inv); [|done]. cbn [app]. rewrite !Forall_fmap.
  eapply Forall_impl; [|exact Hms]. done.
Qed.

(** ** Witnesses *)
Section Witnesses.
Import ToyHash ToyUuid.

(** An offer and a message of type COMPLETE, which the server ignores, from a client that has hung up
    before they are served. *)
Lemma stream_served_witness :
  exists reqs conn' e' s',
    handleEvents 3 (bytes_events <$> [encode escape_offer; encode small_message; [9; 9]])
      (idle 9 0 (Some [])) = (Ok tt, mk_env conn' e' (Some reqs)) /\
    work (server_handler sent_whole) (seen ∅ <$> reqs) (∅, [7]) = (Ok tt, s') /\
    disk_ok (fst s').
Proof.
  destruct (stream_served (server_handler sent_whole) (server_inv ∅ [7]) 3
    [encode escape_offer; encode small_message; [9; 9]] 9 0) as (reqs & conn' & e' & P1 & P2);
    [decide_closed|decide_closed|].
  destruct (P2 ∅ (∅, [7])) as (s' & P3 & P4 & _).
  { split; [apply disk_ok_empty|]. split; [done|]. by exists []. }
  exists reqs, conn', e', s'. split; [exact P1|split; [exact P3|exact P4]].
Defined.
End Witnesses.
