(* ===== verification/Transfer.v ===== *)
(** * A whole transfer: the client and the server together

    One client uploads one file: its bytes go through the server's connection to the
    server's handler, and the answers come back the same way. [rounds] runs the two
    programs' own definitions in turns: the framing of [Conn], the handlers of [Server]
    and [Client], both with sockets that take whole buffers. *)
From S2P Require Import Prelude StdFs Msg FileMeta Identity File.
From S2P Require Import Upload MsgFctry Conn Server Client Handler.
Import FsFacts DirFacts.

(** The messages a connection queues for the bytes it receives. *)
Definition deliver (buf : bytes) : res (list Message) :=
  match Conn.handleEvent 0 (bytes_events buf) (idle 0 0 (Some [])) with
  | (Ok _, s, _) => Ok (rq_message <$> default [] (e_broker s))
  | (Throw e, _, _) => Throw e
  | (Undef, _, _) => Undef
  end.

Section Transfer.
Context `{Blake2b} `{UuidText}.

(** The server reads what the client sent, then the client what the server sent. *)
Definition server_turn (to_server : bytes) (σ : fs) : res (fs * bytes) :=
  msgs ← deliver to_server;
  match work (server_handler sent_whole) (pair true <$> msgs) (σ, []) with
  | (Ok _, s) => Ok s
  | (Throw e, _) => Throw e
  | (Undef, _) => Undef
  end.

Definition client_turn (uuid to_client : bytes) (cl : client) : res client :=
  msgs ← deliver to_client;
  match work (client_handler sent_whole uuid) (pair true <$> msgs)
          (mk_client (cl_fs cl) (client_files cl) []) with
  | (Ok _, cl') => Ok cl'
  | (Throw e, _) => Throw e
  | (Undef, _) => Undef
  end.

Fixpoint rounds (uuid : bytes) (k : nat) (σ : fs) (cl : client) : res (fs * client) :=
  match k with
  | O => Ok (σ, cl)
  | S k' =>
      '(σ', to_client) ← server_turn (cl_sent cl) σ;
      cl' ← client_turn uuid to_client cl;
      rounds uuid k' σ' cl'
  end.
End Transfer.

(** ** One message through a connection *)
Lemma deliver_encode m :
  wf_message m -> deliver (encode m) = Ok [received m (zlen (enc_body m))].
Proof.
  intros Hm. unfold deliver.
  pose proof (handleEvent_bytes 0 (encode m) (idle 0 0 (Some []))) as Hev.
  unfold idle in Hev at 1. rewrite (on_bytes_encode 0 m 0 0 0 (Some []) Hm) in Hev.
  unfold bytes_events. by rewrite Hev.
Qed.

Lemma deliver_nil : deliver [] = Ok [].
Proof. done. Qed.

(** A name of at most 255 bytes arrives whole. *)
Lemma wire_name_short m : zlen (file_name m) <= 255 -> wire_name m = file_name m.
Proof. intros. unfold wire_name, UINT8_MAX. apply take_ge. lia. Qed.

(** ** The progress of an upload *)
Section Progress.
Context `{Blake2b}.

Lemma filter_all {A} (P : A -> Prop) `{forall x, Decision (P x)} (l : list A) :
  (forall x, x ∈ l -> P x) -> filter P l = l.
Proof.
  induction l as [|x l IH]; [done|]. intros Hall. rewrite filter_cons_True by (apply Hall; left).
  f_equal. apply IH. intros y Hy. apply Hall. by right.
Qed.

(** [u] is an upload of the contents [c] that was interrupted at any point: the bytes of
    every chunk received are those of [c]. *)
Record partial_of (c : bytes) (u : upload) : Prop := mk_partial_of {
  po_size : up_size u = zlen c;
  po_hash : up_hash u = calc_hash_vec c;
  po_data : forall j : nat, Z.of_nat j / CHUNK_SIZE ∈ up_marked u -> up_data u !! j = c !! j }.

Lemma partial_chunks c u : partial_of c u -> up_chunks u = n_chunks (zlen c).
Proof. intros Hp. unfold up_chunks. by rewrite (po_size _ _ Hp). Qed.

Lemma partial_start (c : bytes) : partial_of c (up_start (zlen c) (calc_hash_vec c)).
Proof. constructor; [done|done|]. intros j Hj. cbn in Hj. by apply not_elem_of_empty in Hj. Qed.

Lemma missing_start (c : bytes) :
  length (up_missing (up_start (zlen c) (calc_hash_vec c))) = Z.to_nat (n_chunks (zlen c)).
Proof.
  unfold up_missing. rewrite filter_all, length_seqZ; [done|].
  intros i _. cbn. apply not_elem_of_empty.
Qed.

Lemma chunk_inside (c : bytes) k :
  0 <= k < n_chunks (zlen c) -> k * CHUNK_SIZE < zlen c.
Proof.
  intros Hk. pose proof (n_chunks_bounds (zlen c) ltac:(lia)) as Hn.
  rewrite CHUNK_SIZE_eq in *. lia.
Qed.

(** The bytes after a chunk of [c] has been written. *)
Lemma lookup_written (c dat : bytes) i j :
  length dat = length c -> 0 <= i -> i * CHUNK_SIZE < zlen c ->
  Stream.overwrite (i * CHUNK_SIZE) (chunk_of c i) dat !! j =
    if decide (Z.of_nat j / CHUNK_SIZE = i) then c !! j else dat !! j.
Proof.
  intros Hlen Hi Hlt. pose proof (length_chunk_of c i ltac:(lia) ltac:(lia)) as Hl.
  rewrite CHUNK_SIZE_eq in *. rewrite overwrite_inside by lia.
  set (p := Z.to_nat (i * 3968)).
  assert (length (take p dat) = p) as Hp by (rewrite length_take; lia).
  destruct (decide (j < p)%nat).
  { rewrite lookup_app_l, lookup_take_lt, decide_False by (lia || zdiv). done. }
  rewrite lookup_app_r, Hp by lia. destruct (decide (j - p < length (chunk_of c i))%nat).
  - rewrite lookup_app_l, decide_True by (lia || zdiv). unfold chunk_of.
    rewrite CHUNK_SIZE_eq, lookup_take_lt, lookup_drop by lia. f_equal. lia.
  - rewrite lookup_app_r by lia. rewrite lookup_drop.
    replace (_ + _)%nat with j by lia.
    case_decide; [|done]. rewrite !lookup_ge_None_2; [done|zdiv|zdiv].
Qed.

Lemma partial_save c u i :
  up_ok u -> partial_of c u -> 0 <= i < n_chunks (zlen c) ->
  partial_of c (up_save u i (chunk_of c i)) /\
  up_marked (up_save u i (chunk_of c i)) = {[i]} ∪ up_marked u.
Proof.
  intros Hu Hp Hi. pose proof (partial_chunks c u Hp) as Hn.
  pose proof (chunk_inside c i Hi) as Hin.
  pose proof (length_chunk_of c i ltac:(lia) ltac:(lia)) as Hl.
  pose proof (uo_data _ Hu) as Hd. destruct Hp as [Hs Hh Hp].
  unfold up_save. rewrite decide_True by (split; [lia|rewrite Hs; exact Hl]).
  rewrite decide_True by lia. split; [|done]. constructor; [done|done|]. cbn. intros j Hj.
  rewrite lookup_written by lia. case_decide; [done|].
  apply Hp. apply elem_of_union in Hj as [Hj|Hj]; [|done]. by apply elem_of_singleton in Hj.
Qed.

Lemma missing_save c u i l :
  up_ok u -> partial_of c u -> up_missing u = i :: l ->
  up_missing (up_save u i (chunk_of c i)) = l.
Proof.
  intros Hu Hp E. assert (i ∈ up_missing u) as Hin by (rewrite E; by left).
  apply elem_of_up_missing in Hin as [Hi Hni]. rewrite (partial_chunks c u Hp) in Hi.
  destruct (partial_save c u i Hu Hp Hi) as [Hp' Hm].
  assert (NoDup (i :: l)) as Hnd by (rewrite <- E; apply list.NoDup_filter, NoDup_seqZ).
  apply list.NoDup_cons in Hnd as [Hil _].
  unfold up_missing. rewrite (partial_chunks _ _ Hp'), Hm.
  rewrite (list_filter_iff _ (fun j => j <> i /\ j ∉ up_marked u)).
  2: { intros j. rewrite elem_of_union, elem_of_singleton. tauto. }
  rewrite <- (list_filter_filter (fun j => j <> i) (fun j => j ∉ up_marked u)).
  unfold up_missing in E. rewrite (partial_chunks _ _ Hp) in E. rewrite E.
  rewrite filter_cons_False by tauto. apply filter_all. intros j Hj ->. done.
Qed.

Lemma partial_end c u :
  up_ok u -> partial_of c u -> up_missing u = [] -> up_data u = c /\ up_complete u = true.
Proof.
  intros Hu Hp E. pose proof (proj1 (up_missing_nil u) E) as Hall.
  rewrite (partial_chunks c u Hp) in Hall.
  pose proof (uo_data _ Hu) as Hd. destruct Hp as [Hs Hh Hp].
  assert (up_data u = c) as Hc.
  { apply list_eq. intros j. destruct (decide (j < length c)%nat).
    - apply Hp, Hall. pose proof (n_chunks_bounds (zlen c) ltac:(lia)) as Hn.
      rewrite CHUNK_SIZE_eq in *. zdiv.
    - rewrite !lookup_ge_None_2 by lia. done. }
  split; [done|]. unfold up_complete. apply bool_decide_eq_true. by rewrite Hc.
Qed.

Lemma partial_incomplete u : up_missing u <> [] -> up_complete u = false.
Proof. intros Hm. apply bool_decide_eq_false. by intros [? _]. Qed.
End Progress.

(** ** The turns of one transfer *)
Section Turns.
Context `{Blake2bLaws} `{UuidTextLaws}.
Context (uuid path name c : bytes) (σc : fs).

(** The client's file, and the names in use. *)
Let f : File := mk_file path (calc_hash_vec c) (zlen c) path FileLocal.

Record transfer_ok : Prop := mk_transfer_ok {
  to_uuid : length uuid = UUID_SIZE;
  to_uuid_bytes : bytes_ok uuid;
  to_filename : Path.filename path = name;
  to_name : Path.simple name;
  to_name_bytes : bytes_ok name;
  to_name_short : zlen name <= 255;
  to_file : Fs.stat σc (Path.resolve path) = Some (Reg c);
  to_bytes : bytes_ok c;
  to_size : zlen c < 2 ^ 32 }.

Context (Hok : transfer_ok).

Lemma f_local : local_at σc f c.
Proof.
  destruct Hok. destruct (reg_not_root _ _ _ to_file0) as [Hk Hr].
  constructor; try done. cbn. lia.
Qed.

Lemma f_sender : sender_ok uuid f.
Proof. destruct Hok. constructor; [done|done|]. cbn. by rewrite to_filename0. Qed.

Abbreviation dir := (upload_dir uuid).

(** What the server's answer says. *)
Record answered (m : Message) (u : upload) : Prop := mk_answered {
  ad_wf : wf_message m;
  ad_uuid : client_uuid m = uuid;
  ad_name : file_name m = name;
  ad_complete : up_complete u = true -> msg_type m = MSGTYPE_FILE_COMPLETE;
  ad_next : up_complete u = false ->
    msg_type m = MSGTYPE_FILE_CHUNK_REQ /\ chunk_idx_first (chunk_req m) = u16 (up_next u) }.

Lemma answers_answered msg m u :
  client_uuid msg = uuid -> file_name msg = name -> answers msg m u -> answered m u.
Proof. intros Eu En []. constructor; congruence || done. Qed.

Lemma server_chunk_turn σ u seq i :
  represents σ dir name u -> 0 <= i < 2 ^ 16 -> i * CHUNK_SIZE < zlen c ->
  exists σ' m,
    server_turn (encode (chunk_message seq uuid f c i)) σ = Ok (σ', encode m) /\
    answered m (up_save u i (chunk_of c i)) /\
    represents σ' dir name (up_save u i (chunk_of c i)) /\ same_elsewhere dir name σ σ'.
Proof.
  intros Hrep Hi Hlt. pose proof Hok as [Hu Hub Hfn Hs Hnb Hsh Hf Hc Hsz].
  pose proof (chunk_message_wf seq uuid f c i f_sender Hc Hi Hlt) as Hwf.
  set (msg := received (chunk_message seq uuid f c i) (zlen (enc_body (chunk_message seq uuid f c i)))).
  assert (file_name msg = name) as En.
  { unfold msg. cbn [received file_name]. rewrite wire_name_short; cbn; by rewrite Hfn. }
  assert (valid_request msg) as Hv by (constructor; rewrite ?En; done).
  assert (represents σ (upload_dir (client_uuid msg)) (file_name msg) u) as Hrep'
    by (by rewrite En).
  destruct (chunk_run sent_whole sent_whole_all true msg σ [] u Hv eq_refl)
    as (σ' & m & Hrun & Ha & Hst & Hsame); [change (0 <= i < 2 ^ 32); lia|exact Hrep'|].
  exists σ', m. rewrite En in Hst, Hsame.
  split; [|split; [by apply (answers_answered msg)|by split]].
  unfold server_turn. rewrite deliver_encode by done. cbn [mbind res_bind fmap list_fmap].
  fold msg. by rewrite (work_one (server_handler sent_whole) _ _ _ _ Hrun).
Qed.

Lemma server_offer_turn σ :
  dirs_free σ (Path.resolve dir) -> σ !! data_key dir name = None ->
  σ !! data_key dir (meta_name name) = None ->
  exists σ' m,
    server_turn (encode (buildMsgOffer 1 uuid f)) σ = Ok (σ', encode m) /\
    answered m (up_start (zlen c) (calc_hash_vec c)) /\
    represents σ' dir name (up_start (zlen c) (calc_hash_vec c)) /\
    exists σ1, with_dirs σ σ1 (Path.resolve dir) /\ same_elsewhere dir name σ1 σ'.
Proof.
  intros Hfree Hd Hm. pose proof Hok as [Hu Hub Hfn Hs Hnb Hsh Hf Hc Hsz].
  assert (wf_message (buildMsgOffer 1 uuid f)) as Hwf.
  { apply buildMsgOffer_wf; [apply f_sender|apply blake_digest_size|apply blake_digest_bytes]. }
  set (msg := received (buildMsgOffer 1 uuid f) (zlen (enc_body (buildMsgOffer 1 uuid f)))).
  assert (file_name msg = name) as En.
  { unfold msg. cbn [received file_name]. rewrite wire_name_short; cbn; by rewrite Hfn. }
  assert (valid_request msg) as Hv by (constructor; rewrite ?En; done).
  assert (file_size (offer msg) = zlen c) as Es
    by (change (u32 (zlen c) = zlen c); apply wrap_small; split; [lia|exact Hsz]).
  assert (file_hash (offer msg) = calc_hash_vec c) as Eh by done.
  pose proof (offer_run sent_whole sent_whole_all true msg σ []) as Hrun. cbv zeta in Hrun.
  rewrite En, Es, Eh in Hrun.
  destruct Hrun as (σ1 & σ' & m & Hrun & Ha & Hst & Hw); try done;
    [lia|apply blake_digest_size|].
  exists σ', m. split; [|split; [by apply (answers_answered msg)|split; [exact Hst|by exists σ1]]].
  unfold server_turn. rewrite deliver_encode by done. cbn [mbind res_bind fmap list_fmap].
  fold msg. by rewrite (work_one (server_handler sent_whole) _ _ _ _ Hrun).
Qed.

Lemma client_answer_turn m u cl :
  answered m u -> cl_fs cl = σc -> client_files cl = {[name := f]} ->
  (up_complete u = false -> u16 (up_next u) * CHUNK_SIZE < zlen c) ->
  exists cl', client_turn uuid (encode m) cl = Ok cl' /\ cl_fs cl' = σc /\
    (up_complete u = true -> client_files cl' = ∅ /\ cl_sent cl' = []) /\
    (up_complete u = false -> client_files cl' = {[name := f]} /\
       exists seq, cl_sent cl' = encode (chunk_message seq uuid f c (u16 (up_next u)))).
Proof.
  intros [Hwf Eu En Hcomp Hnext] Efs Efiles Hlt.
  pose proof Hok as [Hu Hub Hfn Hs Hnb Hsh Hf Hc Hsz].
  set (msg := received m (zlen (enc_body m))).
  assert (file_name msg = name) as En'.
  { unfold msg. cbn [received file_name]. rewrite wire_name_short; by rewrite En. }
  assert (client_uuid msg = uuid) as Eu' by done.
  set (cl0 := mk_client (cl_fs cl) (client_files cl) []).
  assert (client_files cl0 !! file_name msg = Some f) as Hlook
    by (cbn [client_files cl0]; rewrite Efiles, En'; apply lookup_singleton_eq).
  unfold client_turn. rewrite deliver_encode by done. cbn [mbind res_bind fmap list_fmap]. fold msg cl0.
  destruct (up_complete u) eqn:Ecomp.
  - specialize (Hcomp eq_refl).
    rewrite (work_one (client_handler sent_whole uuid) _ _ _ _ (complete_run uuid sent_whole true msg cl0 f Eu' Hlook Hcomp)).
    eexists. split; [reflexivity|]. split; [exact Efs|]. split; [|done]. intros _.
    cbn [client_files cl_sent cl0]. rewrite Efiles, En'. split; [apply delete_singleton_eq|done].
  - destruct (Hnext eq_refl) as [Ht Hi]. specialize (Hlt eq_refl).
    assert (msg_type msg = MSGTYPE_FILE_CHUNK_REQ) as Ht' by done.
    assert (chunk_idx_first (chunk_req msg) = u16 (up_next u)) as Hi'.
    { unfold msg, received. rewrite Ht. exact Hi. }
    pose proof (u16_range (up_next u)) as Hr.
    assert (local_at (cl_fs cl0) f c) as Hl by (cbn; rewrite Efs; apply f_local).
    pose proof (chunk_request_run uuid sent_whole sent_whole_all msg cl0 f c Eu' Hlook Ht' Hl
      f_sender Hc ltac:(rewrite Hi'; lia) ltac:(rewrite Hi'; lia)) as Hrun.
    rewrite (work_one (client_handler sent_whole uuid) _ _ _ _ Hrun). eexists. split; [reflexivity|].
    split; [exact Efs|]. split; [done|]. intros _. split; [exact Efiles|].
    exists (seq_number msg). by rewrite <- Hi'.
Qed.

Lemma server_reoffer_turn σ u :
  represents σ dir name u -> partial_of c u ->
  exists m, server_turn (encode (buildMsgOffer 1 uuid f)) σ = Ok (σ, encode m) /\
    answered m u.
Proof.
  intros Hrep [Hus Huh _]. pose proof Hok as [Hu Hub Hfn Hs Hnb Hsh Hf Hc Hsz].
  assert (wf_message (buildMsgOffer 1 uuid f)) as Hwf.
  { apply buildMsgOffer_wf; [apply f_sender|apply blake_digest_size|apply blake_digest_bytes]. }
  set (msg := received (buildMsgOffer 1 uuid f) (zlen (enc_body (buildMsgOffer 1 uuid f)))).
  assert (file_name msg = name) as En.
  { unfold msg. cbn [received file_name]. rewrite wire_name_short; cbn; by rewrite Hfn. }
  assert (valid_request msg) as Hv by (constructor; rewrite ?En; done).
  assert (file_size (offer msg) = zlen c) as Es
    by (change (u32 (zlen c) = zlen c); apply wrap_small; split; [lia|exact Hsz]).
  pose proof (request_placed msg Hv) as Hpl. rewrite En in Hpl.
  pose proof (respond_offer_again msg _ _ _ eq_refl Hpl σ u eq_refl (eq_trans Es (eq_sym Hus))
    (eq_sym Huh) Hrep) as Hr.
  pose proof (reply_answers msg _ u Hv eq_refl) as Ha.
  eexists. split; [|by apply (answers_answered msg)].
  unfold server_turn. rewrite deliver_encode by done. cbn [mbind res_bind fmap list_fmap]. fold msg.
  rewrite (work_one (server_handler sent_whole) _ _ _ _ (handleRequest_reply sent_whole msg true _ σ σ [] Hr
    (an_wf _ _ _ Ha) sent_whole_all)). done.
Qed.

(** The client is waiting for the server to store chunk [i]. *)
Record sending (cl : client) (i : Z) : Prop := mk_sending {
  se_fs : cl_fs cl = σc;
  se_files : client_files cl = {[name := f]};
  se_sent : exists seq, cl_sent cl = encode (chunk_message seq uuid f c i) }.

Abbreviation n := (n_chunks (zlen c)).

(** An upload of [c] that is not complete lacks a chunk, and the client can send it. *)
Lemma partial_next u :
  up_ok u -> partial_of c u -> up_complete u = false ->
  up_missing u <> [] /\ 0 <= up_next u < n /\ 0 <= u16 (up_next u) < n.
Proof.
  intros Hu Hp Hc. destruct (up_next_cases u Hu) as [[Hm _]|(Hm & Hr & _)].
  - destruct (partial_end c u Hu Hp Hm). congruence.
  - rewrite (partial_chunks c u Hp) in Hr. split_and!; [done|lia|lia|apply u16_range|].
    pose proof (Z.mod_le (up_next u) (2 ^ 16)). unfold u16, wrap. lia.
Qed.

Lemma partial_turn m u cl :
  answered m u -> up_ok u -> partial_of c u ->
  cl_fs cl = σc -> client_files cl = {[name := f]} ->
  exists cl', client_turn uuid (encode m) cl = Ok cl' /\ cl_fs cl' = σc /\
    (up_missing u = [] -> client_files cl' = ∅ /\ cl_sent cl' = []) /\
    (up_missing u <> [] -> sending cl' (u16 (up_next u))).
Proof.
  intros Ha Hu Hp Efs Efiles.
  destruct (client_answer_turn m u cl Ha Efs Efiles) as (cl' & Hrun & Efs' & Hend & Hmore).
  { intros Hc. apply chunk_inside. by apply partial_next. }
  exists cl'. split; [done|]. split; [done|]. split.
  - intros Hm. apply Hend. by apply (partial_end c u Hu Hp).
  - intros Hm. destruct (Hmore (partial_incomplete u Hm)). by constructor.
Qed.

(** Within 16 bits the answer asks for the first missing chunk. *)
Lemma next_is u i l :
  n <= 65536 -> partial_of c u -> up_missing u = i :: l -> u16 (up_next u) = i.
Proof.
  intros Hn Hp Em. assert (i ∈ up_missing u) as Hi by (rewrite Em; by left).
  apply elem_of_up_missing in Hi as [Hi _]. rewrite (partial_chunks c u Hp) in Hi.
  unfold up_next. rewrite Em. apply wrap_small. lia.
Qed.

(** One round per missing chunk. *)
Lemma rounds_chunks l i σ u cl :
  n <= 65536 -> represents σ dir name u -> partial_of c u -> up_missing u = i :: l ->
  sending cl i ->
  exists σ' u' cl', rounds uuid (S (length l)) σ cl = Ok (σ', cl') /\ client_files cl' = ∅ /\
    represents σ' dir name u' /\ partial_of c u' /\ up_missing u' = [].
Proof.
  intros Hn. revert i σ u cl.
  induction l as [|j l IH]; intros i σ u cl Hrep Hp Hm [Efs Efiles [seq Es]].
  all: assert (i ∈ up_missing u) as Hi by (rewrite Hm; by left).
  all: apply elem_of_up_missing in Hi as [Hi _]; rewrite (partial_chunks c u Hp) in Hi.
  all: pose proof (rp_ok _ _ _ _ Hrep) as Hu.
  all: destruct (server_chunk_turn σ u seq i Hrep ltac:(lia) ltac:(by apply chunk_inside))
    as (σ1 & m & Hsrv & Ha & Hrep1 & _).
  all: pose proof (missing_save c u i _ Hu Hp Hm) as Hm1.
  all: destruct (partial_save c u i Hu Hp Hi) as [Hp1 _].
  all: set (u1 := up_save u i (chunk_of c i)) in *.
  all: destruct (partial_turn m u1 cl Ha (rp_ok _ _ _ _ Hrep1) Hp1 Efs Efiles)
    as (cl1 & Hcl & _ & Hend & Hmore).
  all: cbn [rounds length]; rewrite Es, Hsrv; cbn [mbind res_bind]; rewrite Hcl;
    cbn [mbind res_bind].
  - exists σ1, u1, cl1. split_and!; [done|by apply Hend|done|done|done].
  - apply (IH j σ1 u1 cl1 Hrep1 Hp1 Hm1).
    rewrite <- (next_is u1 j l Hn Hp1 Hm1). apply Hmore. by rewrite Hm1.
Qed.

(** After the answer to the offer. *)
Lemma rounds_after_offer σ m u cl :
  n <= 65536 -> represents σ dir name u -> partial_of c u -> answered m u ->
  cl_fs cl = σc -> client_files cl = {[name := f]} ->
  exists σ' u' cl',
    (cl' ← client_turn uuid (encode m) cl; rounds uuid (length (up_missing u)) σ cl') =
      Ok (σ', cl') /\
    client_files cl' = ∅ /\ represents σ' dir name u' /\ partial_of c u' /\ up_missing u' = [].
Proof.
  intros Hn Hrep Hp Ha Efs Efiles. pose proof (rp_ok _ _ _ _ Hrep) as Hu.
  destruct (partial_turn m u cl Ha Hu Hp Efs Efiles) as (cl1 & Hcl & _ & Hend & Hmore).
  rewrite Hcl. cbn [mbind res_bind]. destruct (up_missing u) as [|i l] eqn:Em.
  - exists σ, u, cl1. split_and!; [done|by apply Hend|done|done|done].
  - apply (rounds_chunks l i σ u cl1); try done.
    rewrite <- (next_is u i l Hn Hp Em). by apply Hmore.
Qed.

(** What holds between any two rounds. *)
Record in_session (σ : fs) (cl : client) (u : upload) : Prop := mk_in_session {
  is_represents : represents σ dir name u;
  is_partial : partial_of c u;
  is_client : (exists i, 0 <= i < n /\ 0 <= i < 2 ^ 16 /\ sending cl i) \/
    (up_complete u = true /\ client_files cl = ∅ /\ cl_sent cl = []) }.

Lemma session_turn σ u m cl :
  represents σ dir name u -> partial_of c u -> answered m u ->
  cl_fs cl = σc -> client_files cl = {[name := f]} ->
  exists cl', client_turn uuid (encode m) cl = Ok cl' /\ in_session σ cl' u.
Proof.
  intros Hrep Hp Ha Efs Efiles. pose proof (rp_ok _ _ _ _ Hrep) as Hu.
  destruct (partial_turn m u cl Ha Hu Hp Efs Efiles) as (cl' & Hcl & _ & Hend & Hmore).
  exists cl'. split; [done|]. constructor; [done|done|].
  destruct (decide (up_missing u = [])) as [Hm|Hm].
  - right. destruct (Hend Hm). split_and!; [by apply (partial_end c u Hu Hp)|done|done].
  - left. exists (u16 (up_next u)).
    destruct (partial_next u Hu Hp (partial_incomplete u Hm)) as (_ & _ & Hr).
    split; [done|]. split; [apply u16_range|]. by apply Hmore.
Qed.

Lemma rounds_session k σ cl u :
  in_session σ cl u ->
  exists σ' cl' u', rounds uuid k σ cl = Ok (σ', cl') /\ in_session σ' cl' u'.
Proof.
  revert σ cl u. induction k as [|k IH]; intros σ cl u [Hrep Hp Hcl].
  { by exists σ, cl, u. }
  cbn [rounds]. destruct Hcl as [(i & Hin & Hi & [Efs Efiles [seq Es]])|(Hc & Efiles & Es)].
  - rewrite Es. destruct (server_chunk_turn σ u seq i Hrep Hi ltac:(by apply chunk_inside))
      as (σ1 & m & Hsrv & Ha & Hrep1 & _).
    destruct (partial_save c u i (rp_ok _ _ _ _ Hrep) Hp Hin) as [Hp1 _].
    rewrite Hsrv. cbn [mbind res_bind].
    destruct (session_turn σ1 _ m cl Hrep1 Hp1 Ha Efs Efiles) as (cl1 & Hcl1 & Hs).
    rewrite Hcl1. cbn [mbind res_bind]. by apply (IH _ _ _ Hs).
  - rewrite Es. unfold server_turn, client_turn. rewrite !deliver_nil. cbn [mbind res_bind fmap list_fmap work mret M_ret].
    rewrite deliver_nil. cbn [mbind res_bind fmap list_fmap work mret M_ret].
    apply (IH _ _ u). constructor; [done|done|]. by right.
Qed.

(** A file with more chunks than 16 bits can count: chunk 65536 is never asked for. *)
Record stuck (σ : fs) (u : upload) : Prop := mk_stuck {
  sk_represents : represents σ dir name u;
  sk_size : up_size u = zlen c;
  sk_marked : forall i, i ∈ up_marked u -> i < 65536 }.

Lemma stuck_incomplete σ u :
  65536 < n -> stuck σ u ->
  up_complete u = false /\ 65536 ∈ up_missing u /\
  0 <= u16 (up_next u) < 65536 /\ u16 (up_next u) * CHUNK_SIZE < zlen c.
Proof.
  intros Hn [Hrep Hs Hm].
  assert (65536 ∈ up_missing u) as Hin.
  { apply elem_of_up_missing. unfold up_chunks. rewrite Hs. split; [lia|].
    intros Hin. apply Hm in Hin. lia. }
  pose proof (u16_range (up_next u)) as Hr. change (2 ^ 16) with 65536 in Hr.
  split_and!; [|done|lia|lia|].
  - unfold up_complete. apply bool_decide_eq_false. intros [Hnil _].
    rewrite Hnil in Hin. by apply not_elem_of_nil in Hin.
  - apply chunk_inside. lia.
Qed.

Lemma stuck_turn σ u m cl :
  65536 < n -> stuck σ u -> answered m u -> cl_fs cl = σc -> client_files cl = {[name := f]} ->
  exists cl' i, client_turn uuid (encode m) cl = Ok cl' /\ 0 <= i < 65536 /\ sending cl' i.
Proof.
  intros Hn Hst Ha Efs Efiles.
  destruct (stuck_incomplete σ u Hn Hst) as (Hcomp & _ & Hr & Hlt).
  destruct (client_answer_turn m u cl Ha Efs Efiles ltac:(done)) as (cl' & Hrun & Efs' & _ & Hs).
  destruct (Hs Hcomp) as [Efiles' Hsent].
  exists cl', (u16 (up_next u)). split; [done|]. split; [lia|]. by constructor.
Qed.

Lemma rounds_stuck k σ u cl i :
  65536 < n -> stuck σ u -> 0 <= i < 65536 -> sending cl i ->
  exists σ' u' cl', rounds uuid k σ cl = Ok (σ', cl') /\ stuck σ' u' /\
    client_files cl' = {[name := f]}.
Proof.
  intros Hn. revert σ u cl i. induction k as [|k IH]; intros σ u cl i Hst Hi [Efs Efiles [seq Es]].
  { by exists σ, u, cl. }
  pose proof Hst as [Hrep Hs Hm]. cbn [rounds]. rewrite Es.
  destruct (server_chunk_turn σ u seq i Hrep ltac:(lia) ltac:(apply chunk_inside; lia))
    as (σ1 & m & Hsrv & Ha & Hrep1 & _).
  rewrite Hsrv. cbn [mbind res_bind]. set (u1 := up_save u i (chunk_of c i)) in *.
  assert (stuck σ1 u1) as Hst1.
  { constructor; [done|by unfold u1, up_save; destruct (decide _)|].
    intros j Hj. unfold u1, up_save in Hj. destruct (decide _); [|by apply Hm].
    cbn in Hj. destruct (decide (i < up_chunks u)); [|by apply Hm].
    apply elem_of_union in Hj as [Hj|Hj]; [|by apply Hm].
    apply elem_of_singleton in Hj as ->. lia. }
  destruct (stuck_turn σ1 u1 m cl Hn Hst1 Ha Efs Efiles) as (cl1 & j & Hcl & Hj & Hsend).
  rewrite Hcl. cbn [mbind res_bind]. by apply (IH σ1 u1 cl1 j).
Qed.

Lemma start_client :
  client_start uuid sent_whole path (mk_client σc ∅ []) =
    (Ok f, mk_client σc {[name := f]} (encode (buildMsgOffer 1 uuid f))).
Proof.
  pose proof Hok as [Hu Hub Hfn Hs Hnb Hsh Hf Hc Hsz].
  destruct (client_start_run uuid sent_whole sent_whole_all σc path c Hf ltac:(lia) Hu Hub)
    as [Hrun _]; [by rewrite Hfn|].
  rewrite Hrun, Hfn. done.
Qed.
End Turns.

(** ** Properties *)
Section Properties.
Context `{Blake2bLaws} `{UuidTextLaws}.
Context (uuid path name c : bytes) (σc : fs) (Hok : transfer_ok uuid path name c σc).
Abbreviation dir := (upload_dir uuid).

Lemma offer_round σ k :
  rounds uuid (S k) σ (snd (client_start uuid sent_whole path (mk_client σc ∅ []))) =
    ('(σ', to_client) ← server_turn (encode (buildMsgOffer 1 uuid
       (mk_file path (calc_hash_vec c) (zlen c) path FileLocal))) σ;
     cl' ← client_turn uuid to_client (snd (client_start uuid sent_whole path
       (mk_client σc ∅ [])));
     rounds uuid k σ' cl').
Proof. cbn [rounds]. by rewrite (start_client uuid path name c σc Hok). Qed.

(** A transfer completes: for a file of at most 65536 chunks, a server that has
    nothing under its name, and a client started on it, after one exchange for the offer
    and one for each chunk the client's uploads are completed and the server holds the
    file: same contents, every chunk marked, in the client's directory. *)
Theorem transfer_completes (σ : fs) :
  n_chunks (zlen c) <= 65536 -> dirs_free σ (Path.resolve dir) ->
  σ !! data_key dir name = None -> σ !! data_key dir (meta_name name) = None ->
  exists f cl0 σ' u' cl',
    client_start uuid sent_whole path (mk_client σc ∅ []) = (Ok f, cl0) /\
    rounds uuid (S (Z.to_nat (n_chunks (zlen c)))) σ cl0 = Ok (σ', cl') /\
    uploadsCompleted cl' = true /\ σ' !! data_key dir name = Some (Reg c) /\
    represents σ' dir name u' /\ up_missing u' = [] /\ up_complete u' = true.
Proof.
  intros Hn Hfree Hd Hm. pose proof (start_client uuid path name c σc Hok) as Hstart.
  destruct (server_offer_turn uuid path name c σc Hok σ Hfree Hd Hm)
    as (σ1 & m & Hsrv & Ha & Hrep & _).
  destruct (rounds_after_offer uuid path name c σc Hok σ1 m _
    (snd (client_start uuid sent_whole path (mk_client σc ∅ []))) Hn Hrep (partial_start c) Ha)
    as (σ' & u' & cl' & Hrun & Hc & Hr & Hp & Hmiss); [by rewrite Hstart|by rewrite Hstart|].
  destruct (partial_end c u' (rp_ok _ _ _ _ Hr) Hp Hmiss) as [Hdata Hcomp].
  eexists _, _, σ', u', cl'. split; [apply Hstart|]. rewrite missing_start in Hrun.
  pose proof (offer_round σ (Z.to_nat (n_chunks (zlen c)))) as Hround.
  rewrite Hsrv in Hround. cbn [mbind res_bind] in Hround. rewrite Hrun, Hstart in Hround.
  split; [exact Hround|]. split; [by apply bool_decide_eq_true|].
  split; [|done]. by rewrite (rp_data _ _ _ _ Hr), Hdata.
Qed.

(** An interrupted transfer resumes, whichever chunks got through: when every chunk
    the server has marked holds the file's bytes (and the others anything), a new start
    of the client completes after one exchange for the offer and one for each missing
    chunk, and the server then holds the file. *)
Theorem transfer_resumes (σ : fs) u :
  n_chunks (zlen c) <= 65536 -> represents σ dir name u -> partial_of c u ->
  exists f cl0 σ' cl',
    client_start uuid sent_whole path (mk_client σc ∅ []) = (Ok f, cl0) /\
    rounds uuid (S (length (up_missing u))) σ cl0 = Ok (σ', cl') /\
    uploadsCompleted cl' = true /\ σ' !! data_key dir name = Some (Reg c).
Proof.
  intros Hn Hrep Hp. pose proof (start_client uuid path name c σc Hok) as Hstart.
  destruct (server_reoffer_turn uuid path name c σc Hok σ u Hrep Hp) as (m & Hsrv & Ha).
  destruct (rounds_after_offer uuid path name c σc Hok σ m u
    (snd (client_start uuid sent_whole path (mk_client σc ∅ []))) Hn Hrep Hp Ha)
    as (σ' & u' & cl' & Hrun & Hc & Hr & Hp' & Hmiss); [by rewrite Hstart|by rewrite Hstart|].
  destruct (partial_end c u' (rp_ok _ _ _ _ Hr) Hp' Hmiss) as [Hdata Hcomp].
  eexists _, _, σ', cl'. split; [apply Hstart|].
  pose proof (offer_round σ (length (up_missing u))) as Hround.
  rewrite Hsrv in Hround. cbn [mbind res_bind] in Hround. rewrite Hrun, Hstart in Hround.
  split; [exact Hround|]. split; [by apply bool_decide_eq_true|].
  by rewrite (rp_data _ _ _ _ Hr), Hdata.
Qed.

(** A transfer is never wrong: from a server without the file or with any part of it,
    after any number of exchanges (so wherever the session is cut), and for a file of any
    size, no exception or undefined behaviour has stopped either side, every chunk marked
    on the server holds the file's bytes, so that the transfer can be resumed; and the
    client takes the upload for completed only when the server holds the whole file. *)
Theorem transfer_safe (σ : fs) u k :
  (dirs_free σ (Path.resolve dir) /\ σ !! data_key dir name = None /\
     σ !! data_key dir (meta_name name) = None) \/
  (represents σ dir name u /\ partial_of c u) ->
  exists f cl0 σ' u' cl',
    client_start uuid sent_whole path (mk_client σc ∅ []) = (Ok f, cl0) /\
    rounds uuid (S k) σ cl0 = Ok (σ', cl') /\
    represents σ' dir name u' /\ partial_of c u' /\
    (uploadsCompleted cl' = true -> σ' !! data_key dir name = Some (Reg c)).
Proof.
  intros Hstate. pose proof (start_client uuid path name c σc Hok) as Hstart.
  assert (exists σ1 u1 m, server_turn (encode (buildMsgOffer 1 uuid
      (mk_file path (calc_hash_vec c) (zlen c) path FileLocal))) σ = Ok (σ1, encode m) /\
      answered uuid name m u1 /\ represents σ1 dir name u1 /\ partial_of c u1)
    as (σ1 & u1 & m & Hsrv & Ha & Hrep & Hp).
  { destruct Hstate as [(Hfree & Hd & Hm)|[Hrep Hp]].
    - destruct (server_offer_turn uuid path name c σc Hok σ Hfree Hd Hm) as (σ1 & m & ? & ? & ? & _).
      exists σ1, (up_start (zlen c) (calc_hash_vec c)), m. split_and!; [done|done|done|apply partial_start].
    - destruct (server_reoffer_turn uuid path name c σc Hok σ u Hrep Hp) as (m & ? & ?).
      by exists σ, u, m. }
  destruct (session_turn uuid path name c σc Hok σ1 u1 m
    (snd (client_start uuid sent_whole path (mk_client σc ∅ []))) Hrep Hp Ha)
    as (cl1 & Hcl & Hs); [by rewrite Hstart|by rewrite Hstart|].
  destruct (rounds_session uuid path name c σc Hok k σ1 cl1 u1 Hs)
    as (σ' & cl' & u' & Hrun & [Hrep' Hp' Hcl']).
  eexists _, _, σ', u', cl'. split; [apply Hstart|].
  pose proof (offer_round σ k) as Hround.
  rewrite Hsrv in Hround. cbn [mbind res_bind] in Hround. rewrite Hcl in Hround.
  cbn [mbind res_bind] in Hround. rewrite Hrun, Hstart in Hround.
  split; [exact Hround|]. split; [done|]. split; [done|]. intros Hdone.
  apply bool_decide_eq_true in Hdone. rewrite (rp_data _ _ _ _ Hrep').
  destruct Hcl' as [(i & _ & _ & [_ Efiles _])|(Hc & _ & _)].
  - rewrite Efiles in Hdone. by apply map_non_empty_singleton in Hdone.
  - apply bool_decide_eq_true in Hc as [Hmiss _].
    by destruct (partial_end c u' (rp_ok _ _ _ _ Hrep') Hp' Hmiss) as [-> _].
Qed.

(** C32: a file of more than 65536 chunks (260046848 bytes) is never transferred, although
    the protocol's sizes allow 4 GB: the server's requests carry 16 bits of the chunk
    index, so after any number of exchanges chunk 65536 is still missing on the server and
    the client's upload is not completed. *)
Theorem large_file_never_completes (σ : fs) k :
  65536 < n_chunks (zlen c) -> dirs_free σ (Path.resolve dir) ->
  σ !! data_key dir name = None -> σ !! data_key dir (meta_name name) = None ->
  exists f cl0 σ' u' cl',
    client_start uuid sent_whole path (mk_client σc ∅ []) = (Ok f, cl0) /\
    rounds uuid (S k) σ cl0 = Ok (σ', cl') /\ uploadsCompleted cl' = false /\
    represents σ' dir name u' /\ 65536 ∈ up_missing u'.
Proof.
  intros Hn Hfree Hd Hm.
  destruct (server_offer_turn uuid path name c σc Hok σ Hfree Hd Hm)
    as (σ1 & m & Hsrv & Ha & Hrep & _).
  set (cl0 := snd (client_start uuid sent_whole path (mk_client σc ∅ []))).
  pose proof (start_client uuid path name c σc Hok) as Hstart.
  assert (stuck uuid name c σ1 (up_start (zlen c) (calc_hash_vec c))) as Hst.
  { constructor; [done|done|]. intros i Hi. cbn in Hi. by apply not_elem_of_empty in Hi. }
  destruct (stuck_turn uuid path name c σc Hok σ1 _ m cl0 Hn Hst Ha)
    as (cl1 & i & Hcl & Hi & Hsend);
    [unfold cl0; by rewrite Hstart|unfold cl0; by rewrite Hstart|].
  destruct (rounds_stuck uuid path name c σc Hok k σ1 _ cl1 i Hn Hst Hi Hsend)
    as (σ' & u' & cl' & Hrun & Hst' & Hfiles).
  eexists _, cl0, σ', u', cl'. split; [unfold cl0; rewrite Hstart; reflexivity|].
  split; [|split; [|split]].
  - cbn [rounds]. assert (cl_sent cl0 = encode (buildMsgOffer 1 uuid
      (mk_file path (calc_hash_vec c) (zlen c) path FileLocal))) as ->
      by (unfold cl0; by rewrite Hstart).
    rewrite Hsrv. cbn [mbind res_bind]. rewrite Hcl. exact Hrun.
  - unfold uploadsCompleted. apply bool_decide_eq_false. rewrite Hfiles.
    apply map_non_empty_singleton.
  - apply Hst'.
  - apply (stuck_incomplete uuid name c σ' u' Hn Hst').
Qed.
End Properties.

(** ** Witnesses *)
Section Witnesses.
Import ToyHash ToyUuid.

Definition home (c : bytes) : fs := {[ Path.resolve sample_path := Reg c ]}.

Lemma sample_transfer c :
  bytes_ok c -> zlen c < 2 ^ 32 ->
  transfer_ok sample_uuid sample_path (str "file.txt") c (home c).
Proof.
  intros Hc Hlen. constructor; first [done | decide_closed].
Qed.

Lemma empty_dirs_free k : dirs_free ∅ k.
Proof. intros q c _. by rewrite lookup_empty. Qed.

(** A file of two chunks, to an empty server. *)
Lemma transfer_completes_witness :
  exists f cl0 σ' cl',
    client_start sample_uuid sent_whole sample_path (mk_client (home sample_content) ∅ []) =
      (Ok f, cl0) /\
    rounds sample_uuid 3 ∅ cl0 = Ok (σ', cl') /\ uploadsCompleted cl' = true /\
    σ' !! data_key (upload_dir sample_uuid) (str "file.txt") = Some (Reg sample_content).
Proof.
  destruct (transfer_completes sample_uuid sample_path (str "file.txt") sample_content
    (home sample_content) (sample_transfer sample_content ltac:(decide_closed)
       ltac:(decide_closed)) ∅ ltac:(decide_closed) (empty_dirs_free _) eq_refl eq_refl)
    as (f & cl0 & σ' & u' & cl' & P1 & P2 & P3 & P4 & _).
  exists f, cl0, σ', cl'. split_and!; [exact P1|exact P2|exact P3|exact P4].
Defined.

(** Three chunks; the first and the last are on the server already. *)
Definition resumed_content : bytes := replicate (Z.to_nat 9000) 65.
Definition resumed_upload : upload :=
  mk_upload 9000 (calc_hash_vec resumed_content)
    (replicate 3968 65 ++ zeros 3968 ++ replicate 1064 65) {[0; 2]}.
Definition resumed_fs : fs := one_upload_fs (str "file.txt") resumed_upload [160].

Lemma resumed_bitmap i :
  0 <= i < 3 -> chunk_bit [160] i = bool_decide (i ∈ up_marked resumed_upload).
Proof. intros. assert (i = 0 \/ i = 1 \/ i = 2) as [-> | [-> | ->]] by lia; vm_compute; reflexivity. Qed.

Lemma resumed_represents :
  represents resumed_fs (upload_dir sample_uuid) (str "file.txt") resumed_upload.
Proof.
  apply one_upload_represents; [vm_compute; discriminate| |].
  - constructor; [decide_closed|vm_compute; reflexivity|vm_compute; reflexivity|].
    intros i Hi. apply elem_of_union in Hi as [Hi|Hi];
      apply elem_of_singleton in Hi as ->; decide_closed.
  - constructor; [vm_compute; reflexivity|decide_closed|]. apply resumed_bitmap.
Qed.

Lemma resumed_partial : partial_of resumed_content resumed_upload.
Proof.
  constructor; [reflexivity|reflexivity|]. intros j Hj. rewrite CHUNK_SIZE_eq in Hj.
  unfold resumed_upload in *. cbn [up_marked up_data] in *. unfold resumed_content.
  apply elem_of_union in Hj as [Hj|Hj]; apply elem_of_singleton in Hj.
  - assert (j < 3968)%nat by zdiv.
    by rewrite lookup_app_l, !lookup_replicate_2 by (rewrite ?length_replicate; lia).
  - assert (Z.to_nat 7936 <= j)%nat by zdiv.
    rewrite !lookup_app_r by (rewrite ?length_replicate; lia). rewrite !length_replicate.
    destruct (decide (j < Z.to_nat 9000)%nat).
    + by rewrite !lookup_replicate_2 by lia.
    + by rewrite !lookup_ge_None_2 by (rewrite length_replicate; lia).
Qed.

Lemma transfer_resumes_witness :
  exists f cl0 σ' cl',
    client_start sample_uuid sent_whole sample_path (mk_client (home resumed_content) ∅ []) =
      (Ok f, cl0) /\
    rounds sample_uuid 2 resumed_fs cl0 = Ok (σ', cl') /\ uploadsCompleted cl' = true /\
    σ' !! data_key (upload_dir sample_uuid) (str "file.txt") = Some (Reg resumed_content).
Proof.
  apply (transfer_resumes sample_uuid sample_path (str "file.txt") resumed_content
    (home resumed_content) (sample_transfer resumed_content ltac:(decide_closed)
       ltac:(decide_closed)) resumed_fs resumed_upload ltac:(decide_closed)
    resumed_represents resumed_partial).
Defined.

(** The same session cut after the offer. *)
Lemma transfer_safe_witness :
  exists f cl0 σ' u' cl',
    client_start sample_uuid sent_whole sample_path (mk_client (home resumed_content) ∅ []) =
      (Ok f, cl0) /\
    rounds sample_uuid 1 resumed_fs cl0 = Ok (σ', cl') /\
    represents σ' (upload_dir sample_uuid) (str "file.txt") u' /\
    partial_of resumed_content u' /\
    (uploadsCompleted cl' = true ->
     σ' !! data_key (upload_dir sample_uuid) (str "file.txt") = Some (Reg resumed_content)).
Proof.
  apply (transfer_safe sample_uuid sample_path (str "file.txt") resumed_content
    (home resumed_content) (sample_transfer resumed_content ltac:(decide_closed)
       ltac:(decide_closed)) resumed_fs resumed_upload 0
    (or_intror (conj resumed_represents resumed_partial))).
Defined.

Definition large_content : bytes := replicate (Z.to_nat 260046849) 65.

Lemma large_length : zlen large_content = 260046849.
Proof. unfold large_content. rewrite length_replicate. apply Z2Nat.id. lia. Qed.

Lemma large_bytes : bytes_ok large_content.
Proof. apply Forall_replicate. unfold is_byte. lia. Qed.

Lemma large_file_never_completes_witness :
  exists f cl0 σ' u' cl',
    client_start sample_uuid sent_whole sample_path (mk_client (home large_content) ∅ []) =
      (Ok f, cl0) /\
    rounds sample_uuid (S 1000) ∅ cl0 = Ok (σ', cl') /\ uploadsCompleted cl' = false /\
    represents σ' (upload_dir sample_uuid) (str "file.txt") u' /\ 65536 ∈ up_missing u'.
Proof.
  assert (65536 < n_chunks (zlen large_content)) as Hn
    by (rewrite large_length; vm_compute; reflexivity).
  assert (zlen large_content < 2 ^ 32) as Hl by (rewrite large_length; lia).
  apply (large_file_never_completes sample_uuid sample_path (str "file.txt") large_content
    (home large_content) (sample_transfer large_content large_bytes Hl) ∅ 1000
    Hn (empty_dirs_free _) eq_refl eq_refl).
Defined.
End Witnesses.
