(* ===== verification/Clients.v ===== *)
(** * Many clients

    Several client processes upload to one server, their exchanges interleaved in any
    order ([run] on a schedule). Each works on two files in the directory of its identity,
    so that they do not disturb each other: every upload progresses as if it were alone. *)
From S2P Require Import Prelude StdFs Msg FileMeta Identity File Upload.
From S2P Require Import MsgFctry Conn Server Client Handler Transfer.
Import FsFacts DirFacts.

(** ** The system *)

(** What a client process is started with: its identity, and the file at [jb_path] on its
    own disk. *)
Record job := mk_job {
  jb_uuid : bytes;
  jb_path : bytes;
  jb_name : bytes;
  jb_content : bytes;
  jb_home : fs }.

(** The server's disk, and the clients with their identities. *)
Record system := mk_system {
  sy_disk : fs;
  sy_clients : list (bytes * client) }.

Section System.
Context `{Blake2b} `{UuidText}.

(** The server reads what the client has sent, and the client the answers. *)
Definition exchange (uuid : bytes) (σ : fs) (cl : client) : res (fs * client) :=
  '(σ', to_client) ← server_turn (cl_sent cl) σ;
  cl' ← client_turn uuid to_client cl;
  Ok (σ', cl').

Definition turn (i : nat) (s : system) : res system :=
  match sy_clients s !! i with
  | Some (uuid, cl) =>
      '(σ', cl') ← exchange uuid (sy_disk s) cl;
      Ok (mk_system σ' (<[i := (uuid, cl')]> (sy_clients s)))
  | None => Ok s
  end.

Fixpoint run (schedule : list nat) (s : system) : res system :=
  match schedule with
  | [] => Ok s
  | i :: schedule' => s' ← turn i s; run schedule' s'
  end.

(** A client that has been started, its offer sent. *)
Definition started (j : job) : client :=
  snd (client_start (jb_uuid j) sent_whole (jb_path j) (mk_client (jb_home j) ∅ [])).

Definition start (σ : fs) (js : list job) : system :=
  mk_system σ ((fun j => (jb_uuid j, started j)) <$> js).
End System.

(** ** Whose files are whose *)
Section Apart.
Context `{UuidTextLaws}.
Implicit Types (j k : job) (σ : fs).

Definition job_dir (j : job) : bytes := upload_dir (jb_uuid j).
Definition job_data (j : job) : list bytes := data_key (job_dir j) (jb_name j).
Definition job_meta (j : job) : list bytes := data_key (job_dir j) (meta_name (jb_name j)).

(** Two jobs of the same identity must not share a file: the metadata of one file may have
    the name of another. *)
Definition apart (j k : job) : Prop :=
  jb_uuid j = jb_uuid k ->
  jb_name j <> jb_name k /\ jb_name j <> meta_name (jb_name k) /\
  jb_name k <> meta_name (jb_name j).

Definition identity_ok (j : job) : Prop :=
  length (jb_uuid j) = UUID_SIZE /\ bytes_ok (jb_uuid j).

Lemma job_dir_key j :
  identity_ok j -> Path.resolve (job_dir j) = [str "in"; to_string (jb_uuid j)].
Proof.
  intros [Hu _]. unfold job_dir, upload_dir. rewrite PathFacts.resolve_simple.
  - reflexivity.
  - apply (bool_decide_unpack _). reflexivity.
  - by apply to_string_simple.
Qed.

Lemma to_string_inj (u v : bytes) :
  length u = UUID_SIZE -> bytes_ok u -> length v = UUID_SIZE -> bytes_ok v ->
  to_string u = to_string v -> u = v.
Proof.
  intros Hu Hub Hv Hvb E. pose proof (read_to_string u Hu Hub) as E1.
  rewrite E, read_to_string in E1 by done. by injection E1.
Qed.

Lemma meta_name_inj (n m : bytes) : meta_name n = meta_name m -> n = m.
Proof. unfold meta_name. intros E. by apply app_inj_1 in E as [_ E]; [apply app_inj_2 in E as [? _]|]. Qed.

(** The keys of the two jobs. *)
Definition job_key (j : job) (q : list bytes) : Prop := q = job_data j \/ q = job_meta j.

Lemma keys_apart j k q :
  identity_ok j -> identity_ok k -> apart j k -> job_key j q -> ~ job_key k q.
Proof.
  intros Hj Hk Ha Hq Hq'. pose proof (job_dir_key j Hj) as Ej. pose proof (job_dir_key k Hk) as Ek.
  unfold job_key, job_data, job_meta, data_key in *. rewrite Ej in Hq. rewrite Ek in Hq'.
  destruct Hj as [Hj Hjb], Hk as [Hk Hkb].
  assert (jb_uuid j = jb_uuid k) as Eu.
  { apply to_string_inj; [done..|]. destruct Hq as [-> | ->], Hq' as [E|E]; by injection E. }
  destruct (Ha Eu) as (H1 & H2 & H3).
  destruct Hq as [-> | ->], Hq' as [E|E];
    apply app_inj_tail in E as [_ E]; try congruence.
  by apply meta_name_inj in E.
Qed.

(** The two directories above them. *)
Lemma job_made j q :
  identity_ok j ->
  made [] (Path.resolve (job_dir j)) q <->
  q = [str "in"] \/ q = [str "in"; to_string (jb_uuid j)].
Proof.
  intros Hj. rewrite (job_dir_key j Hj), !made_cons. cbn [app].
  split; [intros [?|[?|(i & Hi & _)]]; [by left|by right|cbn in Hi; lia]|tauto].
Qed.

Lemma key_not_made j k q :
  identity_ok j -> identity_ok k -> job_key k q -> ~ made [] (Path.resolve (job_dir j)) q.
Proof.
  intros Hj Hk Hq. rewrite (job_made j q Hj). unfold job_key, job_data, job_meta, data_key in Hq.
  rewrite (job_dir_key k Hk) in Hq. by destruct Hq as [-> | ->]; intros [?|?].
Qed.

(** All that the server does for job [j]: its directories, its two files. *)
Record touches (j : job) (σ σ' : fs) : Prop := mk_touches {
  tc_dirs : dirs_exist σ' (Path.resolve (job_dir j));
  tc_else q : ~ made [] (Path.resolve (job_dir j)) q -> ~ job_key j q -> σ' !! q = σ !! q }.

Lemma touches_new j σ σ1 σ' :
  with_dirs σ σ1 (Path.resolve (job_dir j)) -> same_elsewhere (job_dir j) (jb_name j) σ1 σ' ->
  touches j σ σ'.
Proof.
  intros [Hd Ho] Hs. constructor.
  - intros q Hq. rewrite Hs; [by apply Hd| |]; intros ->; by apply made_not_child in Hq.
  - intros q Hq Hk. unfold job_key in Hk. rewrite Hs by tauto. by apply Ho.
Qed.

Lemma touches_same j σ σ' :
  dirs_exist σ (Path.resolve (job_dir j)) -> same_elsewhere (job_dir j) (jb_name j) σ σ' ->
  touches j σ σ'.
Proof. intros Hd. by apply touches_new. Qed.

Section Frame.
Context (j k : job) (σ σ' : fs) (Hj : identity_ok j) (Hk : identity_ok k).
Context (Ha : apart k j) (Ht : touches j σ σ').

Lemma frame_key q : job_key k q -> σ' !! q = σ !! q.
Proof. intros Hq. apply (tc_else _ _ _ Ht); [by apply (key_not_made j k)|by apply (keys_apart k j)]. Qed.

Lemma frame_dirs q :
  made [] (Path.resolve (job_dir k)) q -> σ' !! q = Some Dir \/ σ' !! q = σ !! q.
Proof.
  intros Hq.
  destruct (decide (q = [str "in"] \/ q = [str "in"; to_string (jb_uuid j)])) as [Hm|Hm];
    rewrite <- (job_made j q Hj) in Hm.
  - left. by apply (tc_dirs _ _ _ Ht).
  - right. apply (tc_else _ _ _ Ht); [done|]. intros Hkey. by apply (key_not_made k j) in Hkey.
Qed.

Lemma frame_represents u :
  represents σ (job_dir k) (jb_name k) u -> represents σ' (job_dir k) (jb_name k) u.
Proof.
  intros [Hu Hd Hdata (bm & Hm & Hb)]. constructor; [done| | |].
  - intros q Hq. destruct (frame_dirs q Hq) as [E|E]; [done|]. rewrite E. by apply Hd.
  - fold (job_data k). rewrite frame_key; [done|by left].
  - exists bm. split; [|done]. fold (job_meta k). rewrite frame_key; [done|by right].
Qed.

(** Nothing of the job is on the server yet. *)
Definition fresh (σ : fs) (j : job) : Prop :=
  dirs_free σ (Path.resolve (job_dir j)) /\ σ !! job_data j = None /\ σ !! job_meta j = None.

Lemma frame_fresh : fresh σ k -> fresh σ' k.
Proof.
  intros (Hf & Hd & Hm). split_and!.
  - intros q x Hq. destruct (frame_dirs q Hq) as [E|E]; rewrite E; [done|by apply Hf].
  - rewrite frame_key; [done|by left].
  - rewrite frame_key; [done|by right].
Qed.
End Frame.
End Apart.

(** A message on the other side. *)
Abbreviation arrived m := (received m (zlen (enc_body m))).

(** ** What a client still has to do *)
Section Progress.
Context `{Blake2bLaws} `{UuidTextLaws}.
Implicit Types (j k : job) (σ : fs) (cl : client).

Abbreviation n j := (n_chunks (zlen (jb_content j))).

(** The file object, the client's preconditions, the offer. *)
Definition job_file (j : job) : File :=
  mk_file (jb_path j) (calc_hash_vec (jb_content j)) (zlen (jb_content j)) (jb_path j) FileLocal.

Definition job_ok (j : job) : Prop :=
  transfer_ok (jb_uuid j) (jb_path j) (jb_name j) (jb_content j) (jb_home j) /\ n j <= 65536.

Lemma job_identity j : job_ok j -> identity_ok j.
Proof. intros [[] _]. by split. Qed.

(** The client waits for an answer about chunk [i]. *)
Abbreviation sends j cl i :=
  (sending (jb_uuid j) (jb_path j) (jb_name j) (jb_content j) (jb_home j) cl i).
Abbreviation stored j σ u := (represents σ (job_dir j) (jb_name j) u).

(** After [r] more exchanges the upload is complete. *)
Inductive owes (j : job) : nat -> fs -> client -> Prop :=
| owes_new σ : fresh σ j -> owes j (S (Z.to_nat (n j))) σ (started j)
| owes_old σ u : stored j σ u -> partial_of (jb_content j) u ->
    owes j (S (length (up_missing u))) σ (started j)
| owes_chunk σ u cl i l : stored j σ u -> partial_of (jb_content j) u ->
    up_missing u = i :: l -> sends j cl i -> owes j (S (length l)) σ cl
| owes_nothing σ u cl : stored j σ u -> partial_of (jb_content j) u -> up_missing u = [] ->
    client_files cl = ∅ -> cl_sent cl = [] -> owes j 0 σ cl.

Section One.
Context (j : job) (Hok : job_ok j).

Lemma started_eq :
  started j = mk_client (jb_home j) {[jb_name j := job_file j]}
    (encode (buildMsgOffer 1 (jb_uuid j) (job_file j))).
Proof. unfold started. by rewrite (start_client _ _ _ _ _ (proj1 Hok)). Qed.

(** The client reads the answer about the upload [u]. *)
Lemma owes_answered σ u m cl :
  answered (jb_uuid j) (jb_name j) m u -> stored j σ u -> partial_of (jb_content j) u ->
  cl_fs cl = jb_home j -> client_files cl = {[jb_name j := job_file j]} ->
  exists cl', client_turn (jb_uuid j) (encode m) cl = Ok cl' /\
    owes j (length (up_missing u)) σ cl'.
Proof.
  intros Ha Hrep Hp Efs Efiles. destruct Hok as [Ht Hn].
  destruct (partial_turn _ _ _ _ _ Ht m u cl Ha (rp_ok _ _ _ _ Hrep) Hp Efs Efiles)
    as (cl' & Hcl & _ & Hend & Hmore).
  exists cl'. split; [done|]. destruct (up_missing u) as [|i l] eqn:Em.
  - destruct (Hend eq_refl). by apply (owes_nothing j σ u cl').
  - apply (owes_chunk j σ u cl' i l); [done..|].
    rewrite <- (next_is (jb_content j) u i l Hn Hp Em). by apply Hmore.
Qed.

(** One exchange is one step forward, and touches the files of the job only. *)
Lemma owes_exchange r σ cl :
  owes j r σ cl ->
  exists σ' cl', exchange (jb_uuid j) σ cl = Ok (σ', cl') /\ owes j (pred r) σ' cl' /\
    touches j σ σ'.
Proof.
  pose proof Hok as [Ht Hn]. intros [σ0 (Hf & Hd & Hm)|σ0 u Hrep Hp
    |σ0 u cl0 i l Hrep Hp Em [Efs Efiles [seq Es]]|σ0 u cl0 Hrep Hp Em Efiles Es];
    unfold exchange.
  - destruct (server_offer_turn _ _ _ _ _ Ht σ0 Hf Hd Hm)
      as (σ' & m & Hsrv & Ha & Hrep & σ1 & Hw & Hs).
    destruct (owes_answered σ' _ m (started j) Ha Hrep (partial_start _)) as (cl' & Hcl & Ho);
      [by rewrite started_eq..|].
    rewrite started_eq in *. unfold job_file in *. cbn [cl_sent].
    rewrite Hsrv. cbn [mbind res_bind]. rewrite Hcl. cbn [mbind res_bind].
    exists σ', cl'. split; [done|]. rewrite missing_start in Ho. split; [done|].
    by apply (touches_new j σ0 σ1 σ').
  - destruct (server_reoffer_turn _ _ _ _ _ Ht σ0 u Hrep Hp) as (m & Hsrv & Ha).
    destruct (owes_answered σ0 u m (started j) Ha Hrep Hp) as (cl' & Hcl & Ho);
      [by rewrite started_eq..|].
    rewrite started_eq in *. unfold job_file in *. cbn [cl_sent].
    rewrite Hsrv. cbn [mbind res_bind]. rewrite Hcl. cbn [mbind res_bind].
    exists σ0, cl'. split; [done|]. split; [done|]. by apply touches_same; [apply Hrep|].
  - assert (i ∈ up_missing u) as Hi by (rewrite Em; by left).
    apply elem_of_up_missing in Hi as [Hi _]. rewrite (partial_chunks _ u Hp) in Hi.
    destruct (server_chunk_turn _ _ _ _ _ Ht σ0 u seq i Hrep) as (σ' & m & Hsrv & Ha & Hrep' & Hs);
      [lia|by apply chunk_inside|].
    destruct (partial_save _ u i (rp_ok _ _ _ _ Hrep) Hp Hi) as [Hp' _].
    destruct (owes_answered σ' _ m cl0 Ha Hrep' Hp' Efs Efiles) as (cl' & Hcl & Ho).
    rewrite Es, Hsrv. cbn [mbind res_bind]. rewrite Hcl. cbn [mbind res_bind].
    exists σ', cl'. split; [done|].
    rewrite (missing_save _ u i l (rp_ok _ _ _ _ Hrep) Hp Em) in Ho. split; [done|].
    by apply touches_same; [apply Hrep|].
  - rewrite Es. exists σ0, (mk_client (cl_fs cl0) (client_files cl0) []).
    split; [done|]. split; [by apply (owes_nothing j σ0 u)|]. by apply touches_same; [apply Hrep|].
Qed.

(** The exchanges of others change nothing. *)
Lemma owes_frame k r σ σ' cl :
  job_ok k -> apart j k -> touches k σ σ' -> owes j r σ cl -> owes j r σ' cl.
Proof.
  intros Hk Ha Ht. pose proof (job_identity j Hok) as Hj. apply job_identity in Hk.
  pose proof (frame_represents k j σ σ' Hk Hj Ha Ht) as Hrep. intros Ho. revert Ht Hrep.
  destruct Ho as [σ0 Hf|σ0 u Hr Hp|σ0 u cl0 i l Hr Hp Em Hs|σ0 u cl0 Hr Hp Em Efiles Es];
    intros Ht Hrep.
  - apply owes_new. by apply (frame_fresh k j σ0 σ').
  - apply owes_old; auto.
  - eapply owes_chunk; eauto.
  - eapply owes_nothing; eauto.
Qed.

(** A client that takes its upload for completed is right. *)
Lemma owes_completed r σ cl :
  owes j r σ cl -> uploadsCompleted cl = true ->
  σ !! job_data j = Some (Reg (jb_content j)).
Proof.
  unfold uploadsCompleted. rewrite bool_decide_eq_true.
  intros [σ0 Hf|σ0 u Hr Hp|σ0 u cl0 i l Hr Hp Em [_ Ef _]|σ0 u cl0 Hr Hp Em Ef Es] E;
    try (rewrite started_eq in E; cbn in E; by apply map_non_empty_singleton in E).
  - rewrite Ef in E. by apply map_non_empty_singleton in E.
  - unfold job_data. rewrite (rp_data _ _ _ _ Hr).
    by destruct (partial_end _ u (rp_ok _ _ _ _ Hr) Hp Em) as [-> _].
Qed.

Lemma owes_0 σ cl : owes j 0 σ cl -> uploadsCompleted cl = true.
Proof. inversion 1; subst. by apply bool_decide_eq_true. Qed.
(** What the client sends, as the server gets it. *)
Lemma offer_received :
  let m := buildMsgOffer 1 (jb_uuid j) (job_file j) in
  wf_message m /\ file_name (arrived m) = jb_name j /\ valid_request (arrived m) /\
  file_size (offer (arrived m)) = zlen (jb_content j).
Proof.
  intros m. destruct Hok as [Ht _]. pose proof Ht as [Hu Hub Hfn Hs Hnb Hsh Hf Hc Hsz].
  assert (wf_message m) as Hwf.
  { apply buildMsgOffer_wf; [by apply (f_sender _ _ _ _ _ Ht)|apply blake_digest_size|apply blake_digest_bytes]. }
  assert (file_name (arrived m) = jb_name j) as En
    by (cbn [received file_name]; rewrite wire_name_short; cbn; by rewrite Hfn).
  split_and!; [done|done|by constructor; rewrite ?En|].
  change (u32 (zlen (jb_content j)) = zlen (jb_content j)). apply wrap_small. split; [lia|exact Hsz].
Qed.

Lemma chunk_received seq (i : Z) :
  0 <= i < n_chunks (zlen (jb_content j)) ->
  let m := chunk_message seq (jb_uuid j) (job_file j) (jb_content j) i in
  wf_message m /\ file_name (arrived m) = jb_name j /\ valid_request (arrived m).
Proof.
  intros Hi m. destruct Hok as [Ht Hn]. pose proof Ht as [Hu Hub Hfn Hs Hnb Hsh Hf Hc Hsz].
  assert (wf_message m) as Hwf.
  { apply chunk_message_wf; [by apply (f_sender _ _ _ _ _ Ht)|done|lia|by apply chunk_inside]. }
  assert (file_name (arrived m) = jb_name j) as En
    by (cbn [received file_name]; rewrite wire_name_short; cbn; by rewrite Hfn).
  split_and!; [done|done|by constructor; rewrite ?En].
Qed.

End One.
End Progress.

(** ** Any schedule *)
Section Schedules.
Context `{Blake2bLaws} `{UuidTextLaws}.
Context (js : list job) (Hok : Forall job_ok js).
Context (Hapart : forall i k j j', js !! i = Some j -> js !! k = Some j' -> i <> k -> apart j j').

(** Client [i] owes at most [r i] exchanges. *)
Definition on_track (r : nat -> nat) (s : system) : Prop :=
  length (sy_clients s) = length js /\
  forall i j, js !! i = Some j -> exists cl m,
    sy_clients s !! i = Some (jb_uuid j, cl) /\ owes j m (sy_disk s) cl /\ (m <= r i)%nat.

Lemma turn_on_track (i : nat) r s :
  on_track r s ->
  exists s', turn i s = Ok s' /\ on_track (fun k => r k - (if decide (k = i) then 1 else 0))%nat s'.
Proof.
  intros [Hl Ht]. destruct (js !! i) as [j|] eqn:Ej.
  - assert (job_ok j) as Hj by (by apply (Forall_lookup_1 _ _ _ _ Hok Ej)).
    destruct (Ht i j Ej) as (cl & m & Ecl & Ho & Hm).
    destruct (owes_exchange j Hj _ _ _ Ho) as (σ' & cl' & Hex & Ho' & Htouch).
    unfold turn. rewrite Ecl, Hex. cbn [mbind res_bind]. eexists. split; [reflexivity|].
    split; [cbn; by rewrite length_insert|]. intros k j' Ej'. cbn [sy_clients sy_disk].
    destruct (decide (k = i)) as [-> |Hne].
    + rewrite Ej in Ej'. injection Ej' as <-. exists cl', (pred m).
      rewrite list_lookup_insert_eq by (rewrite Hl; by eapply lookup_lt_Some).
      split_and!; [done|done|lia].
    + destruct (Ht k j' Ej') as (cl2 & m2 & Ecl2 & Ho2 & Hm2). exists cl2, m2.
      rewrite list_lookup_insert_ne by done. split_and!; [done| |lia].
      apply (owes_frame j' (Forall_lookup_1 _ _ _ _ Hok Ej') j _ (sy_disk s)); [done| |done|done].
      by apply (Hapart k i).
  - assert (sy_clients s !! i = None) as E.
    { apply lookup_ge_None_2. rewrite Hl. by apply lookup_ge_None_1. }
    unfold turn. rewrite E. exists s. split; [done|]. split; [done|]. intros k j Ek.
    destruct (decide (k = i)) as [-> |_]; [congruence|].
    destruct (Ht k j Ek) as (cl & m & ? & ? & ?). exists cl, m. split_and!; [done|done|lia].
Qed.

Lemma run_on_track (schedule : list nat) r s :
  on_track r s ->
  exists s', run schedule s = Ok s' /\
    on_track (fun k => r k - count_occ Nat.eq_dec schedule k)%nat s'.
Proof.
  revert r s. induction schedule as [|i schedule IH]; intros r s Ht.
  { exists s. split; [done|]. destruct Ht as [Hl Ht]. split; [done|]. intros k j Ej.
    rewrite Nat.sub_0_r. by apply Ht. }
  destruct (turn_on_track i r s Ht) as (s1 & Hrun & Ht1).
  destruct (IH _ _ Ht1) as (s' & Hrun' & Hl & Ht').
  exists s'. cbn [run]. rewrite Hrun. split; [exact Hrun'|]. split; [done|]. intros k j Ej.
  destruct (Ht' k j Ej) as (cl & m & Ecl & Ho & Hm). exists cl, m. split_and!; [done|done|].
  cbn [count_occ]. destruct (Nat.eq_dec i k), (decide (k = i)); try lia; by subst.
Qed.

(** The server's disk before the clients start: nothing of a job, or an upload of it that
    was interrupted. *)
Definition may_start (σ : fs) (j : job) : Prop :=
  fresh σ j \/ exists u, represents σ (job_dir j) (jb_name j) u /\ partial_of (jb_content j) u.

(** One exchange for the offer and one for each chunk. *)
Definition exchanges (j : job) : nat := S (Z.to_nat (n_chunks (zlen (jb_content j)))).

Lemma start_on_track (σ : fs) :
  Forall (may_start σ) js -> on_track (fun i => from_option exchanges 0%nat (js !! i)) (start σ js).
Proof.
  intros Hs. split; [cbn; by rewrite length_fmap|]. intros i j Ej. exists (started j).
  unfold start. cbn [sy_clients sy_disk]. rewrite list_lookup_fmap, Ej. cbn [fmap option_fmap
    option_map from_option].
  destruct (Forall_lookup_1 _ _ _ _ Hs Ej) as [Hf|(u & Hrep & Hp)].
  - eexists. split_and!; [done|by apply owes_new|done].
  - eexists. split_and!; [done|by apply (owes_old j σ u)|]. apply le_n_S. unfold up_missing.
    rewrite <- (partial_chunks _ u Hp), <- (length_seqZ 0). apply length_filter.
Qed.

(** Clients do not disturb each other: whatever number of clients upload to one server,
    each from nothing or from an interrupted upload, to files of their own ([apart]), and
    however their exchanges are interleaved, the run never stops on an exception or
    undefined behaviour; at its end a client whose uploads are completed has its whole
    file on the server, and every client that had an exchange for its offer and one for
    each chunk has completed. *)
Theorem clients_complete (σ : fs) (schedule : list nat) :
  Forall (may_start σ) js ->
  exists s', run schedule (start σ js) = Ok s' /\
    forall i j, js !! i = Some j -> exists cl,
      sy_clients s' !! i = Some (jb_uuid j, cl) /\
      (uploadsCompleted cl = true -> sy_disk s' !! job_data j = Some (Reg (jb_content j))) /\
      ((exchanges j <= count_occ Nat.eq_dec schedule i)%nat -> uploadsCompleted cl = true).
Proof.
  intros Hs. destruct (run_on_track schedule _ _ (start_on_track σ Hs)) as (s' & Hrun & _ & Ht).
  exists s'. split; [done|]. intros i j Ej. destruct (Ht i j Ej) as (cl & m & Ecl & Ho & Hm).
  pose proof (Forall_lookup_1 _ _ _ _ Hok Ej) as Hj. rewrite Ej in Hm. cbn [from_option] in Hm.
  exists cl. split; [done|]. split; [by apply (owes_completed j Hj m)|].
  intros Hc. apply (owes_0 j (sy_disk s')). by replace 0%nat with m by lia.
Qed.
End Schedules.

(** ** Witnesses *)
Section Witnesses.
Import ToyHash ToyUuid.

Definition job_of (uuid c : bytes) : job :=
  mk_job uuid sample_path (str "file.txt") c (home c).

Lemma job_of_ok uuid c :
  length uuid = UUID_SIZE -> bytes_ok uuid -> bytes_ok c -> zlen c <= 5000 -> job_ok (job_of uuid c).
Proof.
  intros Hu Hub Hc Hl. split.
  - change (transfer_ok uuid sample_path (str "file.txt") c (home c)).
    assert (zlen c < 2 ^ 32) by lia. constructor; first [done | decide_closed].
  - change (n_chunks (zlen c) <= 65536). pose proof (n_chunks_bounds (zlen c) ltac:(lia)) as Hn. rewrite CHUNK_SIZE_eq in Hn. lia.
Qed.

Lemma apart_pair (a b : job) :
  jb_uuid a <> jb_uuid b ->
  forall (i k : nat) (j j' : job), [a; b] !! i = Some j -> [a; b] !! k = Some j' -> i <> k ->
    apart j j'.
Proof.
  intros Hne i k j j' Ei Ek Hik E.
  destruct i as [|[|i]], k as [|[|k]]; cbn in Ei, Ek; rewrite ?lookup_nil in *;
    try (done || congruence).
Qed.

(** Two clients with a file of the same name, of two chunks and of one, on an empty server;
    their exchanges alternate. *)
Lemma clients_complete_witness :
  let a := job_of sample_uuid (replicate 5000 65) in
  let b := job_of sample_id (replicate 100 66) in
  exists s', run [0; 1; 0; 1; 0]%nat (start ∅ [a; b]) = Ok s' /\
    sy_disk s' !! job_data a = Some (Reg (replicate 5000 65)) /\
    sy_disk s' !! job_data b = Some (Reg (replicate 100 66)).
Proof.
  intros a b. destruct (clients_complete [a; b]) with (σ := (∅ : fs)) (schedule := [0; 1; 0; 1; 0]%nat)
    as (s' & Hrun & Hall).
  - apply Forall_cons_2; [|apply Forall_cons_2; [|constructor]];
      (apply job_of_ok; [done|decide_closed|decide_closed|done]).
  - apply apart_pair. vm_compute. discriminate.
  - assert (forall j, fresh ∅ j) as Hf by (split; [apply empty_dirs_free|done]).
    apply Forall_cons_2; [|apply Forall_cons_2; [|constructor]]; left; apply Hf.
  - exists s'. split; [exact Hrun|]. split.
    + destruct (Hall 0%nat a eq_refl) as (cl & _ & H1 & H2). apply H1, H2. vm_compute. lia.
    + destruct (Hall 1%nat b eq_refl) as (cl & _ & H1 & H2). apply H1, H2. vm_compute. lia.
Defined.
End Witnesses.
