(* ===== verification/Workers.v ===== *)
(** * The server's workers at the same time

    The request broker of src/request/ft_req_brkr.cpp runs up to 16 handlers at once, on one
    disk. Here their system calls ([Calls]) are interleaved in any order: handlers of
    requests about different files do not notice each other, which is what allows
    [Transfer] and [Clients] to run one handler at a time. Two requests about the same
    file are another matter, see [FileMeta]. *)
From S2P Require Import Prelude StdFs Msg FileMeta Identity File Upload.
From S2P Require Import Conn Server Calls Transfer Clients.
Import FsFacts DirFacts.

Implicit Types (σ : fs) (q k : list bytes) (st : stream).

(** ** Threads *)
Section Threads.
Context {A : Type}.

(** One call of a program; an exception or undefined behaviour ends it. *)
Definition step_call (p : prog A) (σ : fs) : prog A * fs :=
  match p with
  | Done r => (Done r, σ)
  | Call c k =>
      match sem c σ with
      | (Ok x, σ') => (k x, σ')
      | (Throw e, σ') => (Done (Throw e), σ')
      | (Undef, σ') => (Done Undef, σ')
      end
  end.

(** [n] calls of a program that has the disk to itself. *)
Fixpoint solo (n : nat) (p : prog A) (σ : fs) : prog A * fs :=
  match n with
  | O => (p, σ)
  | S n' => let (p', σ') := step_call p σ in solo n' p' σ'
  end.

(** Threads on one disk: the schedule says whose call comes next. *)
Fixpoint interleave (schedule : list nat) (ts : list (prog A)) (σ : fs) :
    list (prog A) * fs :=
  match schedule with
  | [] => (ts, σ)
  | i :: schedule' =>
      match ts !! i with
      | Some p => let (p', σ') := step_call p σ in interleave schedule' (<[i := p']> ts) σ'
      | None => interleave schedule' ts σ
      end
  end.

Lemma solo_done (n : nat) (r : res A) (σ : fs) : solo n (Done r) σ = (Done r, σ).
Proof. induction n; [done|]. cbn. done. Qed.

Lemma length_interleave (schedule : list nat) (ts : list (prog A)) (σ : fs) :
  length (fst (interleave schedule ts σ)) = length ts.
Proof.
  revert ts σ. induction schedule as [|i schedule IH]; intros ts σ; [done|]. cbn [interleave].
  destruct (ts !! i) as [p|]; [|apply IH]. destruct (step_call p σ) as [p' σ'].
  by rewrite IH, length_insert.
Qed.

Lemma interleave_app (s1 s2 : list nat) (ts : list (prog A)) (σ : fs) :
  interleave (s1 ++ s2) ts σ =
  interleave s2 (fst (interleave s1 ts σ)) (snd (interleave s1 ts σ)).
Proof.
  revert ts σ. induction s1 as [|i s1 IH]; intros ts σ; [done|]. cbn [app interleave].
  destruct (ts !! i) as [p|]; [|apply IH]. destruct (step_call p σ) as [p' σ']. apply IH.
Qed.

(** One thread only. *)
Lemma interleave_solo (n i : nat) (ts : list (prog A)) (p : prog A) (σ : fs) :
  ts !! i = Some p ->
  interleave (replicate n i) ts σ = (<[i := fst (solo n p σ)]> ts, snd (solo n p σ)).
Proof.
  revert ts p σ. induction n as [|n IH]; intros ts p σ E; cbn [replicate interleave solo].
  { cbn. by rewrite list_insert_id. }
  rewrite E. destruct (step_call p σ) as [p' σ'].
  rewrite (IH _ p') by (apply list_lookup_insert_eq; by eapply lookup_lt_Some).
  by rewrite list_insert_insert_eq.
Qed.

(** A turn of one of them. *)
Lemma interleave_turn (n i : nat) (schedule : list nat) (ts : list (prog A)) (p q : prog A) (σ σ1 : fs) :
  ts !! i = Some p -> solo n p σ = (q, σ1) ->
  interleave (replicate n i ++ schedule) ts σ = interleave schedule (<[i := q]> ts) σ1.
Proof. intros E Es. by rewrite interleave_app, (interleave_solo n i ts p σ E), Es. Qed.

Lemma solo_S (n : nat) (p : prog A) (σ : fs) :
  solo (S n) p σ = step_call (fst (solo n p σ)) (snd (solo n p σ)).
Proof.
  revert p σ. induction n as [|n IH]; intros p σ; [by cbn; destruct (step_call p σ)|].
  change (solo (S (S n)) p σ) with (let (p', σ') := step_call p σ in solo (S n) p' σ').
  cbn [solo]. destruct (step_call p σ) as [p' σ']. apply IH.
Qed.

(** Enough calls end the program with its result. *)
Lemma solo_exec (p : prog A) (σ : fs) :
  exists n, forall m, (n <= m)%nat -> solo m p σ = (Done (fst (exec p σ)), snd (exec p σ)).
Proof.
  revert σ. induction p as [r|X c k IH]; intros σ.
  - exists 0%nat. intros m _. apply solo_done.
  - cbn [exec]. unfold mbind, M_bind. destruct (sem c σ) as [[x|e|] σ'] eqn:E.
    1: destruct (IH x σ') as [n Hn].
    all: exists (S n) || exists 1%nat; intros [|m] Hm; [lia|]; cbn [solo step_call]; rewrite E;
      first [apply Hn; lia | apply solo_done].
Qed.
End Threads.

(** ** What belongs to a thread *)
Section Footprint.
Context (own dir : list bytes -> Prop) (Hown : forall k, own k -> k <> [] /\ ~ dir k).

(** The disk [σ] as the thread sees it that would be at [σs] if it were alone: others
    may have made directories that it shares. *)
Record view (σs σ : fs) : Prop := mk_view {
  vw_own : forall q, own q -> σ !! q = σs !! q;
  vw_dir : forall q, dir q -> σ !! q = σs !! q \/ (σs !! q = None /\ σ !! q = Some Dir) }.

(** What a call of the thread may change, where it would be at [σs'] alone. *)
Definition inside (σ σ' σs' : fs) : Prop :=
  forall q, ~ own q ->
    σ' !! q = σ !! q \/
    (dir q /\ σ !! q = None /\ σ' !! q = Some Dir /\ σs' !! q = Some Dir).

Definition mine (st : stream) : Prop := forall k, st_file st = Some k -> own k.

(** The calls the thread may make. *)
Definition fits {X : Set} (c : call X) (σ : fs) : Prop :=
  match c with
  | Exists p | OpenExisting p | Length p => own (Path.resolve p)
  | Mkdir k => dir k
  | OpenTrunc p =>
      let k := Path.resolve p in
      let parent := take (length k - 1) k in
      own k /\ Fs.stat σ parent = Some Dir /\ (parent = [] \/ dir parent)
  | Read st _ | Write st _ => mine st
  end.

Lemma view_refl (σ : fs) : view σ σ.
Proof. constructor; auto. Qed.

Lemma inside_refl (σ σs : fs) : inside σ σ σs.
Proof. intros q. auto. Qed.

Lemma view_insert (σs σ : fs) k (x : node) : own k -> view σs σ -> view (<[k := x]> σs) (<[k := x]> σ).
Proof.
  intros Hk [H1 H2]. constructor; intros q Hq.
  - destruct (decide (q = k)) as [-> |]; [by rewrite !lookup_insert_eq|].
    rewrite !lookup_insert_ne by done. auto.
  - rewrite !lookup_insert_ne by (intros ->; by destruct (Hown q Hk)). auto.
Qed.

Lemma inside_insert (σ σs : fs) k (x : node) : own k -> inside σ (<[k := x]> σ) σs.
Proof.
  intros Hk q Hq. left. apply lookup_insert_ne. by intros ->.
Qed.

Lemma view_stat (σs σ : fs) k : view σs σ -> own k -> Fs.stat σ k = Fs.stat σs k.
Proof. intros Hv Hk. destruct k; [done|]. by apply (vw_own _ _ Hv). Qed.

Lemma view_content (σs σ : fs) k :
  view σs σ -> own k -> Stream.content σ k = Stream.content σs k.
Proof. intros Hv Hk. unfold Stream.content. by rewrite (vw_own _ _ Hv). Qed.

(** A call has the same result for the thread as if it were alone. *)
Record alike {X : Set} (c : call X) (σs σ : fs) : Prop := mk_alike {
  al_result : fst (sem c σ) = fst (sem c σs);
  al_view : view (snd (sem c σs)) (snd (sem c σ));
  al_inside : inside σ (snd (sem c σ)) (snd (sem c σs)) }.

Lemma mkdir_alike k (σs σ : fs) : view σs σ -> dir k -> alike (Mkdir k) σs σ.
Proof.
  intros Hv Hk.
  assert (forall σ1, σ !! k = None -> σ1 !! k = Some Dir -> inside σ (<[k := Dir]> σ) σ1) as Hin.
  { intros σ1 E E1 q _. destruct (decide (q = k)) as [-> |]; [right; by rewrite lookup_insert_eq|].
    left. by apply lookup_insert_ne. }
  assert (forall q, own q -> q <> k) as Hne by (intros q Hq ->; by destruct (Hown k Hq)).
  pose proof (vw_dir _ _ Hv k Hk) as Hd.
  unshelve econstructor; cbn [sem]; unfold mkdir.
  - destruct Hd as [-> |[-> ->]]; [by destruct (σs !! k) as [[]|]|done].
  - destruct Hv as [H1 H2], Hd as [E|[E1 E2]].
    + rewrite E. destruct (σs !! k) as [[|c]|] eqn:Es; [done..|]. constructor; intros q Hq; cbn.
      * rewrite !lookup_insert_ne by (apply not_eq_sym, Hne, Hq). auto.
      * destruct (decide (q = k)) as [-> |]; [left; by rewrite !lookup_insert_eq|].
        rewrite !lookup_insert_ne by done. auto.
    + rewrite E1, E2. constructor; intros q Hq; cbn.
      * rewrite lookup_insert_ne by (apply not_eq_sym, Hne, Hq). auto.
      * destruct (decide (q = k)) as [-> |]; [left; by rewrite lookup_insert_eq|].
        rewrite lookup_insert_ne by done. auto.
  - destruct (σ !! k) as [[|c]|] eqn:E; [apply inside_refl..|]. apply Hin; [done|].
    destruct Hd as [Es|[_ ?]]; [|done]. rewrite <- Es. apply lookup_insert_eq.
Qed.

Lemma open_trunc_alike (p : bytes) (σs σ : fs) :
  view σs σ -> fits (OpenTrunc p) σs -> alike (OpenTrunc p) σs σ.
Proof.
  intros Hv (Hk & Hd & Hp). cbn [fits] in *. set (k := Path.resolve p) in *.
  assert (Fs.stat σ (take (length k - 1) k) = Some Dir) as Hd'.
  { destruct Hp as [E|Hp]; [by rewrite E|]. revert Hd. unfold Fs.stat.
    destruct (take (length k - 1) k) as [|c l] eqn:E; [done|].
    destruct (vw_dir _ _ Hv _ Hp) as [-> |[_ ->]]; done. }
  pose proof (view_stat _ _ _ Hv Hk) as Es.
  unshelve econstructor; cbn [sem]; unfold Stream.open_trunc; fold k; rewrite ?Hd, Hd', Es;
    destruct (Fs.stat σs k) as [[|c]|];
    first [done | by apply view_insert | apply inside_refl | by apply inside_insert].
Qed.

Lemma stream_alike {X : Set} (c : call X) (σs σ : fs) :
  view σs σ -> fits c σs ->
  match c with Read _ _ | Write _ _ => alike c σs σ | _ => True end.
Proof.
  intros Hv. destruct c as [| | | |st n|st d|]; try done; cbn [fits]; intros Hm.
  - unshelve econstructor; cbn [sem]; unfold Stream.read; destruct (st_file st) as [k|] eqn:E;
      try done; try (destruct (Stream.good st)); try done; try apply inside_refl.
    by rewrite (view_content σs σ) by auto.
  - unshelve econstructor; cbn [sem]; unfold Stream.write; destruct (st_file st) as [k|] eqn:E;
      try done; try (destruct (Stream.good st)); try done; try apply inside_refl.
    + rewrite (view_content σs σ) by auto. apply view_insert; auto.
    + apply inside_insert; auto.
Qed.

Lemma call_alike {X : Set} (c : call X) (σs σ : fs) :
  view σs σ -> fits c σs -> alike c σs σ.
Proof.
  intros Hv Hf. pose proof (stream_alike c σs σ Hv Hf) as Hs.
  destruct c as [p|k|p|p|st n|st d|p]; try done.
  - unshelve econstructor; cbn; [by rewrite (view_stat σs σ)|done|apply inside_refl].
  - by apply mkdir_alike.
  - unshelve econstructor; cbn; [by rewrite (view_stat σs σ)|done|apply inside_refl].
  - by apply open_trunc_alike.
  - unshelve econstructor; cbn; [by rewrite (view_content σs σ)|done|apply inside_refl].
Qed.

(** *** Programs that stay with what is theirs *)

(** Run alone from [σ], [p] makes calls that fit only, and ends with [Q]. *)
Fixpoint fine {A : Type} (p : prog A) (Q : A -> fs -> Prop) (σ : fs) : Prop :=
  match p with
  | Done (Ok a) => Q a σ
  | Done _ => True
  | Call c k =>
      fits c σ /\ match sem c σ with (Ok x, σ') => fine (k x) Q σ' | _ => True end
  end.

Lemma fine_mono {A : Type} (p : prog A) (Q R : A -> fs -> Prop) (σ : fs) :
  fine p Q σ -> (forall a σ', Q a σ' -> R a σ') -> fine p R σ.
Proof.
  intros Hp HQ. revert σ Hp. induction p as [[a|e|]|X c k IH]; intros σ Hp; cbn in *; auto.
  destruct Hp as [Hf Hp]. split; [done|]. destruct (sem c σ) as [[x|e|] σ']; auto.
Qed.

Lemma fine_bind {A B : Type} (p : prog A) (f : A -> prog B) (Q : A -> fs -> Prop)
    (R : B -> fs -> Prop) (σ : fs) :
  fine p Q σ -> (forall a σ', Q a σ' -> fine (f a) R σ') -> fine (p ≫= f) R σ.
Proof.
  intros Hp Hf. revert σ Hp. induction p as [[a|e|]|X c k IH]; intros σ Hp; cbn in *; auto.
  destruct Hp as [Hc Hp]. split; [done|]. destruct (sem c σ) as [[x|e|] σ']; auto.
Qed.

Lemma fine_done {A : Type} (r : res A) (Q : A -> fs -> Prop) (σ : fs) :
  (forall a, r = Ok a -> Q a σ) -> fine (Done r) Q σ.
Proof. intros H. destruct r as [a|e|]; [by apply H|done..]. Qed.

Lemma fine_do {X : Set} (c : call X) (Q : X -> fs -> Prop) (σ : fs) :
  fits c σ -> (forall x σ', sem c σ = (Ok x, σ') -> Q x σ') -> fine (do c) Q σ.
Proof.
  intros Hc HQ. split; [done|]. destruct (sem c σ) as [[x|e|] σ'] eqn:E; [|done..].
  by apply HQ.
Qed.

(** Directories stay. *)
Lemma call_keeps {X : Set} (c : call X) (σ : fs) (q : list bytes) :
  fits c σ -> dir q -> σ !! q = Some Dir -> snd (sem c σ) !! q = Some Dir.
Proof.
  intros Hc Hq E. destruct (al_inside _ _ _ (call_alike c σ σ (view_refl σ) Hc) q)
    as [-> |(_ & _ & -> & _)]; [|done..].
  intros Ho. by destruct (Hown q Ho).
Qed.

Lemma fine_keeps {A : Type} (S : list bytes -> Prop) (p : prog A) (Q : A -> fs -> Prop) (σ : fs) :
  (forall q, S q -> dir q) -> (forall q, S q -> σ !! q = Some Dir) -> fine p Q σ ->
  fine p (fun a σ' => Q a σ' /\ forall q, S q -> σ' !! q = Some Dir) σ.
Proof.
  intros HS. revert σ. induction p as [[a|e|]|X c k IH]; intros σ E Hp; cbn in *; auto.
  destruct Hp as [Hc Hp]. split; [done|].
  pose proof (fun q Hq => call_keeps c σ q Hc (HS q Hq) (E q Hq)) as E'.
  destruct (sem c σ) as [[x|e|] σ']; [|done..]. by apply IH.
Qed.

(** *** One thread among others *)
Lemma step_fine {A : Type} (p : prog A) (Q : A -> fs -> Prop) (σ : fs) :
  fine p Q σ -> fine (fst (step_call p σ)) Q (snd (step_call p σ)).
Proof.
  destruct p as [r|X c k]; [done|]. intros [_ H]. cbn [step_call].
  by destruct (sem c σ) as [[x|e|] σ'].
Qed.

Lemma step_keeps {A : Type} (p : prog A) (Q : A -> fs -> Prop) (σ : fs) (q : list bytes) :
  fine p Q σ -> dir q -> σ !! q = Some Dir -> snd (step_call p σ) !! q = Some Dir.
Proof.
  destruct p as [r|X c k]; [done|]. intros [Hc _] Hq E. cbn [step_call].
  pose proof (call_keeps c σ q Hc Hq E). by destruct (sem c σ) as [[x|e|] σ'].
Qed.

Lemma step_view {A : Type} (p : prog A) (Q : A -> fs -> Prop) (σs σ : fs) :
  fine p Q σs -> view σs σ ->
  fst (step_call p σ) = fst (step_call p σs) /\
  view (snd (step_call p σs)) (snd (step_call p σ)) /\
  inside σ (snd (step_call p σ)) (snd (step_call p σs)).
Proof.
  intros Hp Hv. destruct p as [r|X c k]; [split; [done|]; split; [done|apply inside_refl]|].
  destruct Hp as [Hc _]. destruct (call_alike c σs σ Hv Hc) as [Hr Hv' Hi]. cbn [step_call].
  destruct (sem c σ) as [r σ1], (sem c σs) as [r2 σ2]. cbn in Hr, Hv', Hi. subst r2.
  by destruct r.
Qed.
End Footprint.

(** What one thread does, another one with a footprint of its own does not see. *)
Lemma unseen (own1 dir1 own2 dir2 : list bytes -> Prop) (σs σ σ' σ1 : fs) :
  (forall q, own1 q -> ~ own2 q /\ ~ dir2 q) -> (forall q, own2 q -> ~ own1 q /\ ~ dir1 q) ->
  view own1 dir1 σs σ -> inside own2 dir2 σ σ' σ1 -> view own1 dir1 σs σ'.
Proof.
  intros H12 H21 [H1 H2] Hin. constructor; intros q Hq.
  - destruct (H12 q Hq). rewrite <- (H1 q Hq). destruct (Hin q) as [E|(? & _)]; done.
  - assert (~ own2 q) as Hq2 by (intros Ho; by apply (H21 q Ho)).
    destruct (H2 q Hq) as [<- |[E1 E2]], (Hin q Hq2) as [-> |(_ & E3 & E4 & _)]; auto.
Qed.

(** ** Threads with footprints of their own *)
Section Isolation.
Context {A : Type} (own dir : nat -> list bytes -> Prop) (Q : nat -> A -> fs -> Prop).
Context (Hown : forall i k, own i k -> k <> [] /\ ~ dir i k).
Context (Hapart : forall i j k, i <> j -> own i k -> ~ own j k /\ ~ dir j k).

(** What thread [j] does, thread [i] does not see. *)
Lemma others_unseen (i j : nat) (σs σ σ' σ1 : fs) :
  i <> j -> view (own i) (dir i) σs σ -> inside (own j) (dir j) σ σ' σ1 ->
  view (own i) (dir i) σs σ'.
Proof.
  intros Hij. apply unseen; intros k; [by apply Hapart|by apply Hapart, not_eq_sym].
Qed.

(** All threads are where they would be alone since the disk was [σ0]; what belongs to none
    of them is as it was, or a directory that one of them has made. *)
Record isolated (σ0 : fs) (alone : list (prog A * fs)) (ts : list (prog A)) (σ : fs) : Prop :=
  mk_isolated {
  is_progs : ts = fst <$> alone;
  is_alone : forall i p σs, alone !! i = Some (p, σs) ->
    fine (own i) (dir i) p (Q i) σs /\ view (own i) (dir i) σs σ;
  is_else : forall q, (forall i, ~ own i q) ->
    σ !! q = σ0 !! q \/
    exists i p σs, alone !! i = Some (p, σs) /\ dir i q /\ σ0 !! q = None /\ σs !! q = Some Dir }.

Definition advance (i : nat) (alone : list (prog A * fs)) : list (prog A * fs) :=
  alter (fun c => step_call (fst c) (snd c)) i alone.

Lemma advance_eq (i : nat) (alone : list (prog A * fs)) (p : prog A) (σs : fs) :
  alone !! i = Some (p, σs) -> advance i alone !! i = Some (step_call p σs).
Proof. intros E. unfold advance. by rewrite list_lookup_alter_eq, E. Qed.

Lemma advance_ne (i j : nat) (alone : list (prog A * fs)) :
  i <> j -> advance i alone !! j = alone !! j.
Proof. apply list_lookup_alter_ne. Qed.

Lemma isolated_step (σ0 : fs) (alone : list (prog A * fs)) (ts : list (prog A)) (σ : fs)
    (i : nat) (p : prog A) :
  isolated σ0 alone ts σ -> ts !! i = Some p ->
  isolated σ0 (advance i alone) (<[i := fst (step_call p σ)]> ts) (snd (step_call p σ)).
Proof.
  intros [-> Hall Helse] Hp. rewrite list_lookup_fmap in Hp.
  destruct (alone !! i) as [[p1 σs]|] eqn:E; [|done]. injection Hp as ->.
  destruct (Hall i p σs E) as [Hf Hv].
  destruct (step_view (own i) (dir i) (Hown i) p (Q i) σs σ Hf Hv) as (Er & Hv' & Hin).
  pose proof (advance_eq i alone p σs E) as Ei. constructor.
  - apply list_eq. intros j. rewrite list_lookup_fmap.
    destruct (decide (j = i)) as [-> |Hne].
    + rewrite Ei. cbn. rewrite <- Er.
      apply list_lookup_insert_eq. rewrite length_fmap. by eapply lookup_lt_Some.
    + rewrite advance_ne, list_lookup_insert_ne by done. apply list_lookup_fmap.
  - intros j q σj. destruct (decide (j = i)) as [-> |Hne].
    + rewrite Ei. intros [= E1].
      replace q with (fst (step_call p σs)) by (by rewrite E1).
      replace σj with (snd (step_call p σs)) by (by rewrite E1).
      split; [by apply step_fine|done].
    + rewrite advance_ne by done. intros Ej. destruct (Hall j q σj Ej) as [Hfj Hvj].
      split; [done|]. by apply (others_unseen j i _ σ _ _ Hne Hvj Hin).
  - intros q Hn. destruct (Hin q (Hn i)) as [-> |(Hd & En & _ & Es)].
    + destruct (Helse q Hn) as [E0|(j & pj & σj & Ej & Hd & E0 & Es)]; [by left|]. right.
      destruct (decide (j = i)) as [-> |Hne].
      * rewrite E in Ej. injection Ej as <- <-. exists i, (fst (step_call p σs)), (snd (step_call p σs)).
        split; [by rewrite Ei; destruct (step_call p σs)|].
        split_and!; [done|done|]. by apply (step_keeps (own i) (dir i) (Hown i) p (Q i)).
      * exists j, pj, σj. by rewrite advance_ne.
    + right. exists i, (fst (step_call p σs)), (snd (step_call p σs)).
      split; [by rewrite Ei; destruct (step_call p σs)|]. split_and!; [done| |done].
      destruct (Helse q Hn) as [<- |(j & pj & σj & Ej & Hdj & E0 & _)]; done.
Qed.

(** A thread that is given [n] turns makes its first [n] calls as if it were alone. *)
Lemma interleave_isolated (schedule : list nat) (σ0 : fs) (alone : list (prog A * fs))
    (ts : list (prog A)) (σ : fs) :
  isolated σ0 alone ts σ ->
  exists alone',
    isolated σ0 alone' (fst (interleave schedule ts σ)) (snd (interleave schedule ts σ)) /\
    forall i, alone' !! i =
      (fun c => solo (count_occ Nat.eq_dec schedule i) (fst c) (snd c)) <$> alone !! i.
Proof.
  revert alone ts σ. induction schedule as [|i schedule IH]; intros alone ts σ Hi; cbn [interleave].
  { exists alone. split; [done|]. intros i. cbn. by destruct (alone !! i) as [[p σs]|]. }
  destruct (ts !! i) as [p|] eqn:Ep.
  - pose proof (isolated_step σ0 alone ts σ i p Hi Ep) as Hi1.
    destruct (step_call p σ) as [p1 σ1]. cbn [fst snd] in *.
    destruct (IH _ _ _ Hi1) as (alone' & Hi' & Hl). exists alone'. split; [done|].
    intros j. rewrite Hl. cbn [count_occ]. destruct (Nat.eq_dec i j) as [-> |Hne].
    + destruct (alone !! j) as [[q σs]|] eqn:E.
      * rewrite (advance_eq j alone q σs E). cbn. by destruct (step_call q σs).
      * unfold advance. by rewrite list_lookup_alter_eq, E.
    + by rewrite advance_ne.
  - destruct (IH _ _ _ Hi) as (alone' & Hi' & Hl). exists alone'. split; [done|].
    intros j. rewrite Hl. cbn [count_occ]. destruct (Nat.eq_dec i j) as [-> |]; [|done].
    rewrite (is_progs _ _ _ _ Hi), list_lookup_fmap in Ep. by destruct (alone !! j).
Qed.
End Isolation.

(** ** The footprint of a request *)

(** The directories above the files of a job. *)
Definition job_dirs `{UuidText} (j : job) : list bytes -> Prop := made [] (Path.resolve (job_dir j)).

Section Request.
Context `{Blake2b} `{UuidTextLaws} (msg : Message) (Hv : valid_request msg).

(** Whose file it is about. *)
Definition owner : job := mk_job (client_uuid msg) [] (file_name msg) [] ∅.

Definition own_key : list bytes -> Prop := job_key owner.
Definition dir_key : list bytes -> Prop := job_dirs owner.

Abbreviation e := (Path.append SERVER_BASE_PATH (request_path msg)).
Abbreviation fine_here := (fine own_key dir_key).
Abbreviation ready σ := (dirs_exist σ (Path.resolve (job_dir owner))).

Lemma owner_placed : placed e (job_dir owner) (file_name msg).
Proof. exact (request_placed msg Hv). Qed.

Lemma own_key_ok k : own_key k -> k <> [] /\ ~ dir_key k.
Proof.
  intros [-> | ->]; unfold job_data, job_meta, data_key;
    (split; [apply child_ne|apply made_not_child]).
Qed.
#[local] Hint Resolve own_key_ok : core.

Lemma own_data : own_key (Path.resolve e).
Proof. left. by rewrite (placed_key _ _ _ owner_placed). Qed.

Lemma own_meta : own_key (Path.resolve (metadata_path e)).
Proof. right. by rewrite (placed_meta_key _ _ _ owner_placed). Qed.

(** *** The calls *)
Abbreviation mine_here := (mine own_key).

Lemma mine_failed : mine_here Stream.failed.
Proof. by intros k. Qed.

Lemma mine_file st st' : st_file st' = st_file st -> mine_here st -> mine_here st'.
Proof. intros E Hm k. rewrite E. apply Hm. Qed.

Lemma mine_seekg st off : mine_here st -> mine_here (Stream.seekg st off).
Proof.
  apply mine_file. unfold Stream.seekg, Stream.seek_to. cbn.
  destruct (st_fail st); [done|]. by destruct (_ <? 0).
Qed.

Lemma mine_seekp st off : mine_here st -> mine_here (Stream.seekp st off).
Proof.
  apply mine_file. unfold Stream.seekp, Stream.seek_to.
  destruct (st_fail st); [done|]. by destruct (_ <? 0).
Qed.
#[local] Hint Resolve mine_seekg mine_seekp : core.

Lemma fine_exists (p : bytes) (σ : fs) :
  own_key (Path.resolve p) -> fine_here (do (Exists p)) (fun _ _ => True) σ.
Proof. intros. by apply fine_do. Qed.

Lemma fine_length (p : bytes) (σ : fs) :
  own_key (Path.resolve p) -> fine_here (do (Length p)) (fun _ _ => True) σ.
Proof. intros. by apply fine_do. Qed.

Lemma fine_open (p : bytes) (σ : fs) :
  own_key (Path.resolve p) -> fine_here (do (OpenExisting p)) (fun st _ => mine_here st) σ.
Proof.
  intros Ho. apply fine_do; [done|]. intros st σ' [= <- _].
  destruct (Fs.stat σ _) as [[|c]|]; [apply mine_failed| |apply mine_failed].
  intros k [= <-]. done.
Qed.

Lemma fine_read st (n : Z) (σ : fs) :
  mine_here st -> fine_here (do (Read st n)) (fun r _ => mine_here (snd r)) σ.
Proof.
  intros Hm. apply fine_do; [done|]. intros [got st'] σ'. cbn [sem]. unfold Stream.read.
  destruct (st_file st) as [k|] eqn:E; [destruct (Stream.good st)|]; intros [= _ <- _];
    intros k' Hk'; apply Hm; by rewrite E.
Qed.

Lemma fine_write st (data : bytes) (σ : fs) :
  mine_here st -> fine_here (do (Write st data)) (fun st' _ => mine_here st') σ.
Proof.
  intros Hm. apply fine_do; [done|]. intros st' σ'. cbn [sem]. unfold Stream.write.
  destruct (st_file st) as [k|] eqn:E; [destruct (Stream.good st)|]; intros [= <- _];
    intros k' Hk'; apply Hm; by rewrite ?E in *.
Qed.

Lemma fine_create (p : bytes) (n : bytes) (σ : fs) :
  Path.resolve p = data_key (job_dir owner) n -> own_key (Path.resolve p) -> ready σ ->
  fine_here (do (OpenTrunc p)) (fun st _ => mine_here st) σ.
Proof.
  intros Ep Ho Hd. apply fine_do.
  - split; [done|]. rewrite Ep. unfold data_key. rewrite child_parent.
    split; [by apply dirs_exist_stat|]. unfold dir_key, job_dirs. destruct (Path.resolve (job_dir owner)) as [|c l] eqn:E;
      [by left|]. right. exists (length l). split; [cbn; lia|]. cbn. by rewrite take_ge.
  - intros st σ'. cbn [sem]. unfold Stream.open_trunc.
    destruct (Fs.stat σ _) as [[]|]; [destruct (Fs.stat σ _) as [[]|]|..];
      intros [= <- _]; intros k [= <-]; done.
Qed.

(** Directories, once made, stay. *)
Lemma fine_ready {A B : Type} (p : prog A) (f : A -> prog B) (Q : A -> fs -> Prop)
    (R : B -> fs -> Prop) (σ : fs) :
  ready σ -> fine_here p Q σ ->
  (forall a σ', ready σ' -> Q a σ' -> fine_here (f a) R σ') -> fine_here (p ≫= f) R σ.
Proof.
  intros Hd Hp Hf. eapply fine_bind.
  - apply (fine_keeps own_key dir_key own_key_ok dir_key); [done|exact Hd|exact Hp].
  - cbn. intros a σ' [HQ Hd']. by apply Hf.
Qed.

(** *** The functions *)
Lemma fine_make_dirs (k rest : list bytes) (σ : fs) :
  (forall q, made k rest q -> dir_key q) ->
  fine_here (make_dirs_calls k rest) (fun _ σ' => forall q, made k rest q -> σ' !! q = Some Dir) σ.
Proof.
  revert k σ. induction rest as [|c rest IH]; intros k σ Hd; cbn [make_dirs_calls].
  { intros q (i & Hi & _). cbn in Hi. lia. }
  assert (dir_key (k ++ [c])) as Hk by (apply Hd, made_cons; by left).
  assert (forall q, made (k ++ [c]) rest q -> dir_key q) as Hr
    by (intros q Hq; apply Hd, made_cons; by right).
  apply (fine_bind _ _ _ _ (fun _ σ' => σ' !! (k ++ [c]) = Some Dir)).
  { apply fine_do; [done|]. intros [] σ'. cbn [sem]. unfold mkdir.
    destruct (σ !! (k ++ [c])) as [[|d]|] eqn:E; [|done|]; intros [= <-]; [done|].
    apply lookup_insert_eq. }
  intros _ σ1 E. eapply fine_mono.
  - apply (fine_keeps own_key dir_key own_key_ok (eq (k ++ [c]))); [by intros ? <-..|].
    by apply IH.
  - cbn. intros _ σ' [Hrest Hfirst] q. rewrite made_cons. intros [-> |Hq]; auto.
Qed.

Lemma fine_create_directories (p : bytes) (σ : fs) :
  p = job_dir owner -> fine_here (create_directories_calls p) (fun _ σ' => ready σ') σ.
Proof.
  intros ->. unfold create_directories_calls.
  destruct (job_dir owner) as [|c l] eqn:E; [done|]. rewrite <- E. by apply fine_make_dirs.
Qed.

Lemma fine_write_bitmap (n : nat) st (σ : fs) :
  mine_here st -> fine_here (write_bitmap_calls n st) (fun _ _ => True) σ.
Proof.
  revert st σ. induction n as [|n IH]; intros st σ Hm; [done|]. cbn [write_bitmap_calls].
  eapply fine_bind; [by apply fine_write|]. intros st' σ' Hm'. by apply IH.
Qed.

(** A file on the server: both its paths are the owner's. *)
Definition meta_in (fm : FileMetadata) : Prop :=
  fm_effective_path fm = e /\ fm_metadata_file fm = metadata_path e.
Definition file_in (f : File) : Prop :=
  f_effective_path f = e /\ forall fm, f_kind f = FileRemote fm -> meta_in fm.

Lemma meta_in_key fm : meta_in fm -> own_key (Path.resolve (fm_metadata_file fm)).
Proof. intros [_ ->]. apply own_meta. Qed.

Lemma file_in_key f : file_in f -> own_key (Path.resolve (f_effective_path f)).
Proof. intros [-> _]. apply own_data. Qed.
Lemma fine_pure {A : Type} (r : res A) (σ : fs) : fine_here (Done r) (fun _ _ => True) σ.
Proof. by apply fine_done. Qed.
#[local] Hint Resolve meta_in_key file_in_key fine_pure fine_exists fine_length fine_open fine_read
  fine_write fine_write_bitmap : core.

(** One call after the other, where nothing has to be known of the disk. *)
Ltac calls :=
  repeat match goal with
    | |- fine _ _ (if ?b then _ else _) _ _ => destruct b
    | |- fine _ _ (mret _) _ _ => cbn [fine mret prog_ret]
    | |- fine _ _ (Done _) _ _ => apply fine_done; intros
    | |- fine _ _ (_ ≫= _) _ _ => eapply fine_bind; [solve [eauto]|cbv beta; intros ? ? ?]
    | |- fine _ _ (let '(_, _) := ?r in _) _ _ => destruct r; cbn [snd] in *
    | |- fine _ _ (let _ := _ in _) _ _ => cbv zeta
    | |- True => exact I
    end.

Lemma fine_createIfNotExist (fm : FileMetadata) (σ : fs) :
  meta_in fm -> fine_here (createIfNotExist_calls fm) (fun _ σ' => ready σ') σ.
Proof.
  intros [Ee Em]. unfold createIfNotExist_calls. rewrite Ee, Em.
  eapply fine_bind; [apply fine_create_directories, (placed_parent _ _ _ owner_placed)|].
  cbv beta; intros _ σ1 Hd.
  apply (fine_mono _ _ _ (fun _ σ' => True /\ ready σ')); [|by intros ? ? []].
  apply (fine_keeps own_key dir_key own_key_ok dir_key); [done|exact Hd|].
  eapply fine_ready; [exact Hd|apply fine_exists, own_meta|]. cbv beta; intros found σ2 Hd2 _.
  destruct found; [done|].
  eapply fine_bind; [apply (fine_create _ (meta_name (file_name msg)))|];
    [apply (placed_meta_key _ _ _ owner_placed)|apply own_meta|exact Hd2|].
  cbv beta; intros ms σ3 Hm. calls.
Qed.

Lemma fine_new_FileRemote (p hash : bytes) (size : Z) (σ : fs) :
  fine_here (new_FileRemote_calls p hash size e) (fun f _ => file_in f) σ.
Proof.
  unfold new_FileRemote_calls.
  apply (fine_bind _ _ _ _ (fun fm _ => meta_in fm)).
  { apply fine_done. intros fm. unfold new_FileMetadata. destruct (_ =? _); [done|].
    by intros [= <-]. }
  cbv beta; intros fm σ1 Hfm.
  eapply fine_bind; [apply fine_create_directories, (placed_parent _ _ _ owner_placed)|].
  cbv beta; intros _ σ2 _. eapply fine_bind; [by apply fine_createIfNotExist|].
  cbv beta; intros _ σ3 Hd. eapply fine_ready; [exact Hd|apply fine_exists, own_data|].
  cbv beta; intros found σ4 Hd4 _. apply (fine_bind _ _ _ _ (fun _ _ => True)).
  - destruct found; [done|].
    eapply fine_bind; [apply (fine_create _ (file_name msg))|];
      [apply (placed_key _ _ _ owner_placed)|apply own_data|exact Hd4|].
    cbv beta; intros os σ5 Hm. calls.
  - cbv beta; intros _ σ5 _. calls. split; [done|]. by intros fm' [= <-].
Qed.

Lemma fine_makeRemoteFile (p : bytes) (σ : fs) :
  Path.append SERVER_BASE_PATH p = e ->
  fine_here (makeRemoteFile_calls SERVER_BASE_PATH p)
    (fun r _ => match r with Some f => file_in f | None => True end) σ.
Proof.
  intros Ep. unfold makeRemoteFile_calls, readHeader_calls. rewrite Ep.
  apply (fine_bind _ _ _ _ (fun _ _ => True)).
  - eapply fine_bind; [apply fine_exists, own_meta|]. cbv beta; intros found σ1 _.
    destruct found; [|done].
    eapply fine_bind; [apply fine_open, own_meta|]. cbv beta; intros ms σ2 Hm. calls.
  - intros [[fsize csize] hash] σ1 _. destruct (0 <? csize); [|done].
    eapply fine_bind; [apply fine_new_FileRemote|]. cbv beta; intros f σ2 Hf. done.
Qed.

Lemma fine_nextMissingChunk (fm : FileMetadata) (i : Z) (σ : fs) :
  meta_in fm -> fine_here (nextMissingChunk_calls fm i) (fun _ _ => True) σ.
Proof.
  intros Hfm. unfold nextMissingChunk_calls.
  eapply fine_bind; [eauto|]. cbv beta; intros ms σ1 Hm. cbv zeta.
  eapply fine_bind; [eauto|]. cbv beta; intros len σ2 _.
  apply (fine_bind _ _ _ _ (fun _ _ => True)).
  - apply (mine_seekg ms (u64 (fm_header_size fm + i / 8))) in Hm. revert Hm.
    generalize (Stream.seekg ms (u64 (fm_header_size fm + i / 8))), 0xFF, σ2.
    induction (len + 2)%nat as [|fuel IH]; intros st b σ3 Hm; cbn [skip_full_calls];
      destruct (_ && _); try done.
    eapply fine_bind; [by apply fine_read|]. intros [got st'] σ4 Hm'. by apply IH.
  - intros [b st] σ3 _. by destruct (negb _).
Qed.

Lemma fine_calc_hash (p : bytes) (σ : fs) :
  own_key (Path.resolve p) -> fine_here (calc_hash_calls p) (fun _ _ => True) σ.
Proof.
  intros Hp. unfold calc_hash_calls.
  eapply fine_bind; [eauto|]. cbv beta; intros st σ1 Hm. eapply fine_bind; [eauto|]. cbv beta; intros len σ2 _.
  apply (fine_bind _ _ _ _ (fun _ _ => True)); [|done].
  apply (mine_seekg st 0) in Hm. revert Hm. generalize (Stream.seekg st 0), blake_init, σ2.
  induction (len + 2)%nat as [|fuel IH]; intros st' s σ3 Hm; cbn [hash_blocks_calls]; [done|].
  eapply fine_bind; [by apply fine_read|]. intros [got st2] σ4 Hm'. cbv zeta.
  destruct (st_fail st2); [done|by apply IH].
Qed.

Lemma fine_isComplete (f : File) (σ : fs) :
  file_in f -> fine_here (isComplete_calls f) (fun _ _ => True) σ.
Proof.
  intros Hf. unfold isComplete_calls. destruct (f_kind f) as [|fm] eqn:Ek; [done|].
  eapply fine_bind; [eauto|]. cbv beta; intros found σ1 _. destruct found; [|done].
  eapply fine_bind; [by apply fine_nextMissingChunk, Hf|]. cbv beta; intros next σ2 _.
  destruct (next =? UINT64_MAX); [|done].
  eapply fine_bind; [apply fine_calc_hash; auto|]. cbv beta; intros h σ3 _. by destruct (_ <? _).
Qed.

Lemma fine_saveChunk (f : File) (ch : FileChunk) (σ : fs) :
  file_in f -> fine_here (saveChunk_calls f ch) (fun _ _ => True) σ.
Proof.
  intros Hf. unfold saveChunk_calls. destruct (f_kind f) as [|fm] eqn:Ek; [done|].
  assert (meta_in fm) as Hfm by (by apply Hf). cbv zeta.
  destruct (_ <? _); [done|]. destruct (negb _); [done|].
  eapply fine_bind; [eauto|]. cbv beta; intros os σ1 Hm. eapply fine_bind; [eauto|]. intros os' σ2 _.
  unfold markChunk_calls. eapply fine_bind; [eauto|]. cbv beta; intros ms σ3 Hms. cbv zeta.
  eapply fine_bind; [eauto|]. intros [got ms'] σ4 Hms'. cbn [snd] in Hms'.
  eapply fine_bind; [eauto|]. done.
Qed.

Lemma fine_answer (f : File) (σ : fs) :
  file_in f -> fine_here (answer_calls msg f) (fun _ _ => True) σ.
Proof.
  intros Hf. unfold answer_calls. eapply fine_bind; [by apply fine_isComplete|].
  cbv beta; intros complete σ1 _. destruct complete; [done|].
  apply (fine_bind _ _ _ _ (fun _ _ => True)); [|done].
  unfold getNextMissingChunk_calls. destruct (f_kind f) as [|fm] eqn:Ek; [done|].
  by apply fine_nextMissingChunk, Hf.
Qed.

Lemma fine_respond (σ : fs) : fine_here (respond_calls msg) (fun _ _ => True) σ.
Proof.
  unfold respond_calls. cbv zeta. destruct (msg_type msg =? MSGTYPE_FILE_OFFER).
  { eapply fine_bind; [apply fine_new_FileRemote|]. cbv beta; intros f σ1 Hf.
    eapply fine_bind; [by apply fine_answer|]. done. }
  destruct (msg_type msg =? MSGTYPE_FILE_CHUNK_DATA); [|done].
  eapply fine_bind; [by apply fine_makeRemoteFile|]. intros [f|] σ1 Hf; [|done].
  eapply fine_bind; [by apply fine_saveChunk|]. cbv beta; intros _ σ2 _.
  eapply fine_bind; [by apply fine_answer|]. done.
Qed.
End Request.

(** ** Workers on requests about different files *)
Section Workers.
Context `{Blake2b} `{UuidTextLaws} (msgs : list Message) (Hvalid : Forall valid_request msgs).
Context (Hapart : forall i j m m', msgs !! i = Some m -> msgs !! j = Some m' -> i <> j ->
  apart (owner m) (owner m')).

(** The footprint of the [i]-th worker. *)
Definition own_of (i : nat) (q : list bytes) : Prop :=
  exists m, msgs !! i = Some m /\ own_key m q.
Definition dir_of (i : nat) (q : list bytes) : Prop :=
  exists m, msgs !! i = Some m /\ dir_key m q.

Lemma valid_at (i : nat) (m : Message) : msgs !! i = Some m -> valid_request m.
Proof. by apply Forall_lookup_1. Qed.

Lemma owner_ok (m : Message) : valid_request m -> identity_ok (owner m).
Proof. intros []. by split. Qed.

Lemma own_of_ok (i : nat) q : own_of i q -> q <> [] /\ ~ dir_of i q.
Proof.
  intros (m & Em & Ho). destruct (own_key_ok m q Ho) as [Hne Hd]. split; [done|].
  intros (m' & Em' & Hd'). rewrite Em in Em'. by injection Em' as <-.
Qed.

Lemma own_of_apart (i j : nat) q : i <> j -> own_of i q -> ~ own_of j q /\ ~ dir_of j q.
Proof.
  intros Hij (m & Em & Ho). pose proof (valid_at i m Em) as Hm. split.
  - intros (m' & Em' & Ho'). pose proof (valid_at j m' Em') as Hm'.
    by apply (keys_apart (owner m) (owner m') q (owner_ok m Hm) (owner_ok m' Hm')
      (Hapart i j m m' Em Em' Hij) Ho).
  - intros (m' & Em' & Hd). pose proof (valid_at j m' Em') as Hm'.
    by apply (key_not_made (owner m') (owner m) q (owner_ok m' Hm') (owner_ok m Hm) Ho).
Qed.

(** The footprint of a worker is the one of its request. *)
Lemma own_of_iff (i : nat) (m : Message) q : msgs !! i = Some m -> own_of i q <-> own_key m q.
Proof.
  intros Em. split; [|by exists m]. intros (m' & Em' & Ho). rewrite Em in Em'.
  by injection Em' as <-.
Qed.

Lemma dir_of_iff (i : nat) (m : Message) q : msgs !! i = Some m -> dir_of i q <-> dir_key m q.
Proof.
  intros Em. split; [|by exists m]. intros (m' & Em' & Ho). rewrite Em in Em'.
  by injection Em' as <-.
Qed.

Lemma fits_of {X : Set} (i : nat) (m : Message) (c : call X) (σ : fs) :
  msgs !! i = Some m -> fits (own_key m) (dir_key m) c σ -> fits (own_of i) (dir_of i) c σ.
Proof.
  intros Em. pose proof (fun q => proj2 (own_of_iff i m q Em)) as Ho.
  pose proof (fun q => proj2 (dir_of_iff i m q Em)) as Hd.
  destruct c; cbn; unfold mine; intuition auto.
Qed.

Lemma fine_of {A : Type} (i : nat) (m : Message) (p : prog A) (Q : A -> fs -> Prop) (σ : fs) :
  msgs !! i = Some m -> fine (own_key m) (dir_key m) p Q σ -> fine (own_of i) (dir_of i) p Q σ.
Proof.
  intros Em. revert σ. induction p as [[a|e|]|X c k IH]; intros σ; cbn; [done..|].
  intros [Hc Hp]. split; [by apply (fits_of i m)|]. destruct (sem c σ) as [[x|e|] σ']; auto.
Qed.

Lemma view_of (i : nat) (m : Message) (σs σ : fs) :
  msgs !! i = Some m -> view (own_of i) (dir_of i) σs σ -> view (own_key m) (dir_key m) σs σ.
Proof.
  intros Em [Ho Hd]. constructor; intros q Hq.
  - apply Ho. by apply (own_of_iff i m).
  - apply Hd. by apply (dir_of_iff i m).
Qed.

(** All workers, interrupted anywhere. *)
Lemma workers_run (σ : fs) (schedule : list nat) :
  let alone m i := solo (count_occ Nat.eq_dec schedule i) (respond_calls m) σ in
  let ts := fst (interleave schedule (respond_calls <$> msgs) σ) in
  let σ' := snd (interleave schedule (respond_calls <$> msgs) σ) in
  length ts = length msgs /\
  (forall i m, msgs !! i = Some m ->
     ts !! i = Some (fst (alone m i)) /\ view (own_key m) (dir_key m) (snd (alone m i)) σ') /\
  forall q, (forall i m, msgs !! i = Some m -> ~ own_key m q) ->
    σ' !! q = σ !! q \/
    exists i m, msgs !! i = Some m /\ dir_key m q /\ σ !! q = None /\
      snd (alone m i) !! q = Some Dir.
Proof.
  set (Q := fun (_ : nat) (_ : option Message) (_ : fs) => True).
  assert (isolated own_of dir_of Q σ ((fun m => (respond_calls m, σ)) <$> msgs)
    (respond_calls <$> msgs) σ) as Hstart.
  { constructor; [by rewrite <- list_fmap_compose| |by left]. intros i p σs E.
    rewrite list_lookup_fmap in E. destruct (msgs !! i) as [m|] eqn:Em; [|done].
    injection E as <- <-. split; [|apply view_refl].
    apply (fine_of i m _ _ _ Em). apply fine_respond, (valid_at i m Em). }
  destruct (interleave_isolated own_of dir_of Q own_of_ok own_of_apart schedule σ _ _ σ Hstart)
    as (alone & [Ets Hall Helse] & Hsolo).
  assert (forall i m, msgs !! i = Some m -> alone !! i =
    Some (solo (count_occ Nat.eq_dec schedule i) (respond_calls m) σ)) as Ei
    by (intros i m Em; by rewrite Hsolo, list_lookup_fmap, Em).
  assert (forall i p σs, alone !! i = Some (p, σs) -> exists m, msgs !! i = Some m /\
    (p, σs) = solo (count_occ Nat.eq_dec schedule i) (respond_calls m) σ) as Hm.
  { intros i p σs E. rewrite Hsolo, list_lookup_fmap in E.
    destruct (msgs !! i) as [m|]; [|done]. exists m. by injection E. }
  cbv zeta. split; [|split].
  - by rewrite length_interleave, length_fmap.
  - intros i m Em. split; [by rewrite Ets, list_lookup_fmap, (Ei i m Em)|].
    pose proof (Ei i m Em) as E. destruct (solo _ _ _) as [p σs].
    by apply (view_of i m), (Hall i p σs E).
  - intros q Hq. destruct (Helse q) as [E|(i & p & σs & E & (m & Em & Hd) & E0 & Es)].
    + intros i (m & Em & Ho). by apply (Hq i m).
    + by left.
    + right. exists i, m. destruct (Hm i p σs E) as (m' & Em' & Esolo).
      rewrite Em in Em'. injection Em' as <-. rewrite <- Esolo. done.
Qed.

(** Enough turns for every worker to finish. *)
Lemma enough_turns (l : list Message) (σ : fs) :
  exists n, forall m (k : nat), m ∈ l -> (n <= k)%nat ->
    solo k (respond_calls m) σ = (Done (fst (respond m σ)), snd (respond m σ)).
Proof.
  induction l as [|m l [n IH]].
  { exists 0%nat. intros m k Hm. by apply elem_of_nil in Hm. }
  destruct (solo_exec (respond_calls m) σ) as [n1 Hn1]. exists (n + n1)%nat.
  intros m' k [-> |Hm]%list.elem_of_cons Hk.
  - rewrite Hn1 by lia. by rewrite run_respond_calls.
  - apply IH; [done|lia].
Qed.

(** Every worker gets at least [n] turns. *)
Definition turns (n : nat) (schedule : list nat) : Prop :=
  forall i, (i < length msgs)%nat -> (n <= count_occ Nat.eq_dec schedule i)%nat.

(** The state of the disk [σ'] that all workers leave. *)
Record finished (σ σ' : fs) : Prop := mk_finished {
  fi_view : forall i m, msgs !! i = Some m ->
    view (own_key m) (dir_key m) (snd (respond m σ)) σ';
  fi_else : forall q, (forall i m, msgs !! i = Some m -> ~ own_key m q) ->
    σ' !! q = σ !! q \/
    exists i m, msgs !! i = Some m /\ dir_key m q /\ σ !! q = None /\
      snd (respond m σ) !! q = Some Dir }.

Lemma workers_done (σ : fs) :
  exists n, forall schedule, turns n schedule ->
    fst (interleave schedule (respond_calls <$> msgs) σ) =
      (fun m => Done (fst (respond m σ))) <$> msgs /\
    finished σ (snd (interleave schedule (respond_calls <$> msgs) σ)).
Proof.
  destruct (enough_turns msgs σ) as [n Hn]. exists n. intros schedule Hc.
  destruct (workers_run σ schedule) as (Hl & Hall & Helse).
  assert (forall i m, msgs !! i = Some m ->
    solo (count_occ Nat.eq_dec schedule i) (respond_calls m) σ =
      (Done (fst (respond m σ)), snd (respond m σ))) as Hsolo.
  { intros i m Em. apply Hn; [by eapply list_elem_of_lookup_2|].
    apply Hc. by eapply lookup_lt_Some. }
  split; [|constructor].
  - apply list_eq_same_length with (n := length msgs); [by rewrite length_fmap|done|].
    intros i p1 p2 Hi E1 E2. destruct (lookup_lt_is_Some_2 msgs i Hi) as [m Em].
    destruct (Hall i m Em) as [E _]. rewrite (Hsolo i m Em) in E.
    rewrite list_lookup_fmap, Em in E2. cbn in E, E2. congruence.
  - intros i m Em. destruct (Hall i m Em) as [_ Hv]. by rewrite (Hsolo i m Em) in Hv.
  - intros q Hq. destruct (Helse q Hq) as [E|(i & m & Em & Hd & E0 & E)]; [by left|].
    right. exists i, m. by rewrite (Hsolo i m Em) in E.
Qed.

#[local] Instance own_key_dec m q : Decision (own_key m q).
Proof. unfold own_key, job_key. apply _. Defined.

(** There is only one such state. *)
Lemma finished_unique (σ σ1 σ2 : fs) : finished σ σ1 -> finished σ σ2 -> σ1 = σ2.
Proof.
  assert (forall σ1 σ2 q, finished σ σ1 -> finished σ σ2 ->
    (exists i m, msgs !! i = Some m /\ dir_key m q /\ σ !! q = None /\
      snd (respond m σ) !! q = Some Dir) -> σ1 !! q = σ2 !! q) as Hmade.
  { intros σa σb q Ha Hb (i & m & Em & Hd & _ & E).
    destruct (vw_dir _ _ _ _ (fi_view _ _ Ha i m Em) q Hd) as [-> |[_ ->]],
      (vw_dir _ _ _ _ (fi_view _ _ Hb i m Em) q Hd) as [-> |[_ ->]]; congruence. }
  intros F1 F2. apply map_eq. intros q.
  destruct (decide (List.Exists (fun m => own_key m q) msgs)) as [Ho|Ho].
  - apply list.Exists_exists in Ho as (m & [i Em]%list_elem_of_lookup & Ho).
    by rewrite (vw_own _ _ _ _ (fi_view _ _ F1 i m Em) q Ho),
      (vw_own _ _ _ _ (fi_view _ _ F2 i m Em) q Ho).
  - assert (forall i m, msgs !! i = Some m -> ~ own_key m q) as Hno.
    { intros i m Em Hq. apply Ho, list.Exists_exists. exists m. split; [|done].
      by apply list_elem_of_lookup_2 with i. }
    destruct (fi_else _ _ F1 q Hno) as [E1|E1]; [|by apply Hmade].
    destruct (fi_else _ _ F2 q Hno) as [E2|E2]; [congruence|by apply Hmade].
Qed.

(** *** One request after the other *)
Fixpoint one_by_one (l : list Message) (σ : fs) : list (res (option Message)) * fs :=
  match l with
  | [] => ([], σ)
  | m :: l' =>
      let (r, σ1) := respond m σ in
      let (rs, σ2) := one_by_one l' σ1 in (r :: rs, σ2)
  end.

(** The first worker has its turns, then the second one, and so on. *)
Definition in_order (n k len : nat) : list nat := concat (replicate n <$> seq k len).

Lemma in_order_turns (n k len i : nat) :
  (k <= i < k + len)%nat -> (n <= count_occ Nat.eq_dec (in_order n k len) i)%nat.
Proof.
  assert (forall n, count_occ Nat.eq_dec (replicate n i) i = n) as Hrep.
  { intros m. induction m as [|m IH]; [done|]. cbn. destruct (Nat.eq_dec i i); [by rewrite IH|done]. }
  revert k. induction len as [|len IH]; intros k Hi; [lia|]. unfold in_order.
  cbn [seq fmap list_fmap concat]. rewrite count_occ_app.
  destruct (decide (i = k)) as [<- |Hne]; [rewrite Hrep; lia|].
  specialize (IH (S k) ltac:(lia)). unfold in_order in IH. lia.
Qed.

Lemma interleave_in_order (l : list Message) (rs : list (res (option Message))) (σ : fs) :
  exists n0, forall n, (n0 <= n)%nat ->
    interleave (in_order n (length rs) (length l)) ((Done <$> rs) ++ (respond_calls <$> l)) σ =
      (Done <$> (rs ++ fst (one_by_one l σ)), snd (one_by_one l σ)).
Proof.
  revert rs σ. induction l as [|m l IH]; intros rs σ.
  { exists 0%nat. intros n _. cbn. by rewrite !app_nil_r. }
  destruct (solo_exec (respond_calls m) σ) as [n1 Hn1].
  destruct (respond m σ) as [r σ1] eqn:E.
  destruct (IH (rs ++ [r]) σ1) as [n2 Hn2]. exists (n1 + n2)%nat. intros n Hn.
  change (in_order n (length rs) (length (m :: l))) with
    (replicate n (length rs) ++ in_order n (S (length rs)) (length l)).
  rewrite fmap_cons, interleave_app.
  rewrite (interleave_solo n (length rs) _ (respond_calls m))
    by (apply list_lookup_middle; by rewrite length_fmap).
  rewrite Hn1, run_respond_calls, E by lia. cbn [fst snd].
  specialize (Hn2 n ltac:(lia)). rewrite length_app, Nat.add_1_r in Hn2.
  rewrite insert_app_r_alt, length_fmap, Nat.sub_diag by (rewrite length_fmap; lia).
  cbn [insert list_insert one_by_one].
  rewrite E. destruct (one_by_one l σ1) as [rs' σ2]. cbn [fst snd] in *.
  rewrite fmap_app, <- !app_assoc in Hn2. exact Hn2.
Qed.

Lemma workers_serial (σ : fs) :
  exists n, forall schedule, turns n schedule ->
    interleave schedule (respond_calls <$> msgs) σ =
      (Done <$> fst (one_by_one msgs σ), snd (one_by_one msgs σ)).
Proof.
  destruct (workers_done σ) as [n Hn]. exists n. intros schedule Hs.
  destruct (interleave_in_order msgs [] σ) as [n0 Hn0].
  specialize (Hn0 (n + n0)%nat ltac:(lia)). cbn [length app fmap list_fmap] in Hn0.
  assert (turns n (in_order (n + n0) 0 (length msgs))) as Ho.
  { intros i Hi. pose proof (in_order_turns (n + n0) 0 (length msgs) i ltac:(lia)). lia. }
  rewrite <- Hn0. destruct (Hn _ Hs) as [E1 F1], (Hn _ Ho) as [E2 F2].
  rewrite (surjective_pairing (interleave schedule _ _)),
    (surjective_pairing (interleave (in_order _ _ _) _ _)), E1, E2.
  f_equal. by apply (finished_unique σ).
Qed.
End Workers.

(** ** What the requests do to the uploads *)
Section Uploads.
Context `{Blake2bLaws} `{UuidTextLaws}.

Abbreviation stored m σ u := (represents σ (upload_dir (client_uuid m)) (file_name m) u).

(** The upload that a request makes of the one on the disk. *)
Inductive makes (σ : fs) (m : Message) : upload -> Prop :=
| makes_chunk u :
    msg_type m = MSGTYPE_FILE_CHUNK_DATA -> 0 <= idx (chunk_data m) < 2 ^ 32 -> stored m σ u ->
    makes σ m (up_save u (idx (chunk_data m)) (data (chunk_data m)))
| makes_offered u :
    msg_type m = MSGTYPE_FILE_OFFER -> file_size (offer m) = up_size u ->
    file_hash (offer m) = up_hash u -> stored m σ u -> makes σ m u
| makes_new :
    msg_type m = MSGTYPE_FILE_OFFER -> 0 <= file_size (offer m) < 2 ^ 32 ->
    zlen (file_hash (offer m)) = HASH_SIZE -> fresh σ (owner m) ->
    makes σ m (up_start (file_size (offer m)) (file_hash (offer m))).

Lemma makes_alone (σ : fs) (m : Message) u :
  valid_request m -> makes σ m u ->
  exists a, fst (respond m σ) = Ok (Some a) /\ answers m a u /\ stored m (snd (respond m σ)) u.
Proof.
  intros Hv Hm. set (e := Path.append SERVER_BASE_PATH (request_path m)).
  pose proof (request_placed m Hv : placed e _ _) as Hp.
  pose proof (fun u => reply_answers m e u Hv eq_refl) as Ha.
  destruct Hm as [u Ht Hi Hr|u Ht Hs Hh Hr|Ht Hs Hh (Hf & Hd & Hm)].
  - destruct (respond_data m e _ _ eq_refl Hp σ u Ht Hi Hr) as (σ' & -> & Hr' & _).
    by exists (reply m e (up_save u (idx (chunk_data m)) (data (chunk_data m)))).
  - rewrite (respond_offer_again m e _ _ eq_refl Hp σ u Ht Hs Hh Hr). by exists (reply m e u).
  - destruct (respond_offer_fresh m e _ _ eq_refl Hp σ Ht Hs Hh Hf Hd Hm)
      as (σ1 & σ' & -> & Hr' & _). by eexists.
Qed.

(** The upload that a worker stores is there for everyone. *)
Lemma view_represents (j : job) (σs σ : fs) u :
  view (job_key j) (job_dirs j) σs σ -> represents σs (job_dir j) (jb_name j) u ->
  represents σ (job_dir j) (jb_name j) u.
Proof.
  intros [Ho Hd] [Hu Hdirs Hdata (bm & Hm & Hb)]. constructor; [done| | |].
  - intros q Hq. destruct (Hd q Hq) as [-> |[_ ->]]; [by apply Hdirs|done].
  - etrans; [exact (Ho (job_data j) (or_introl eq_refl))|exact Hdata].
  - exists bm. split; [|done]. etrans; [exact (Ho (job_meta j) (or_intror eq_refl))|exact Hm].
Qed.

(** What is not there yet, nobody else makes. *)
Lemma view_fresh (j : job) (σs σ : fs) :
  view (job_key j) (job_dirs j) σs σ -> fresh σs j -> fresh σ j.
Proof.
  intros [Ho Hd] (Hf & Hdata & Hmeta). split; [|split].
  - intros q c Hq. destruct (Hd q Hq) as [-> |[_ ->]]; [by apply Hf|done].
  - by rewrite (Ho _ (or_introl eq_refl)).
  - by rewrite (Ho _ (or_intror eq_refl)).
Qed.

Context (msgs : list Message) (Hvalid : Forall valid_request msgs).
Context (Hapart : forall i j m m', msgs !! i = Some m -> msgs !! j = Some m' -> i <> j ->
  apart (owner m) (owner m')).

(** C15: any number of handlers at the same time are as good as one after the other: for
    requests about different files, whatever is on the disk and however the system calls
    of the workers are interleaved, once every worker has had enough turns they have all
    finished, with exactly the results and exactly the disk that handling the requests one
    by one, in the order of the queue, gives. *)
Theorem workers_serializable (σ : fs) :
  exists n, forall schedule, turns msgs n schedule ->
    interleave schedule (respond_calls <$> msgs) σ =
      (Done <$> fst (one_by_one msgs σ), snd (one_by_one msgs σ)).
Proof. by apply workers_serial. Qed.

(** Chunks and offers at the same time, each about another file: whatever the
    interleaving of the workers' system calls, when all have finished every worker answers
    what the abstract upload says and every upload is stored as its request alone makes
    it: no chunk, no mark and no offer is lost. *)
Theorem workers_store (σ : fs) (us : list upload) :
  Forall2 (makes σ) msgs us ->
  exists n, forall schedule, turns msgs n schedule ->
    let (ts, σ') := interleave schedule (respond_calls <$> msgs) σ in
    forall i m u, msgs !! i = Some m -> us !! i = Some u ->
      (exists a, ts !! i = Some (Done (Ok (Some a))) /\ answers m a u) /\ stored m σ' u.
Proof.
  intros Hus. destruct (workers_done msgs Hvalid Hapart σ) as [n Hn]. exists n.
  intros schedule Hs. destruct (Hn schedule Hs) as [Ets [Hview _]].
  destruct (interleave schedule (respond_calls <$> msgs) σ) as [ts σ']. cbn [fst snd] in *.
  intros i m u Em Eu.
  destruct (makes_alone σ m u (valid_at msgs Hvalid i m Em) (Forall2_lookup_lr _ _ _ _ _ _ Hus Em Eu))
    as (a & Ea & Ha & Hst).
  split; [|apply (view_represents (owner m) (snd (respond m σ))); [by apply (Hview i)|done]].
  exists a. split; [|done]. by rewrite Ets, list_lookup_fmap, Em, <- Ea.
Qed.
End Uploads.

(** ** Witnesses *)
Section Witnesses.
Import ToyHash ToyUuid.

(** The last chunk of one client's file, and the offer of another client under the same
    file name. *)
Definition other_offer_msg : Message :=
  mk_message MSGTYPE_FILE_OFFER 0 1 sample_id (str "a.txt")
    (mk_offer 10 1 (calc_hash_vec (replicate 10 66))) no_chunk_req no_chunk_data.

Definition two_msgs : list Message := [sample_chunk_msg; other_offer_msg].
Definition two_fs : fs := sample_server_fs sample_upload [128].

Lemma two_valid : Forall valid_request two_msgs.
Proof.
  apply Forall_cons_2; [apply sample_chunk_valid|]. apply Forall_cons_2; [|constructor].
  constructor; decide_closed.
Qed.

Lemma two_apart (i j : nat) (m m' : Message) :
  two_msgs !! i = Some m -> two_msgs !! j = Some m' -> i <> j -> apart (owner m) (owner m').
Proof.
  assert (client_uuid sample_chunk_msg <> client_uuid other_offer_msg) as Hne
    by (vm_compute; discriminate).
  intros Ei Ej Hij E. cbn [owner jb_uuid] in E.
  destruct i as [|[|i]], j as [|[|j]]; cbn in Ei, Ej; rewrite ?lookup_nil in *;
    try (done || congruence).
Qed.

(** Whose turn it is changes with every call. *)
Definition alternating (n : nat) : list nat := concat (replicate n [0; 1]%nat).

Lemma alternating_turns (n : nat) : turns two_msgs n (alternating n).
Proof.
  intros i Hi. cbn [two_msgs length] in Hi. induction n as [|n IH]; [lia|].
  unfold alternating in *. cbn [replicate concat app count_occ].
  destruct (Nat.eq_dec 0 i), (Nat.eq_dec 1 i); lia.
Qed.

Lemma workers_serializable_witness :
  exists n, interleave (alternating n) (respond_calls <$> two_msgs) two_fs =
    (Done <$> fst (one_by_one two_msgs two_fs), snd (one_by_one two_msgs two_fs)).
Proof.
  destruct (workers_serializable two_msgs two_valid two_apart two_fs) as [n Hn]. exists n.
  apply Hn, alternating_turns.
Defined.

Lemma workers_store_witness :
  exists n, let σ' := snd (interleave (alternating n) (respond_calls <$> two_msgs) two_fs) in
    represents σ' (upload_dir sample_uuid) (str "a.txt")
      (up_save sample_upload 1 (replicate 1032 65)) /\
    represents σ' (upload_dir sample_id) (str "a.txt")
      (up_start 10 (calc_hash_vec (replicate 10 66))).
Proof.
  destruct (workers_store two_msgs two_valid two_apart two_fs
    [up_save sample_upload 1 (replicate 1032 65); up_start 10 (calc_hash_vec (replicate 10 66))])
    as [n Hn].
  - apply Forall2_cons; [|apply Forall2_cons; [|constructor]].
    + apply (makes_chunk two_fs sample_chunk_msg sample_upload eq_refl); [decide_closed|].
      apply (sample_server_represents _ _ sample_up_ok sample_bitmap).
    + apply (makes_new two_fs other_offer_msg eq_refl); [decide_closed|vm_compute; reflexivity|].
      split; [|split; vm_compute; reflexivity].
      intros q c Hq.
      change (made [] [str "in"; to_string sample_id] q) in Hq.
      rewrite !made_cons in Hq. cbn [app] in Hq.
      destruct Hq as [-> |[-> |(i & Hi & _)]]; [vm_compute; discriminate..|cbn in Hi; lia].
  - exists n. specialize (Hn (alternating n) (alternating_turns n)).
    destruct (interleave (alternating n) (respond_calls <$> two_msgs) two_fs) as [ts σ'].
    cbv zeta. cbn [snd].
    destruct (Hn 0%nat _ _ eq_refl eq_refl) as [_ P0].
    destruct (Hn 1%nat _ _ eq_refl eq_refl) as [_ P1].
    split; [exact P0|exact P1].
Defined.
End Witnesses.
