(* ===== verification/Program.v ===== *)
(** * The two programs (the mains of src/ft_client.cpp and src/ft_server.cpp)

    What happens from the start of each process to its main loop: the client's identity and
    command line, the construction of the components and how they are linked. What getopt
    returns, name resolution and the text form of UUIDs are arguments; the loops are in
    [Loop]. *)
From S2P Require Import Prelude StdFs Msg FileMeta Identity File MsgFctry.
From S2P Require Import Conn Sockets PollGrp Loop Broker Server Client.
Import FsFacts.

(** ** Decimal numbers: std::to_string of an unsigned and atoi *)
Fixpoint decimal_digits (fuel : nat) (n : Z) (acc : bytes) : bytes :=
  match fuel with
  | O => acc
  | S fuel' =>
      let acc := 48 + n mod 10 :: acc in
      if n <? 10 then acc else decimal_digits fuel' (n / 10) acc
  end.

(** Ten digits are enough for 32 bits. *)
Definition to_decimal (n : Z) : bytes := decimal_digits 10 n [].

Definition is_space (c : Z) : bool := (c =? 32) || ((9 <=? c) && (c <=? 13)).
Definition is_digit (c : Z) : bool := (48 <=? c) && (c <=? 57).

Fixpoint skip_spaces (s : bytes) : bytes :=
  match s with c :: s' => if is_space c then skip_spaces s' else s | [] => [] end.

Fixpoint digits_value (acc : Z) (s : bytes) : Z :=
  match s with
  | c :: s' => if is_digit c then digits_value (10 * acc + (c - 48)) s' else acc
  | [] => acc
  end.

(** A value that does not fit an int is undefined behaviour. *)
Definition atoi (s : bytes) : res Z :=
  let s := skip_spaces s in
  let v := match s with
           | 45 :: s' => - digits_value 0 s'
           | 43 :: s' => digits_value 0 s'
           | _ => digits_value 0 s
           end in
  if (- 2 ^ 31 <=? v) && (v <? 2 ^ 31) then Ok v else Undef.

(** ** The client's command line *)
Definition DEFAULT_PORT : Z := 4444.
Definition DEFAULT_HOST : bytes := str "localhost".

Record options := mk_options {
  op_host : bytes;
  op_port : Z;
  op_uuid : bytes }.

(** boost::lexical_cast to a UUID; [None] is bad_lexical_cast. *)
Class UuidCast := lexical_cast_uuid (text : bytes) : option bytes.

(** The getopt loop over the options it returns, each with its argument: a process that
    exits has a status. *)
Fixpoint parse_args `{UuidCast} (opts : list (Z * bytes)) (o : options) : res (Z + options) :=
  match opts with
  | [] => Ok (inr o)
  | (opt, optarg) :: opts' =>
      if opt =? 104 then Ok (inl 0)
      else if opt =? 100 then parse_args opts' (mk_options optarg (op_port o) (op_uuid o))
      else if opt =? 112 then
        port ← atoi optarg;
        parse_args opts' (mk_options (op_host o) (u16 port) (op_uuid o))
      else if opt =? 117 then
        match lexical_cast_uuid optarg with
        | Some uuid => parse_args opts' (mk_options (op_host o) (op_port o) uuid)
        | None => Throw (bad_cast "bad lexical cast")
        end
      else Ok (inl 1)
  end.

(** ** The process *)
Record process := mk_process {
  pr_kernel : kernel;
  pr_disk : fs;
  pr_group : PollGroup;
  pr_objs : objects;
  pr_files : gmap bytes File;
  pr_sent : bytes;
  pr_workers : option (broker Request);
  pr_prefix : bytes }.

(** A process that has not done anything yet: what will wait on its sockets is given. *)
Definition boot_process (k : kernel) (σ : fs) (accepts : list accept_result)
    (sockets : gmap Z (list recv_result)) : process :=
  mk_process k σ (new_PollGroup 0) (mk_objects ∅ 0 accepts sockets 0 None) ∅ [] None [].

Definition with_kernel (k : kernel) (s : process) : process :=
  mk_process k (pr_disk s) (pr_group s) (pr_objs s) (pr_files s) (pr_sent s) (pr_workers s)
    (pr_prefix s).
Definition with_disk (σ : fs) (s : process) : process :=
  mk_process (pr_kernel s) σ (pr_group s) (pr_objs s) (pr_files s) (pr_sent s) (pr_workers s)
    (pr_prefix s).
Definition with_group (w : PollGroup * objects) (s : process) : process :=
  mk_process (pr_kernel s) (pr_disk s) (fst w) (snd w) (pr_files s) (pr_sent s) (pr_workers s)
    (pr_prefix s).
Definition with_client (cl : client) (s : process) : process :=
  mk_process (pr_kernel s) (cl_fs cl) (pr_group s) (pr_objs s) (client_files cl) (cl_sent cl)
    (pr_workers s) (pr_prefix s).
Definition with_workers (b : broker Request) (s : process) : process :=
  mk_process (pr_kernel s) (pr_disk s) (pr_group s) (pr_objs s) (pr_files s) (pr_sent s) (Some b)
    (pr_prefix s).
Definition with_prefix (prefix : bytes) (s : process) : process :=
  mk_process (pr_kernel s) (pr_disk s) (pr_group s) (pr_objs s) (pr_files s) (pr_sent s)
    (pr_workers s) prefix.

(** Code that works on a part of the process. *)
Definition on_kernel {A : Type} (c : M kernel A) : M process A := fun s =>
  let (r, k) := c (pr_kernel s) in (r, with_kernel k s).
Definition on_disk {A : Type} (c : M fs A) : M process A := fun s =>
  let (r, σ) := c (pr_disk s) in (r, with_disk σ s).
Definition on_group {A : Type} (c : M (PollGroup * objects) A) : M process A := fun s =>
  let (r, w) := c (pr_group s, pr_objs s) in (r, with_group w s).
Definition on_client {A : Type} (c : M client A) : M process A := fun s =>
  let (r, cl) := c (mk_client (pr_disk s) (pr_files s) (pr_sent s)) in (r, with_client cl s).

(** [std::make_shared<PollGroup>(n)]: the parameter is a uint16_t. *)
Definition make_group (n : Z) : M process unit :=
  modify (fun s => with_group (new_PollGroup (u16 n), pr_objs s) s).

(** A new pollable object; the pointer to it. *)
Definition add_object (x : object) (o : objects) : objects :=
  mk_objects (<[ob_next o := x]> (ob_objs o)) (S (ob_next o)) (ob_accepts o) (ob_sockets o)
    (ob_errno o) (ob_broker o).
Definition new_object (x : object) : M process pollable := fun s =>
  (Ok (ob_next (pr_objs s)), with_group (pr_group s, add_object x (pr_objs s)) s).

(** [std::make_shared<RequestBroker>(handler, n_workers)], and Connection::setRequestBroker,
    which links it to the connections. *)
Definition make_broker (n_workers : nat) : M process unit :=
  modify (with_workers (startWorkers n_workers [])).
Definition set_broker (o : objects) : objects :=
  mk_objects (ob_objs o) (ob_next o) (ob_accepts o) (ob_sockets o) (ob_errno o) (Some []).
Definition link_broker : M process unit :=
  modify (fun s => with_group (pr_group s, set_broker (pr_objs s)) s).

Definition setLocalPathPrefix (path_prefix : bytes) : M process unit :=
  modify (with_prefix path_prefix).

(** What is the case when main gets to its loop, or that it has exited. *)
Inductive started : Type :=
| Exit (status : Z)
| Looping (signals : pollable).

Section Mains.
Context `{Blake2b} `{UuidText} `{UuidCast} `{Kernel}.
(** Memory that is not initialised, the UUID generator, name resolution, the socket. *)
Context (garbage_uuid random : bytes) (garbage_len : Z).
Context (getaddrinfo : bytes -> bytes -> Z * list bytes) (send : bytes -> send_result).

(** The part of the client's main that makes the components, links them and offers the
    file. *)
Definition client_init (o : options) (file : bytes) : M process started :=
  make_group 2;;
  signal_fd ← on_kernel new_SignalHandler;
  signals ← new_object (SignalHandler signal_fd false);
  c ← on_kernel (Connection_client (getaddrinfo (op_host o) (to_decimal (op_port o)))
                   garbage_len);
  conn ← new_object (AConnection c);
  prefix ← gets pr_prefix;
  localFile ← on_disk (makeLocalFile prefix file);
  make_broker 1;;
  link_broker;;
  on_group (add signals);;
  on_group (add conn);;
  on_client (offer_file (op_uuid o) send localFile);;
  mret (Looping signals).

(** main of ft_client.cpp, up to the loop; [file] is the argument after the options, if
    there is one. *)
Definition client_main (opts : list (Z * bytes)) (file : option bytes) : M process started :=
  client_uuid ← on_disk (getClientUUID garbage_uuid random CLIENT_UUID_FILE);
  parsed ← lift (parse_args opts (mk_options DEFAULT_HOST DEFAULT_PORT client_uuid));
  match parsed, file with
  | inl status, _ => mret (Exit status)
  | inr _, None => mret (Exit 1)
  | inr o, Some file =>
      found ← on_disk (Fs.exists_ file);
      if negb found then mret (Exit 1) else client_init o file
  end.

Definition MAX_CONNECTIONS : Z := 1024.
Definition MAX_REQ_BROKER_THREADS : nat := 16.

(** main of ft_server.cpp, up to the loop. *)
Definition server_main : M process started :=
  setLocalPathPrefix SERVER_BASE_PATH;;
  make_group (MAX_CONNECTIONS + 2);;
  signal_fd ← on_kernel new_SignalHandler;
  signals ← new_object (SignalHandler signal_fd false);
  listen_fd ← on_kernel (new_ConnectionListener DEFAULT_PORT MAX_CONNECTIONS);
  server ← new_object (ConnectionListener listen_fd);
  make_broker MAX_REQ_BROKER_THREADS;;
  link_broker;;
  on_group (add server);;
  on_group (add signals);;
  mret (Looping signals).
End Mains.

(** ** Decimal round trip *)
Lemma decimal_digits_head (fuel : nat) (n : Z) (acc : bytes) :
  fuel <> O -> 0 <= n -> exists c l, decimal_digits fuel n acc = c :: l /\ 48 <= c <= 57.
Proof.
  revert n acc. induction fuel as [|fuel IH]; intros n acc Hf Hn; [done|]. cbn [decimal_digits].
  assert (0 <= n mod 10 < 10) by (apply Z.mod_pos_bound; lia).
  destruct (Z.ltb_spec n 10); [by eexists _, _; split; [reflexivity|lia]|].
  destruct fuel as [|fuel]; [by eexists _, _; split; [reflexivity|lia]|].
  apply IH; [done|zdiv].
Qed.

Lemma decimal_digits_value (fuel : nat) (n : Z) (acc : bytes) :
  0 <= n < 10 ^ Z.of_nat fuel -> fuel <> O ->
  digits_value 0 (decimal_digits fuel n acc) = digits_value n acc.
Proof.
  revert n acc. induction fuel as [|fuel IH]; intros n acc Hn Hf; [done|]. cbn [decimal_digits].
  assert (0 <= n mod 10 < 10) by (apply Z.mod_pos_bound; lia).
  assert (forall a, digits_value a (48 + n mod 10 :: acc) = digits_value (10 * a + n mod 10) acc)
    as Hd.
  { intros a. cbn [digits_value]. unfold is_digit. ztest. cbn [andb]. f_equal. lia. }
  destruct (Z.ltb_spec n 10).
  - rewrite Hd. f_equal. rewrite Z.mod_small by lia. lia.
  - rewrite Nat2Z.inj_succ, Z.pow_succ_r in Hn by lia.
    destruct fuel as [|fuel]; [cbn in Hn; lia|]. rewrite IH by (done || zdiv).
    rewrite Hd. f_equal. zdiv.
Qed.

Lemma atoi_to_decimal (n : Z) : 0 <= n < 2 ^ 31 -> atoi (to_decimal n) = Ok n.
Proof.
  intros Hn. unfold atoi, to_decimal.
  destruct (decimal_digits_head 10 n []) as (c & l & E & Hc); [done|lia|].
  assert (digits_value 0 (c :: l) = n) as Hv
    by (rewrite <- E; apply decimal_digits_value; [lia|done]).
  rewrite E. cbn [skip_spaces]. unfold is_space. ztest. cbn [andb orb].
  assert (c = 48 \/ c = 49 \/ c = 50 \/ c = 51 \/ c = 52 \/ c = 53 \/ c = 54 \/ c = 55 \/
    c = 56 \/ c = 57) as Hcs by lia.
  destruct_or! Hcs; subst c; cbv beta iota zeta; rewrite Hv; by ztest.
Qed.

(** ** Running the pieces *)
Lemma on_disk_run {A : Type} (c : M fs A) (s : process) (r : res A) (σ : fs) :
  c (pr_disk s) = (r, σ) -> on_disk c s = (r, with_disk σ s).
Proof. intros E. unfold on_disk. by rewrite E. Qed.

Lemma on_group_run {A : Type} (c : M (PollGroup * objects) A) (s : process) (r : res A) w :
  c (pr_group s, pr_objs s) = (r, w) -> on_group c s = (r, with_group w s).
Proof. intros E. unfold on_group. by rewrite E. Qed.

Lemma on_client_run {A : Type} (c : M client A) (s : process) (r : res A) (cl : client) :
  c (mk_client (pr_disk s) (pr_files s) (pr_sent s)) = (r, cl) ->
  on_client c s = (r, with_client cl s).
Proof. intros E. unfold on_client. by rewrite E. Qed.

Lemma on_kernel_run {A : Type} (c : M kernel A) (s : process) (r : res A) (k : kernel) :
  c (pr_kernel s) = (r, k) -> on_kernel c s = (r, with_kernel k s).
Proof. intros E. unfold on_kernel. by rewrite E. Qed.

(** What makeLocalFile accepts is a regular file, and it changes nothing. *)
Lemma makeLocalFile_regular `{Blake2bLaws} (prefix path : bytes) (σ : fs) (f : File) (σ' : fs) :
  makeLocalFile prefix path σ = (Ok f, σ') ->
  Fs.exists_ (Path.append prefix path) σ = (Ok true, σ) /\ σ' = σ /\
  exists c, Fs.stat σ (Path.resolve (Path.append prefix path)) = Some (Reg c).
Proof.
  unfold makeLocalFile, Fs.is_regular_file, Fs.exists_, Fs.file_size, gets, mbind, M_bind.
  destruct (Fs.stat σ _) as [[|c]|] eqn:E; cbn [negb orb]; try discriminate.
  rewrite calc_hash_run, E. intros [= _ <-]. split_and!; [done|done|by exists c].
Qed.

Lemma append_empty (p : bytes) : Path.append [] p = p.
Proof. unfold Path.append. by destruct (Path.is_absolute p). Qed.

(** A group of at least two gets two pollables. *)
Lemma add_two (n : Z) (p q : pollable) (o : objects) :
  2 <= n < 2 ^ 16 ->
  exists g1 g, add p (new_PollGroup n, o) = (Ok tt, (g1, o)) /\ add q (g1, o) = (Ok tt, (g, o)) /\
    group_ok g /\ pg_pollables g = [p; q] /\ pg_max_pollables g = n.
Proof.
  intros Hn. assert (group_ok (new_PollGroup n)) as H0 by (constructor; cbn; [done|lia]).
  destruct (add_grown p (new_PollGroup n) o H0) as (g1 & E1 & [Hg1 Hp1 _ Hm1]); [cbn; lia|].
  cbn [new_PollGroup pg_pollables pg_max_pollables app] in Hp1, Hm1.
  destruct (add_grown q g1 o Hg1) as (g2 & E2 & [Hg2 Hp2 _ Hm2]); [rewrite Hp1, Hm1; cbn; lia|].
  exists g1, g2. rewrite Hp2, Hp1, Hm2, Hm1. done.
Qed.

(** *** The client's command line *)

(** Why the getopt loop ends the process, or what it has seen when it does not. *)
Lemma parse_args_inv `{UuidCast} (opts : list (Z * bytes)) (o : options) :
  match parse_args opts o with
  | Ok (inl status) =>
      (status = 0 /\ exists arg, (104, arg) ∈ opts) \/
      (status = 1 /\ exists c arg, (c, arg) ∈ opts /\ c ∉ [104; 100; 112; 117])
  | Ok (inr _) => Forall (fun oa => fst oa ∈ [100; 112; 117]) opts
  | _ => True
  end.
Proof.
  revert o. induction opts as [|[c arg] opts IH]; intros o; [constructor|]. cbn [parse_args].
  assert (forall o', c ∈ [100; 112; 117] ->
    match parse_args opts o' with
    | Ok (inl status) =>
        (status = 0 /\ exists a, (104, a) ∈ (c, arg) :: opts) \/
        (status = 1 /\ exists c' a, (c', a) ∈ (c, arg) :: opts /\ c' ∉ [104; 100; 112; 117])
    | Ok (inr _) => Forall (fun oa => fst oa ∈ [100; 112; 117]) ((c, arg) :: opts)
    | _ => True
    end) as Hgo.
  { intros o' Hc. specialize (IH o'). destruct (parse_args opts o') as [[st|o'']| |]; try done.
    - destruct IH as [[-> [a Ha]]|[-> (c' & a & Ha & Hn)]]; [left|right]; (split; [done|]).
      + exists a. by right.
      + exists c', a. split; [by right|done].
    - by constructor. }
  destruct (Z.eqb_spec c 104) as [-> |H1]; [left; split; [done|]; exists arg; by left|].
  destruct (Z.eqb_spec c 100) as [-> |H2]; [apply Hgo; by left|].
  destruct (Z.eqb_spec c 112) as [-> |H3].
  { destruct (atoi arg) as [port| |]; [|done..]. apply Hgo. right. by left. }
  destruct (Z.eqb_spec c 117) as [-> |H4].
  { destruct (lexical_cast_uuid arg); [|done]. apply Hgo. right. right. by left. }
  right. split; [done|]. exists c, arg. split; [by left|].
  rewrite !list.elem_of_cons, elem_of_nil. tauto.
Qed.

(** *** The server's start *)
Section ServerStart.
Context `{Kernel} (k k1 k2 : kernel) (σ : fs) (accepts : list accept_result).
Context (sockets : gmap Z (list recv_result)) (sfd lfd : Z).
Context (Hsig : new_SignalHandler k = (Ok sfd, k1)).
Context (Hlisten : new_ConnectionListener DEFAULT_PORT MAX_CONNECTIONS k1 = (Ok lfd, k2)).

(** The server's objects when it gets to its loop. *)
Definition server_objects : objects :=
  mk_objects {[ 0%nat := SignalHandler sfd false; 1%nat := ConnectionListener lfd ]} 2 accepts
    sockets 0 (Some []).

Record server_ready (s : process) : Prop := mk_server_ready {
  sr_group : group_ok (pr_group s);
  sr_pollables : pg_pollables (pr_group s) = [1; 0]%nat;
  sr_max : pg_max_pollables (pr_group s) = MAX_CONNECTIONS + 2;
  sr_objs : pr_objs s = server_objects;
  sr_workers : pr_workers s = Some (startWorkers MAX_REQ_BROKER_THREADS []);
  sr_prefix : pr_prefix s = SERVER_BASE_PATH;
  sr_disk : pr_disk s = σ;
  sr_kernel : pr_kernel s = k2 }.

Lemma server_main_run :
  exists s', server_main (boot_process k σ accepts sockets) = (Ok (Looping 0), s') /\
    server_ready s'.
Proof.
  set (s0 := boot_process k σ accepts sockets). unfold server_main.
  mstep (@eq_refl _ (setLocalPathPrefix SERVER_BASE_PATH s0)). set (s1 := with_prefix _ _).
  set (s2 := with_group (new_PollGroup 1026, pr_objs s1) s1).
  mstep (@eq_refl _ (make_group (MAX_CONNECTIONS + 2) s1) : _ = (Ok tt, s2)).
  mstep (on_kernel_run new_SignalHandler s2 _ _ Hsig).
  mstep (@eq_refl _ (new_object (SignalHandler sfd false) (with_kernel k1 s2))).
  set (s3 := with_group _ _).
  mstep (on_kernel_run (new_ConnectionListener DEFAULT_PORT MAX_CONNECTIONS) s3 _ _ Hlisten).
  mstep (@eq_refl _ (new_object (ConnectionListener lfd) (with_kernel k2 s3))).
  set (s4 := with_group _ _).
  mstep (@eq_refl _ (make_broker MAX_REQ_BROKER_THREADS s4)).
  mstep (@eq_refl _ (link_broker (with_workers (startWorkers MAX_REQ_BROKER_THREADS []) s4))).
  set (s5 := with_group _ _).
  change (ob_next (pr_objs (with_kernel k1 s2))) with 0%nat.
  change (ob_next (pr_objs (with_kernel k2 s3))) with 1%nat.
  destruct (add_two 1026 1%nat 0%nat (pr_objs s5)) as (g1 & g & E1 & E2 & Hg & Hps & Hmax); [lia|].
  mstep (on_group_run (add 1%nat) s5 _ _ E1).
  mstep (on_group_run (add 0%nat) (with_group (g1, pr_objs s5) s5) _ _ E2).
  eexists. split; [reflexivity|]. by constructor.
Qed.

(** The poll that reports the listener: everybody who is waiting is accepted, up to the
    room there is. *)
Lemma first_poll (l : list (Z * Z)) (s : process) (fuel : nat) :
  accepts = waiting l -> lfd <> -1 -> server_ready s -> (1026 + length l <= fuel)%nat ->
  exists g' o', pollAndHandle fuel (Polled [POLLIN; 0]) (pr_group s, pr_objs s) =
      (Ok true, (g', o')) /\ group_ok g' /\
    pg_pollables g' = [1; 0]%nat ++ seq 2 (Nat.min 1024 (length l)) /\
    pg_max_pollables g' = 1026 /\ ob_accepts o' = waiting (drop 1025 l) /\
    ob_sockets o' = sockets /\ ob_broker o' = Some [] /\
    ob_objs o' !! 0%nat = Some (SignalHandler sfd false) /\
    ob_objs o' !! 1%nat = Some (ConnectionListener lfd) /\
    forall i fd garbage, (i < 1024)%nat -> l !! i = Some (fd, garbage) ->
      ob_objs o' !! (2 + i)%nat = Some (AConnection (new_Connection fd garbage)).
Proof.
  intros Hacc Hlfd [Hg Hps Hmax Ho _ _ _ _] Hfuel. rewrite Ho. clear Ho.
  set (g := pr_group s) in *. set (gw := poll_write [POLLIN; 0] g).
  assert (group_ok gw) as Hgw by (by apply poll_write_ok).
  assert (pg_pollables gw = [1; 0]%nat /\ pg_max_pollables gw = 1026) as [Hpw Hmw] by done.
  destruct (accept_loop_run l 1024 gw server_objects Hgw) as
    (g' & o' & E & Hg' & Hps' & Ha' & Hobj & Hold & Hs' & Hb' & Hm'); [by rewrite Hpw, Hmw|].
  assert (try_ignore (PollGrp.handleEvent 1%nat) (gw, server_objects) = (Ok tt, (g', o'))) as Eh.
  { unfold try_ignore. cbn [PollGrp.handleEvent objects_pollables]. unfold handle_object.
    cbn [server_objects ob_objs ob_accepts]. rewrite Hacc.
    change ({[0%nat := SignalHandler sfd false; 1%nat := ConnectionListener lfd]} !! 1%nat) with
      (Some (ConnectionListener lfd)). cbn iota. rewrite E. by destruct (decide _). }
  exists g', o'. split.
  { pose proof (pollAndHandle_one fuel [] 1%nat [0%nat] g server_objects Hg Hps) as Hone.
    cbn [length replicate zeros app] in Hone. fold gw in Hone. rewrite Hone.
    - by mstep Eh.
    - rewrite Eh. cbn [snd getFD objects_pollables]. unfold get_fd.
      rewrite (Hold 1%nat) by (cbn; lia). cbn. exact Hlfd.
    - rewrite Hps. cbn. rewrite Hacc. unfold waiting. rewrite length_fmap. lia. }
  rewrite Hpw in Hps'. rewrite Hmw in Hm'.
  split_and!; try done; by rewrite Hold by (cbn; lia).
Qed.
End ServerStart.

Lemma server_loop_step (fuel : nat) (r : poll_result) (rs : list poll_result) (w : PollGroup * objects)
    (g : PollGroup) (o : objects) (sfd : Z) :
  pollAndHandle fuel r w = (Ok true, (g, o)) -> ob_objs o !! 0%nat = Some (SignalHandler sfd false) ->
  server_loop fuel 0 (r :: rs) w = server_loop fuel 0 rs (g, o).
Proof.
  intros E Hs. cbn [server_loop]. mstep E. rewrite M_bind_case. cbn [gets snd].
  unfold receivedTermSignal. by rewrite Hs.
Qed.

(** ** Properties *)
(** The port of the command line: a number written in decimal is read back, and cut to
    16 bits without a word, so that a port above 65535 becomes another port; this is the
    port whose decimal text is given to the name resolution. *)
Theorem port_option `{UuidCast} (n : Z) (opts : list (Z * bytes)) (o : options) :
  0 <= n < 2 ^ 31 ->
  parse_args ((112, to_decimal n) :: opts) o =
    parse_args opts (mk_options (op_host o) (n mod 65536) (op_uuid o)) /\
  atoi (to_decimal (n mod 65536)) = Ok (n mod 65536).
Proof.
  intros Hn. split; [|apply atoi_to_decimal; zdiv].
  cbn [parse_args]. by rewrite (atoi_to_decimal n Hn).
Qed.

Section Properties.
Context `{Blake2bLaws} `{UuidText} `{UuidCast} `{KernelLaws}.
Context (garbage_uuid random : bytes) (garbage_len : Z).
Context (getaddrinfo : bytes -> bytes -> Z * list bytes) (send : bytes -> send_result).


(** When nothing fails, the client gets to its loop with the signals and its connection
    in a well-formed group of exactly this size, one worker, a broker linked to the
    connections, and with its disk, its map of files and its output as in the model of a
    transfer ([client_start], the starting point of [rounds]): the file of the command line
    is offered, by the identity of its UUID file or of the command line. *)
Theorem client_main_ready (k k1 k2 : kernel) (σ σ1 : fs) (accepts : list accept_result)
    (sockets : gmap Z (list recv_result)) (opts : list (Z * bytes)) (file : bytes)
    (uuid : bytes) (o : options) (sfd : Z) (c : Connection) (f : File) (cl : client) :
  getClientUUID garbage_uuid random CLIENT_UUID_FILE σ = (Ok uuid, σ1) ->
  parse_args opts (mk_options DEFAULT_HOST DEFAULT_PORT uuid) = Ok (inr o) ->
  new_SignalHandler k = (Ok sfd, k1) ->
  Connection_client (getaddrinfo (op_host o) (to_decimal (op_port o))) garbage_len k1 =
    (Ok c, k2) ->
  client_start (op_uuid o) send file (mk_client σ1 ∅ []) = (Ok f, cl) ->
  exists s', client_main garbage_uuid random garbage_len getaddrinfo send opts (Some file)
      (boot_process k σ accepts sockets) = (Ok (Looping 0), s') /\
    group_ok (pr_group s') /\ pg_pollables (pr_group s') = [0; 1]%nat /\
    pg_max_pollables (pr_group s') = 2 /\
    ob_objs (pr_objs s') = {[ 0%nat := SignalHandler sfd false; 1%nat := AConnection c ]} /\
    ob_broker (pr_objs s') = Some [] /\ pr_workers s' = Some (startWorkers 1 []) /\
    pr_kernel s' = k2 /\ mk_client (pr_disk s') (pr_files s') (pr_sent s') = cl.
Proof.
  intros Hid Hopts Hsig Hconn Hstart. unfold client_start in Hstart.
  apply M_bind_inv in Hstart as (f' & cl1 & Hmk & Hstart).
  apply M_bind_inv in Hstart as ([] & cl2 & Hoffer & Hend). injection Hend as -> ->.
  unfold on_client_fs in Hmk. cbn [cl_fs client_files cl_sent] in Hmk.
  destruct (makeLocalFile [] file σ1) as [r σ2] eqn:Emk. injection Hmk as -> <-.
  pose proof (makeLocalFile_regular [] file σ1 f σ2 Emk) as (Ex & -> & _).
  rewrite append_empty in Ex. set (s0 := boot_process k σ accepts sockets). unfold client_main.
  mstep (on_disk_run (getClientUUID garbage_uuid random CLIENT_UUID_FILE) s0 _ _ Hid).
  rewrite Hopts. rewrite M_bind_case. cbn [lift].
  mstep (on_disk_run (Fs.exists_ file) (with_disk σ1 s0) _ _ Ex). cbn [negb]. unfold client_init.
  set (s1 := with_group (new_PollGroup 2, pr_objs s0) (with_disk σ1 s0)).
  mstep (@eq_refl _ (make_group 2 (with_disk σ1 s0)) : _ = (Ok tt, s1)).
  mstep (on_kernel_run new_SignalHandler s1 _ _ Hsig).
  mstep (@eq_refl _ (new_object (SignalHandler sfd false) (with_kernel k1 s1))).
  set (s2 := with_group _ _).
  mstep (on_kernel_run (Connection_client _ garbage_len) s2 _ _ Hconn).
  mstep (@eq_refl _ (new_object (AConnection c) (with_kernel k2 s2))). set (s3 := with_group _ _).
  mstep (@eq_refl _ (gets pr_prefix s3)).
  mstep (on_disk_run (makeLocalFile [] file) s3 _ _ Emk).
  change (with_disk σ1 s3) with s3.
  mstep (@eq_refl _ (make_broker 1 s3)). mstep (@eq_refl _ (link_broker (with_workers (startWorkers 1 []) s3))).
  set (s4 := with_group _ _). cbn [with_kernel pr_objs s1 with_group s0 boot_process snd ob_next
    add_object s2].
  destruct (add_two 2 0%nat 1%nat (pr_objs s4)) as (g1 & g & E1 & E2 & Hg & Hps & Hmax); [lia|].
  mstep (on_group_run (add 0%nat) s4 _ _ E1).
  mstep (on_group_run (add 1%nat) (with_group (g1, pr_objs s4) s4) _ _ E2).
  mstep (on_client_run (offer_file (op_uuid o) send f)
    (with_group (g, pr_objs s4) (with_group (g1, pr_objs s4) s4)) _ _ Hoffer).
  eexists. split; [reflexivity|]. split_and!; try done. by destruct cl.
Qed.

Lemma send_message_fs (m : Message) (cl : client) : cl_fs (snd (send_message send m cl)) = cl_fs cl.
Proof.
  unfold send_message. rewrite M_bind_case. cbn [lift].
  destruct (serialize m []) as [buf| |]; [|done..]. rewrite M_bind_case. cbn [lift].
  by destruct (sendBuffer _ _).
Qed.

(** Linking the components touches neither the disk nor the descriptors. *)
Lemma client_link_inv (o : options) (signals conn : pollable) (lf : File) (s s' : process)
    (out : started) :
  (make_broker 1;; link_broker;; on_group (add signals);; on_group (add conn);;
   on_client (offer_file (op_uuid o) send lf);; mret (Looping signals)) s = (Ok out, s') ->
  out = Looping signals /\ pr_disk s' = pr_disk s /\ pr_kernel s' = pr_kernel s.
Proof.
  intros E. apply M_bind_inv in E as ([] & s1 & E1 & E). injection E1 as <-.
  apply M_bind_inv in E as ([] & s1 & E1 & E). injection E1 as <-.
  apply M_bind_inv in E as ([] & s1 & E1 & E). unfold on_group in E1.
  destruct (add signals _) as [r w]. injection E1 as -> <-.
  apply M_bind_inv in E as ([] & s1 & E1 & E). unfold on_group in E1.
  destruct (add conn _) as [r w']. injection E1 as -> <-.
  apply M_bind_inv in E as ([] & s1 & E1 & E). injection E as <- <-. unfold on_client in E1.
  cbn [pr_disk pr_kernel with_group with_workers] in *.
  unfold offer_file in E1. rewrite M_bind_case in E1. cbn [modify cl_fs client_files cl_sent] in E1.
  destruct (send_message _ _ _) as [r cl] eqn:Es. injection E1 as -> <-. split_and!; [done| |done].
  cbn [pr_disk with_client]. apply (f_equal (fun x => cl_fs (snd x))) in Es.
  rewrite send_message_fs in Es. cbn in Es. by rewrite <- Es.
Qed.

(** A client that gets to its loop. *)
Lemma client_init_inv (o : options) (f : bytes) (s s' : process) (out : started) :
  pr_prefix s = [] -> client_init garbage_len getaddrinfo send o f s = (Ok out, s') ->
  (exists signals, out = Looping signals) /\ pr_disk s' = pr_disk s /\
  (exists c, Fs.stat (pr_disk s) (Path.resolve f) = Some (Reg c)) /\
  exists sfd cfd addr, k_descrs (pr_kernel s') =
    <[cfd := Socket (configured (connected addr))]>
      (<[sfd := SignalFd sig_mask]> (k_descrs (pr_kernel s))).
Proof.
  intros Hpre E. unfold client_init in E.
  apply M_bind_inv in E as ([] & s1 & E1 & E). injection E1 as <-.
  apply M_bind_inv in E as (sfd & s1 & E1 & E). unfold on_kernel in E1. cbn [pr_kernel with_group] in E1.
  pose proof (signal_handler_opens (pr_kernel s)) as Hsig.
  destruct (new_SignalHandler (pr_kernel s)) as [r k1]. injection E1 as -> <-.
  destruct Hsig as (_ & Hk1 & _).
  apply M_bind_inv in E as (signals & s1 & E1 & E). injection E1 as _ <-.
  apply M_bind_inv in E as (c & s1 & E1 & E). unfold on_kernel in E1. cbn [pr_kernel with_group with_kernel] in E1.
  pose proof (client_connects_run (getaddrinfo (op_host o) (to_decimal (op_port o))) garbage_len k1)
    as Hconn.
  destruct (Connection_client _ _ k1) as [r k2]. injection E1 as -> <-.
  destruct Hconn as (addr & _ & _ & _ & Hk2).
  apply M_bind_inv in E as (conn & s1 & E1 & E). injection E1 as _ <-.
  rewrite M_bind_case in E. cbn [gets pr_prefix with_group with_kernel] in E. rewrite Hpre in E.
  apply M_bind_inv in E as (lf & s1 & E1 & E). unfold on_disk in E1.
  cbn [pr_disk with_group with_kernel] in E1.
  destruct (makeLocalFile [] f (pr_disk s)) as [r σ2] eqn:Emk. injection E1 as -> <-.
  apply makeLocalFile_regular in Emk as (_ & -> & Hreg). rewrite append_empty in Hreg.
  apply client_link_inv in E as (-> & Hd & Hk). cbn [pr_disk pr_kernel with_disk with_group
    with_kernel] in Hd, Hk.
  split; [by eexists|]. split; [done|]. split; [done|].
  exists sfd, (next_fd k1), addr. by rewrite Hk, Hk2, Hk1.
Qed.

(** C24: every start of the client: it exits, with status 0 when help was asked for and 1 when
    the file is missing, does not exist or an option is not known, before it has opened
    anything (only its UUID file may have been written); or it gets to its loop, with a
    regular file, after options that are all known, and with exactly two descriptors more,
    the signals and the configured connection; or it dies of an exception. *)
Theorem client_main_outcomes (opts : list (Z * bytes)) (file : option bytes) (s : process) :
  pr_prefix s = [] ->
  match client_main garbage_uuid random garbage_len getaddrinfo send opts file s with
  | (Ok (Exit status), s') =>
      s' = with_disk (pr_disk s') s /\
      ((status = 0 /\ exists arg, (104, arg) ∈ opts) \/
       (status = 1 /\
          (file = None \/
           (exists f, file = Some f /\ Fs.stat (pr_disk s') (Path.resolve f) = None) \/
           exists c arg, (c, arg) ∈ opts /\ c ∉ [104; 100; 112; 117])))
  | (Ok (Looping _), s') =>
      (exists f c, file = Some f /\ Fs.stat (pr_disk s') (Path.resolve f) = Some (Reg c)) /\
      Forall (fun oa => fst oa ∈ [100; 112; 117]) opts /\
      exists sfd cfd addr, k_descrs (pr_kernel s') =
        <[cfd := Socket (configured (connected addr))]>
          (<[sfd := SignalFd sig_mask]> (k_descrs (pr_kernel s)))
  | _ => True
  end.
Proof.
  intros Hpre. destruct (client_main _ _ _ _ _ _ _ s) as [[out|e|] s'] eqn:E;
    [|by destruct e|done].
  unfold client_main in E. apply M_bind_inv in E as (uuid & s1 & E1 & E).
  unfold on_disk in E1. destruct (getClientUUID _ _ _ (pr_disk s)) as [r σ1].
  injection E1 as -> <-. rewrite M_bind_case in E. cbn [lift] in E.
  pose proof (parse_args_inv opts (mk_options DEFAULT_HOST DEFAULT_PORT uuid)) as Hargs.
  destruct (parse_args opts _) as [[status|o]|e|]; [|destruct file as [f|]|done..].
  - injection E as <- <-. split; [done|]. destruct Hargs as [?|[? ?]]; [by left|right; tauto].
  - unfold on_disk, Fs.exists_ in E. rewrite M_bind_case in E. cbn [gets pr_disk with_disk] in E.
    destruct (Fs.stat σ1 (Path.resolve f)) as [x|] eqn:Ef; cbn [negb] in E.
    + apply client_init_inv in E as ([signals ->] & Hd & [c Hc] & Hk); [|done].
      cbn [pr_disk pr_kernel with_disk] in *. rewrite Hd. split_and!; [|done|done].
      by exists f, c.
    + injection E as <- <-. split; [done|]. right. split; [done|]. right. left. by exists f.
  - injection E as <- <-. split; [done|]. right. split; [done|]. by left.
Qed.

(** C25: the server started with its two descriptors has room for exactly 1024 connections:
    of any number of clients that are waiting, the poll that reports the listener accepts
    the first 1024, each with a connection object of its own behind the listener and the
    signals in the group; the next one is accepted and closed again, and the others keep
    waiting; the loop goes on. *)
Theorem server_capacity (k k1 k2 : kernel) (σ : fs) (l : list (Z * Z))
    (sockets : gmap Z (list recv_result)) (sfd lfd : Z) (fuel : nat) :
  new_SignalHandler k = (Ok sfd, k1) ->
  new_ConnectionListener DEFAULT_PORT MAX_CONNECTIONS k1 = (Ok lfd, k2) -> lfd <> -1 ->
  (1026 + length l <= fuel)%nat ->
  exists s g' o', server_main (boot_process k σ (waiting l) sockets) = (Ok (Looping 0), s) /\
    server_ready k2 σ (waiting l) sockets sfd lfd s /\
    server_loop fuel 0 [Polled [POLLIN; 0]] (pr_group s, pr_objs s) = (Ok Running, (g', o')) /\
    pg_pollables g' = [1; 0]%nat ++ seq 2 (Nat.min 1024 (length l)) /\
    zlen (pg_pollables g') <= pg_max_pollables g' /\ ob_accepts o' = waiting (drop 1025 l) /\
    forall i fd garbage, (i < 1024)%nat -> l !! i = Some (fd, garbage) ->
      ob_objs o' !! (2 + i)%nat = Some (AConnection (new_Connection fd garbage)).
Proof.
  intros Hsig Hlis Hlfd Hfuel.
  destruct (server_main_run k k1 k2 σ (waiting l) sockets sfd lfd Hsig Hlis) as (s & Hrun & Hs).
  destruct (first_poll k2 σ (waiting l) sockets sfd lfd l s fuel eq_refl Hlfd Hs Hfuel)
    as (g' & o' & E & Hg & Hps & Hm & Ha & _ & _ & Hsh & _ & Hobj).
  exists s, g', o'. split; [done|]. split; [done|].
  rewrite (server_loop_step fuel _ [] _ g' o' sfd E Hsh).
  split_and!; [done|done|by apply Hg|done|done].
Qed.

(** From its start to the first client's requests: the server's main, a poll that
    reports the listener, and a poll that reports the new connection put exactly the
    messages the client has sent into the broker's queue, in order, for any value the
    connection's uninitialised msg_len has. *)
Theorem server_first_client (k k1 k2 : kernel) (σ : fs) (fd garbage : Z) (ms : list Message)
    (sockets : gmap Z (list recv_result)) (sfd lfd : Z) (fuel : nat) :
  new_SignalHandler k = (Ok sfd, k1) ->
  new_ConnectionListener DEFAULT_PORT MAX_CONNECTIONS k1 = (Ok lfd, k2) -> lfd <> -1 ->
  fd <> -1 -> sockets !! fd = Some (bytes_events (encode_all ms)) -> Forall wf_message ms ->
  (1027 <= fuel)%nat ->
  exists s g' o',
    server_main (boot_process k σ (waiting [(fd, garbage)]) sockets) = (Ok (Looping 0), s) /\
    server_loop fuel 0 [Polled [POLLIN; 0]; Polled [0; 0; POLLIN]] (pr_group s, pr_objs s) =
      (Ok Running, (g', o')) /\
    pg_pollables g' = [1; 0; 2]%nat /\ ob_broker o' = Some (requests 2 ms).
Proof.
  intros Hsig Hlis Hlfd Hfd Hsock Hms Hfuel. set (l := [(fd, garbage)]).
  destruct (server_main_run k k1 k2 σ (waiting l) sockets sfd lfd Hsig Hlis) as (s & Hrun & Hs).
  destruct (first_poll k2 σ (waiting l) sockets sfd lfd l s fuel eq_refl Hlfd Hs)
    as (g1 & o1 & E & Hg & Hps & Hm & Ha & Hso & Hb & Hsh & _ & Hobj); [cbn; lia|].
  specialize (Hobj 0%nat fd garbage ltac:(lia) eq_refl). cbn in Hps.
  destruct (poll_queues_run fuel [1; 0]%nat 2%nat [] fd garbage ms [] g1 o1 Hg Hps Hobj Hfd)
    as (g' & o' & E2 & Hps' & Hb' & _ & _ & Hoth & _); [by rewrite Hso|done|done| |].
  { rewrite Hps. cbn. rewrite Ha. cbn. lia. }
  change (zeros (length [1; 0]%nat) ++ POLLIN :: zeros (length (@nil nat))) with [0; 0; POLLIN] in E2.
  exists s, g', o'. split; [done|].
  rewrite (server_loop_step fuel _ _ _ g1 o1 sfd E Hsh).
  rewrite (server_loop_step fuel _ [] _ g' o' sfd E2) by (by rewrite Hoth).
  split; [done|]. split; [by rewrite Hps'|done].
Qed.
End Properties.

(** ** Witnesses: a kernel in which nothing fails *)
Section Witnesses.
Import ToyHash ToyUuid ToyKernel.

#[local] Instance good_kernel : Kernel := {|
  failure _ := None;
  free_fd := @free_fd toy_kernel |}.

#[local] Instance good_kernel_laws : KernelLaws.
Proof. constructor. apply (@free_fd_ok toy_kernel toy_kernel_laws). Qed.

#[local] Instance toy_cast : UuidCast := read_uuid.

(** -p 70000 is port 4464. *)
Lemma port_option_witness :
  parse_args [(112, str "70000")] (mk_options DEFAULT_HOST DEFAULT_PORT []) =
    Ok (inr (mk_options DEFAULT_HOST 4464 [])).
Proof.
  rewrite (proj1 (port_option 70000 [] (mk_options DEFAULT_HOST DEFAULT_PORT [])
    ltac:(lia)) : parse_args [(112, str "70000")] _ = _).
  reflexivity.
Defined.

Definition hello_disk : fs := {[ [str "hello"] := Reg (str "hello") ]}.
Definition resolve_one (host port : bytes) : Z * list bytes := (0, [host ++ port]).

(** The disk with the new identity. *)
Definition hello_disk' : fs := snd (getClientUUID [] sample_id CLIENT_UUID_FILE hello_disk).

Lemma client_main_ready_witness :
  exists s', client_main [] sample_id 0 resolve_one sent_whole [(100, str "server")]
      (Some (str "/hello")) (boot_process boot hello_disk [] ∅) = (Ok (Looping 0), s') /\
    pr_files s' = {[ str "hello" :=
      mk_file (str "/hello") (calc_hash_vec (str "hello")) 5 (str "/hello") FileLocal ]} /\
    ob_objs (pr_objs s') =
      {[ 0%nat := SignalHandler 3 false; 1%nat := AConnection (mk_conn 4 [] 0) ]}.
Proof.
  destruct (client_start_run sample_id sent_whole (fun _ => eq_refl) hello_disk' (str "/hello")
    (str "hello")) as [Hstart _]; [vm_compute; reflexivity|decide_closed|reflexivity|decide_closed..|].
  assert (getClientUUID [] sample_id CLIENT_UUID_FILE hello_disk = (Ok sample_id, hello_disk'))
    as H1.
  { assert (fst (getClientUUID [] sample_id CLIENT_UUID_FILE hello_disk) = Ok sample_id) as <-
      by (vm_compute; reflexivity). apply surjective_pairing. }
  set (k1 := snd (new_SignalHandler boot)).
  assert (new_SignalHandler boot = (Ok 3, k1)) as H2 by (vm_compute; reflexivity).
  set (k2 := snd (Connection_client (resolve_one (str "server") (to_decimal 4444)) 0 k1)).
  assert (Connection_client (resolve_one (str "server") (to_decimal 4444)) 0 k1 =
    (Ok (mk_conn 4 [] 0), k2)) as H3 by (vm_compute; reflexivity).
  destruct (client_main_ready [] sample_id 0 resolve_one sent_whole boot k1 k2 hello_disk
    hello_disk' [] ∅ [(100, str "server")] (str "/hello") sample_id
    (mk_options (str "server") 4444 sample_id) 3 (mk_conn 4 [] 0) _ _ H1 eq_refl H2 H3 Hstart)
    as (s' & P1 & _ & _ & _ & P2 & _ & _ & _ & P3).
  exists s'. split; [exact P1|]. split; [|exact P2].
  apply (f_equal client_files) in P3. exact P3.
Defined.

(** A port, then help: the process exits with nothing opened. *)
Lemma client_main_outcomes_witness :
  exists s', client_main [] sample_id 0 resolve_one sent_whole [(112, str "80"); (104, [])] None
      (boot_process boot hello_disk [] ∅) = (Ok (Exit 0), s') /\
    s' = with_disk (pr_disk s') (boot_process boot hello_disk [] ∅).
Proof.
  pose proof (client_main_outcomes [] sample_id 0 resolve_one sent_whole
    [(112, str "80"); (104, [])] None (boot_process boot hello_disk [] ∅) eq_refl) as P.
  set (run := client_main _ _ _ _ _ _ _ _) in *.
  assert (fst run = Ok (Exit 0)) as E by (vm_compute; reflexivity).
  destruct run as [r s']. cbn [fst] in E. subst r. exists s'. split; [reflexivity|exact (proj1 P)].
Defined.

(** The descriptors of the server. *)
Lemma server_descriptors :
  new_SignalHandler boot = (Ok 3, snd (new_SignalHandler boot)) /\
  new_ConnectionListener DEFAULT_PORT MAX_CONNECTIONS (snd (new_SignalHandler boot)) =
    (Ok 4, snd (new_ConnectionListener DEFAULT_PORT MAX_CONNECTIONS
                  (snd (new_SignalHandler boot)))).
Proof. split; vm_compute; reflexivity. Qed.

(** Two clients are waiting. *)
Lemma server_capacity_witness :
  exists s g' o', server_main (boot_process boot ∅ (waiting [(7, 0); (8, 0)]) ∅) =
      (Ok (Looping 0), s) /\
    server_loop 2000 0 [Polled [POLLIN; 0]] (pr_group s, pr_objs s) = (Ok Running, (g', o')) /\
    pg_pollables g' = [1; 0; 2; 3]%nat.
Proof.
  destruct server_descriptors as [Hsig Hlis].
  destruct (server_capacity boot _ _ ∅ [(7, 0); (8, 0)] ∅ 3 4 2000 Hsig Hlis)
    as (s & g' & o' & P1 & _ & P2 & P3 & _); [discriminate|cbn; lia|].
  exists s, g', o'. split; [exact P1|split; [exact P2|exact P3]].
Defined.

Lemma server_first_client_witness :
  exists s g' o',
    server_main (boot_process boot ∅ (waiting [(7, 99)])
      {[ 7 := bytes_events (encode_all [small_message; small_message]) ]}) = (Ok (Looping 0), s) /\
    server_loop 2000 0 [Polled [POLLIN; 0]; Polled [0; 0; POLLIN]] (pr_group s, pr_objs s) =
      (Ok Running, (g', o')) /\
    ob_broker o' = Some (requests 2 [small_message; small_message]).
Proof.
  destruct server_descriptors as [Hsig Hlis].
  destruct (server_first_client boot _ _ ∅ 7 99 [small_message; small_message]
    {[ 7 := bytes_events (encode_all [small_message; small_message]) ]} 3 4 2000 Hsig Hlis)
    as (s & g' & o' & P1 & P2 & _ & P3);
    [discriminate|discriminate|apply lookup_singleton_eq| |lia|].
  - repeat apply Forall_cons_2; auto using small_message_wf, Forall_nil_2.
  - exists s, g', o'. split; [exact P1|split; [exact P2|exact P3]].
Defined.
End Witnesses.
