(* ===== verification/Crash.v ===== *)
(** * A server killed in the middle of a handler

    What is on the disk when the process is killed between two system calls of a handler
    ([Calls]), and what becomes of it when the server is started again: a chunk that was
    being stored leaves an upload that resumes, an offer that was being accepted may leave
    one that never does. *)
From S2P Require Import Prelude StdFs Msg FileMeta Identity File Upload.
From S2P Require Import MsgFctry Conn Server Client Handler Calls.
From S2P Require Import Transfer Clients Workers.
Import FsFacts DirFacts.

Implicit Types (σ : fs) (u : upload).

(** ** The disk after every call *)
Section Throughout.
Context {A : Type}.
Implicit Types (p : prog A) (I J : fs -> Prop).

(** [p] has the disk to itself and is stopped after any number of calls. *)
Definition throughout p I σ : Prop := forall n, I (snd (solo n p σ)).

Lemma throughout_start p I σ : throughout p I σ -> I σ.
Proof. intros Hp. exact (Hp 0%nat). Qed.

Lemma throughout_end p I σ : throughout p I σ -> I (snd (exec p σ)).
Proof.
  intros Hp. destruct (solo_exec p σ) as [n Hn]. specialize (Hp n).
  by rewrite (Hn n (le_n n)) in Hp.
Qed.

Lemma throughout_done (r : res A) I σ : I σ -> throughout (Done r) I σ.
Proof. intros HI n. by rewrite solo_done. Qed.

Lemma throughout_step p I σ :
  throughout p I σ -> throughout (fst (step_call p σ)) I (snd (step_call p σ)).
Proof.
  intros Hp n. specialize (Hp (S n)). cbn [solo] in Hp. by destruct (step_call p σ).
Qed.

Lemma throughout_call {X : Set} (c : call X) (f : X -> prog A) I σ :
  I σ ->
  match sem c σ with (Ok x, σ') => throughout (f x) I σ' | (_, σ') => I σ' end ->
  throughout (Call c f) I σ.
Proof.
  intros H0 H1 [|n]; [done|]. cbn [solo step_call].
  destruct (sem c σ) as [[x|e|] σ']; [apply H1|by rewrite solo_done..].
Qed.

Lemma throughout_mono p I J σ :
  throughout p I σ -> (forall σ', I σ' -> J σ') -> throughout p J σ.
Proof. intros Hp HIJ n. apply HIJ, Hp. Qed.
End Throughout.

Lemma throughout_bind {A B : Type} (p : prog A) (f : A -> prog B) (I : fs -> Prop) σ :
  throughout p I σ ->
  (forall a, fst (exec p σ) = Ok a -> throughout (f a) I (snd (exec p σ))) ->
  throughout (p ≫= f) I σ.
Proof.
  revert σ. induction p as [[a|e|]|X c k IH]; intros σ Hp Hf.
  - by apply Hf.
  - by apply throughout_done, (throughout_start _ _ _ Hp).
  - by apply throughout_done, (throughout_start _ _ _ Hp).
  - change (throughout (Call c (fun x => k x ≫= f)) I σ).
    apply throughout_call; [by apply (throughout_start _ _ _ Hp)|].
    pose proof (throughout_step _ _ _ Hp) as H1. cbn [step_call exec] in H1, Hf.
    rewrite M_bind_case in Hf. destruct (sem c σ) as [[x|e|] σ'].
    + by apply IH.
    + exact (throughout_start _ _ _ H1).
    + exact (throughout_start _ _ _ H1).
Qed.

(** *** Programs that only look *)
Definition looking {A : Type} (p : prog A) : Prop := forall σ, throughout p (eq σ) σ.

Lemma looking_same {A : Type} (p : prog A) σ : looking p -> snd (exec p σ) = σ.
Proof. intros Hp. symmetry. apply (throughout_end p (eq σ) σ), Hp. Qed.

Lemma looking_at {A : Type} (p : prog A) (I : fs -> Prop) σ : looking p -> I σ -> throughout p I σ.
Proof. intros Hp HI. apply (throughout_mono p (eq σ)); [apply Hp|by intros ? <-]. Qed.

Lemma looking_done {A : Type} (r : res A) : looking (Done r).
Proof. intros σ. by apply throughout_done. Qed.

Lemma looking_ret {A : Type} (a : A) : looking (mret a).
Proof. apply looking_done. Qed.

Lemma looking_bind {A B : Type} (p : prog A) (f : A -> prog B) :
  looking p -> (forall a, looking (f a)) -> looking (p ≫= f).
Proof.
  intros Hp Hf σ. apply throughout_bind; [apply Hp|]. intros a _. rewrite (looking_same p σ Hp).
  apply Hf.
Qed.

Lemma looking_do {X : Set} (c : call X) : (forall σ, snd (sem c σ) = σ) -> looking (do c).
Proof.
  intros Hc σ. apply throughout_call; [done|]. specialize (Hc σ).
  destruct (sem c σ) as [[x|e|] σ']; cbn in Hc; subst; [by apply throughout_done|done..].
Qed.

Lemma looking_exists (p : bytes) : looking (do (Exists p)).
Proof. by apply looking_do. Qed.

Lemma looking_open (p : bytes) : looking (do (OpenExisting p)).
Proof. by apply looking_do. Qed.

Lemma looking_length (p : bytes) : looking (do (Length p)).
Proof. by apply looking_do. Qed.

Lemma looking_read (st : stream) (n : Z) : looking (do (Read st n)).
Proof.
  apply looking_do. intros σ. cbn [sem]. unfold Stream.read.
  destruct (st_file st); [|done]. by destruct (Stream.good st).
Qed.
Create HintDb looking.
#[export] Hint Resolve looking_done looking_ret looking_exists looking_open looking_length
  looking_read : looking.

(** Follows the code. *)
Ltac look :=
  repeat match goal with
    | |- looking (match ?x with _ => _ end) => destruct x
    | |- looking (let _ := _ in _) => cbv zeta
    | |- looking (_ ≫= _) => apply looking_bind; [|intros ?]
    | |- _ => solve [eauto with looking]
    end.

Lemma looking_skip_full (fuel : nat) (ms : stream) (b : Z) : looking (skip_full_calls fuel ms b).
Proof. revert ms b. induction fuel as [|fuel IH]; intros ms b; cbn [skip_full_calls]; look. Qed.

Lemma looking_readHeader (p h : bytes) : looking (readHeader_calls p h).
Proof. unfold readHeader_calls. look. Qed.
#[export] Hint Resolve looking_skip_full looking_readHeader : looking.

Lemma looking_nextMissingChunk (fm : FileMetadata) (i : Z) : looking (nextMissingChunk_calls fm i).
Proof. unfold nextMissingChunk_calls. look. Qed.
#[export] Hint Resolve looking_nextMissingChunk : looking.

Section Answer.
Context `{Blake2b} `{UuidText}.

Lemma looking_hash_blocks (fuel : nat) (ist : stream) s : looking (hash_blocks_calls fuel ist s).
Proof. revert ist s. induction fuel as [|fuel IH]; intros ist s; cbn [hash_blocks_calls]; look. Qed.
#[local] Hint Resolve looking_hash_blocks : looking.

Lemma looking_calc_hash (p : bytes) : looking (calc_hash_calls p).
Proof. unfold calc_hash_calls. look. Qed.
#[local] Hint Resolve looking_calc_hash : looking.

Lemma looking_answer (msg : Message) (f : File) : looking (answer_calls msg f).
Proof. unfold answer_calls, isComplete_calls, getNextMissingChunk_calls. look. Qed.
End Answer.
#[export] Hint Resolve looking_answer : looking.

(** *** Programs whose last call is the one that writes *)
Definition late {A : Type} (p : prog A) : Prop :=
  forall σ, throughout p (fun σ' => σ' = σ \/ σ' = snd (exec p σ)) σ.

Lemma late_call {X : Set} {A : Type} (c : call X) (f : X -> prog A) :
  (forall x, exists r, f x = Done r) -> late (do c ≫= f).
Proof.
  intros Hf σ. apply throughout_call; [by left|]. cbn. rewrite M_bind_case.
  destruct (sem c σ) as [[x|e|] σ']; cbn; [|by right..].
  destruct (Hf x) as [r ->]. apply throughout_done. by right.
Qed.

Lemma late_bind {A B : Type} (p : prog A) (f : A -> prog B) :
  looking p -> (forall a, late (f a)) -> late (p ≫= f).
Proof.
  intros Hp Hf σ. pose proof (looking_same p σ Hp) as E.
  apply throughout_bind; [apply looking_at; [done|by left]|]. intros a Ea. rewrite E.
  apply (throughout_mono _ _ _ _ (Hf a σ)). intros σ' [-> | ->]; [by left|right].
  rewrite exec_bind, M_bind_case. destruct (exec p σ) as [r σ1]. cbn in E, Ea. by subst.
Qed.

Lemma late_markChunk (fm : FileMetadata) (i : Z) (v : bool) : late (markChunk_calls fm i v).
Proof.
  unfold markChunk_calls. apply late_bind; [auto with looking|]. intros ms. cbv zeta.
  apply late_bind; [auto with looking|]. intros [got ms1]. apply late_call. by eexists.
Qed.

Lemma late_at {A : Type} (p : prog A) (I : fs -> Prop) σ :
  late p -> I σ -> I (snd (exec p σ)) -> throughout p I σ.
Proof. intros Hp H0 H1. apply (throughout_mono _ _ _ _ (Hp σ)). by intros σ' [-> | ->]. Qed.

(** ** An upload that is on the disk *)
Section Stored.
Context `{Blake2bLaws} (path e d n : bytes) (Hplaced : placed e d n).

Abbreviation stays p σ := (throughout p (eq σ) σ).

Lemma stays_bind {A B : Type} (p : prog A) (f : A -> prog B) σ :
  stays p σ -> (forall a, fst (exec p σ) = Ok a -> stays (f a) σ) -> stays (p ≫= f) σ.
Proof.
  intros Hp Hf. apply throughout_bind; [done|]. intros a Ea.
  rewrite <- (throughout_end p (eq σ) σ Hp). by apply Hf.
Qed.

Lemma stays_make_dirs (k rest : list bytes) σ :
  (forall q, made k rest q -> σ !! q = Some Dir) -> stays (make_dirs_calls k rest) σ.
Proof.
  revert k. induction rest as [|c rest IH]; intros k Hd; cbn [make_dirs_calls].
  { by apply throughout_done. }
  apply throughout_call; [done|]. cbn [sem]. unfold mkdir.
  rewrite (Hd (k ++ [c])) by (apply made_cons; by left).
  apply IH. intros q Hq. apply Hd, made_cons. by right.
Qed.

Lemma stays_create_directories σ :
  dirs_exist σ (Path.resolve d) -> stays (create_directories_calls d) σ.
Proof.
  intros Hd. unfold create_directories_calls. destruct d as [|c l] eqn:E.
  - by apply throughout_done.
  - rewrite <- E in *. by apply stays_make_dirs.
Qed.

Lemma stays_exists {B : Type} (p : bytes) (f : bool -> prog B) (x : node) σ :
  Path.resolve p <> [] -> σ !! Path.resolve p = Some x -> stays (f true) σ ->
  stays (do (Exists p) ≫= f) σ.
Proof.
  intros Hk Ex Hf. apply throughout_call; [done|]. cbn [sem].
  rewrite (exists_stat σ p _ eq_refl Hk), Ex. exact Hf.
Qed.

Lemma stays_new_FileRemote (hash : bytes) (size : Z) (x y : node) σ :
  dirs_exist σ (Path.resolve d) ->
  σ !! data_key d n = Some x -> σ !! data_key d (meta_name n) = Some y ->
  stays (new_FileRemote_calls path hash size e) σ.
Proof.
  intros Hd Hx Hy. unfold new_FileRemote_calls. rewrite new_FileMetadata_meta_of.
  apply stays_bind; [by apply throughout_done|]. intros fm [= <-].
  rewrite (placed_parent _ _ _ Hplaced).
  apply stays_bind; [by apply stays_create_directories|]. intros _ _.
  pose proof (placed_key _ _ _ Hplaced) as Hk. pose proof (placed_meta_key _ _ _ Hplaced) as Hmk.
  apply stays_bind.
  - unfold createIfNotExist_calls. cbn [meta_of fm_effective_path fm_metadata_file].
    rewrite (placed_parent _ _ _ Hplaced).
    apply stays_bind; [by apply stays_create_directories|]. intros _ _.
    apply (stays_exists _ _ y); rewrite ?Hmk; [apply child_ne|done|by apply throughout_done].
  - intros _ _.
    apply (stays_exists _ _ x); rewrite ?Hk; [apply child_ne|done|by apply throughout_done].
Qed.

Lemma stays_makeRemoteFile (prefix : bytes) u σ :
  Path.append prefix path = e -> represents σ d n u -> stays (makeRemoteFile_calls prefix path) σ.
Proof.
  intros He [_ Hd Hdata (bm & Hm & _)]. unfold makeRemoteFile_calls. rewrite He.
  apply stays_bind; [apply looking_readHeader|]. intros [[size csize] hash] _.
  destruct (0 <? csize); [|by apply throughout_done].
  apply stays_bind; [by eapply stays_new_FileRemote|]. intros f _. by apply throughout_done.
Qed.

(** The upload [u] is there, and the chunks marked are those of [c]. *)
Definition resumable (c : bytes) σ : Prop := exists u, represents σ d n u /\ partial_of c u.

(** The bytes of a chunk that are in the file before it is marked. *)
Lemma partial_write (c : bytes) u (i : Z) :
  up_ok u -> partial_of c u -> 0 <= i < n_chunks (zlen c) ->
  partial_of c (up_write u i (chunk_of c i)).
Proof.
  intros Hu Hp Hi. pose proof (chunk_inside c i Hi) as Hin. pose proof (uo_data _ Hu) as Hd.
  destruct Hp as [Hs Hh Hp]. constructor; [done|done|]. cbn. intros j Hj.
  rewrite lookup_written by lia. case_decide; [done|]. by apply Hp.
Qed.

Lemma saveChunk_throughout (c : bytes) u ch σ :
  represents σ d n u -> partial_of c u -> 0 <= fc_idx ch < n_chunks (zlen c) ->
  fc_idx ch < 2 ^ 32 -> fc_data ch = chunk_of c (fc_idx ch) ->
  throughout (saveChunk_calls (handle path e u) ch)
    (fun σ' => exists u', represents σ' d n u' /\ partial_of c u' /\ up_marked u ⊆ up_marked u') σ.
Proof.
  intros Hrep Hp Hi Hi32 Edat. set (i := fc_idx ch) in *. pose proof (rp_ok _ _ _ _ Hrep) as Hu.
  assert (exists u', represents σ d n u' /\ partial_of c u' /\ up_marked u ⊆ up_marked u') as Hhere
    by (by exists u).
  pose proof (saveChunk_test u i (fc_data ch) Hu ltac:(lia)) as Htest.
  unfold saveChunk_calls. cbn [handle f_kind f_size f_effective_path]. fold i. cbv zeta.
  destruct (up_size u <? u64 (i * CHUNK_SIZE)) eqn:E1; [by apply throughout_done|].
  destruct (negb (chunk_len _ _ =? _)) eqn:E2; [by apply throughout_done|].
  apply negb_false_iff in E2. pose proof (proj2 Htest (conj eq_refl E2)) as Hv. rewrite Edat in *.
  rewrite wrap_small by (rewrite CHUNK_SIZE_eq; lia).
  pose proof (placed_key _ _ _ Hplaced) as Hk.
  apply throughout_bind; [apply looking_at; [auto with looking|done]|]. intros os Eos.
  cbn [exec do fst snd] in *. rewrite M_bind_case in *.
  cbn [sem] in *. rewrite (open_existing_reg σ e _ _ Hk (child_ne _ _) (rp_data _ _ _ _ Hrep)) in *.
  injection Eos as <-. unfold Stream.opened. cbn [snd exec lift].
  rewrite seekp_good by (rewrite CHUNK_SIZE_eq; lia).
  destruct (saveChunk_writes e d n Hplaced σ u i _ Hrep ltac:(lia) Hv)
    as (Hrep1 & σ' & Hmark & Hrep' & _).
  apply throughout_call; [done|]. cbn [sem].
  rewrite (write_good σ _ _ (i * CHUNK_SIZE) (chunk_of c i) (rp_data _ _ _ _ Hrep)).
  apply late_at; [apply late_markChunk| |].
  - exists (up_write u i (chunk_of c i)). split; [exact Hrep1|]. split; [by apply partial_write|done].
  - change (Stream.overwrite _ _ _) with (up_data (up_write u i (chunk_of c i))).
    rewrite (eq_trans (same_markChunk _ i true _) Hmark). cbn [snd].
    destruct (partial_save c u i Hu Hp Hi) as [Hp' Em]. exists (up_save u i (chunk_of c i)).
    split_and!; [done|done|]. rewrite Em. set_solver.
Qed.
End Stored.

(** ** The handlers of a request about an upload that is there *)
Section Handlers.
Context `{Blake2bLaws} `{UuidTextLaws} (msg : Message) (Hv : valid_request msg).

Abbreviation stored σ u := (represents σ (upload_dir (client_uuid msg)) (file_name msg) u).

Lemma offer_again_stays σ u :
  msg_type msg = MSGTYPE_FILE_OFFER -> stored σ u -> throughout (respond_calls msg) (eq σ) σ.
Proof.
  intros Ht [_ Hd Hdata (bm & Hm & _)]. unfold respond_calls. rewrite Ht, Z.eqb_refl. cbv zeta.
  apply stays_bind; [by eapply stays_new_FileRemote; [apply (request_placed msg Hv)|..]|].
  intros f _. apply stays_bind; [apply looking_answer|]. intros a _. by apply throughout_done.
Qed.

Lemma chunk_throughout (c : bytes) σ u :
  msg_type msg = MSGTYPE_FILE_CHUNK_DATA -> 0 <= idx (chunk_data msg) < n_chunks (zlen c) ->
  data (chunk_data msg) = chunk_of c (idx (chunk_data msg)) -> stored σ u -> partial_of c u ->
  throughout (respond_calls msg)
    (fun σ' => exists u', stored σ' u' /\ partial_of c u' /\ up_marked u ⊆ up_marked u') σ.
Proof.
  intros Ht Hi Edat Hrep Hp. pose proof (request_placed msg Hv) as Hpl.
  assert (idx (chunk_data msg) < 2 ^ 32) as Hi32.
  { pose proof (up_chunks_bounds u (rp_ok _ _ _ _ Hrep)) as Hb.
    rewrite (partial_chunks c u Hp) in Hb. lia. }
  pose proof (makeRemoteFile_run (request_path msg) _ _ _ Hpl σ SERVER_BASE_PATH u eq_refl Hrep) as Hmk.
  rewrite <- (same_makeRemoteFile _ _ σ) in Hmk.
  set (ch := mk_chunk (idx (chunk_data msg)) (data (chunk_data msg)) (chunk_hash (chunk_data msg))).
  set (f := handle _ _ _) in *.
  pose proof (saveChunk_throughout (request_path msg) _ _ _ Hpl c u ch σ Hrep Hp Hi Hi32 Edat) as Hsave.
  unfold respond_calls. rewrite Ht, Z.eqb_refl. cbv zeta.
  change (MSGTYPE_FILE_CHUNK_DATA =? MSGTYPE_FILE_OFFER) with false. cbn iota.
  apply throughout_bind.
  { apply (throughout_mono _ (eq σ)); [by eapply stays_makeRemoteFile|]. intros ? <-. by exists u. }
  rewrite Hmk. intros file [= <-]. cbn [snd]. apply throughout_bind; [exact Hsave|].
  intros _ _. apply throughout_bind; [|intros a _; apply throughout_done].
  - apply looking_at; [apply looking_answer|]. exact (throughout_end _ _ _ Hsave).
  - rewrite (looking_same _ _ (looking_answer _ _)). exact (throughout_end _ _ _ Hsave).
Qed.
End Handlers.

(** ** The first offer, stopped when its metadata file is still empty *)

(** [p] may be stopped with the disk [σ']. *)
Definition may_leave {A : Type} (p : prog A) σ σ' : Prop := exists n, snd (solo n p σ) = σ'.

Lemma may_leave_here {A : Type} (p : prog A) σ : may_leave p σ σ.
Proof. by exists 0%nat. Qed.

Lemma may_leave_once {X : Set} {A : Type} (c : call X) (f : X -> prog A) σ :
  may_leave (Call c f) σ (snd (sem c σ)).
Proof. exists 1%nat. cbn. by destruct (sem c σ) as [[x|e|] σ']. Qed.

Lemma may_leave_next {X : Set} {A : Type} (c : call X) (f : X -> prog A) (x : X) σ σ1 σ' :
  sem c σ = (Ok x, σ1) -> may_leave (f x) σ1 σ' -> may_leave (Call c f) σ σ'.
Proof. intros E [n Hn]. exists (S n). cbn [solo step_call]. by rewrite E. Qed.

Lemma may_leave_bind_l {A B : Type} (p : prog A) (f : A -> prog B) σ σ' :
  may_leave p σ σ' -> may_leave (p ≫= f) σ σ'.
Proof.
  intros [n Hn]. revert p σ Hn. induction n as [|n IH]; intros p σ Hn.
  { cbn in Hn. subst. apply may_leave_here. }
  destruct p as [r|X c k].
  { rewrite solo_done in Hn. cbn in Hn. subst. apply may_leave_here. }
  change (may_leave (Call c (fun x => k x ≫= f)) σ σ').
  pose proof (may_leave_once c (fun x => k x ≫= f) σ) as Hone. cbn [solo step_call] in Hn.
  destruct (sem c σ) as [[x|e|] σ1] eqn:E.
  - apply (may_leave_next c _ x σ σ1); [done|]. by apply IH.
  - rewrite solo_done in Hn. cbn in Hn. by subst.
  - rewrite solo_done in Hn. cbn in Hn. by subst.
Qed.

Lemma may_leave_bind_r {A B : Type} (p : prog A) (f : A -> prog B) (a : A) σ σ1 σ' :
  exec p σ = (Ok a, σ1) -> may_leave (f a) σ1 σ' -> may_leave (p ≫= f) σ σ'.
Proof.
  revert σ. induction p as [r|X c k IH]; intros σ E Hf.
  - cbn in E. injection E as -> ->. exact Hf.
  - cbn [exec] in E. rewrite M_bind_case in E. destruct (sem c σ) as [[x|e|] σ2] eqn:Ec; [|done..].
    change (may_leave (Call c (fun x => k x ≫= f)) σ σ').
    apply (may_leave_next c _ x σ σ2); [done|]. by apply IH.
Qed.

Section Torn.
Context `{Blake2bLaws} `{UuidTextLaws} (path e d n : bytes) (Hplaced : placed e d n).

(** The directories and an empty metadata file; perhaps the data file. *)
Record torn (size : Z) σ : Prop := mk_torn {
  to_dirs : dirs_exist σ (Path.resolve d);
  to_meta : σ !! data_key d (meta_name n) = Some (Reg []);
  to_data : σ !! data_key d n = None \/ σ !! data_key d n = Some (Reg (zeros (Z.to_nat size))) }.

Lemma may_leave_torn (hash : bytes) (size : Z) σ :
  dirs_free σ (Path.resolve d) -> σ !! data_key d n = None -> σ !! data_key d (meta_name n) = None ->
  exists σ1, may_leave (new_FileRemote_calls path hash size e) σ σ1 /\ torn size σ1.
Proof.
  intros Hfree Hnd Hnm. pose proof (placed_meta_key _ _ _ Hplaced) as Hmk.
  destruct (create_directories_spec σ d (placed_dir_ne _ _ _ Hplaced) Hfree) as (σ1 & Hcd & Hw).
  pose proof Hw as [Hd1 _]. rewrite <- (same_create_directories d σ) in Hcd.
  assert (forall m, σ1 !! data_key d m = σ !! data_key d m) as Hkeys
    by (intros m; apply (with_dirs_child _ _ _ _ Hw)).
  pose proof (same_create_directories d σ1) as Hcd1.
  rewrite (create_directories_id σ1 d (placed_dir_ne _ _ _ Hplaced) Hd1) in Hcd1.
  exists (<[data_key d (meta_name n) := Reg []]> σ1). split.
  - unfold new_FileRemote_calls. rewrite new_FileMetadata_meta_of.
    apply (may_leave_bind_r _ _ (meta_of e size hash) σ σ); [done|].
    rewrite (placed_parent _ _ _ Hplaced). apply (may_leave_bind_r _ _ tt σ σ1 _ Hcd).
    apply may_leave_bind_l. unfold createIfNotExist_calls.
    cbn [meta_of fm_effective_path fm_metadata_file]. rewrite (placed_parent _ _ _ Hplaced).
    apply (may_leave_bind_r _ _ tt σ1 σ1 _ Hcd1).
    apply (may_leave_bind_r _ _ false σ1 σ1).
    { rewrite (same_do (Exists (metadata_path e)) σ1). cbn [sem].
      rewrite (exists_stat σ1 _ _ Hmk (child_ne _ _)).
      fold (data_key d (meta_name n)). by rewrite Hkeys, Hnm. }
    assert (sem (OpenTrunc (metadata_path e)) σ1 =
      (Ok (Stream.opened (data_key d (meta_name n))), <[data_key d (meta_name n) := Reg []]> σ1)) as Eo.
    { apply (open_trunc_new σ1 _ _ Hmk (child_ne _ _)).
      - unfold data_key. rewrite child_parent. by apply dirs_exist_stat.
      - fold (data_key d (meta_name n)). by rewrite Hkeys. }
    pose proof (may_leave_once (OpenTrunc (metadata_path e)) (fun st => Done (Ok st)) σ1) as Hone.
    rewrite Eo in Hone. by apply may_leave_bind_l.
  - constructor; [by apply dirs_exist_insert|apply lookup_insert_eq|left].
    rewrite lookup_insert_ne by apply (not_eq_sym (placed_keys_ne d n)). by rewrite Hkeys.
Qed.

(** What the server makes of such an upload. *)
Lemma torn_next (size : Z) (hash : bytes) σ :
  σ !! data_key d (meta_name n) = Some (Reg []) ->
  nextMissingChunk (meta_of e size hash) 0 σ = (Ok UINT64_MAX, σ).
Proof.
  intros Hm. pose proof (placed_meta_key _ _ _ Hplaced) as Hmk. unfold nextMissingChunk.
  cbn [meta_of fm_metadata_file fm_header_size fm_file_n_chunks].
  mstep (open_existing_reg σ _ _ _ Hmk (child_ne _ _) Hm).
  change (u64 (80 + 0 / 8)) with 80. rewrite seekg_opened by lia.
  assert (file_length (metadata_path e) σ = (Ok 0%nat, σ)) as Hl
    by (unfold file_length, gets; by rewrite Hmk, (content_reg σ _ [] Hm)).
  mstep Hl.
  destruct (skip_full_spec σ (Path.resolve d ++ [meta_name n]) [] 2 80 Hm ltac:(lia) ltac:(cbn; lia))
    as (t & Ht & _ & [(b & Hb & _)|(_ & ms & Hms)]); [by rewrite lookup_nil in Hb|].
  cbn [Nat.add]. by mstep Hms.
Qed.

Lemma torn_file (size : Z) (hash : bytes) σ :
  0 <= size < 2 ^ 32 -> zlen hash = HASH_SIZE -> hash <> calc_hash_vec (zeros (Z.to_nat size)) ->
  torn size σ ->
  let f := mk_file path hash size e (FileRemote (meta_of e size hash)) in
  exists σ', new_FileRemote path hash size e σ = (Ok f, σ') /\ torn size σ' /\
    isComplete f σ' = (Ok false, σ') /\ getNextMissingChunk f 0 σ' = (Ok UINT64_MAX, σ').
Proof.
  intros Hs Hh Hne [Hd Hm Hdata] f. pose proof (placed_key _ _ _ Hplaced) as Hk.
  assert (exists σ', new_FileRemote path hash size e σ = (Ok f, σ') /\ torn size σ' /\
    σ' !! data_key d n = Some (Reg (zeros (Z.to_nat size)))) as (σ' & Hnew & Ht & Hd').
  { destruct Hdata as [Hn|Hz].
    2: { exists σ. split; [by eapply new_FileRemote_old|]. split; [|done]. constructor; auto. }
    unfold new_FileRemote. rewrite new_FileMetadata_meta_of.
    mstep (@eq_refl _ (lift (Ok (meta_of e size hash)) σ)). rewrite (placed_parent _ _ _ Hplaced).
    mstep (create_directories_id σ d (placed_dir_ne _ _ _ Hplaced) Hd).
    destruct (createIfNotExist_old σ (meta_of e size hash) d n _ Hplaced eq_refl
      (dirs_exist_free _ _ Hd) Hm) as (σ1 & Hrun & Hw).
    rewrite (with_dirs_id _ _ _ Hd Hw) in Hrun. mstep Hrun.
    pose proof (exists_stat σ e _ Hk (child_ne _ _)) as Hex.
    fold (data_key d n) in Hex. rewrite Hn in Hex. mstep Hex.
    assert (Fs.stat σ (take (length (data_key d n) - 1) (data_key d n)) = Some Dir) as Hdir
      by (unfold data_key; rewrite child_parent; by apply dirs_exist_stat).
    mstep (open_trunc_new σ e _ Hk (child_ne _ _) Hdir Hn).
    destruct (create_sparse d n σ size ltac:(lia)) as [os Hos]. mstep Hos.
    eexists. split; [reflexivity|]. split; [|apply lookup_insert_eq].
    constructor; [by apply dirs_exist_insert| |right; apply lookup_insert_eq].
    by rewrite lookup_insert_ne by apply placed_keys_ne. }
  exists σ'. pose proof (torn_next size hash σ' (to_meta _ _ Ht)) as Hnext.
  split; [done|]. split; [done|]. split; [|exact Hnext].
  unfold isComplete. cbn [f f_kind f_effective_path f_hash].
  pose proof (exists_stat σ' e _ Hk (child_ne _ _)) as Hex.
  fold (data_key d n) in Hex. rewrite Hd' in Hex. mstep Hex. mstep Hnext.
  rewrite Z.eqb_refl. mstep (calc_hash_run σ' e). rewrite Hk. fold (data_key d n).
  rewrite stat_ne, Hd' by apply child_ne.
  pose proof (blake_digest_size (blake_Update blake_init (zeros (Z.to_nat size)))) as Hsz.
  fold (calc_hash_vec (zeros (Z.to_nat size))) in Hsz. ztest. unfold mret, M_ret. do 2 f_equal.
  apply bool_decide_eq_false. rewrite take_ge by lia. done.
Qed.
End Torn.

(** *** The restarted transfer *)
Section Stalled.
Context `{Blake2bLaws} `{UuidTextLaws} (j : job) (Hok : job_ok j).
Context (Hsmall : zlen (jb_content j) < 65535 * CHUNK_SIZE).
Context (Hhash : calc_hash_vec (jb_content j) <> calc_hash_vec (zeros (length (jb_content j)))).

Abbreviation offer_msg := (buildMsgOffer 1 (jb_uuid j) (job_file j)).
Abbreviation torn_at := (torn (job_dir j) (jb_name j) (zlen (jb_content j))).

Lemma offer_placed :
  placed (Path.append SERVER_BASE_PATH (request_path (arrived offer_msg))) (job_dir j) (jb_name j).
Proof.
  destruct (offer_received j Hok) as (_ & En & Hv & _).
  pose proof (request_placed _ Hv) as Hp. rewrite En in Hp. exact Hp.
Qed.

(** The server asks for a chunk that is not there. *)
Lemma torn_server_turn σ :
  torn_at σ ->
  exists σ' m, server_turn (encode offer_msg) σ = Ok (σ', encode m) /\ torn_at σ' /\
    wf_message m /\ client_uuid m = jb_uuid j /\ file_name m = jb_name j /\
    msg_type m = MSGTYPE_FILE_CHUNK_REQ /\ chunk_idx_first (chunk_req m) = 65535.
Proof.
  intros Htorn. destruct (offer_received j Hok) as (Hwf & En & Hv & Es).
  pose proof Hok as [Ht _]. pose proof Ht as [Hu Hub Hfn Hs Hnb Hsh Hf Hc Hsz].
  set (msg := arrived offer_msg) in *. set (path := request_path msg).
  assert (zlen (file_hash (offer msg)) = HASH_SIZE) as Hh by apply blake_digest_size.
  assert (file_hash (offer msg) <> calc_hash_vec (zeros (Z.to_nat (zlen (jb_content j))))) as Hne
    by (rewrite Nat2Z.id; exact Hhash).
  destruct (torn_file path _ _ _ offer_placed (zlen (jb_content j)) (file_hash (offer msg)) σ
    ltac:(lia) Hh Hne Htorn) as (σ' & Hnew & Htorn' & Hcomp & Hnext).
  set (f := mk_file _ _ _ _ _) in *.
  set (m := buildMsgChunkReq (seq_number msg + 1) (client_uuid msg) f UINT64_MAX UINT16_MAX).
  assert (Path.filename (f_path f) = file_name msg) as Efn by (by apply request_filename).
  assert (wf_message m) as Hwfm.
  { apply buildMsgChunkReq_wf. constructor; [apply Hv|apply Hv|]. rewrite Efn. apply Hv. }
  exists σ', m. split; [|split_and!; try done; by rewrite <- En, <- Efn].
  unfold server_turn. rewrite deliver_encode by done. cbn [mbind res_bind fmap list_fmap].
  assert (respond msg σ = (Ok (Some m), σ')) as Hr.
  { unfold respond. change (msg_type msg =? MSGTYPE_FILE_OFFER) with true. cbn iota.
    unfold makeRemoteFile_offer. rewrite Es. mstep Hnew. unfold answer. mstep Hcomp. by mstep Hnext. }
  fold msg. rewrite (work_one (server_handler sent_whole) _ _ _ _
    (handleRequest_reply sent_whole msg true m σ σ' [] Hr Hwfm sent_whole_all)). done.
Qed.

(** The client cannot answer. *)
Lemma stalled_client_turn m cl :
  wf_message m -> client_uuid m = jb_uuid j -> file_name m = jb_name j ->
  msg_type m = MSGTYPE_FILE_CHUNK_REQ -> chunk_idx_first (chunk_req m) = 65535 ->
  cl_fs cl = jb_home j -> client_files cl = {[jb_name j := job_file j]} ->
  client_turn (jb_uuid j) (encode m) cl = Ok (mk_client (cl_fs cl) (client_files cl) []).
Proof.
  intros Hwf Eu En Hty Hi Efs Efiles. pose proof Hok as [Ht _].
  pose proof Ht as [Hu Hub Hfn Hs Hnb Hsh Hf Hc Hsz].
  unfold client_turn. rewrite deliver_encode by done. cbn [mbind res_bind fmap list_fmap work].
  set (cl0 := mk_client (cl_fs cl) (client_files cl) []). set (msg := arrived m).
  assert (file_name msg = jb_name j) as En'
    by (unfold msg; cbn [received file_name]; rewrite wire_name_short; by rewrite En).
  assert (client_files cl0 !! file_name msg = Some (job_file j)) as Hlook
    by (cbn [client_files cl0]; rewrite Efiles, En'; apply lookup_singleton_eq).
  assert (chunk_idx_first (chunk_req msg) = 65535) as Hi'
    by (unfold msg, received; rewrite Hty; exact Hi).
  assert (local_at (cl_fs cl0) (job_file j) (jb_content j)) as Hl
    by (cbn; rewrite Efs; by eapply f_local).
  rewrite M_bind_case. unfold try_ignore, Handler.handleRequest, client_handler.
  by rewrite (chunk_request_range (jb_uuid j) sent_whole msg cl0 (job_file j) (jb_content j) Eu Hlook
    Hty Hl) by (rewrite Hi'; lia).
Qed.

(** Then nothing is sent any more. *)
Lemma silent_rounds k σ cl :
  cl_sent cl = [] -> rounds (jb_uuid j) k σ cl = Ok (σ, cl).
Proof.
  intros Es. induction k as [|k IH]; [done|]. cbn [rounds]. rewrite Es.
  unfold server_turn, client_turn. rewrite deliver_nil. cbn [mbind res_bind fmap list_fmap work mret M_ret].
  rewrite deliver_nil. cbn [mbind res_bind fmap list_fmap work mret M_ret].
  replace (mk_client (cl_fs cl) (client_files cl) []) with cl by (rewrite <- Es; by destruct cl).
  exact IH.
Qed.

Lemma torn_rounds k σ :
  torn_at σ -> exists σ' cl', rounds (jb_uuid j) k σ (started j) = Ok (σ', cl') /\ torn_at σ' /\
    uploadsCompleted cl' = false.
Proof.
  intros Htorn. pose proof (started_eq j Hok) as Est.
  assert (forall cl, client_files cl = {[jb_name j := job_file j]} -> uploadsCompleted cl = false) as Hnot.
  { intros cl E. apply bool_decide_eq_false. rewrite E. apply map_non_empty_singleton. }
  destruct k as [|k].
  { exists σ, (started j). rewrite Est. split_and!; [done|done|by apply Hnot]. }
  destruct (torn_server_turn σ Htorn) as (σ' & m & Hsrv & Ht' & Hwf & Eu & En & Hty & Hi).
  assert (cl_fs (started j) = jb_home j /\ client_files (started j) = {[jb_name j := job_file j]} /\
    cl_sent (started j) = encode offer_msg) as (Efs & Efiles & Es) by (by rewrite Est).
  exists σ', (mk_client (cl_fs (started j)) (client_files (started j)) []).
  cbn [rounds]. rewrite Es, Hsrv. cbn [mbind res_bind].
  rewrite (stalled_client_turn m (started j) Hwf Eu En Hty Hi Efs Efiles). cbn [mbind res_bind].
  split; [by apply silent_rounds|]. split; [done|]. by apply Hnot.
Qed.

Lemma killed_torn σ :
  fresh σ j -> exists n, torn_at (snd (solo n (respond_calls (arrived offer_msg)) σ)).
Proof.
  intros (Hfree & Hd & Hm). destruct (offer_received j Hok) as (Hwf & En & Hv & Es).
  destruct (may_leave_torn (request_path (arrived offer_msg)) _ _ _ offer_placed
    (file_hash (offer (arrived offer_msg))) (zlen (jb_content j)) σ Hfree Hd Hm) as (σ1 & Hmay & Htorn).
  assert (may_leave (respond_calls (arrived offer_msg)) σ σ1) as [n Hn].
  { unfold respond_calls. change (msg_type (arrived offer_msg) =? MSGTYPE_FILE_OFFER) with true.
    cbn iota zeta. apply may_leave_bind_l. rewrite Es. exact Hmay. }
  exists n. by rewrite Hn.
Qed.
End Stalled.

(** ** Properties *)
Section Properties.
Context `{Blake2bLaws} `{UuidTextLaws}.

(** C14: killing the server while it stores a chunk loses nothing: after any number of the
    system calls of the handler, alone on the disk, there is an upload in which every chunk
    that was marked before still is, and every marked chunk holds the bytes of the file, so
    that the transfer resumes from it; the bytes are in the file before the mark is. *)
Theorem killed_while_saving (msg : Message) (c : bytes) σ u (n : nat) :
  valid_request msg -> msg_type msg = MSGTYPE_FILE_CHUNK_DATA ->
  0 <= idx (chunk_data msg) < n_chunks (zlen c) ->
  data (chunk_data msg) = chunk_of c (idx (chunk_data msg)) ->
  represents σ (upload_dir (client_uuid msg)) (file_name msg) u -> partial_of c u ->
  exists u', represents (snd (solo n (respond_calls msg) σ)) (upload_dir (client_uuid msg))
      (file_name msg) u' /\ partial_of c u' /\ up_marked u ⊆ up_marked u'.
Proof. intros Hv Ht Hi Ed Hrep Hp. by apply (chunk_throughout msg Hv c σ u). Qed.

(** C36: killing the server while it accepts the first offer of a file can lose the upload for
    good: stopped between the calls that create the metadata file and the one that writes
    its header, it leaves an empty metadata file, which is taken for the one of a file with
    every chunk present; however often client and server are started again, and whatever
    the number of exchanges, the client is asked for chunk 65535, sends nothing, and never
    completes (unless the file hashes like as many zeros). *)
Theorem killed_offer_stalls (j : job) σ :
  job_ok j -> zlen (jb_content j) < 65535 * CHUNK_SIZE ->
  calc_hash_vec (jb_content j) <> calc_hash_vec (zeros (length (jb_content j))) -> fresh σ j ->
  exists n, let torn_at := torn (job_dir j) (jb_name j) (zlen (jb_content j)) in
    torn_at (snd (solo n (respond_calls (arrived (buildMsgOffer 1 (jb_uuid j) (job_file j)))) σ)) /\
    forall σ1 k, torn_at σ1 ->
      exists σ2 cl, rounds (jb_uuid j) k σ1 (started j) = Ok (σ2, cl) /\
        uploadsCompleted cl = false /\ torn_at σ2.
Proof.
  intros Hok Hsmall Hhash Hf. destruct (killed_torn j Hok σ Hf) as [n Hn]. exists n. cbv zeta.
  split; [exact Hn|]. intros σ1 k Ht.
  destruct (torn_rounds j Hok Hsmall Hhash k σ1 Ht) as (σ2 & cl & Hrun & Ht2 & Hc). by exists σ2, cl.
Qed.
End Properties.

(** ** Witnesses *)
Section Witnesses.
Import ToyHash ToyUuid.

(** The last chunk of a file, the handler stopped after its 20th call. *)
Lemma killed_while_saving_witness :
  exists u', represents (snd (solo 20 (respond_calls sample_chunk_msg)
      (sample_server_fs sample_upload [128]))) (upload_dir sample_uuid) (str "a.txt") u' /\
    partial_of (replicate 5000 65) u' /\ {[0]} ⊆ up_marked u'.
Proof.
  destruct (killed_while_saving sample_chunk_msg (replicate 5000 65)
    (sample_server_fs sample_upload [128]) sample_upload 20) as (u' & P1 & P2 & P3).
  - apply sample_chunk_valid.
  - reflexivity.
  - decide_closed.
  - vm_compute. reflexivity.
  - apply (sample_server_represents _ _ sample_up_ok sample_bitmap).
  - constructor; [reflexivity|reflexivity|]. intros j Hj. cbn in Hj.
    apply elem_of_singleton in Hj. rewrite CHUNK_SIZE_eq in Hj. cbn [up_data sample_upload].
    assert (j < 3968)%nat by zdiv.
    by rewrite lookup_app_l, !lookup_replicate_2 by (rewrite ?length_replicate; lia).
  - exists u'. split; [exact P1|split; [exact P2|exact P3]].
Defined.

Definition small_job : job := job_of sample_uuid (replicate 100 66).

Lemma killed_offer_stalls_witness :
  exists n σ1, σ1 = snd (solo n (respond_calls (arrived (buildMsgOffer 1 (jb_uuid small_job)
      (job_file small_job)))) ∅) /\ σ1 !! job_meta small_job = Some (Reg []) /\
    exists σ2 cl, rounds sample_uuid 1000 σ1 (started small_job) = Ok (σ2, cl) /\
      uploadsCompleted cl = false.
Proof.
  destruct (killed_offer_stalls small_job ∅) as (n & P1 & P2).
  - apply job_of_ok; [reflexivity|decide_closed|decide_closed|decide_closed].
  - decide_closed.
  - vm_compute. discriminate.
  - split; [apply empty_dirs_free|split; reflexivity].
  - eexists n, _. split; [reflexivity|]. split; [exact (to_meta _ _ _ _ P1)|].
    destruct (P2 _ 1000%nat P1) as (σ2 & cl & Q1 & Q2 & _). exists σ2, cl. split; [exact Q1|exact Q2].
Defined.
End Witnesses.
