(* ===== verification/Changed.v ===== *)
(** * A file that changed after its upload

    The server keeps the metadata of the first upload under the name of the file. What its
    client gets when it offers a file of another content under this name: a request for chunk
    65535, which it cannot answer, or, when the bitmap has a spare bit, a COMPLETE for a
    file that the server has not taken. *)
From S2P Require Import Prelude StdFs Msg FileMeta Identity File Upload.
From S2P Require Import MsgFctry Conn Framing Server Client Handler Transfer Clients Calls Crash.
Import FsFacts DirFacts.

Section Changed.
Context `{Blake2bLaws} `{UuidTextLaws} (j : job) (Hok : job_ok j).
Implicit Types (σ : fs) (u : upload).

Abbreviation offer_msg := (buildMsgOffer 1 (jb_uuid j) (job_file j)).
Abbreviation content := (jb_content j).

Lemma started_offers :
  cl_fs (started j) = jb_home j /\ client_files (started j) = {[jb_name j := job_file j]} /\
  cl_sent (started j) = encode offer_msg.
Proof. by rewrite (started_eq j Hok). Qed.

Lemma offering_incomplete cl :
  client_files cl = {[jb_name j := job_file j]} -> uploadsCompleted cl = false.
Proof. intros E. apply bool_decide_eq_false. rewrite E. apply map_non_empty_singleton. Qed.

(** The server's turn at the offer, when the handler has an answer. *)
Lemma offer_turn σ σ' m :
  respond (arrived offer_msg) σ = (Ok (Some m), σ') -> wf_message m ->
  server_turn (encode offer_msg) σ = Ok (σ', encode m).
Proof.
  intros Hr Hwf. destruct (offer_received j Hok) as (Hwfo & _).
  unfold server_turn. rewrite deliver_encode by done. cbn [mbind res_bind fmap list_fmap].
  by rewrite (work_one (server_handler sent_whole) _ _ _ _
    (handleRequest_reply sent_whole _ true m σ σ' [] Hr Hwf sent_whole_all)).
Qed.

(** *** No spare bit *)
Section Smaller.
Context (Hsmall : zlen content < 65535 * CHUNK_SIZE).

Lemma changed_offer_turn σ u :
  represents σ (job_dir j) (jb_name j) u -> up_missing u = [] ->
  ~ spare_bit u (zlen content) -> calc_hash_vec content <> calc_hash_vec (up_data u) ->
  exists m, server_turn (encode offer_msg) σ = Ok (σ, encode m) /\
    wf_message m /\ client_uuid m = jb_uuid j /\ file_name m = jb_name j /\
    msg_type m = MSGTYPE_FILE_CHUNK_REQ /\ chunk_idx_first (chunk_req m) = 65535.
Proof.
  intros Hrep Hmiss Hn Hne. destruct (offer_received j Hok) as (Hwfo & En & Hv & Es).
  pose proof (n_chunks_bounds (zlen content) ltac:(lia)) as Hb.
  destruct (changed_file_stalls sent_whole sent_whole_all (arrived offer_msg) σ [] u Hv eq_refl)
    as (m & Hrun & Hwf & Eu & En' & Hty & Hi).
  - rewrite En. exact Hrep.
  - done.
  - rewrite Es. rewrite CHUNK_SIZE_eq in Hb. lia.
  - by rewrite Es.
  - apply blake_digest_size.
  - exact Hne.
  - exists m. split; [|split_and!; [done|done|congruence|done|done]].
    unfold server_turn. rewrite deliver_encode by done. cbn [mbind res_bind fmap list_fmap].
    by rewrite (work_one (server_handler sent_whole) _ _ _ _ Hrun).
Qed.

Lemma changed_rounds σ u k :
  represents σ (job_dir j) (jb_name j) u -> up_missing u = [] ->
  ~ spare_bit u (zlen content) -> calc_hash_vec content <> calc_hash_vec (up_data u) ->
  exists cl, rounds (jb_uuid j) k σ (started j) = Ok (σ, cl) /\ uploadsCompleted cl = false.
Proof.
  intros Hrep Hmiss Hn Hne. destruct started_offers as (Efs & Efiles & Es).
  destruct k as [|k]; [exists (started j); split; [done|by apply offering_incomplete]|].
  destruct (changed_offer_turn σ u Hrep Hmiss Hn Hne) as (m & Hsrv & Hwf & Eu & En & Hty & Hi).
  exists (mk_client (cl_fs (started j)) (client_files (started j)) []).
  cbn [rounds]. rewrite Es, Hsrv. cbn [mbind res_bind].
  rewrite (stalled_client_turn j Hok Hsmall m (started j) Hwf Eu En Hty Hi Efs Efiles). cbn [mbind res_bind].
  split; [by apply silent_rounds|by apply offering_incomplete].
Qed.
End Smaller.

(** *** A spare bit *)

(** The bits behind the last chunk of the old file are taken for chunks of the new one. *)
Lemma grown_file_run σ path e u bm size hash :
  placed e (job_dir j) (jb_name j) -> represents σ (job_dir j) (jb_name j) u -> up_missing u = [] ->
  σ !! job_meta j = Some (Reg (header (up_size u) CHUNK_SIZE (up_hash u) ++ bm)) ->
  chunk_bit bm (up_chunks u) = false -> spare_bit u size ->
  let f := mk_file path hash size e (FileRemote (meta_of e size hash)) in
  new_FileRemote path hash size e σ = (Ok f, σ) /\ isComplete f σ = (Ok false, σ) /\
  getNextMissingChunk f 0 σ = (Ok (up_chunks u), σ).
Proof.
  intros Hp [Hu Hd Hdata (bm' & Hm & Hbm)] Hmiss Hm' Hbit Hn f.
  assert (bm' = bm) as -> by (unfold job_meta in Hm'; rewrite Hm in Hm'; injection Hm'; apply app_inv_head).
  pose proof (up_chunks_bounds u Hu) as Hub.
  pose proof (changed_meta_at _ _ _ _ _ _ size hash Hp Hu Hbm Hm) as Hat.
  unfold spare_bit in Hn. rewrite <- (bo_len _ _ Hbm) in Hn.
  assert (nextMissingChunk (meta_of e size hash) 0 σ = (Ok (up_chunks u), σ)) as Hnext.
  { destruct (nextMissingChunk_bits _ _ _ _ 0 Hat ltac:(lia)) as (r & -> & Hr). do 2 f_equal.
    unfold first_missing in Hr. change (8 * (0 / 8)) with 0 in Hr. cbn [fm_file_n_chunks meta_of] in Hr.
    destruct Hr as [(Hr & Hr0 & Hr1)|[_ Hall]]; [|rewrite Hall in Hbit by lia; done].
    destruct (Z.lt_trichotomy r (up_chunks u)) as [Hlt|[Heq|Hgt]]; [|done|rewrite Hr1 in Hbit by lia; done].
    rewrite (bo_bits _ _ Hbm) in Hr0 by lia. apply bool_decide_eq_false in Hr0.
    destruct Hr0. apply up_missing_nil; [done|lia]. }
  split; [by eapply new_FileRemote_old|]. split; [|exact Hnext].
  unfold isComplete. cbn [f f_kind f_effective_path f_hash].
  pose proof (exists_stat σ e _ (placed_key _ _ _ Hp) (child_ne _ _)) as Hex.
  fold (data_key (job_dir j) (jb_name j)) in Hex. rewrite Hdata in Hex. mstep Hex. mstep Hnext.
  rewrite (proj2 (Z.eqb_neq _ _)) by (unfold UINT64_MAX; lia). done.
Qed.

(** An incomplete upload of which chunk [i] is the next one. *)
Definition waiting_for (i : Z) : upload :=
  mk_upload (zlen content) [] [] (list_to_set (seqZ 0 i)).

Lemma waiting_next (i : Z) :
  0 <= i < n_chunks (zlen content) ->
  up_next (waiting_for i) = i /\ up_complete (waiting_for i) = false.
Proof.
  intros Hi. assert (i ∉ up_marked (waiting_for i)) as Hni
    by (cbn; rewrite elem_of_list_to_set, elem_of_seqZ; lia).
  split.
  - apply up_next_first; [exact Hi|done|].
    intros k Hk. cbn. rewrite elem_of_list_to_set, elem_of_seqZ. lia.
  - apply bool_decide_eq_false. intros [Hm _]. apply Hni. by apply (proj1 (up_missing_nil _) Hm).
Qed.

Lemma grown_offer_turn σ u bm :
  represents σ (job_dir j) (jb_name j) u -> up_missing u = [] ->
  σ !! job_meta j = Some (Reg (header (up_size u) CHUNK_SIZE (up_hash u) ++ bm)) ->
  chunk_bit bm (up_chunks u) = false -> spare_bit u (zlen content) ->
  exists m, server_turn (encode offer_msg) σ = Ok (σ, encode m) /\
    answered (jb_uuid j) (jb_name j) m (waiting_for (up_chunks u)).
Proof.
  intros Hrep Hmiss Hm Hbit Hn. destruct (offer_received j Hok) as (_ & En & Hv & Es).
  set (msg := arrived offer_msg) in *. pose proof (request_placed msg Hv) as Hp. rewrite En in Hp.
  pose proof (up_chunks_bounds u (rp_ok _ _ _ _ Hrep)) as Hub. pose proof Hn as Hn'. unfold spare_bit in Hn'.
  destruct (waiting_next (up_chunks u) ltac:(lia)) as [Hnext Hinc].
  destruct (grown_file_run σ (request_path msg) _ u bm (zlen content) (file_hash (offer msg)) Hp Hrep
    Hmiss Hm Hbit Hn) as (Hnew & Hcomp & Hget).
  set (f := mk_file _ _ _ _ _) in *.
  set (m := buildMsgChunkReq (seq_number msg + 1) (client_uuid msg) f (up_chunks u) UINT16_MAX).
  assert (Path.filename (f_path f) = file_name msg) as Efn by (by apply request_filename).
  assert (wf_message m) as Hwf.
  { apply buildMsgChunkReq_wf. constructor; [apply Hv|apply Hv|]. rewrite Efn. apply Hv. }
  assert (respond msg σ = (Ok (Some m), σ)) as Hr.
  { unfold respond. change (msg_type msg =? MSGTYPE_FILE_OFFER) with true. cbn iota.
    unfold makeRemoteFile_offer. rewrite Es. mstep Hnew. unfold answer. mstep Hcomp. by mstep Hget. }
  exists m. split; [by apply offer_turn|].
  constructor; [done|done|by rewrite <- En, <- Efn|by rewrite Hinc|]. intros _. rewrite Hnext.
  by split.
Qed.

Lemma ignored_chunk u i d :
  up_ok u -> up_chunks u <= i -> d <> [] -> up_save u i d = u.
Proof.
  intros [Hs _ _ _] Hi Hd. unfold up_save. rewrite decide_False; [done|]. intros [Hv1 Hv2].
  pose proof (n_chunks_bounds (up_size u) ltac:(lia)) as Hn. unfold up_chunks in Hi.
  assert (0 < zlen d) by (destruct d; [done|cbn [length]; lia]).
  rewrite CHUNK_SIZE_eq in *. lia.
Qed.

Lemma grown_rounds σ u bm k :
  represents σ (job_dir j) (jb_name j) u -> up_complete u = true ->
  σ !! job_meta j = Some (Reg (header (up_size u) CHUNK_SIZE (up_hash u) ++ bm)) ->
  chunk_bit bm (up_chunks u) = false -> spare_bit u (zlen content) ->
  n_chunks (zlen content) < 2 ^ 16 ->
  exists σ' cl, rounds (jb_uuid j) (2 + k) σ (started j) = Ok (σ', cl) /\
    uploadsCompleted cl = true /\ represents σ' (job_dir j) (jb_name j) u.
Proof.
  intros Hrep Hcomp Hm Hbit Hn H16. destruct started_offers as (Efs & Efiles & Es).
  pose proof (rp_ok _ _ _ _ Hrep) as Hu. pose proof (up_chunks_bounds u Hu) as Hub.
  pose proof Hn as Hn'. unfold spare_bit in Hn'.
  assert (up_missing u = []) as Hmiss by (by apply bool_decide_eq_true in Hcomp as [? _]).
  destruct Hok as [Ht _]. pose proof (chunk_inside content (up_chunks u) ltac:(lia)) as Hin.
  destruct (waiting_next (up_chunks u) ltac:(lia)) as [Hnext Hinc].
  destruct (grown_offer_turn σ u bm Hrep Hmiss Hm Hbit Hn) as (m & Hsrv & Ha).
  assert (u16 (up_chunks u) = up_chunks u) as Eu by (apply wrap_small; lia).
  destruct (client_answer_turn _ _ _ _ _ Ht m _ (started j) Ha Efs Efiles) as (cl1 & Hcl & Efs1 & _ & Hmore);
    [intros _; by rewrite Hnext, Eu|].
  destruct (Hmore Hinc) as (Efiles1 & seq & Es1). rewrite Hnext, Eu in Es1.
  destruct (server_chunk_turn _ _ _ _ _ Ht σ u seq (up_chunks u) Hrep ltac:(lia) Hin)
    as (σ' & m' & Hsrv' & Ha' & Hrep' & _).
  assert (chunk_of content (up_chunks u) <> []) as Hne.
  { intros E. pose proof (length_chunk_of content (up_chunks u) ltac:(lia) ltac:(lia)) as Hl.
    rewrite E in Hl. cbn [length] in Hl. rewrite CHUNK_SIZE_eq in *. lia. }
  rewrite (ignored_chunk u _ _ Hu (Z.le_refl _) Hne) in Ha', Hrep'.
  destruct (client_answer_turn _ _ _ _ _ Ht m' u cl1 Ha' Efs1 Efiles1) as (cl2 & Hcl2 & _ & Hend & _);
    [congruence|].
  destruct (Hend Hcomp) as [Efiles2 Es2]. exists σ', cl2.
  split; [|split; [by apply bool_decide_eq_true|exact Hrep']].
  cbn [Nat.add rounds]. rewrite Es, Hsrv. cbn [mbind res_bind]. rewrite Hcl. cbn [mbind res_bind].
  rewrite Es1, Hsrv'. cbn [mbind res_bind]. rewrite Hcl2. by apply silent_rounds.
Qed.
End Changed.

(** ** Properties *)
Section Properties.
Context `{Blake2bLaws} `{UuidTextLaws}.

(** C39: a client whose file changed after its upload was completed (another hash, whatever its
    size, below 65535 chunks) cannot upload it again: however often they exchange messages
    on an undisturbed connection, the server keeps the old file. When the new file has more
    chunks than the old one, and those of the old one are no multiple of eight (so that
    its bitmap has a spare bit, which is taken to be 0 as it is in the bitmaps that the
    server makes), the second exchange ends with the client told that its upload is
    completed; otherwise it never completes. *)
Theorem changed_file_not_uploaded (j : job) σ u (k : nat) :
  job_ok j -> zlen (jb_content j) < 65535 * CHUNK_SIZE ->
  represents σ (job_dir j) (jb_name j) u -> up_complete u = true ->
  calc_hash_vec (jb_content j) <> calc_hash_vec (up_data u) ->
  (forall bm, σ !! job_meta j = Some (Reg (header (up_size u) CHUNK_SIZE (up_hash u) ++ bm)) ->
     spare_bit u (zlen (jb_content j)) -> chunk_bit bm (up_chunks u) = false) ->
  exists σ' cl, rounds (jb_uuid j) (2 + k) σ (started j) = Ok (σ', cl) /\
    represents σ' (job_dir j) (jb_name j) u /\
    uploadsCompleted cl = bool_decide (spare_bit u (zlen (jb_content j))).
Proof.
  intros Hok Hsmall Hrep Hcomp Hne Hclear.
  assert (up_missing u = []) as Hmiss by (by apply bool_decide_eq_true in Hcomp as [? _]).
  destruct (decide (spare_bit u (zlen (jb_content j)))) as [Hspare|Hfull].
  - rewrite bool_decide_eq_true_2 by done. pose proof Hrep as [_ _ _ (bm & Hm & _)].
    pose proof (n_chunks_bounds (zlen (jb_content j)) ltac:(lia)) as Hb. rewrite CHUNK_SIZE_eq in *.
    destruct (grown_rounds j Hok σ u bm k Hrep Hcomp Hm (Hclear bm Hm Hspare) Hspare)
      as (σ' & cl & Hrun & Hc & Hrep'); [lia|by exists σ', cl].
  - rewrite bool_decide_eq_false_2 by done.
    destruct (changed_rounds j Hok Hsmall σ u (2 + k) Hrep Hmiss Hfull Hne) as (cl & Hrun & Hc).
    by exists σ, cl.
Qed.
End Properties.

(** ** Witnesses *)
Section Witnesses.
Import ToyHash ToyUuid.

(** Five bytes on the server, 5000 offered. *)
Definition grown_job : job := job_of sample_uuid (replicate 5000 66).
Definition grown_job_fs : fs := one_upload_fs (jb_name grown_job) full_upload [128].

Lemma changed_file_not_uploaded_witness :
  exists σ' cl, rounds sample_uuid 1000 grown_job_fs (started grown_job) = Ok (σ', cl) /\
    represents σ' (job_dir grown_job) (jb_name grown_job) full_upload /\ uploadsCompleted cl = true.
Proof.
  destruct (changed_file_not_uploaded grown_job grown_job_fs full_upload 998) as (σ' & cl & P1 & P2 & P3).
  - apply job_of_ok; [reflexivity|decide_closed|decide_closed|decide_closed].
  - decide_closed.
  - apply one_upload_represents; [decide_closed|exact full_upload_ok|exact full_bitmap].
  - vm_compute. reflexivity.
  - vm_compute. discriminate.
  - intros bm Hm _. change (job_meta grown_job)
      with (data_key (upload_dir sample_uuid) (meta_name (jb_name grown_job))) in Hm.
    vm_compute in Hm. injection Hm as <-. reflexivity.
  - exists σ', cl. split; [exact P1|]. split; [exact P2|]. rewrite P3. vm_compute. reflexivity.
Defined.
End Witnesses.
