(* ===== verification/System.v ===== *)
(** * The whole system, step by step

    The server process, its worker threads, and any number of client processes, each on
    its connection: a step is one event of the poll loop of one process, one request taken
    from the broker's queue, one system call of one worker's handler, or one answer sent.
    Steps of all processes and threads come in any order, and the network delivers the
    bytes in any pieces. The definitions of [Conn], [Calls], [Server] and [Client] are run
    as they are; [Transfer], [Clients] and [Workers] look at the parts one at a time. *)
From S2P Require Import Prelude StdFs Msg FileMeta Identity File Upload.
From S2P Require Import MsgFctry Conn Framing Server Client Handler Calls.
From S2P Require Import Transfer Clients Workers.
Import FsFacts DirFacts.

Implicit Types (i k w n : nat) (σ : fs) (j : job).

(** ** The state *)

(** A client process, with both ends of its connection. What it has sent and the server
    has not received is [cl_sent]. *)
Record peer := mk_peer {
  pr_uuid : bytes;
  pr_client : client;
  pr_conn : Connection;  (** the server's end *)
  pr_down : bytes;       (** sent by the server and not received yet *)
  pr_end : env }.        (** the client's end, its errno and its queue of requests *)

(** A worker of the server: waiting for a request, or in the handler of one. *)
Abbreviation worker := (option (conn_id * prog (option Message))).

Record network := mk_network {
  nw_disk : fs;
  nw_errno : Z;
  nw_queue : list Request;
  nw_workers : list worker;
  nw_peers : list peer }.

(** ** The steps *)
Definition take_sent (c : nat) (cl : client) : client :=
  mk_client (cl_fs cl) (client_files cl) (drop c (cl_sent cl)).

Definition set_worker w (x : worker) (s : network) : network :=
  mk_network (nw_disk s) (nw_errno s) (nw_queue s) (<[w := x]> (nw_workers s)) (nw_peers s).
Definition set_peer i (pe : peer) (s : network) : network :=
  mk_network (nw_disk s) (nw_errno s) (nw_queue s) (nw_workers s) (<[i := pe]> (nw_peers s)).
Definition set_queue (q : list Request) (s : network) : network :=
  mk_network (nw_disk s) (nw_errno s) q (nw_workers s) (nw_peers s).
Definition set_disk σ (s : network) : network :=
  mk_network σ (nw_errno s) (nw_queue s) (nw_workers s) (nw_peers s).
Definition set_env (e : env) (s : network) : network :=
  mk_network (nw_disk s) (e_errno e) (default [] (e_broker e)) (nw_workers s) (nw_peers s).

Section System.
Context `{Blake2b} `{UuidText}.

(** The server's poll loop: [n + 1] more bytes of client [i], or all that there are. *)
Definition server_reads i n (s : network) : option (res network) :=
  pe ← nw_peers s !! i;
  match cl_sent (pr_client pe) with
  | [] => None
  | sent =>
      Some match Conn.handleEvent i (bytes_events (take (S n) sent))
                   (mk_env (pr_conn pe) (nw_errno s) (Some (nw_queue s))) with
           | (Ok _, e, _) =>
               Ok (set_peer i (mk_peer (pr_uuid pe) (take_sent (S n) (pr_client pe)) (e_conn e)
                                 (pr_down pe) (pr_end pe)) (set_env e s))
           | (Throw x, _, _) => Throw x
           | (Undef, _, _) => Undef
           end
  end.

(** RequestBrokerWorker::run takes the first request. *)
Definition worker_takes w (s : network) : option (res network) :=
  match nw_workers s !! w, nw_queue s with
  | Some None, r :: q =>
      Some (Ok (set_worker w (Some (rq_connection r, respond_calls (rq_message r)))
                  (set_queue q s)))
  | _, _ => None
  end.

(** The next system call of its handler. *)
Definition worker_calls w (s : network) : option (res network) :=
  match nw_workers s !! w with
  | Some (Some (c, Call x f)) =>
      let (p, σ) := step_call (Call x f) (nw_disk s) in
      Some (Ok (set_worker w (Some (c, p)) (set_disk σ s)))
  | _ => None
  end.

(** What the handler sends at its end; [send] is what the socket makes of it. *)
Definition send_answer (send : bytes -> send_result) (r : res (option Message)) : res bytes :=
  response ← r;
  match response with
  | Some m => buf ← serialize m []; sendBuffer (send buf) buf
  | None => Ok []
  end.

(** The end of the handler; the worker catches its exceptions. *)
Definition worker_answers w (send : bytes -> send_result) (s : network) : option (res network) :=
  match nw_workers s !! w with
  | Some (Some (c, Done r)) =>
      Some match send_answer send r, nw_peers s !! c with
           | Ok sent, Some pe =>
               Ok (set_worker w None
                     (set_peer c (mk_peer (pr_uuid pe) (pr_client pe) (pr_conn pe)
                                    (pr_down pe ++ sent) (pr_end pe)) s))
           | Undef, _ => Undef
           | _, _ => Ok (set_worker w None s)
           end
  | _ => None
  end.

(** The poll loop of client [i]: [n + 1] more bytes, or all that there are. *)
Definition client_reads i n (s : network) : option (res network) :=
  pe ← nw_peers s !! i;
  match pr_down pe with
  | [] => None
  | down =>
      Some match Conn.handleEvent 0 (bytes_events (take (S n) down)) (pr_end pe) with
           | (Ok _, e, _) =>
               Ok (set_peer i (mk_peer (pr_uuid pe) (pr_client pe) (pr_conn pe)
                                 (drop (S n) down) e) s)
           | (Throw x, _, _) => Throw x
           | (Undef, _, _) => Undef
           end
  end.

(** The worker of client [i] handles its first request. *)
Definition client_handles i (send : bytes -> send_result) (s : network) : option (res network) :=
  pe ← nw_peers s !! i;
  match e_broker (pr_end pe) with
  | Some (r :: q) =>
      Some match work (client_handler send (pr_uuid pe)) [(true, rq_message r)]
                   (pr_client pe) with
           | (Ok _, cl) =>
               Ok (set_peer i (mk_peer (pr_uuid pe) cl (pr_conn pe) (pr_down pe)
                                 (setRequestBroker (Some q) (pr_end pe))) s)
           | (Throw x, _) => Throw x
           | (Undef, _) => Undef
           end
  | _ => None
  end.

Inductive event : Type :=
| ServerReads i n
| WorkerTakes w
| WorkerCalls w
| WorkerAnswers w (send : bytes -> send_result)
| ClientReads i n
| ClientHandles i (send : bytes -> send_result).

(** [None]: there is nothing to do for this event. *)
Definition do_step (ev : event) : network -> option (res network) :=
  match ev with
  | ServerReads i n => server_reads i n
  | WorkerTakes w => worker_takes w
  | WorkerCalls w => worker_calls w
  | WorkerAnswers w send => worker_answers w send
  | ClientReads i n => client_reads i n
  | ClientHandles i send => client_handles i send
  end.

Fixpoint run_events (evs : list event) (s : network) : res network :=
  match evs with
  | [] => Ok s
  | ev :: evs' =>
      match do_step ev s with
      | Some r => s' ← r; run_events evs' s'
      | None => run_events evs' s
      end
  end.

(** A step that [P] allows. *)
Inductive moves (P : event -> Prop) (s s' : network) : Prop :=
| moves_by ev : P ev -> do_step ev s = Some (Ok s') -> moves P s s'.

(** The socket takes all of what is sent. *)
Definition lossless (ev : event) : Prop :=
  match ev with
  | WorkerAnswers _ send | ClientHandles _ send => forall buf, taken (send buf) buf = buf
  | _ => True
  end.

(** The socket takes only a part, or nothing, of what is sent. *)
Definition lossy (send : bytes -> send_result) : Prop :=
  forall buf, buf <> [] -> taken (send buf) buf <> buf.

Definition anything (ev : event) : Prop := True.

(** The clients have been started and are connected; what the constructors leave
    uninitialised ([garbage]) may be anything. *)
Definition boot_peer (fd garbage : nat -> Z) i j : peer :=
  mk_peer (jb_uuid j) (started j) (new_Connection (fd i) (garbage i)) []
    (mk_env (new_Connection (fd i) (garbage i)) 0 (Some [])).

Definition boot (fd garbage : nat -> Z) (n_workers : nat) σ (js : list job) : network :=
  mk_network σ 0 [] (replicate n_workers None) (imap (boot_peer fd garbage) js).

Lemma do_step_workers ev (s s' : network) :
  do_step ev s = Some (Ok s') -> length (nw_workers s') = length (nw_workers s).
Proof.
  destruct ev as [i n|w|w|w send|i n|i send]; cbn [do_step]; intros E.
  - unfold server_reads in E. destruct (nw_peers s !! i) as [pe|]; [|done]. cbn in E.
    destruct (cl_sent _); [done|]. injection E as E.
    by destruct (Conn.handleEvent _ _ _) as [[[[]| |] ?] ?]; simplify_eq.
  - unfold worker_takes in E. destruct (nw_workers s !! w) as [[]|], (nw_queue s); simplify_eq.
    apply length_insert.
  - unfold worker_calls in E. destruct (nw_workers s !! w) as [[[c []]|]|]; simplify_eq.
    destruct (step_call _ _). simplify_eq. apply length_insert.
  - unfold worker_answers in E. destruct (nw_workers s !! w) as [[[c []]|]|]; simplify_eq.
    destruct (send_answer _ _), (nw_peers s !! c); simplify_eq; apply length_insert.
  - unfold client_reads in E. destruct (nw_peers s !! i) as [pe|]; [|done]. cbn in E.
    destruct (pr_down _); [done|]. injection E as E.
    by destruct (Conn.handleEvent _ _ _) as [[[[]| |] ?] ?]; simplify_eq.
  - unfold client_handles in E. destruct (nw_peers s !! i) as [pe|]; [|done].
    cbn [mbind option_bind] in E.
    destruct (e_broker _) as [[|r q]|]; [done| |done]. injection E as E.
    by repeat case_match; simplify_eq.
Qed.

Lemma moves_workers (P : event -> Prop) (s s' : network) :
  rtc (moves P) s s' -> length (nw_workers s') = length (nw_workers s).
Proof. induction 1 as [|s s1 s' [ev _ E] _ ->]; [done|by apply (do_step_workers ev)]. Qed.

Lemma run_events_workers evs (s s' : network) :
  run_events evs s = Ok s' -> length (nw_workers s') = length (nw_workers s).
Proof.
  revert s. induction evs as [|ev evs IH]; intros s E; [by injection E as ->|].
  cbn [run_events] in E. destruct (do_step ev s) as [[s1|?|]|] eqn:Ex; [|done..|by apply IH].
  rewrite <- (do_step_workers ev s s1 Ex). by apply IH.
Qed.

Lemma run_events_app l1 l2 (s : network) :
  run_events (l1 ++ l2) s = (s' ← run_events l1 s; run_events l2 s').
Proof.
  revert s. induction l1 as [|ev l1 IH]; intros s; [done|]. cbn [app run_events].
  destruct (do_step ev s) as [[s1|y|]|]; [apply IH|done|done|apply IH].
Qed.

(** The end of a handler is the one of [Server]. *)
Lemma handleRequest_split (send : bytes -> send_result) (msg : Message) (σ : fs) (out : bytes) :
  Server.handleRequest send true msg (σ, out) =
    let (r, σ') := exec (respond_calls msg) σ in
    match send_answer send r with
    | Ok sent => (Ok tt, (σ', out ++ sent))
    | Throw e => (Throw e, (σ', out))
    | Undef => (Undef, (σ', out))
    end.
Proof.
  rewrite run_respond_calls. unfold Server.handleRequest. rewrite M_bind_case.
  unfold on_fs. cbn [fst snd]. destruct (respond msg σ) as [[[m|]|e|] σ']; [| |done..].
  - rewrite M_bind_case. unfold lift. cbn [send_answer mbind res_bind].
    destruct (serialize m []) as [buf|e|]; [|done..]. cbn [res_bind].
    rewrite M_bind_case. cbn [mbind res_bind]. by destruct (sendBuffer _ _).
  - cbn. by rewrite app_nil_r.
Qed.
End System.
