(* ===== verification/Steps.v ===== *)
(** * One step of the whole system, client by client

    What is proved of a run of [System] is proved of each client's exchange on its own: its
    peer, its requests in the server's queue, and the handlers that work for it. [Exchanges]
    is the interface: what is known of an exchange ([place]), and that every step of it leads
    to such a place again, leaving the exchanges of the others where they are. With it every
    step and every run of the system stays on course ([step_course], [run_course]).
    [Network] and [Again] are its two instances. *)
From S2P Require Import Prelude StdFs Msg FileMeta Identity File Upload.
From S2P Require Import MsgFctry Conn Framing Server Client Handler Calls.
From S2P Require Import Transfer Clients Workers System.
Import FsFacts DirFacts.

Implicit Types (i k w n : nat) (σ : fs) (j : job).

(** ** The server's queue and workers, client by client *)
Section Shares.
Context `{Blake2b} `{UuidText}.

Definition queued_of i (q : list Request) : list Message :=
  rq_message <$> filter (fun r => rq_connection r = i) q.

Definition in_hand_of i (x : worker) : option (prog (option Message)) :=
  '(c, p) ← x; if decide (c = i) then Some p else None.
Definition served_of i (ws : list worker) : list (prog (option Message)) :=
  omap (in_hand_of i) ws.

Lemma queued_app i (q new : list Request) :
  queued_of i (q ++ new) = queued_of i q ++ queued_of i new.
Proof. unfold queued_of. by rewrite list.filter_app, fmap_app. Qed.

Lemma queued_all i (q : list Request) :
  Forall (fun r => rq_connection r = i) q -> queued_of i q = rq_message <$> q.
Proof.
  unfold queued_of. induction 1 as [|r q Hr _ IH]; [done|]. rewrite filter_cons_True by done.
  cbn [fmap list_fmap]. by rewrite IH.
Qed.

Lemma queued_none i k (q : list Request) :
  k <> i -> Forall (fun r => rq_connection r = i) q -> queued_of k q = [].
Proof.
  intros Hne. unfold queued_of. induction 1 as [|r q Hr _ IH]; [done|].
  rewrite filter_cons_False by congruence. exact IH.
Qed.

(** One worker changes hands. *)
Lemma served_split i w (ws : list worker) (x y : worker) :
  ws !! w = Some x ->
  exists l1 l2, served_of i ws = l1 ++ option_list (in_hand_of i x) ++ l2 /\
    served_of i (<[w := y]> ws) = l1 ++ option_list (in_hand_of i y) ++ l2.
Proof.
  intros E. pose proof (lookup_lt_Some _ _ _ E) as Hl.
  exists (served_of i (take w ws)), (served_of i (drop (S w) ws)).
  assert (forall z (l1 l2 : list worker), served_of i (l1 ++ z :: l2) =
    served_of i l1 ++ option_list (in_hand_of i z) ++ served_of i l2) as Hs.
  { intros z l1 l2. unfold served_of. rewrite omap_app. cbn. by destruct (in_hand_of i z). }
  split; [by rewrite <- Hs, take_drop_middle|]. by rewrite insert_take_drop, Hs.
Qed.

Lemma served_other i w (ws : list worker) (x y : worker) :
  ws !! w = Some x -> in_hand_of i x = None -> in_hand_of i y = None ->
  served_of i (<[w := y]> ws) = served_of i ws.
Proof.
  intros E Ex Ey. destruct (served_split i w ws x y E) as (l1 & l2 & -> & ->). by rewrite Ex, Ey.
Qed.

Lemma in_hand_ne i c p : c <> i -> in_hand_of i (Some (c, p)) = None.
Proof. intros. cbn. by rewrite decide_False. Qed.

Lemma in_hand_eq i p : in_hand_of i (Some (i, p)) = Some p.
Proof. cbn. by rewrite decide_True. Qed.

(** A worker whose share is the only one of its client. *)
Lemma served_only i w (ws : list worker) (p : prog (option Message)) (y : worker) :
  ws !! w = Some (Some (i, p)) -> served_of i ws = [p] ->
  served_of i (<[w := y]> ws) = option_list (in_hand_of i y).
Proof.
  intros E Es. destruct (served_split i w ws _ y E) as (l1 & l2 & E1 & ->).
  rewrite E1, in_hand_eq in Es. cbn [option_list] in Es.
  destruct l1 as [|z l1]; [by injection Es as ->; rewrite app_nil_r|].
  injection Es as _ Es. by destruct l1.
Qed.

Lemma served_first i w (ws : list worker) (p : prog (option Message)) :
  ws !! w = Some None -> served_of i ws = [] ->
  served_of i (<[w := Some (i, p)]> ws) = [p].
Proof.
  intros E Es. destruct (served_split i w ws _ (Some (i, p)) E) as (l1 & l2 & E1 & ->).
  rewrite E1 in Es. cbn [in_hand_of option_list mbind option_bind] in Es. destruct l1, l2; try done.
  by rewrite in_hand_eq.
Qed.

Lemma served_in i w (ws : list worker) (p : prog (option Message)) :
  ws !! w = Some (Some (i, p)) -> p ∈ served_of i ws.
Proof.
  intros E. destruct (served_split i w ws _ None E) as (l1 & l2 & -> & _). rewrite in_hand_eq.
  rewrite !list.elem_of_app. right. left. by left.
Qed.

Lemma served_at i (ws : list worker) (p : prog (option Message)) :
  p ∈ served_of i ws -> exists w, ws !! w = Some (Some (i, p)).
Proof.
  intros Hp. apply list_elem_of_omap in Hp as (x & Hx & Ex).
  apply list_elem_of_lookup in Hx as [w Ew]. exists w. rewrite Ew.
  destruct x as [[c p']|]; [|done]. cbn in Ex. case_decide; [|done]. by simplify_eq.
Qed.

(** When all workers wait. *)
Lemma served_idle i (ws : list worker) : Forall (eq None) ws -> served_of i ws = [].
Proof. induction 1 as [|x ws <- _ IH]; [done|exact IH]. Qed.
End Shares.


(** ** The interface *)
Abbreviation everybody := (fun _ : nat => True).

Section Interface.
Context `{Blake2b} `{UuidText}.

(** The clients that do anything at all are [active]; the others may have been killed. *)
Context (active : nat -> Prop).

(** What is known, [G]: of the disk ([good]) and of the exchange of a client ([place], with
    its requests in the queue and the handlers that work for it). [after i P Q]: what may be
    known after a step of client [i] or for it, in which nothing is lost if [P], and
    something is if [Q]. *)
Context {G : Type} (good : G -> fs -> Prop)
  (place : G -> fs -> nat -> peer -> list Message -> list (prog (option Message)) -> Prop)
  (after : nat -> Prop -> Prop -> G -> G -> Prop).

Record steps_to (P Q : Prop) (g : G) σ i (g' : G) σ' (pe : peer) (queue : list Message)
    (work : list (prog (option Message))) : Prop := mk_steps_to {
  st_after : after i P Q g g';
  st_good : good g' σ';
  st_place : place g' σ' i pe queue work;
  st_others : forall k pk qk wk, k <> i -> place g σ k pk qk wk -> place g' σ' k pk qk wk }.

Class Exchanges : Prop := {
  ex_server_reads g σ i n pe queue work errno (q : list Request) :
    active i -> good g σ -> place g σ i pe queue work -> cl_sent (pr_client pe) <> [] ->
    exists c e new g',
      Conn.handleEvent i (bytes_events (take (S n) (cl_sent (pr_client pe))))
        (mk_env (pr_conn pe) errno (Some q)) = (Ok tt, mk_env c e (Some (q ++ new)), []) /\
      Forall (fun r => rq_connection r = i) new /\
      steps_to True False g σ i g' σ
        (mk_peer (pr_uuid pe) (take_sent (S n) (pr_client pe)) c (pr_down pe) (pr_end pe))
        (queue ++ (rq_message <$> new)) work;
  ex_client_reads g σ i n pe queue work :
    active i -> good g σ -> place g σ i pe queue work -> pr_down pe <> [] ->
    exists e g',
      Conn.handleEvent 0 (bytes_events (take (S n) (pr_down pe))) (pr_end pe) = (Ok tt, e, []) /\
      steps_to True False g σ i g' σ
        (mk_peer (pr_uuid pe) (pr_client pe) (pr_conn pe) (drop (S n) (pr_down pe)) e) queue work;
  ex_client_handles (send : bytes -> send_result) g σ i pe queue work r q :
    active i -> good g σ -> place g σ i pe queue work -> e_broker (pr_end pe) = Some (r :: q) ->
    exists cl g',
      Handler.work (client_handler send (pr_uuid pe)) [(true, rq_message r)] (pr_client pe) =
        (Ok tt, cl) /\
      steps_to (forall buf, taken (send buf) buf = buf) False g σ i g' σ
        (mk_peer (pr_uuid pe) cl (pr_conn pe) (pr_down pe) (setRequestBroker (Some q) (pr_end pe)))
        queue work;
  ex_worker_takes g σ i pe (msg : Message) queue work :
    good g σ -> place g σ i pe (msg :: queue) work ->
    queue = [] /\ work = [] /\
    exists g', steps_to True False g σ i g' σ pe [] [respond_calls msg];
  ex_worker_calls g σ i pe queue work {X : Set} (c : call X) f :
    good g σ -> place g σ i pe queue work -> Call c f ∈ work ->
    work = [Call c f] /\
    exists g', steps_to True False g σ i g' (snd (step_call (Call c f) σ)) pe queue
      [fst (step_call (Call c f) σ)];
  ex_worker_answers (send : bytes -> send_result) g σ i pe queue work (r : res (option Message)) :
    good g σ -> place g σ i pe queue work -> Done r ∈ work ->
    work = [Done r] /\
    exists sent g',
      (send_answer send r = Ok sent \/ sent = [] /\ exists x, send_answer send r = Throw x) /\
      steps_to (forall buf, taken (send buf) buf = buf) (lossy send) g σ i g' σ
        (mk_peer (pr_uuid pe) (pr_client pe) (pr_conn pe) (pr_down pe ++ sent) (pr_end pe)) queue [] }.

(** ** The whole system *)
Context `{!Exchanges} (clients : nat).

(** The event is one of an active client, or of a worker. *)
Definition acts (ev : event) : Prop :=
  match ev with
  | ServerReads i _ | ClientReads i _ | ClientHandles i _ => active i
  | _ => True
  end.

Definition worker_of_client (x : worker) : Prop :=
  from_option (fun h => (fst h < clients)%nat) True x.

(** Every exchange is somewhere, and nothing else is on its way. *)
Record course (g : G) (s : network) : Prop := mk_course {
  co_peers : length (nw_peers s) = clients;
  co_good : good g (nw_disk s);
  co_place : forall i, (i < clients)%nat -> exists pe, nw_peers s !! i = Some pe /\
    place g (nw_disk s) i pe (queued_of i (nw_queue s)) (served_of i (nw_workers s));
  co_queue : Forall (fun r => (rq_connection r < clients)%nat) (nw_queue s);
  co_workers : Forall worker_of_client (nw_workers s) }.

(** The system goes on with a step of client [i] or for it. *)
Definition goes_on i (P Q : Prop) (g : G) (x : res network) : Prop :=
  exists s g', x = Ok s /\ course g' s /\ after i P Q g g'.

Lemma course_step (P Q : Prop) g g' s s' i pe' :
  course g s -> (i < clients)%nat -> nw_peers s' = <[i := pe']> (nw_peers s) ->
  steps_to P Q g (nw_disk s) i g' (nw_disk s') pe'
    (queued_of i (nw_queue s')) (served_of i (nw_workers s')) ->
  (forall k, k <> i -> queued_of k (nw_queue s') = queued_of k (nw_queue s) /\
     served_of k (nw_workers s') = served_of k (nw_workers s)) ->
  Forall (fun r => (rq_connection r < clients)%nat) (nw_queue s') ->
  Forall worker_of_client (nw_workers s') -> goes_on i P Q g (Ok s').
Proof.
  intros [Hpl _ Hplace _ _] Hi Ep [Hafter Hgood Hp Hothers] Hsame Hq Hw.
  exists s', g'. split; [done|]. split; [|done].
  constructor; [by rewrite Ep, length_insert|done| |done|done].
  intros k Hk. rewrite Ep. destruct (decide (k = i)) as [-> |Hne].
  - exists pe'. by rewrite list_lookup_insert_eq by lia.
  - destruct (Hplace k Hk) as (pk & Epk & Hpk). exists pk. rewrite list_lookup_insert_ne by done.
    destruct (Hsame k Hne) as [-> ->]. split; [done|by apply Hothers].
Qed.

Lemma course_peer g s i pe :
  course g s -> nw_peers s !! i = Some pe -> (i < clients)%nat /\
    place g (nw_disk s) i pe (queued_of i (nw_queue s)) (served_of i (nw_workers s)).
Proof.
  intros [Hpl _ Hplace _ _] E. pose proof (lookup_lt_Some _ _ _ E) as Hi. rewrite Hpl in Hi.
  split; [done|]. destruct (Hplace i Hi) as (pe2 & Ep & Hp). by simplify_eq.
Qed.

(** The client that a worker works for. *)
Lemma course_worker g s w c p :
  course g s -> nw_workers s !! w = Some (Some (c, p)) -> (c < clients)%nat /\
    p ∈ served_of c (nw_workers s) /\ exists pe, nw_peers s !! c = Some pe /\
    place g (nw_disk s) c pe (queued_of c (nw_queue s)) (served_of c (nw_workers s)).
Proof.
  intros Hc Ew. pose proof (Forall_lookup_1 _ _ _ _ (co_workers _ _ Hc) Ew) as Hlt.
  split; [done|]. split; [by apply (served_in c w)|]. by apply (co_place _ _ Hc).
Qed.

(** A step that touches only the client's process. *)
Lemma peer_goes_on (P Q : Prop) g g' s i pe' :
  course g s -> (i < clients)%nat ->
  steps_to P Q g (nw_disk s) i g' (nw_disk s) pe' (queued_of i (nw_queue s)) (served_of i (nw_workers s)) ->
  goes_on i P Q g (Ok (set_peer i pe' s)).
Proof. intros Hc Hi Hs. by apply (course_step P Q g g' s _ i pe'); try done; apply Hc. Qed.

Lemma insert_same i pe s : nw_peers s !! i = Some pe -> nw_peers s = <[i := pe]> (nw_peers s).
Proof. intros E. by rewrite list_insert_id. Qed.

Lemma server_reads_goes g s i n x :
  active i -> course g s -> server_reads i n s = Some x -> goes_on i True False g x.
Proof.
  intros Hact Hc Hx. unfold server_reads in Hx.
  destruct (nw_peers s !! i) as [pe|] eqn:Ep; [|done]. cbn [mbind option_bind] in Hx.
  destruct (course_peer g s i pe Hc Ep) as [Hi Hp].
  assert (cl_sent (pr_client pe) <> []) as Hne by (by destruct (cl_sent (pr_client pe))).
  destruct (ex_server_reads g _ i n _ _ _ (nw_errno s) (nw_queue s) Hact (co_good _ _ Hc) Hp Hne)
    as (c & e & new & g' & Hev & Hnew & Hs).
  destruct (cl_sent (pr_client pe)) as [|b l]; [done|]. rewrite Hev in Hx. injection Hx as <-.
  eapply (course_step True False g g' s _ i); [done|done|done| | | |apply Hc];
    cbn [set_peer set_env nw_disk nw_queue nw_workers e_broker default from_option e_conn id].
  - rewrite queued_app, (queued_all i new Hnew). exact Hs.
  - intros k Hk. split; [|done]. by rewrite queued_app, (queued_none i k new Hk Hnew), app_nil_r.
  - apply Forall_app. split; [apply Hc|]. eapply list.Forall_impl; [exact Hnew|]. by intros r ->.
Qed.

Lemma client_reads_goes g s i n x :
  active i -> course g s -> client_reads i n s = Some x -> goes_on i True False g x.
Proof.
  intros Hact Hc Hx. unfold client_reads in Hx.
  destruct (nw_peers s !! i) as [pe|] eqn:Ep; [|done]. cbn [mbind option_bind] in Hx.
  destruct (course_peer g s i pe Hc Ep) as [Hi Hp].
  assert (pr_down pe <> []) as Hne by (by destruct (pr_down pe)).
  destruct (ex_client_reads g _ i n _ _ _ Hact (co_good _ _ Hc) Hp Hne) as (e & g' & Hev & Hs).
  destruct (pr_down pe) as [|b l]; [done|]. rewrite Hev in Hx. injection Hx as <-.
  by apply (peer_goes_on True False g g').
Qed.

Lemma client_handles_goes g s i (send : bytes -> send_result) x :
  active i -> course g s -> client_handles i send s = Some x ->
  goes_on i (forall buf, taken (send buf) buf = buf) False g x.
Proof.
  intros Hact Hc Hx. unfold client_handles in Hx.
  destruct (nw_peers s !! i) as [pe|] eqn:Ep; [|done]. cbn [mbind option_bind] in Hx.
  destruct (e_broker (pr_end pe)) as [[|r q]|] eqn:Eq; try done.
  destruct (course_peer g s i pe Hc Ep) as [Hi Hp].
  destruct (ex_client_handles send g _ i _ _ _ r q Hact (co_good _ _ Hc) Hp Eq)
    as (cl & g' & Hwork & Hs).
  rewrite Hwork in Hx. injection Hx as <-. by apply (peer_goes_on _ False g g').
Qed.

Lemma worker_takes_goes g s w x :
  course g s -> worker_takes w s = Some x -> exists i, goes_on i True False g x.
Proof.
  intros Hc Hx. unfold worker_takes in Hx.
  destruct (nw_workers s !! w) as [[h|]|] eqn:Ew; [done| |done].
  destruct (nw_queue s) as [|r q] eqn:Eq; [done|]. injection Hx as <-.
  pose proof (co_queue _ _ Hc) as Hk. rewrite Eq in Hk. apply Forall_cons_iff in Hk as [Hi Hk].
  destruct (co_place _ _ Hc _ Hi) as (pe & Ep & Hp). rewrite Eq in Hp.
  unfold queued_of in Hp. rewrite filter_cons_True in Hp by done. cbn [fmap list_fmap] in Hp.
  destruct (ex_worker_takes g _ _ _ _ _ _ (co_good _ _ Hc) Hp) as (E0 & E1 & g' & Hs).
  exists (rq_connection r). eapply (course_step True False g g' s _ _ pe);
    [done|done|exact (insert_same _ pe s Ep)| | |done|];
    cbn [set_worker set_queue nw_disk nw_queue nw_workers].
  - rewrite (served_first _ w _ (respond_calls (rq_message r)) Ew E1).
    replace (queued_of (rq_connection r) q) with (@nil Message) by (symmetry; exact E0). exact Hs.
  - intros k Hne. rewrite Eq. split.
    + unfold queued_of. by rewrite filter_cons_False by congruence.
    + apply (served_other k w _ None); [done|done|]. by apply in_hand_ne.
  - apply Forall_insert; [apply Hc|done].
Qed.

Lemma worker_calls_goes g s w x :
  course g s -> worker_calls w s = Some x -> exists i, goes_on i True False g x.
Proof.
  intros Hc Hx. unfold worker_calls in Hx.
  destruct (nw_workers s !! w) as [[[c [r|X cl f]]|]|] eqn:Ew; try done.
  destruct (course_worker g s w c _ Hc Ew) as (Hi & Hin & pe & Ep & Hp).
  destruct (ex_worker_calls g _ _ _ _ _ cl f (co_good _ _ Hc) Hp Hin) as (E & g' & Hs).
  destruct (step_call (Call cl f) (nw_disk s)) as [p' σ']. injection Hx as <-. cbn [fst snd] in *.
  exists c. eapply (course_step True False g g' s _ c pe);
    [done|done|exact (insert_same _ pe s Ep)| | |apply Hc|];
    cbn [set_worker set_disk nw_disk nw_queue nw_workers].
  - rewrite (served_only c w _ _ _ Ew E), in_hand_eq. exact Hs.
  - intros k Hne. split; [done|]. apply (served_other k w _ _ _ Ew); by apply in_hand_ne.
  - apply Forall_insert; [apply Hc|done].
Qed.

(** What becomes of the exchange of the client that is answered. *)
Lemma worker_answers_goes g s w (send : bytes -> send_result) c (r : res (option Message)) :
  course g s -> nw_workers s !! w = Some (Some (c, Done r)) ->
  exists x, worker_answers w send s = Some x /\
    goes_on c (forall buf, taken (send buf) buf = buf) (lossy send) g x.
Proof.
  intros Hc Ew. destruct (course_worker g s w c _ Hc Ew) as (Hi & Hin & pe & Ep & Hp).
  destruct (ex_worker_answers send g _ _ _ _ _ r (co_good _ _ Hc) Hp Hin)
    as (E & sent & g' & Hsent & Hs).
  set (pe' := mk_peer (pr_uuid pe) (pr_client pe) (pr_conn pe) (pr_down pe ++ sent) (pr_end pe)) in *.
  exists (Ok (set_worker w None (set_peer c pe' s))). split.
  { unfold worker_answers. rewrite Ew.
    destruct Hsent as [Hok|[-> [y Hthrow]]]; [by rewrite Hok, Ep|]. rewrite Hthrow.
    do 3 f_equal. unfold pe', set_peer. rewrite app_nil_r. destruct pe as [u cl c0 dn e0].
    cbn [pr_uuid pr_client pr_conn pr_down pr_end]. rewrite list_insert_id by done. by destruct s. }
  eapply (course_step _ _ g g' s _ c pe'); [done|done|done| | |apply Hc|];
    cbn [set_worker set_peer nw_disk nw_queue nw_workers].
  - rewrite (served_only c w _ _ _ Ew E). exact Hs.
  - intros k Hne. split; [done|]. apply (served_other k w _ _ _ Ew); [by apply in_hand_ne|done].
  - by apply Forall_insert; [apply Hc|].
Qed.

(** Every step keeps the system on course. *)
Lemma step_course g s ev x :
  acts ev -> course g s -> do_step ev s = Some x -> exists i Q, goes_on i (lossless ev) Q g x.
Proof.
  intros Hact Hc. destruct ev as [i n|w|w|w send|i n|i send]; cbn [do_step lossless]; intros Hx.
  - exists i, False. by apply (server_reads_goes g s i n).
  - destruct (worker_takes_goes g s w x Hc Hx) as [i Hi]. by exists i, False.
  - destruct (worker_calls_goes g s w x Hc Hx) as [i Hi]. by exists i, False.
  - pose proof Hx as Hx'. unfold worker_answers in Hx'.
    destruct (nw_workers s !! w) as [[[c [r|X cl f]]|]|] eqn:Ew; try done. clear Hx'.
    destruct (worker_answers_goes g s w send c r Hc Ew) as (x' & E & Hgo).
    rewrite E in Hx. injection Hx as <-. by exists c, (lossy send).
  - exists i, False. by apply (client_reads_goes g s i n).
  - exists i, False. by apply (client_handles_goes g s i send).
Qed.

Lemma run_course evs g s :
  Forall acts evs -> course g s -> exists s' g', run_events evs s = Ok s' /\ course g' s' /\
    rtc (fun g g' => exists i P Q, after i P Q g g') g g'.
Proof.
  intros Hact. revert g s. induction Hact as [|ev evs Hev _ IH]; intros g s Hc; [by exists s, g|].
  cbn [run_events]. destruct (do_step ev s) as [x|] eqn:Ex; [|by apply IH].
  destruct (step_course g s ev x Hev Hc Ex) as (i & Q & s1 & g1 & -> & Hc1 & Hafter).
  destruct (IH g1 s1 Hc1) as (s' & g' & Hrun & Hc' & Hr). exists s', g'.
  split; [done|]. split; [done|]. eapply rtc_l; [by exists i, (lossless ev), Q|done].
Qed.

Lemma moves_course (P : event -> Prop) g s s' :
  (forall ev, P ev -> acts ev) -> course g s -> rtc (moves P) s s' ->
  exists g', course g' s' /\ rtc (fun g g' => exists i ev Q, P ev /\ after i (lossless ev) Q g g') g g'.
Proof.
  intros HP Hc Hr. revert g Hc. induction Hr as [s|s s1 s' [ev Hev E] _ IH]; intros g Hc; [by exists g|].
  destruct (step_course g s ev _ (HP ev Hev) Hc E) as (i & Q & s2 & g1 & E1 & Hc1 & Hafter).
  injection E1 as <-. destruct (IH g1 Hc1) as (g' & Hc' & Hg'). exists g'. split; [done|].
  eapply rtc_l; [by exists i, ev, Q|done].
Qed.

(** Runs end if what is known always gets less. *)
Lemma course_sn (R : G -> G -> Prop) (P : event -> Prop) g s :
  (forall i P Q g g', after i P Q g g' -> R g' g) -> well_founded R -> (forall ev, P ev -> acts ev) ->
  course g s -> sn (moves P) s.
Proof.
  intros HR Hwf HP. revert s. induction (Hwf g) as [g _ IH]. intros s Hc. constructor.
  intros s' [ev Hev E].
  destruct (step_course g s ev _ (HP ev Hev) Hc E) as (i & Q & s1 & g1 & E1 & Hc1 & Hafter).
  injection E1 as <-. apply (IH g1); [by apply HR in Hafter|done].
Qed.

(** *** A state in which nothing can happen *)
Section Ending.
Context (P : event -> Prop) (HP : forall ev, lossless ev -> acts ev -> P ev).
Context (g : G) (s : network) (Hc : course g s) (Hnf : nf (moves P) s).
Context (Hworkers : (0 < length (nw_workers s))%nat).

Lemma nothing_to_do ev : lossless ev -> acts ev -> do_step ev s = None.
Proof.
  intros Hl Hact. destruct (do_step ev s) as [x|] eqn:E; [|done]. destruct Hnf.
  destruct (step_course g s ev x Hact Hc E) as (i & Q & s' & _ & -> & _). exists s'.
  by exists ev; [apply HP|].
Qed.

Lemma sent_whole_lossless (buf : bytes) : taken (sent_whole buf) buf = buf.
Proof. unfold taken, sent_whole. cbn. by apply take_ge. Qed.

Lemma workers_idle : Forall (eq None) (nw_workers s).
Proof.
  apply Forall_lookup_2. intros w [[c p]|] Ew; [|done]. exfalso.
  pose proof (nothing_to_do (WorkerCalls w) I I) as Hw.
  pose proof (nothing_to_do (WorkerAnswers w sent_whole) sent_whole_lossless I) as Ha.
  cbn in Hw, Ha. unfold worker_calls in Hw. unfold worker_answers in Ha. rewrite Ew in Hw, Ha.
  destruct p as [r|X c' f]; [done|]. by destruct (step_call (Call c' f) (nw_disk s)).
Qed.

Lemma queue_empty : nw_queue s = [].
Proof.
  destruct (lookup_lt_is_Some_2 _ _ Hworkers) as [x Ex].
  pose proof (nothing_to_do (WorkerTakes 0) I I) as Ht. cbn in Ht. unfold worker_takes in Ht.
  pose proof (Forall_lookup_1 _ _ _ _ workers_idle Ex) as <-. rewrite Ex in Ht.
  by destruct (nw_queue s).
Qed.

(** An active client has nothing on its way either. *)
Lemma peer_idle i pe :
  active i -> nw_peers s !! i = Some pe ->
  cl_sent (pr_client pe) = [] /\ pr_down pe = [] /\
  (forall r q, e_broker (pr_end pe) <> Some (r :: q)) /\
  place g (nw_disk s) i pe [] [].
Proof.
  intros Hact Ep. destruct (course_peer g s i pe Hc Ep) as [_ Hp].
  rewrite queue_empty, (served_idle i _ workers_idle) in Hp.
  pose proof (nothing_to_do (ServerReads i 0) I Hact) as Hsr.
  pose proof (nothing_to_do (ClientReads i 0) I Hact) as Hcr.
  pose proof (nothing_to_do (ClientHandles i sent_whole) sent_whole_lossless Hact) as Hch.
  cbn in Hsr, Hcr, Hch. unfold server_reads in Hsr. unfold client_reads in Hcr.
  unfold client_handles in Hch. rewrite Ep in Hsr, Hcr, Hch. cbn [mbind option_bind] in Hsr, Hcr, Hch.
  split; [by destruct (cl_sent (pr_client pe))|]. split; [by destruct (pr_down pe)|].
  split; [|done]. intros r q E. by rewrite E in Hch.
Qed.
End Ending.

(** At the start nothing is queued or in hand. *)
Lemma boot_course g fd garbage n σ (js : list job) :
  clients = length js -> good g σ ->
  (forall i j, js !! i = Some j -> place g σ i (boot_peer fd garbage i j) [] []) ->
  course g (boot fd garbage n σ js).
Proof.
  intros Hl Hgood Hplace.
  constructor; cbn [boot nw_peers nw_disk nw_queue nw_workers].
  - by rewrite Hl, length_imap.
  - done.
  - intros i Hi. rewrite Hl in Hi. apply lookup_lt_is_Some in Hi as [j Ej]. exists (boot_peer fd garbage i j).
    rewrite list_lookup_imap, Ej, served_idle by (by apply Forall_replicate).
    split; [done|by apply Hplace].
  - constructor.
  - by apply Forall_replicate.
Qed.
End Interface.

Lemma all_act ev : acts everybody ev.
Proof. by destruct ev. Qed.
