(* ===== verification/Exchange.v ===== *)
(** * One client of the whole system

    Where the exchange of one client is, as a stage of a phase of [System]'s state ([phase]):
    its request on the way, queued, in a worker's hands, the answer on the way, received;
    or a message that the socket has not taken as a whole, after which nothing follows.
    Every step for the client leads to a lower stage, and steps for the others are not
    noticed. *)
From Stdlib Require Import Relation_Operators Inclusion Lexicographic_Product.
From S2P Require Import Prelude StdFs Msg FileMeta Identity File Upload.
From S2P Require Import MsgFctry Conn Framing Server Client Handler Calls.
From S2P Require Import Transfer Clients Workers Crash System.
Import FsFacts DirFacts.

Implicit Types (i k w n : nat) (σ : fs) (j : job).

(** ** Programs, call by call *)
Section Calls.
Context {A : Type}.

Fixpoint calls_left (p : prog A) σ : nat :=
  match p with
  | Done _ => 0
  | Call c f => S (match sem c σ with (Ok x, σ') => calls_left (f x) σ' | _ => 0 end)
  end.

Lemma exec_step (p : prog A) σ : exec (fst (step_call p σ)) (snd (step_call p σ)) = exec p σ.
Proof.
  destruct p as [r|X c f]; [done|]. cbn [step_call exec]. rewrite M_bind_case.
  by destruct (sem c σ) as [[x|e|] σ'].
Qed.

Lemma calls_left_step {X : Set} (c : call X) (f : X -> prog A) σ :
  (calls_left (fst (step_call (Call c f) σ)) (snd (step_call (Call c f) σ)) <
     calls_left (Call c f) σ)%nat.
Proof. cbn [step_call calls_left]. destruct (sem c σ) as [[x|e|] σ']; cbn; lia. Qed.
End Calls.

Lemma encode_ne (m : Message) : encode m <> [].
Proof. unfold encode. by rewrite putU32_eq. Qed.

(** The client's worker does the same whatever the socket takes of its answer. *)
Lemma work_taken `{Blake2b} (uuid : bytes) (send : bytes -> send_result) (msg : Message) cl cl' :
  cl_sent cl = [] -> Handler.work (client_handler sent_whole uuid) [(true, msg)] cl = (Ok tt, cl') ->
  Handler.work (client_handler send uuid) [(true, msg)] cl =
    (Ok tt, mk_client (cl_fs cl') (client_files cl') (taken (send (cl_sent cl')) (cl_sent cl'))).
Proof.
  intros Es. cbn [Handler.work]. rewrite !M_bind_case.
  unfold try_ignore, Handler.handleRequest, client_handler. intros E.
  destruct (Client.handleRequest uuid sent_whole true msg cl) as [r1 s1] eqn:E1.
  destruct (handleRequest_taken uuid sent_whole send msg cl r1 s1 ltac:(done) Es E1) as (r2 & -> & Hr2);
    [by destruct r1|].
  assert (s1 = cl') as -> by (destruct r1 as [[]|x|]; [by injection E..|discriminate E]).
  by destruct r2 as [[]|x|].
Qed.

(** ** One exchange of one client *)

(** Stages left, and what is left of the stage: bytes or calls. Stage 1 is the exchange of
    which a message was lost: it is not left again, and not entered by a step that loses
    nothing ([P]). *)
Abbreviation rank := (nat * nat)%type.
Definition lost_rank (x : rank) : Prop := fst x = 1%nat.
Definition lower (P : Prop) (y x : rank) : Prop :=
  slexprod nat nat lt lt y x /\ (lost_rank x -> lost_rank y) /\ (P -> lost_rank y -> lost_rank x).

Lemma lower_wf (P : Prop) : well_founded (lower P).
Proof.
  apply (wf_incl _ _ (slexprod nat nat lt lt)); [intros x y Hl; apply Hl|].
  apply wf_slexprod; apply lt_wf.
Qed.

Lemma lower_stage (P : Prop) (a b x y : nat) :
  (a < b)%nat -> b <> 1%nat -> (P -> a <> 1%nat) -> lower P (a, x) (b, y).
Proof. intros Hab Hb Ha. split; [by left|]. unfold lost_rank. cbn. tauto. Qed.

Lemma lower_rest (P : Prop) (a x y : nat) : (x < y)%nat -> lower P (a, x) (a, y).
Proof. intros Hxy. split; [by right|]. by unfold lost_rank. Qed.

Lemma lower_any (P : Prop) (x y : rank) : lower True x y -> lower P x y.
Proof. unfold lower. tauto. Qed.

Section Exchange.
Context `{Blake2bLaws} `{UuidTextLaws}.
Context (j : job) (Hok : job_ok j).

Abbreviation keys := (job_key j).
Abbreviation dirs := (job_dirs j).
Abbreviation stored σ u := (represents σ (job_dir j) (jb_name j) u).
Abbreviation content := (jb_content j).
Abbreviation sees := (view keys dirs).

(** The client has sent [m]; [r] more exchanges follow this one. *)
Inductive asks : nat -> fs -> Message -> Prop :=
| asks_new σ : fresh σ j ->
    asks (Z.to_nat (n_chunks (zlen content))) σ (buildMsgOffer 1 (jb_uuid j) (job_file j))
| asks_old σ u : stored σ u -> partial_of content u ->
    asks (length (up_missing u)) σ (buildMsgOffer 1 (jb_uuid j) (job_file j))
| asks_chunk σ u (i : Z) (l : list Z) (seq : Z) : stored σ u -> partial_of content u -> up_missing u = i :: l ->
    asks (length l) σ (chunk_message seq (jb_uuid j) (job_file j) content i).

(** What the server makes of the message. *)
Record request_of (r : nat) σ (m : Message) : Prop := mk_request_of {
  ro_wf : wf_message m;
  ro_valid : valid_request (arrived m);
  ro_uuid : client_uuid (arrived m) = jb_uuid j;
  ro_name : file_name (arrived m) = jb_name j;
  ro_makes : exists u, makes σ (arrived m) u /\ partial_of content u /\ length (up_missing u) = r }.

Lemma asks_request r σ m : asks r σ m -> request_of r σ m.
Proof.
  intros [σ0 Hf|σ0 u Hrep Hp|σ0 u i l seq Hrep Hp Em].
  - destruct (offer_received j Hok) as (Hwf & En & Hv & Es). constructor; [done..|].
    exists (up_start (zlen content) (calc_hash_vec content)). rewrite <- Es at 1.
    split_and!; [|apply partial_start|apply missing_start].
    apply makes_new; [done|rewrite Es; split; [lia|apply Hok]|apply blake_digest_size|].
    unfold owner. rewrite En. exact Hf.
  - destruct (offer_received j Hok) as (Hwf & En & Hv & Es). constructor; [done..|].
    exists u. split_and!; [|done|done].
    apply makes_offered; [done|by rewrite Es, (po_size _ _ Hp)|by rewrite (po_hash _ _ Hp)|].
    rewrite En. exact Hrep.
  - assert (i ∈ up_missing u) as Hi by (rewrite Em; by left).
    apply elem_of_up_missing in Hi as [Hi _]. rewrite (partial_chunks _ u Hp) in Hi.
    destruct (chunk_received j Hok seq i Hi) as (Hwf & En & Hv). constructor; [done..|].
    destruct (partial_save _ u i (rp_ok _ _ _ _ Hrep) Hp Hi) as [Hp' _].
    exists (up_save u i (chunk_of content i)). split_and!; [|done|].
    + apply (makes_chunk σ0 (arrived (chunk_message seq (jb_uuid j) (job_file j) content i)) u);
        [done| |by rewrite En]. change (0 <= i < 2 ^ 32). destruct Hok as [_ Hn]. lia.
    + by rewrite (missing_save _ u i l (rp_ok _ _ _ _ Hrep) Hp Em).
Qed.

Lemma asks_view r σ σ' m : sees σ σ' -> asks r σ m -> asks r σ' m.
Proof.
  intros Hv Ha. revert Hv. destruct Ha as [σ0 Hf|σ0 u Hrep Hp|σ0 u i l seq Hrep Hp Em]; intros Hv.
  - apply asks_new. by apply (view_fresh j σ0).
  - apply asks_old; [by apply (view_represents j σ0)|done].
  - eapply asks_chunk; [by apply (view_represents j σ0)|done|done].
Qed.

(** *** The worker *)

(** The worker has accepted the first offer of a file and is about to create its upload. *)
Definition creating (p : prog (option Message)) σs : Prop :=
  exists n σ0, fresh σ0 j /\
    (p, σs) = solo n (respond_calls (arrived (buildMsgOffer 1 (jb_uuid j) (job_file j)))) σ0.

(** The worker is in the middle of the handler, where it would be at [σs] alone; it will
    answer [a] and leave the upload [u], which lacks [r] chunks. *)
Record working (r : nat) σ (p : prog (option Message)) (σs : fs) (a : Message) (u : upload) : Prop :=
  mk_working {
  wk_fine : fine keys dirs p (fun _ _ => True) σs;
  wk_view : sees σs σ;
  wk_answer : fst (exec p σs) = Ok (Some a);
  wk_stored : stored (snd (exec p σs)) u;
  wk_answered : answered (jb_uuid j) (jb_name j) a u;
  wk_partial : partial_of content u;
  wk_missing : length (up_missing u) = r;
  wk_kept : creating p σs \/ throughout p (resumable (job_dir j) (jb_name j) content) σs }.

Lemma owner_footprint msg :
  client_uuid msg = jb_uuid j -> file_name msg = jb_name j ->
  own_key msg = keys /\ dir_key msg = dirs.
Proof. unfold own_key, dir_key, owner. by intros -> ->. Qed.

Lemma asks_kept r σ m :
  asks r σ m -> creating (respond_calls (arrived m)) σ \/
    throughout (respond_calls (arrived m)) (resumable (job_dir j) (jb_name j) content) σ.
Proof.
  intros Ha. pose proof (asks_request r σ m Ha) as [_ Hv _ En _].
  destruct Ha as [σ0 Hf|σ0 u Hrep Hp|σ0 u ch l seq Hrep Hp Em].
  - left. by exists 0%nat, σ0.
  - right. apply (throughout_mono _ (eq σ0)); [|intros ? <-; by exists u].
    apply (offer_again_stays _ Hv σ0 u eq_refl). by rewrite En.
  - right. assert (ch ∈ up_missing u) as Hi by (rewrite Em; by left).
    apply elem_of_up_missing in Hi as [Hi _]. rewrite (partial_chunks _ u Hp) in Hi.
    set (msg := arrived _) in *.
    assert (represents σ0 (upload_dir (client_uuid msg)) (file_name msg) u) as Hrep'
      by (by rewrite En).
    apply (throughout_mono _ _ _ _ (chunk_throughout msg Hv content σ0 u eq_refl Hi eq_refl Hrep' Hp)).
    intros σ' (u' & Hst & Hp' & _). rewrite En in Hst. by exists u'.
Qed.

Lemma working_start r σ m :
  asks r σ m -> exists a u, working r σ (respond_calls (arrived m)) σ a u.
Proof.
  intros Ha. destruct (asks_request r σ m Ha) as [Hwf Hv Eu En (u & Hmk & Hp & Hr)].
  destruct (makes_alone σ (arrived m) u Hv Hmk) as (a & Ea & Hans & Hst).
  destruct (owner_footprint _ Eu En) as [Ek Ed].
  exists a, u. constructor; rewrite ?run_respond_calls; try done.
  - rewrite <- Ek, <- Ed. by apply fine_respond.
  - apply view_refl.
  - unfold job_dir. by rewrite <- Eu, <- En.
  - by eapply answers_answered.
  - by apply (asks_kept r).
Qed.
Lemma keys_ok (q : list bytes) : keys q -> q <> [] /\ ~ dirs q.
Proof.
  intros Hq. pose proof (job_identity j Hok) as Hj. split; [|by apply (key_not_made j j)].
  destruct Hq as [-> | ->]; apply child_ne.
Qed.

Lemma working_step r σ {X : Set} (c : call X) f σs a u :
  working r σ (Call c f) σs a u ->
  let (p', σ') := step_call (Call c f) σ in
  let σs' := snd (step_call (Call c f) σs) in
  working r σ' p' σs' a u /\ inside keys dirs σ σ' σs' /\
  (calls_left p' σs' < calls_left (Call c f) σs)%nat.
Proof.
  intros [Hf Hv He Hst Ha Hp Hr Hk].
  destruct (step_view keys dirs keys_ok _ _ σs σ Hf Hv) as (E & Hv' & Hin).
  pose proof (step_fine keys dirs _ _ σs Hf) as Hf'. pose proof (exec_step (Call c f) σs) as Ex.
  pose proof (calls_left_step c f σs) as Hlt.
  assert (creating (fst (step_call (Call c f) σs)) (snd (step_call (Call c f) σs)) \/
    throughout (fst (step_call (Call c f) σs)) (resumable (job_dir j) (jb_name j) content)
      (snd (step_call (Call c f) σs))) as Hk'.
  { destruct Hk as [(n & σ0 & Hfr & En)|Hk]; [left|right; by apply throughout_step].
    exists (S n), σ0. split; [done|]. rewrite solo_S, <- En. symmetry. apply surjective_pairing. }
  rewrite <- E in Hf', Ex, Hlt, Hk'.
  destruct (step_call (Call c f) σ) as [p' σ']. cbn [fst snd] in *.
  split_and!; [|done|done]. constructor; rewrite ?Ex; done.
Qed.

Lemma working_frame r σ σ' p σs a u :
  (sees σs σ -> sees σs σ') -> working r σ p σs a u -> working r σ' p σs a u.
Proof. intros Hv []. constructor; auto. Qed.

(** *** Where the exchange is *)

(** The client has the file on offer and is still at it. *)
Definition offering (cl : client) : Prop :=
  cl_fs cl = jb_home j /\ client_files cl = {[jb_name j := job_file j]}.

Definition quiet (e : env) : Prop := holds_part 0 [] (e_conn e) /\ e_broker e = Some [].

(** The place of the exchange of client [i], whose requests on the server are [queue] and in
    the hands of workers [work]. *)
Inductive phase (i : nat) σ : rank -> peer -> list Message -> list (prog (option Message)) -> Prop :=
| ph_sent r m pre cl c e :
    asks r σ m -> offering cl -> pre ++ cl_sent cl = encode m -> cl_sent cl <> [] ->
    holds_part i pre c -> quiet e ->
    phase i σ (5 * r + 6, length (cl_sent cl))%nat (mk_peer (jb_uuid j) cl c [] e) [] []
| ph_queued r m cl c e :
    asks r σ m -> offering cl -> cl_sent cl = [] -> holds_part i [] c -> quiet e ->
    phase i σ (5 * r + 5, 0)%nat (mk_peer (jb_uuid j) cl c [] e) [arrived m] []
| ph_served r p σs a u cl c e :
    working r σ p σs a u -> offering cl -> cl_sent cl = [] -> holds_part i [] c -> quiet e ->
    phase i σ (5 * r + 4, calls_left p σs)%nat (mk_peer (jb_uuid j) cl c [] e) [] [p]
| ph_answered u a pre down cl c e :
    stored σ u -> partial_of content u -> answered (jb_uuid j) (jb_name j) a u ->
    offering cl -> cl_sent cl = [] -> holds_part i [] c ->
    pre ++ down = encode a -> down <> [] -> holds_part 0 pre (e_conn e) ->
    e_broker e = Some [] ->
    phase i σ (5 * length (up_missing u) + 3, length down)%nat
      (mk_peer (jb_uuid j) cl c down e) [] []
| ph_received u a cl c e :
    stored σ u -> partial_of content u -> answered (jb_uuid j) (jb_name j) a u ->
    offering cl -> cl_sent cl = [] -> holds_part i [] c -> holds_part 0 [] (e_conn e) ->
    e_broker e = Some [mk_request 0 (arrived a)] ->
    phase i σ (5 * length (up_missing u) + 2, 0)%nat (mk_peer (jb_uuid j) cl c [] e) [] []
| ph_lost_up m pre lost cl c e :
    may_start σ j -> wf_message m -> offering cl -> pre ++ cl_sent cl ++ lost = encode m ->
    lost <> [] -> holds_part i pre c -> quiet e ->
    phase i σ (1, length (cl_sent cl))%nat (mk_peer (jb_uuid j) cl c [] e) [] []
| ph_lost_down m pre down lost cl c e :
    may_start σ j -> wf_message m -> offering cl -> cl_sent cl = [] ->
    pre ++ down ++ lost = encode m -> lost <> [] -> holds_part 0 pre (e_conn e) ->
    e_broker e = Some [] ->
    phase i σ (1, length down)%nat (mk_peer (jb_uuid j) cl c down e) [] []
| ph_done u cl c e :
    stored σ u -> partial_of content u -> up_missing u = [] -> client_files cl = ∅ ->
    cl_sent cl = [] -> quiet e ->
    phase i σ (0, 0)%nat (mk_peer (jb_uuid j) cl c [] e) [] [].

Lemma may_start_view σ σ' : sees σ σ' -> may_start σ j -> may_start σ' j.
Proof.
  intros Hv [Hf|(u & Hst & Hp)]; [left; by apply (view_fresh j σ)|right]. exists u.
  split; [by apply (view_represents j σ)|done].
Qed.

Lemma stored_start σ u : stored σ u -> partial_of content u -> may_start σ j.
Proof. intros Hst Hp. right. by exists u. Qed.

(** What others do is not noticed. *)
Lemma phase_frame i σ σ' rk pe queue work :
  (forall σs, sees σs σ -> sees σs σ') -> phase i σ rk pe queue work ->
  phase i σ' rk pe queue work.
Proof.
  intros Hv Hp. pose proof (Hv σ (view_refl _ _ σ)) as Hs. revert Hs Hv.
  pose proof (fun u => view_represents j σ σ' u) as Hrep.
  destruct Hp; intros Hs Hv; [eapply ph_sent|eapply ph_queued|eapply ph_served|eapply ph_answered
    |eapply ph_received|eapply ph_lost_up|eapply ph_lost_down|eapply ph_done];
    eauto using asks_view, working_frame, may_start_view.
Qed.

(** The client takes the upload for completed at the end only, and is right. *)
Lemma phase_completed i σ rk pe queue work :
  phase i σ rk pe queue work -> uploadsCompleted (pr_client pe) = true ->
  σ !! job_data j = Some (Reg content).
Proof.
  unfold uploadsCompleted. rewrite bool_decide_eq_true. intros Hp E.
  destruct Hp as [? ? ? ? ? ? ? [_ Ef]|? ? ? ? ? ? [_ Ef]|? ? ? ? ? ? ? ? ? [_ Ef]
    |? ? ? ? ? ? ? ? ? ? [_ Ef]|? ? ? ? ? ? ? ? [_ Ef]|? ? ? ? ? ? ? ? [_ Ef]
    |? ? ? ? ? ? ? ? ? [_ Ef]|u cl c e Hst Hp Em _ _ _];
    try (cbn [pr_client] in E; rewrite Ef in E; by apply map_non_empty_singleton in E).
  unfold job_data. rewrite (rp_data _ _ _ _ Hst).
  by destruct (partial_end _ u (rp_ok _ _ _ _ Hst) Hp Em) as [-> _].
Qed.

(** A client of which a message was lost is not at its end. *)
Lemma phase_lost i σ rk pe queue work :
  phase i σ rk pe queue work -> lost_rank rk -> uploadsCompleted (pr_client pe) = false.
Proof.
  intros Hp Hl. unfold uploadsCompleted. apply bool_decide_eq_false.
  destruct Hp as [| | | | |? ? ? ? ? ? ? ? [_ Ef]|? ? ? ? ? ? ? ? ? [_ Ef]| ]; unfold lost_rank in Hl;
    cbn in Hl; try lia; cbn [pr_client]; rewrite Ef; apply map_non_empty_singleton.
Qed.

(** If everything is killed now, the transfer can start again, unless the server is
    creating the upload. *)
Lemma phase_killed i σ rk pe queue work :
  phase i σ rk pe queue work ->
  may_start σ j \/ exists p σs, work = [p] /\ creating p σs.
Proof.
  assert (forall r m, asks r σ m -> may_start σ j) as Ha.
  { intros r m [σ0 Hf|σ0 u Hst Hp|σ0 u ch l seq Hst Hp _]; [by left|right..]; by exists u. }
  assert (forall u, stored σ u -> partial_of content u -> may_start σ j) as Hs
    by (intros u Hst Hp; right; by exists u).
  intros Hp. destruct Hp as [| |r p σs a u cl c e Hw| | | | | ]; eauto.
  destruct (wk_kept _ _ _ _ _ _ Hw) as [Hc|Hk]; [right; by eexists _, _|left].
  destruct (throughout_start _ _ _ Hk) as (u' & Hst & Hpu). right. exists u'. split; [|done].
  apply (view_represents j σs); [apply Hw|exact Hst].
Qed.

(** *** From one stage to the next *)
Lemma server_reads_phase i n σ rk pe queue work errno (q : list Request) :
  phase i σ rk pe queue work -> cl_sent (pr_client pe) <> [] ->
  exists c e new rk',
    Conn.handleEvent i (bytes_events (take (S n) (cl_sent (pr_client pe))))
      (mk_env (pr_conn pe) errno (Some q)) = (Ok tt, mk_env c e (Some (q ++ new)), []) /\
    Forall (fun r => rq_connection r = i) new /\ lower True rk' rk /\
    phase i σ rk' (mk_peer (pr_uuid pe) (take_sent (S n) (pr_client pe)) c (pr_down pe) (pr_end pe))
      (queue ++ (rq_message <$> new)) work.
Proof.
  intros Hp Hs.
  destruct Hp as [r m pre cl c e Ha Hc E Hne Hpart Hq| | | | |m pre lost cl c e Hst Hwf Hc E Hl Hpart Hq| | ];
    cbn in Hs; try done; cbn [pr_client pr_conn pr_uuid pr_down pr_end].
  all: assert (length (drop (S n) (cl_sent cl)) < length (cl_sent cl))%nat as Hlt
    by (rewrite length_drop; by destruct (cl_sent cl); [|cbn; lia]).
  2: { rewrite <- (take_drop (S n) (cl_sent cl)), <- app_assoc in E.
    destruct (handleEvent_part i m pre _ _ c errno q Hwf Hpart (eq_sym E)) as (c' & e' & Hev & Hpart').
    case_decide as Hn; [by apply app_nil in Hn as [_ ?]|].
    eexists c', e', [], _. split; [exact Hev|]. split; [constructor|].
    split; [|apply (ph_lost_up i σ m (pre ++ take (S n) (cl_sent cl)) lost); try done].
    - by apply lower_rest.
    - by rewrite <- app_assoc. }
  rewrite <- (take_drop (S n) (cl_sent cl)) in E.
  destruct (handleEvent_part i m pre _ _ c errno q (ro_wf _ _ _ (asks_request r σ m Ha)) Hpart
    (eq_sym E)) as (c' & e' & Hev & Hpart').
  case_decide as Hr; (eexists c', e', _, _; split; [exact Hev|]).
  - split; [by repeat constructor|]. split; [|apply (ph_queued i σ r m); try done].
    apply lower_stage; lia.
  - split; [constructor|]. split; [|apply (ph_sent i σ r m (pre ++ take (S n) (cl_sent cl)))]; try done.
    + by apply lower_rest.
    + by rewrite <- app_assoc.
Qed.

Lemma client_reads_phase i n σ rk pe queue work :
  phase i σ rk pe queue work -> pr_down pe <> [] ->
  exists e rk',
    Conn.handleEvent 0 (bytes_events (take (S n) (pr_down pe))) (pr_end pe) = (Ok tt, e, []) /\
    lower True rk' rk /\
    phase i σ rk' (mk_peer (pr_uuid pe) (pr_client pe) (pr_conn pe) (drop (S n) (pr_down pe)) e)
      queue work.
Proof.
  intros Hp Hs.
  destruct Hp as [| | |u a pre down cl c e Hst Hpu Ha Hc Es Hpart E Hne He Hq| |
    |a pre down lost cl c e Hst Hwf Hc Es E Hl He Hq| ]; cbn in Hs; try done;
    cbn [pr_client pr_conn pr_uuid pr_down pr_end]; destruct e as [ce errno q]; cbn [e_conn e_broker] in *.
  all: assert (length (drop (S n) down) < length down)%nat as Hlt
    by (rewrite length_drop; by destruct down; [|cbn; lia]).
  all: subst q.
  2: { rewrite <- (take_drop (S n) down), <- app_assoc in E.
    destruct (handleEvent_part 0 a pre _ _ ce errno [] Hwf He (eq_sym E)) as (c' & e' & Hev & Hpart').
    case_decide as Hn; [by apply app_nil in Hn as [_ ?]|].
    eexists _, _. split; [exact Hev|].
    split; [|apply (ph_lost_down i σ a (pre ++ take (S n) down) _ lost); try done].
    - by apply lower_rest.
    - by rewrite <- app_assoc. }
  rewrite <- (take_drop (S n) down) in E.
  destruct (handleEvent_part 0 a pre _ _ ce errno [] (ad_wf _ _ _ _ Ha) He (eq_sym E))
    as (c' & e' & Hev & Hpart').
  case_decide as Hr; (eexists _, _; split; [exact Hev|]).
  - rewrite Hr. split; [|apply (ph_received i σ u a); try done]. apply lower_stage; lia.
  - split; [|apply (ph_answered i σ u a (pre ++ take (S n) down)); try done].
    + by apply lower_rest.
    + by rewrite <- app_assoc.
Qed.

Lemma client_handles_phase (send : bytes -> send_result) i σ rk pe queue work (r : Request)
    (q : list Request) :
  phase i σ rk pe queue work -> e_broker (pr_end pe) = Some (r :: q) ->
  exists cl rk',
    Handler.work (client_handler send (pr_uuid pe)) [(true, rq_message r)] (pr_client pe) =
      (Ok tt, cl) /\ lower (forall buf, taken (send buf) buf = buf) rk' rk /\
    phase i σ rk' (mk_peer (pr_uuid pe) cl (pr_conn pe) (pr_down pe)
      (setRequestBroker (Some q) (pr_end pe))) queue work.
Proof.
  intros Hp Hs. destruct Hp as [? ? ? ? ? ? ? ? ? ? ? [_ Hq]|? ? ? ? ? ? ? ? ? [_ Hq]
    |? ? ? ? ? ? ? ? ? ? ? ? [_ Hq]| |u a cl c e Hst Hp Ha [Efs Ef] Es Hpart He Hq
    |? ? ? ? ? ? ? ? ? ? ? ? [_ Hq]| |? ? ? ? ? ? ? ? ? [_ Hq]];
    cbn in Hs; try (rewrite Hq in Hs; discriminate); [congruence| |congruence].
  rewrite Hq in Hs. injection Hs as <- <-. cbn [rq_message pr_uuid pr_client pr_conn pr_down pr_end].
  pose proof Hok as [Ht Hn].
  destruct (partial_turn _ _ _ _ _ Ht a u cl Ha (rp_ok _ _ _ _ Hst) Hp Efs Ef)
    as (cl' & Hcl & Efs' & Hend & Hmore).
  unfold client_turn in Hcl. rewrite (deliver_encode a (ad_wf _ _ _ _ Ha)) in Hcl.
  cbn [mbind res_bind fmap list_fmap] in Hcl.
  assert (mk_client (cl_fs cl) (client_files cl) [] = cl) as E by (rewrite <- Es; by destruct cl).
  rewrite E in Hcl. destruct (Handler.work _ _ cl) as [[[]|x|] cl2] eqn:Ework; [|done..].
  injection Hcl as ->. pose proof (work_taken _ send _ cl cl' Es Ework) as Hwork.
  exists (mk_client (cl_fs cl') (client_files cl') (taken (send (cl_sent cl')) (cl_sent cl'))).
  destruct (up_missing u) as [|ch l] eqn:Em.
  - destruct (Hend eq_refl) as [Ef' Es']. eexists. split; [exact Hwork|]. rewrite Es', taken_nil.
    split; [|by apply (ph_done i σ u)]. apply lower_stage; lia.
  - destruct (Hmore ltac:(done)) as [_ Ef' [seq Es']].
    rewrite (next_is _ u ch l Hn Hp Em) in Es'.
    assert (asks (length l) σ (chunk_message seq (jb_uuid j) (job_file j) content ch)) as Hasks
      by (by eapply asks_chunk).
    destruct (taken_prefix (send (cl_sent cl')) (cl_sent cl')) as [[|x lost] El];
      (eexists; split; [exact Hwork|]).
    + rewrite app_nil_r in El. rewrite <- El.
      split; [|apply (ph_sent i σ (length l) _ [] _ _ _ Hasks); try done].
      * apply lower_stage; cbn; lia.
      * cbn. rewrite Es'. apply encode_ne.
    + split; [|apply (ph_lost_up i σ (chunk_message seq (jb_uuid j) (job_file j) content ch) [] (x :: lost)); try done].
      * apply lower_stage; [cbn; lia|lia|]. intros Hall. rewrite Hall in El.
        apply (f_equal length) in El. rewrite length_app in El. cbn in El. lia.
      * by apply (stored_start σ u).
      * apply (asks_request _ _ _ Hasks).
      * cbn [app cl_sent]. rewrite <- El. exact Es'.
Qed.
Lemma worker_takes_phase i σ rk pe (msg : Message) queue work :
  phase i σ rk pe (msg :: queue) work ->
  queue = [] /\ work = [] /\
  exists rk', lower True rk' rk /\ phase i σ rk' pe [] [respond_calls msg].
Proof.
  inversion 1 as [|r m cl c e Ha Hc Es Hpart Hq| | | | | | ]; subst. split; [done|]. split; [done|].
  destruct (working_start r σ m Ha) as (a & u & Hw).
  eexists. split; [|by eapply ph_served]. apply lower_stage; lia.
Qed.

Lemma worker_calls_phase i σ rk pe queue work {X : Set} (c : call X) f :
  phase i σ rk pe queue work -> Call c f ∈ work ->
  work = [Call c f] /\ exists rk' σs', lower True rk' rk /\
    phase i (snd (step_call (Call c f) σ)) rk' pe queue [fst (step_call (Call c f) σ)] /\
    inside keys dirs σ (snd (step_call (Call c f) σ)) σs'.
Proof.
  intros Hp Hin. inversion Hp as [| |r p σs a u cl c' e Hw Hc Es Hpart Hq| | | | | ]; subst;
    try by apply elem_of_nil in Hin.
  apply list_elem_of_singleton in Hin as <-. split; [done|].
  pose proof (working_step r σ c f σs a u Hw) as Hs.
  destruct (step_call (Call c f) σ) as [p' σ']. destruct Hs as (Hw' & Hi & Hlt).
  eexists _, _. split; [by apply lower_rest|]. split; [by eapply ph_served|exact Hi].
Qed.

Lemma worker_answers_phase (send : bytes -> send_result) i σ rk pe queue work
    (r : res (option Message)) :
  phase i σ rk pe queue work -> Done r ∈ work ->
  work = [Done r] /\ exists sent rk',
    (send_answer send r = Ok sent \/ sent = [] /\ exists x, send_answer send r = Throw x) /\
    lower (forall buf, taken (send buf) buf = buf) rk' rk /\ (lossy send -> lost_rank rk') /\
    phase i σ rk' (mk_peer (pr_uuid pe) (pr_client pe) (pr_conn pe) (pr_down pe ++ sent) (pr_end pe))
      queue [].
Proof.
  intros Hp Hin. inversion Hp as [| |n p σs a u cl c' e Hw Hc Es Hpart Hq| | | | | ]; subst;
    try by apply elem_of_nil in Hin.
  apply list_elem_of_singleton in Hin as <-. split; [done|].
  destruct Hw as [_ Hv Ea Hst Ha Hpu <- _]. cbn [exec fst snd lift] in Ea, Hst. subst r.
  assert (send_answer send (Ok (Some a)) = sendBuffer (send (encode a)) (encode a)) as E.
  { unfold send_answer. cbn [mbind res_bind]. by rewrite (serialize_encode a [] (ad_wf _ _ _ _ Ha)). }
  rewrite E. set (sent := taken (send (encode a)) (encode a)).
  exists sent. destruct Hq as [He Hb].
  assert (stored σ u) as Hst' by (by apply (view_represents j σs)).
  destruct (taken_prefix (send (encode a)) (encode a)) as [[|x lost] El]; fold sent in El;
    (eexists; split; [apply sendBuffer_cases|]).
  - rewrite app_nil_r in El.
    split; [|split; [|apply (ph_answered i σ u a [] sent); try done]].
    + apply lower_stage; lia.
    + intros Hl. by destruct (Hl (encode a) (encode_ne a)).
    + rewrite <- El. apply encode_ne.
  - split; [|split; [|apply (ph_lost_down i σ a [] sent (x :: lost)); try done]].
    + apply lower_stage; [lia|lia|]. intros Hall. unfold sent in El. rewrite Hall in El.
      apply (f_equal length) in El. rewrite length_app in El. cbn in El. lia.
    + done.
    + by apply (stored_start σ u).
    + apply Ha.
Qed.

Lemma boot_phase fd garbage i σ :
  may_start σ j -> exists rk, phase i σ rk (boot_peer fd garbage i j) [] [] /\ ~ lost_rank rk.
Proof.
  intros Hs. assert (exists r, asks r σ (buildMsgOffer 1 (jb_uuid j) (job_file j))) as [r Hr].
  { destruct Hs as [Hf|(u & Hst & Hp)]; eexists; [by apply asks_new|by eapply asks_old]. }
  eexists. unfold boot_peer. rewrite (started_eq j Hok). split.
  - eapply (ph_sent i σ r _ []); [exact Hr|done|reflexivity|apply encode_ne|apply holds_nothing|].
    split; [apply holds_nothing|done].
  - unfold lost_rank. cbn. lia.
Qed.

(** Unless it is at its end, somebody can do something for the exchange. *)
Lemma phase_enabled i σ rk pe queue work :
  phase i σ rk pe queue work -> ~ lost_rank rk ->
  cl_sent (pr_client pe) <> [] \/ queue <> [] \/ work <> [] \/ pr_down pe <> [] \/
  (exists r q, e_broker (pr_end pe) = Some (r :: q)) \/ uploadsCompleted (pr_client pe) = true.
Proof.
  destruct 1; intros Hl; cbn [pr_client pr_down pr_end]; auto 10; try by destruct Hl.
  - right. right. right. right. left. eauto.
  - do 5 right. by apply bool_decide_eq_true.
Qed.
End Exchange.
