(* ===== verification/Network.v ===== *)
(** * The whole system: its properties

    All clients at once: from the stages of the single exchanges ([Exchange]) to the runs of
    the whole ([System]), which are safe, end, complete, and survive being killed. *)
From Stdlib Require Import Relation_Operators Lexicographic_Product.
From S2P Require Import Prelude StdFs Msg FileMeta Identity File Upload.
From S2P Require Import MsgFctry Conn Framing Server Client Handler Calls.
From S2P Require Import Transfer Clients Workers Crash System Steps Exchange.
Import FsFacts DirFacts.

Implicit Types (i k w n : nat) (σ : fs) (j : job).

(** ** All clients *)
Section Network.
Context `{Blake2bLaws} `{UuidTextLaws}.
Context (js : list job) (Hok : Forall job_ok js).
Context (Hapart : forall i k j j', js !! i = Some j -> js !! k = Some j' -> i <> k -> apart j j').

Lemma ok_at i j : js !! i = Some j -> job_ok j.
Proof. by apply Forall_lookup_1. Qed.

Lemma others_keep i k j jk σ σ' σ1 σs :
  js !! i = Some j -> js !! k = Some jk -> k <> i ->
  inside (job_key j) (job_dirs j) σ σ' σ1 ->
  view (job_key jk) (job_dirs jk) σs σ -> view (job_key jk) (job_dirs jk) σs σ'.
Proof.
  intros Ei Ek Hne Hin Hv.
  pose proof (job_identity j (ok_at i j Ei)) as Hj. pose proof (job_identity jk (ok_at k jk Ek)) as Hk.
  apply (unseen _ _ (job_key j) (job_dirs j) σs σ σ' σ1); [| |done|done]; intros q Hq; split.
  - by apply (keys_apart jk j q Hk Hj (Hapart k i jk j Ek Ei Hne)).
  - by apply (key_not_made j jk q Hj Hk).
  - by apply (keys_apart j jk q Hj Hk (Hapart i k j jk Ei Ek (not_eq_sym Hne))).
  - by apply (key_not_made jk j q Hk Hj).
Qed.

(** Where the exchange of client [i] is; and what a step of it makes of its rank. *)
Definition exchanging (rs : list rank) σ i (pe : peer) (queue : list Message)
    (work : list (prog (option Message))) : Prop :=
  exists j rk, js !! i = Some j /\ rs !! i = Some rk /\ phase j i σ rk pe queue work.

Definition lowered i (P Q : Prop) (rs rs' : list rank) : Prop :=
  exists rk rk', rs !! i = Some rk /\ rs' = <[i := rk']> rs /\ lower P rk' rk /\ (Q -> lost_rank rk').

Abbreviation anywhere := (fun (rs : list rank) (σ : fs) => True).
Abbreviation goes := (steps_to anywhere exchanging lowered).
Abbreviation on_course := (course anywhere exchanging (length js)).

Lemma moved (P Q : Prop) rs σ σ' i j rk rk' pe queue work σ1 :
  js !! i = Some j -> rs !! i = Some rk -> lower P rk' rk -> (Q -> lost_rank rk') ->
  phase j i σ' rk' pe queue work -> inside (job_key j) (job_dirs j) σ σ' σ1 ->
  goes P Q rs σ i (<[i := rk']> rs) σ' pe queue work.
Proof.
  intros Ej Er Hlt Hlost Hp Hin. constructor; [by exists rk, rk'|done| |].
  - exists j, rk'. rewrite list_lookup_insert_eq by (by eapply lookup_lt_Some). done.
  - intros k pk qk wk Hne (jk & rkk & Ek & Erk & Hpk). exists jk, rkk.
    rewrite list_lookup_insert_ne by done. split; [done|]. split; [done|].
    apply (phase_frame jk k σ); [|done]. intros σs. by apply (others_keep i k j jk _ _ σ1).
Qed.

#[local] Instance network_exchanges : Exchanges everybody anywhere exchanging lowered.
Proof.
  split.
  - intros rs σ i n pe queue work errno q _ _ (j & rk & Ej & Er & Hp) Hne.
    destruct (server_reads_phase j (ok_at i j Ej) i n σ rk pe queue work errno q Hp Hne)
      as (c & e & new & rk' & Hev & Hnew & Hlt & Hp').
    exists c, e, new, (<[i := rk']> rs). split; [done|]. split; [done|].
    by apply (moved _ _ rs σ σ i j rk rk' _ _ _ σ); try apply inside_refl.
  - intros rs σ i n pe queue work _ _ (j & rk & Ej & Er & Hp) Hne.
    destruct (client_reads_phase j i n σ rk pe queue work Hp Hne) as (e & rk' & Hev & Hlt & Hp').
    exists e, (<[i := rk']> rs). split; [done|].
    by apply (moved _ _ rs σ σ i j rk rk' _ _ _ σ); try apply inside_refl.
  - intros send rs σ i pe queue work r q _ _ (j & rk & Ej & Er & Hp) Eq.
    destruct (client_handles_phase j (ok_at i j Ej) send i σ rk pe queue work r q Hp Eq)
      as (cl & rk' & Hwork & Hlt & Hp').
    exists cl, (<[i := rk']> rs). split; [done|].
    by apply (moved _ _ rs σ σ i j rk rk' _ _ _ σ); try apply inside_refl.
  - intros rs σ i pe msg queue work _ (j & rk & Ej & Er & Hp).
    destruct (worker_takes_phase j (ok_at i j Ej) i σ rk pe msg queue work Hp)
      as (E0 & E1 & rk' & Hlt & Hp').
    split; [done|]. split; [done|]. exists (<[i := rk']> rs).
    by apply (moved _ _ rs σ σ i j rk rk' _ _ _ σ); try apply inside_refl.
  - intros rs σ i pe queue work X c f _ (j & rk & Ej & Er & Hp) Hin.
    destruct (worker_calls_phase j (ok_at i j Ej) i σ rk pe queue work c f Hp Hin)
      as (E & rk' & σ1 & Hlt & Hp' & Hins).
    split; [done|]. exists (<[i := rk']> rs). by apply (moved _ _ rs σ _ i j rk rk' _ _ _ σ1).
  - intros send rs σ i pe queue work r _ (j & rk & Ej & Er & Hp) Hin.
    destruct (worker_answers_phase j send i σ rk pe queue work r Hp Hin)
      as (E & sent & rk' & Hsent & Hlt & Hlossy & Hp').
    split; [done|]. exists sent, (<[i := rk']> rs). split; [done|].
    by apply (moved _ _ rs σ σ i j rk rk' _ _ _ σ); try apply inside_refl.
Qed.

Lemma course_phase rs s i j :
  on_course rs s -> js !! i = Some j -> exists rk pe, rs !! i = Some rk /\ nw_peers s !! i = Some pe /\
    phase j i (nw_disk s) rk pe (queued_of i (nw_queue s)) (served_of i (nw_workers s)).
Proof.
  intros Hc Ej. destruct (co_place _ _ _ _ _ Hc i (lookup_lt_Some _ _ _ Ej))
    as (pe & Ep & j' & rk & Ej' & Er & Hp). simplify_eq. by exists rk, pe.
Qed.

(** Once a message is lost, it stays lost. *)
Definition lost_at i (rs : list rank) : Prop := exists rk, rs !! i = Some rk /\ lost_rank rk.

Lemma lowered_lost k (P Q : Prop) rs rs' i : lowered k P Q rs rs' -> lost_at i rs -> lost_at i rs'.
Proof.
  intros (x & y & E & -> & (_ & Hl & _) & _) (rk & Ei & Hlost). pose proof (lookup_lt_Some _ _ _ Ei).
  destruct (decide (k = i)) as [-> |Hne].
  - rewrite E in Ei. injection Ei as ->. exists y. rewrite list_lookup_insert_eq by done.
    split; [done|by apply Hl].
  - exists rk. by rewrite list_lookup_insert_ne.
Qed.

Lemma run_goes evs rs s :
  on_course rs s -> exists s' rs', run_events evs s = Ok s' /\ on_course rs' s' /\
    forall i, lost_at i rs -> lost_at i rs'.
Proof.
  intros Hc. destruct (run_course everybody _ _ _ (length js) evs rs s
    (Forall_true _ _ all_act) Hc) as (s' & rs' & Hrun & Hc' & Hr).
  exists s', rs'. split; [done|]. split; [done|]. intros i. clear Hc Hc' Hrun.
  induction Hr as [|rs rs1 rs' (k & P & Q & Hd) _ IH]; [done|]. intros Hi.
  by apply IH, (lowered_lost k P Q rs).
Qed.

(** No message has been lost. *)
Definition intact (rs : list rank) : Prop := Forall (fun rk => ~ lost_rank rk) rs.

Lemma lowered_intact k (P Q : Prop) rs rs' : P -> lowered k P Q rs rs' -> intact rs -> intact rs'.
Proof.
  intros HP (x & y & E & -> & (_ & _ & Hl) & _) Hi. apply Forall_insert; [done|]. intros Hy.
  by apply (Forall_lookup_1 _ _ _ _ Hi E), Hl.
Qed.

Lemma boot_on_course fd garbage n σ :
  Forall (may_start σ) js -> exists rs, on_course rs (boot fd garbage n σ js) /\ intact rs.
Proof.
  intros Hs. destruct (list_choice (fun i j rk => phase j i σ rk (boot_peer fd garbage i j) [] [] /\
    ~ lost_rank rk) js) as (rs & Hl & Hall).
  { intros i j Ej. apply boot_phase; [by apply (ok_at i)|by apply (Forall_lookup_1 _ _ _ _ Hs Ej)]. }
  exists rs. split.
  - apply boot_course; [done|done|]. intros i j Ej. destruct (Hall i j Ej) as (rk & Er & Hp & _).
    by exists j, rk.
  - apply Forall_lookup_2. intros i rk Er. pose proof (lookup_lt_Some _ _ _ Er) as Hlt.
    rewrite Hl in Hlt. apply lookup_lt_is_Some in Hlt as [j Ej].
    destruct (Hall i j Ej) as (rk' & Er' & _ & Hn). by simplify_eq.
Qed.

(** Every run ends: the ranks go down. *)
Lemma on_course_sn (P : event -> Prop) rs s : on_course rs s -> sn (moves P) s.
Proof.
  apply (course_sn everybody _ _ _ _ (fun rs' rs => one_down (lower False) rs rs')).
  - intros i P' Q rs0 rs' (x & y & Ex & -> & Hd & _). apply (one_down_at _ _ i x); [done|].
    unfold lower in *. tauto.
  - apply one_down_wf, lower_wf.
  - intros ev _. apply all_act.
Qed.

Lemma moves_on_course rs s s' :
  on_course rs s -> intact rs -> rtc (moves lossless) s s' -> exists rs', on_course rs' s' /\ intact rs'.
Proof.
  intros Hc Hi Hr.
  destruct (moves_course everybody _ _ _ _ _ _ _ _ (fun ev _ => all_act ev) Hc Hr) as (rs' & Hc' & Hg).
  exists rs'. split; [done|]. clear Hc Hc' Hr. revert Hi.
  induction Hg as [|rs rs1 rs' (i & ev & Q & Hev & Hd) _ IH]; intros Hi; [done|].
  by apply IH, (lowered_intact i _ Q rs _ Hev Hd).
Qed.

(** At the end every client is at its end. *)
Lemma all_completed rs s i j :
  on_course rs s -> intact rs -> nf (moves lossless) s -> (0 < length (nw_workers s))%nat ->
  js !! i = Some j ->
  exists pe, nw_peers s !! i = Some pe /\ uploadsCompleted (pr_client pe) = true /\
    nw_disk s !! job_data j = Some (Reg (jb_content j)).
Proof.
  intros Hc Hi Hnf Hl Ej. destruct (course_phase rs s i j Hc Ej) as (rk & pe & Er & Ep & _).
  destruct (peer_idle everybody _ _ _ (length js) lossless (fun ev H _ => H) rs s Hc Hnf Hl i pe I Ep)
    as (Es & Ed & Eb & j' & rk' & Ej' & Er' & Hp). simplify_eq. exists pe. split; [done|].
  assert (uploadsCompleted (pr_client pe) = true) as Hdone.
  { destruct (phase_enabled j i _ _ _ _ _ Hp (Forall_lookup_1 _ _ _ _ Hi Er))
      as [Hn|[Hn|[Hn|[Hn|[(r & q & Hn)|Hn]]]]]; [done..| |done]. by destruct (Eb r q). }
  split; [done|]. by apply (phase_completed j i _ _ _ _ _ Hp).
Qed.

(** A worker of the server is handling the first offer of client [i]. *)
Definition being_created (s : network) i j : Prop :=
  exists w p σs, nw_workers s !! w = Some (Some (i, p)) /\ creating j p σs.

(** In any other moment the disk is one to start from. *)
Lemma may_start_again rs s :
  on_course rs s -> (forall i j, js !! i = Some j -> ~ being_created s i j) ->
  Forall (may_start (nw_disk s)) js.
Proof.
  intros Hc Hnot. apply Forall_lookup_2. intros i j Ej.
  destruct (course_phase rs s i j Hc Ej) as (rk & pe & _ & _ & Hp).
  destruct (phase_killed j i _ _ _ _ _ Hp) as [|(p & σs & Ew & Hcr)]; [done|].
  destruct (Hnot i j Ej). destruct (served_at i (nw_workers s) p) as [w Hw]; [rewrite Ew; by left|].
  by exists w, p, σs.
Qed.

(** The two together, from the start. *)
Lemma stored_at_end fd garbage n σ :
  Forall (may_start σ) js -> (0 < n)%nat ->
  sn (moves anything) (boot fd garbage n σ js) /\
  forall s, rtc (moves lossless) (boot fd garbage n σ js) s -> nf (moves lossless) s ->
    nw_queue s = [] /\ Forall (eq None) (nw_workers s) /\
    forall i j, js !! i = Some j -> exists pe, nw_peers s !! i = Some pe /\
      uploadsCompleted (pr_client pe) = true /\
      nw_disk s !! job_data j = Some (Reg (jb_content j)).
Proof.
  intros Hs Hn. destruct (boot_on_course fd garbage n σ Hs) as (rs & Hc & Hi).
  split; [by apply (on_course_sn anything rs)|]. intros s Hr Hnf.
  destruct (moves_on_course rs _ s Hc Hi Hr) as (rs' & Hc' & Hi').
  pose proof (moves_workers _ _ _ Hr) as Hl. cbn [boot nw_workers] in Hl. rewrite length_replicate in Hl.
  assert (forall ev, lossless ev -> acts everybody ev -> lossless ev) as Hall by done.
  split; [apply (queue_empty everybody _ _ _ _ lossless Hall rs' s Hc' Hnf); lia|].
  split; [exact (workers_idle everybody _ _ _ _ lossless Hall rs' s Hc' Hnf)|].
  intros i j Ej. apply (all_completed rs'); [done..|lia|done].
Qed.
End Network.

(** ** Properties *)
Section Properties.
Context `{Blake2bLaws} `{UuidTextLaws}.
Context (js : list job) (Hok : Forall job_ok js).
Context (Hapart : forall i k j j', js !! i = Some j -> js !! k = Some j' -> i <> k -> apart j j').
Context (fd garbage : nat -> Z) (n_workers : nat) (σ : fs) (Hstart : Forall (may_start σ) js).

(** C9: the whole system is safe: any number of clients with files of their own, from
    nothing or from interrupted uploads, any number of workers; however the events of the
    poll loops, the system calls of the workers' handlers and the answers are interleaved,
    in whatever pieces the network delivers the bytes, whatever the sockets take of the
    messages of both sides (all, a part, nothing, or an error), and whatever the
    constructors of the connections leave uninitialised, no step throws or is undefined, and
    whenever a client takes its uploads for completed the server holds its whole file. *)
Theorem system_safe (evs : list event) :
  exists s, run_events evs (boot fd garbage n_workers σ js) = Ok s /\
    forall i j, js !! i = Some j -> exists pe, nw_peers s !! i = Some pe /\
      (uploadsCompleted (pr_client pe) = true ->
       nw_disk s !! job_data j = Some (Reg (jb_content j))).
Proof.
  destruct (boot_on_course js Hok fd garbage n_workers σ Hstart) as (rs & Hc & _).
  destruct (run_goes js Hok Hapart evs rs _ Hc) as (s & rs' & Hrun & Hc' & _).
  exists s. split; [done|]. intros i j Ej.
  destruct (course_phase js _ _ i j Hc' Ej) as (rk & pe & _ & Ep & Hp).
  exists pe. split; [done|]. by apply (phase_completed j i _ _ _ _ _ Hp).
Qed.

(** C8: the whole system always gets to its end: with at least one worker, every run, in
    whatever order things happen and whatever the sockets take, stops after finitely many
    steps; and if they always take whole messages, then when nothing more can happen the
    queue is empty, every worker waits, every client has completed its upload and every
    file is on the server. No deadlock, no request forgotten, no endless exchange. *)
Theorem system_completes :
  (0 < n_workers)%nat ->
  sn (moves anything) (boot fd garbage n_workers σ js) /\
  forall s, rtc (moves lossless) (boot fd garbage n_workers σ js) s -> nf (moves lossless) s ->
    nw_queue s = [] /\ Forall (eq None) (nw_workers s) /\
    forall i j, js !! i = Some j -> exists pe, nw_peers s !! i = Some pe /\
      uploadsCompleted (pr_client pe) = true /\
      nw_disk s !! job_data j = Some (Reg (jb_content j)).
Proof.
  by apply stored_at_end.
Qed.

(** C38: a message that the socket does not take as a whole is lost for good: after any run,
    when a worker sends its answer to a client and the socket takes only a part of it (or
    nothing, as when its buffer is full), then whatever happens afterwards the client never
    completes its upload: neither side notices, and neither sends anything again. *)
Theorem lost_message_stalls (evs evs' : list event) w i (r : res (option Message))
    (send : bytes -> send_result) :
  lossy send ->
  exists s, run_events evs (boot fd garbage n_workers σ js) = Ok s /\
    (nw_workers s !! w = Some (Some (i, Done r)) ->
     exists s' pe, run_events (WorkerAnswers w send :: evs') s = Ok s' /\
       nw_peers s' !! i = Some pe /\ uploadsCompleted (pr_client pe) = false).
Proof.
  intros Hlossy. destruct (boot_on_course js Hok fd garbage n_workers σ Hstart) as (rs & Hc & _).
  destruct (run_goes js Hok Hapart evs rs _ Hc) as (s & rs1 & Hrun & Hc1 & _).
  exists s. split; [done|]. intros Ew.
  pose proof (network_exchanges js Hok Hapart) as Hex.
  destruct (worker_answers_goes everybody _ _ _ _ rs1 s w send i r Hc1 Ew)
    as (x & E & s1 & rs2 & -> & Hc2 & rk & rk' & Er & -> & _ & Hlost).
  destruct (run_goes js Hok Hapart evs' _ s1 Hc2) as (s' & rs' & Hrun' & Hc' & Hkeep).
  destruct (Hkeep i) as (rk2 & Er2 & Hrk2).
  { exists rk'. rewrite list_lookup_insert_eq by (by eapply lookup_lt_Some). split; [done|by apply Hlost]. }
  destruct (course_worker _ _ _ rs1 s w i _ Hc1 Ew) as [Hi _].
  apply lookup_lt_is_Some in Hi as [j Ej].
  destruct (course_phase js _ _ i j Hc' Ej) as (rk3 & pe & Er3 & Ep & Hp). simplify_eq.
  exists s', pe. cbn [run_events do_step]. rewrite E. split; [done|]. split; [done|].
  by apply (phase_lost j i _ _ _ _ _ Hp).
Qed.

(** C10: the whole system survives being killed: stop the server and all clients at any
    moment, in the middle of the handlers of any workers, or when nothing goes on any more
    because the sockets have not taken whole messages, except while a worker is handling
    the first offer of a file: then every client may start again on the disk that is left,
    and the new run, with any number of workers and whatever its sockets take, ends; if they
    take whole messages, it ends with every file stored. *)
Theorem system_restarts (evs : list event) (fd' garbage' : nat -> Z) (n' : nat) :
  (0 < n')%nat ->
  exists s, run_events evs (boot fd garbage n_workers σ js) = Ok s /\
    ((forall i j, js !! i = Some j -> ~ being_created s i j) ->
     Forall (may_start (nw_disk s)) js /\
     let s0 := boot fd' garbage' n' (nw_disk s) js in
     sn (moves anything) s0 /\ forall s', rtc (moves lossless) s0 s' -> nf (moves lossless) s' ->
       forall i j, js !! i = Some j -> nw_disk s' !! job_data j = Some (Reg (jb_content j))).
Proof.
  intros Hn. destruct (boot_on_course js Hok fd garbage n_workers σ Hstart) as (rs & Hc & _).
  destruct (run_goes js Hok Hapart evs rs _ Hc) as (s & rs' & Hrun & Hc' & _).
  exists s. split; [done|]. intros Hnot.
  pose proof (may_start_again js rs' s Hc' Hnot) as Hagain.
  split; [done|]. cbv zeta.
  destruct (stored_at_end js Hok Hapart fd' garbage' n' (nw_disk s) Hagain Hn) as [Hsn Hend].
  split; [done|]. intros s' Hr Hnf i j Ej. destruct (Hend s' Hr Hnf) as (_ & _ & Hall).
  by destruct (Hall i j Ej) as (pe & _ & _ & Hd).
Qed.
End Properties.

(** ** Witnesses *)
Section Witnesses.
Import ToyHash ToyUuid.

Definition two_jobs : list job :=
  [job_of sample_uuid (replicate 5000 65); job_of sample_id (replicate 100 66)].

Lemma two_jobs_ok : Forall job_ok two_jobs.
Proof.
  apply Forall_cons_2; [|apply Forall_cons_2; [|constructor]];
    (apply job_of_ok; [done|decide_closed|decide_closed|done]).
Qed.

Lemma two_jobs_apart i k j j' :
  two_jobs !! i = Some j -> two_jobs !! k = Some j' -> i <> k -> apart j j'.
Proof. apply apart_pair. vm_compute. discriminate. Qed.

Lemma two_jobs_start : Forall (may_start ∅) two_jobs.
Proof.
  assert (forall j, fresh ∅ j) as Hf by (split; [apply empty_dirs_free|done]).
  apply Forall_cons_2; [|apply Forall_cons_2; [|constructor]]; left; apply Hf.
Qed.

(** The two workers handle a request of each client, their calls in turn; the first bytes
    of one request come alone. *)
Definition round_events : list event :=
  [ServerReads 0 9; ServerReads 1 5000; ServerReads 0 5000; WorkerTakes 1; WorkerTakes 0] ++
  concat (replicate 150 [WorkerCalls 0; WorkerCalls 1]) ++
  [WorkerAnswers 0 sent_whole; WorkerAnswers 1 sent_whole; ClientReads 0 3; ClientReads 0 5000;
   ClientReads 1 5000; ClientHandles 0 sent_whole; ClientHandles 1 sent_whole].
Definition some_events : list event := concat (replicate 3 round_events).

Lemma some_events_complete :
  match run_events some_events (boot Z.of_nat (fun _ => 77) 2 ∅ two_jobs) with
  | Ok s => forallb (fun pe => uploadsCompleted (pr_client pe)) (nw_peers s)
  | _ => false
  end = true.
Proof. vm_compute. reflexivity. Qed.

Lemma system_safe_witness :
  exists s, run_events some_events (boot Z.of_nat (fun _ => 77) 2 ∅ two_jobs) = Ok s /\
    forall i j, two_jobs !! i = Some j -> nw_disk s !! job_data j = Some (Reg (jb_content j)).
Proof.
  destruct (system_safe two_jobs two_jobs_ok two_jobs_apart Z.of_nat (fun _ => 77) 2 ∅ two_jobs_start
    some_events) as (s & Hrun & Hall).
  exists s. split; [exact Hrun|]. intros i j Ej. destruct (Hall i j Ej) as (pe & Ep & Hd). apply Hd.
  pose proof some_events_complete as Hc. rewrite Hrun in Hc. rewrite forallb_forall in Hc.
  apply Hc, list_elem_of_In. by apply list_elem_of_lookup_2 with i.
Defined.

Lemma system_completes_witness :
  sn (moves anything) (boot Z.of_nat (fun _ => 77) 2 ∅ two_jobs) /\
  forall s, rtc (moves lossless) (boot Z.of_nat (fun _ => 77) 2 ∅ two_jobs) s ->
    nf (moves lossless) s ->
    exists pe, nw_peers s !! 1%nat = Some pe /\ uploadsCompleted (pr_client pe) = true.
Proof.
  destruct (system_completes two_jobs two_jobs_ok two_jobs_apart Z.of_nat (fun _ => 77) 2 ∅
    two_jobs_start) as [P1 P2]; [lia|].
  split; [exact P1|]. intros s Hr Hnf. destruct (P2 s Hr Hnf) as (_ & _ & P3).
  destruct (P3 1%nat _ eq_refl) as (pe & Ep & Hd & _). exists pe. split; [exact Ep|exact Hd].
Defined.

(** After one round and some bytes of the next chunk no client is done, and no worker is
    in a handler. *)
Definition half_way : list event := round_events ++ [ServerReads 0 10].

Lemma half_way_idle :
  match run_events half_way (boot Z.of_nat (fun _ => 77) 2 ∅ two_jobs) with
  | Ok s => existsb (fun x => bool_decide (is_Some x)) (nw_workers s) ||
            existsb (fun pe => uploadsCompleted (pr_client pe)) (nw_peers s)
  | _ => true
  end = false.
Proof. vm_compute. reflexivity. Qed.

Lemma system_restarts_witness :
  exists s, run_events half_way (boot Z.of_nat (fun _ => 77) 2 ∅ two_jobs) = Ok s /\
    Forall (may_start (nw_disk s)) two_jobs /\
    sn (moves anything) (boot Z.of_nat (fun _ => 78) 16 (nw_disk s) two_jobs).
Proof.
  destruct (system_restarts two_jobs two_jobs_ok two_jobs_apart Z.of_nat (fun _ => 77) 2 ∅
    two_jobs_start half_way Z.of_nat (fun _ => 78) 16) as (s & Hrun & Hres); [lia|].
  exists s. split; [exact Hrun|]. destruct Hres as (P1 & P2 & _); [|split; [exact P1|exact P2]].
  intros i j Ej (w & p & σs & Ew & _).
  pose proof half_way_idle as Hidle. rewrite Hrun in Hidle.
  apply orb_false_iff in Hidle as [Hidle _].
  assert (Hl := lookup_lt_Some _ _ _ Ew).
  assert (Hw := existsb_nth _ _ None Hl Hidle). cbv beta in Hw.
  apply nth_lookup_Some with (d := None) in Ew. rewrite Ew in Hw. discriminate Hw.
Defined.

(** The first answer finds the buffer of the socket full. *)
Definition first_answer : list event :=
  [ServerReads 0 5000; WorkerTakes 0] ++ replicate 150 (WorkerCalls 0).

Lemma first_answer_ready :
  match run_events first_answer (boot Z.of_nat (fun _ => 77) 2 ∅ two_jobs) with
  | Ok s => match nw_workers s !! 0%nat with
            | Some (Some (0%nat, Done (Ok (Some _)))) => true
            | _ => false
            end
  | _ => false
  end = true.
Proof. vm_compute. reflexivity. Qed.

Lemma lost_message_stalls_witness :
  exists s s' pe, run_events first_answer (boot Z.of_nat (fun _ => 77) 2 ∅ two_jobs) = Ok s /\
    run_events (WorkerAnswers 0 (fun _ => SendError EAGAIN) :: some_events) s = Ok s' /\
    nw_peers s' !! 0%nat = Some pe /\ uploadsCompleted (pr_client pe) = false.
Proof.
  pose proof first_answer_ready as Hready.
  destruct (run_events first_answer (boot Z.of_nat (fun _ => 77) 2 ∅ two_jobs)) as [s0| |] eqn:E0;
    [|discriminate Hready..].
  destruct (nw_workers s0 !! 0%nat) as [[[[|c] [[[a|]|x|]|X cl f]]|]|] eqn:Ew; try discriminate Hready.
  destruct (lost_message_stalls two_jobs two_jobs_ok two_jobs_apart Z.of_nat (fun _ => 77) 2 ∅
    two_jobs_start first_answer some_events 0 0 (Ok (Some a)) (fun _ => SendError EAGAIN))
    as (s & Hrun & Hres); [intros buf Hb E; by destruct Hb|].
  rewrite E0 in Hrun. injection Hrun as <-. destruct (Hres Ew) as (s' & pe & P1 & P2 & P3).
  exists s0, s', pe. split; [reflexivity|]. split; [exact P1|]. split; [exact P2|exact P3].
Defined.
End Witnesses.
