(* ===== verification/Machine.v ===== *)
(** * The whole system, down to the threads

    [System] takes a request from the broker's queue in one step. Here the server process is
    as it runs: its main thread reads bytes, queues the requests it finds one after the other
    with queueRequest, and at the end the destructor of the broker runs; its workers go through
    RequestBrokerWorker::run, with the mutex, the condition variable, its spurious wakeups
    and the join of [Broker], and through the system calls of their handlers ([Calls]). The
    clients are those of [System]. Every run of this machine is a run of [System], and the
    other way round. *)
From stdpp Require Import relations.
From S2P Require Import Prelude Broker StdFs Msg FileMeta Identity File Upload.
From S2P Require Import MsgFctry Conn Framing Server Client Handler Calls.
From S2P Require Import Transfer Clients Workers System.

Implicit Types (i k w n : nat) (σ : fs) (j : job) (b : broker Request).

(** ** The state *)

(** What is left of the handler of each worker (while it is in one) is in [mc_calls]. *)
Record machine := mk_machine {
  mc_disk : fs;
  mc_errno : Z;
  mc_broker : broker Request;
  mc_calls : list (prog (option Message));
  mc_peers : list peer }.

Implicit Types (m : machine).

Definition with_broker b m : machine :=
  mk_machine (mc_disk m) (mc_errno m) b (mc_calls m) (mc_peers m).
Definition with_peers (l : list peer) m : machine :=
  mk_machine (mc_disk m) (mc_errno m) (mc_broker m) (mc_calls m) l.
Definition with_calls (l : list (prog (option Message))) m : machine :=
  mk_machine (mc_disk m) (mc_errno m) (mc_broker m) l (mc_peers m).

(** ** The steps *)
Section Machine.
Context `{Blake2b} `{UuidText}.

(** The main thread is in the poll loop, and has queued what it has read. *)
Definition polling b : bool :=
  match main b, commands b with MReady, [] => true | _, _ => false end.

(** The poll loop handles [n + 1] more bytes of client [i]; the requests in them are queued
    by the steps that follow. *)
Definition main_reads i n m : option (res machine) :=
  if polling (mc_broker m) then
    pe ← mc_peers m !! i;
    match cl_sent (pr_client pe) with
    | [] => None
    | sent =>
        Some match Conn.handleEvent i (bytes_events (take (S n) sent))
                     (mk_env (pr_conn pe) (mc_errno m) (Some [])) with
             | (Ok _, e, _) =>
                 Ok (mk_machine (mc_disk m) (e_errno e)
                       (set_commands (Queue <$> default [] (e_broker e)) (mc_broker m)) (mc_calls m)
                       (<[i := mk_peer (pr_uuid pe) (take_sent (S n) (pr_client pe)) (e_conn e)
                                 (pr_down pe) (pr_end pe)]> (mc_peers m)))
             | (Throw x, _, _) => Throw x
             | (Undef, _, _) => Undef
             end
    end
  else None.

(** queueRequest and stopWorkers. *)
Definition main_goes m : option (res machine) :=
  b ← main_step (mc_broker m); Some (Ok (with_broker b m)).

(** The loop has ended, main has returned, and the last pointer to the broker, the static
    Connection::sm_request_broker, comes to its end; the static members of RequestBroker are
    still there ([Exit] has them destroyed before or after). *)
Definition broker_ends m : option (res machine) :=
  if polling (mc_broker m) then Some (Ok (with_broker (set_commands [Destroy] (mc_broker m)) m))
  else None.

(** RequestBrokerWorker::run, outside of handleRequest. *)
Definition start_handler w b (l : list (prog (option Message))) : list (prog (option Message)) :=
  match workers b !! w with
  | Some (WHandle r) => <[w := respond_calls (rq_message r)]> l
  | _ => l
  end.

Definition thread_goes w m : option (res machine) :=
  match workers (mc_broker m) !! w with
  | Some (WHandle _) => None
  | _ =>
      b ← run_step w (mc_broker m);
      Some (Ok (with_calls (start_handler w b (mc_calls m)) (with_broker b m)))
  end.

(** A spurious wakeup. *)
Definition thread_wakes w m : option (res machine) :=
  match workers (mc_broker m) !! w with
  | Some WWaiting => Some (Ok (with_broker (Broker.set_worker w WWoken (mc_broker m)) m))
  | _ => None
  end.

(** The next system call of the handler. *)
Definition thread_calls w m : option (res machine) :=
  match workers (mc_broker m) !! w, mc_calls m !! w with
  | Some (WHandle _), Some (Call x f) =>
      let (p, σ) := step_call (Call x f) (mc_disk m) in
      Some (Ok (mk_machine σ (mc_errno m) (mc_broker m) (<[w := p]> (mc_calls m)) (mc_peers m)))
  | _, _ => None
  end.

(** Its end. *)
Definition thread_answers w (send : bytes -> send_result) m : option (res machine) :=
  match workers (mc_broker m) !! w, mc_calls m !! w with
  | Some (WHandle r), Some (Done x) =>
      let m' := with_broker (Broker.set_worker w WLoop (mc_broker m)) m in
      Some match send_answer send x, mc_peers m !! rq_connection r with
           | Ok sent, Some pe =>
               Ok (with_peers (<[rq_connection r := mk_peer (pr_uuid pe) (pr_client pe) (pr_conn pe)
                                  (pr_down pe ++ sent) (pr_end pe)]> (mc_peers m)) m')
           | Undef, _ => Undef
           | _, _ => Ok m'
           end
  | _, _ => None
  end.

(** ** The machine seen as a network *)

(** The requests that the main thread has read and not queued yet count as queued. *)
Definition pending b : list Request :=
  sm_req_list b ++ in_hand (main b) ++ requests_of (commands b).

Definition in_handler (x : Broker.worker Request) (p : prog (option Message)) : worker :=
  match x with WHandle r => Some (rq_connection r, p) | _ => None end.

Definition view m : network :=
  mk_network (mc_disk m) (mc_errno m) (pending (mc_broker m))
    (zip_with in_handler (workers (mc_broker m)) (mc_calls m)) (mc_peers m).

(** The steps of the client processes are those of [System]. *)
Definition at_peers (f : network -> option (res network)) m : option (res machine) :=
  x ← f (view m); Some (s ← x; Ok (with_peers (nw_peers s) m)).

Inductive act : Type :=
| MainReads i n
| MainGoes
| BrokerEnds
| ThreadGoes w
| ThreadWakes w
| ThreadCalls w
| ThreadAnswers w (send : bytes -> send_result)
| PeerReads i n
| PeerHandles i (send : bytes -> send_result).

Definition do_act (a : act) m : option (res machine) :=
  match a with
  | MainReads i n => main_reads i n m
  | MainGoes => main_goes m
  | BrokerEnds => broker_ends m
  | ThreadGoes w => thread_goes w m
  | ThreadWakes w => thread_wakes w m
  | ThreadCalls w => thread_calls w m
  | ThreadAnswers w send => thread_answers w send m
  | PeerReads i n => at_peers (client_reads i n) m
  | PeerHandles i send => at_peers (client_handles i send) m
  end.

Fixpoint run_acts (acts : list act) m : res machine :=
  match acts with
  | [] => Ok m
  | a :: acts' =>
      match do_act a m with
      | Some x => m' ← x; run_acts acts' m'
      | None => run_acts acts' m
      end
  end.

(** What happens in the network with a step: nothing, or one event. *)
Definition seen_as (a : act) m : option event :=
  match a with
  | MainReads i n => Some (ServerReads i n)
  | ThreadGoes w =>
      match workers (mc_broker m) !! w, sm_terminate (mc_broker m) with
      | Some WTake, false => Some (WorkerTakes w)
      | _, _ => None
      end
  | ThreadCalls w => Some (WorkerCalls w)
  | ThreadAnswers w send => Some (WorkerAnswers w send)
  | PeerReads i n => Some (ClientReads i n)
  | PeerHandles i send => Some (ClientHandles i send)
  | MainGoes | BrokerEnds | ThreadWakes _ => None
  end.

(** The events that a run has been seen as. *)
Fixpoint history (acts : list act) m : list event :=
  match acts with
  | [] => []
  | a :: acts' =>
      match do_act a m with
      | Some x => option_list (seen_as a m) ++
                  match x with Ok m' => history acts' m' | _ => [] end
      | None => history acts' m
      end
  end.

Definition view_res (x : res machine) : res network := m ← x; Ok (view m).

(** The server has started its workers, the clients are connected. *)
Definition boot_machine (fd garbage : nat -> Z) (n_workers : nat) σ (js : list job) : machine :=
  mk_machine σ 0 (startWorkers n_workers []) (replicate n_workers (Done (Ok None)))
    (imap (boot_peer fd garbage) js).
End Machine.

(** ** handleEvent only appends to the broker's queue *)
Section Appending.
Context (self : conn_id) (q : list Request).

Definition behind (s : env) : env := setRequestBroker (app q <$> e_broker s) s.

Lemma on_byte_behind x s :
  on_byte self x (behind s) = (fst (on_byte self x s), behind (snd (on_byte self x s))) /\
  (is_Some (e_broker s) -> is_Some (e_broker (snd (on_byte self x s)))).
Proof.
  destruct s as [c e bq]. unfold on_byte, behind. cbn [e_conn setRequestBroker e_broker].
  repeat case_match; try done.
  unfold mbind, M_bind, handleMessage. cbn [e_conn push_back e_broker setRequestBroker].
  destruct (parse _); [|done..]. destruct bq; [|done]. cbn. by rewrite <- app_assoc.
Qed.

Lemma on_bytes_behind bs s :
  on_bytes self bs (behind s) = (fst (on_bytes self bs s), behind (snd (on_bytes self bs s))) /\
  (is_Some (e_broker s) -> is_Some (e_broker (snd (on_bytes self bs s)))).
Proof.
  revert s. induction bs as [|x bs IH]; intros s; [done|]. cbn [on_bytes].
  rewrite !M_bind_case. destruct (on_byte_behind x s) as [-> Hq].
  destruct (on_byte self x s) as [[[]|y|] s1]; cbn [fst snd] in *; [|done..].
  rewrite !M_bind_case. cbn [modify]. change (set_errno 0 (behind s1)) with (behind (set_errno 0 s1)).
  destruct (IH (set_errno 0 s1)) as [-> Hq1]. auto.
Qed.

(** The requests found are the same whatever is queued already. *)
Lemma handleEvent_behind bs c e :
  match handleEvent self (bytes_events bs) (mk_env c e (Some [])) with
  | (Ok x, s, _) => exists s' l, handleEvent self (bytes_events bs) (mk_env c e (Some q)) = (Ok x, s', l) /\
      e_conn s' = e_conn s /\ e_errno s' = e_errno s /\
      default [] (e_broker s') = q ++ default [] (e_broker s)
  | (Throw y, _, _) => exists s' l, handleEvent self (bytes_events bs) (mk_env c e (Some q)) = (Throw y, s', l)
  | (Undef, _, _) => exists s' l, handleEvent self (bytes_events bs) (mk_env c e (Some q)) = (Undef, s', l)
  end.
Proof.
  pose proof (handleEvent_bytes self bs (mk_env c e (Some []))) as H0.
  pose proof (handleEvent_bytes self bs (mk_env c e (Some q))) as H1.
  assert (mk_env c e (Some q) = behind (mk_env c e (Some []))) as E
    by (unfold behind; cbn; by rewrite app_nil_r).
  destruct (on_bytes_behind bs (mk_env c e (Some []))) as [Hon Hq]. rewrite <- E in Hon.
  rewrite Hon in H1. unfold bytes_events.
  destruct (on_bytes self bs (mk_env c e (Some []))) as [[[]|y|] s1]; cbn [fst snd] in *.
  - rewrite H0, H1. eexists _, _. split; [done|]. cbn. split; [done|]. split; [done|].
    destruct Hq as [l ->]; [by eexists|done].
  - destruct H0 as [l0 ->], H1 as [l1 ->]. eauto.
  - destruct H0 as [l0 ->], H1 as [l1 ->]. eauto.
Qed.
End Appending.

(** ** Every step is seen as an event, or not at all *)

Fixpoint closed (c : list (command Request)) : Prop :=
  match c with
  | [] => True
  | Queue _ :: c' => closed c'
  | Destroy :: c' => c' = []
  end.

(** What always holds of the machine. *)
Record sane m : Prop := mk_sane {
  sa_broker : inv (mc_broker m);
  sa_closed : closed (commands (mc_broker m));
  sa_calls : length (mc_calls m) = length (workers (mc_broker m)) }.

Lemma closed_queue (l : list Request) : closed (Queue <$> l).
Proof. by induction l. Qed.

Lemma requests_of_queue (l : list Request) : requests_of (Queue <$> l) = l.
Proof. induction l as [|r l IH]; [done|]. cbn in *. by rewrite IH. Qed.

Lemma main_step_pending b b' :
  closed (commands b) -> main_step b = Some b' ->
  pending b' = pending b /\ closed (commands b') /\
  (forall (l : list (prog (option Message))),
     zip_with in_handler (workers b') l = zip_with in_handler (workers b) l).
Proof.
  intros Hc E. unfold main_step in E. unfold pending.
  assert (forall (l : list (prog (option Message))), zip_with in_handler (wake <$> workers b) l =
    zip_with in_handler (workers b) l) as Hwake.
  { intros l. rewrite zip_with_fmap_l. apply zip_with_ext; [|done..]. by intros []. }
  destruct (main b) as [|r|r| | | | | |] eqn:Em; [destruct (commands b) as [|[r|] c] eqn:Ec|..];
    repeat case_match; simplify_eq; cbn [set_mtx set_main set_commands Broker.push_back notify_all
      set_terminate sm_req_list main commands workers in_hand requests_of app closed] in *;
    rewrite ?Ec in *; split_and!; try done;
    first [by subst c | by rewrite <- ?app_assoc].
Qed.

Lemma zip_insert {A B C} (f : A -> B -> C) (l : list A) (l' : list B) w x y :
  length l = length l' -> zip_with f (<[w := x]> l) (<[w := y]> l') = <[w := f x y]> (zip_with f l l').
Proof.
  revert l' w. induction l as [|a l IH]; intros [|c l'] [|w] E; try done. cbn. f_equal. apply IH.
  by injection E.
Qed.

(** A worker that is in no handler before nor after. *)
Lemma zip_quiet (l : list (Broker.worker Request)) (l' : list (prog (option Message))) w x y :
  l !! w = Some x -> (forall p, in_handler x p = None) -> (forall p, in_handler y p = None) ->
  zip_with in_handler (<[w := y]> l) l' = zip_with in_handler l l'.
Proof.
  intros E Hx Hy. revert l' w E. induction l as [|a l IH]; intros [|p l'] [|w] E; try done.
  - injection E as ->. cbn. by rewrite Hx, Hy.
  - cbn. f_equal. by apply IH.
Qed.

Lemma zip_lookup (l : list (Broker.worker Request)) (l' : list (prog (option Message))) w x p :
  l !! w = Some x -> l' !! w = Some p -> zip_with in_handler l l' !! w = Some (in_handler x p).
Proof. intros E E'. by rewrite lookup_zip_with, E, E'. Qed.

Section Simulation.
Context `{Blake2b} `{UuidText}.

Lemma view_workers_length m : sane m -> length (nw_workers (view m)) = length (mc_calls m).
Proof. intros [_ _ Hl]. cbn. rewrite length_zip_with. lia. Qed.

(** The two sides of a step. *)
Definition simulated (a : act) m (x : res machine) : Prop :=
  (forall m', x = Ok m' -> sane m') /\
  match seen_as a m with
  | Some ev => do_step ev (view m) = Some (view_res x)
  | None => view_res x = Ok (view m)
  end.

Lemma main_reads_simulated i n m x :
  sane m -> main_reads i n m = Some x -> simulated (MainReads i n) m x.
Proof.
  intros [Hb Hc Hl] E. unfold main_reads, polling in E.
  destruct (main (mc_broker m)) eqn:Em; try done.
  destruct (commands (mc_broker m)) eqn:Ec; [|done].
  unfold simulated. cbn [seen_as do_step]. unfold server_reads. cbn [view nw_peers].
  destruct (mc_peers m !! i) as [pe|] eqn:Ep; [|done]. cbn [mbind option_bind] in *.
  destruct (cl_sent (pr_client pe)) as [|y l]; [done|]. apply (inj Some) in E. subst x.
  assert (pending (mc_broker m) = sm_req_list (mc_broker m)) as Hq
    by (unfold pending; by rewrite Em, Ec, app_nil_r).
  pose proof (handleEvent_behind i (pending (mc_broker m)) (take (S n) (y :: l)) (pr_conn pe)
    (mc_errno m)) as Hev.
  change (nw_queue (view m)) with (pending (mc_broker m)).
  change (nw_errno (view m)) with (mc_errno m).
  destruct (Conn.handleEvent i (bytes_events (take (S n) (y :: l))) (mk_env (pr_conn pe) (mc_errno m) (Some [])))
    as [[[[]|z|] s0] l0].
  - destruct Hev as (s' & l' & -> & E1 & E2 & E3). split.
    + intros m' [= <-]. constructor; cbn; [by apply inv_set_commands|apply closed_queue|done].
    + unfold view_res, view, set_peer, set_env. cbn. rewrite E1, E2, E3.
      do 3 f_equal. rewrite Hq. unfold pending. cbn. by rewrite Em, requests_of_queue.
  - destruct Hev as (s' & l' & ->). by split.
  - destruct Hev as (s' & l' & ->). by split.
Qed.

Lemma main_goes_simulated m x : sane m -> main_goes m = Some x -> simulated MainGoes m x.
Proof.
  intros [Hb Hc Hl] E. unfold main_goes in E. destruct (main_step (mc_broker m)) as [b'|] eqn:Es; [|done].
  injection E as <-. destruct (main_step_pending _ _ Hc Es) as (Hp & Hc' & Hz).
  pose proof (main_step_length _ _ Es) as Hlen. split.
  - intros m' [= <-]. constructor; cbn; [by apply (main_step_inv (mc_broker m))|done|lia].
  - unfold view_res, view. cbn. by rewrite Hp, Hz.
Qed.

Lemma broker_ends_simulated m x : sane m -> broker_ends m = Some x -> simulated BrokerEnds m x.
Proof.
  intros [Hb Hc Hl] E. unfold broker_ends, polling in E.
  destruct (main (mc_broker m)) eqn:Em; try done.
  destruct (commands (mc_broker m)) eqn:Ec; [|done]. injection E as <-. split.
  - intros m' [= <-]. constructor; cbn; [by apply inv_set_commands|done|done].
  - unfold view_res, view, pending. cbn. by rewrite Em, Ec.
Qed.

Lemma thread_wakes_simulated w m x :
  sane m -> thread_wakes w m = Some x -> simulated (ThreadWakes w) m x.
Proof.
  intros [Hb Hc Hl] E. unfold thread_wakes in E.
  destruct (workers (mc_broker m) !! w) as [[]|] eqn:Ew; try done. injection E as <-. split.
  - intros m' [= <-]. constructor; cbn; [|done|by rewrite length_insert].
    eapply step_any_inv; [exact Hb|by apply step_spurious].
  - unfold view_res, view. cbn. by rewrite (zip_quiet _ _ w WWaiting).
Qed.

(** run() outside of the handler: only taking a request is seen. *)
Lemma run_step_seen w b b' (l : list (prog (option Message))) x0 p :
  inv b -> workers b !! w = Some x0 -> l !! w = Some p -> length l = length (workers b) ->
  (forall r, x0 <> WHandle r) -> run_step w b = Some b' ->
  let ws := zip_with in_handler (workers b) l in
  let ws' := zip_with in_handler (workers b') (start_handler w b' l) in
  match x0, sm_terminate b with
  | WTake, false => exists r q, pending b = r :: q /\ pending b' = q /\
      ws' = <[w := Some (rq_connection r, respond_calls (rq_message r))]> ws
  | _, _ => pending b' = pending b /\ ws' = ws
  end.
Proof.
  intros Hb Ew Ep Hl Hnh Es. cbv zeta. pose proof (lookup_lt_Some _ _ _ Ew) as Hlt.
  unfold run_step in Es. rewrite Ew in Es. unfold pending.
  destruct x0; try done; repeat case_match; simplify_eq; unfold start_handler;
    cbn [set_mtx Broker.set_worker pop_front sm_req_list main commands workers sm_terminate] in *;
    rewrite ?list_lookup_insert_eq by done;
    try (split; [congruence|eapply zip_quiet; [exact Ew|done|done]]).
  - eexists _, _. split; [done|]. split; [done|]. by rewrite zip_insert.
  - by destruct (Hnh r).
Qed.

Lemma start_handler_length w b (l : list (prog (option Message))) :
  length (start_handler w b l) = length l.
Proof. unfold start_handler. repeat case_match; by rewrite ?length_insert. Qed.

Lemma calls_at w m x0 :
  sane m -> workers (mc_broker m) !! w = Some x0 -> exists p, mc_calls m !! w = Some p.
Proof.
  intros [_ _ Hl] Ew. apply lookup_lt_Some in Ew. apply lookup_lt_is_Some_2. lia.
Qed.

Lemma thread_goes_to w m b' :
  (forall r, workers (mc_broker m) !! w <> Some (WHandle r)) -> run_step w (mc_broker m) = Some b' ->
  thread_goes w m = Some (Ok (with_calls (start_handler w b' (mc_calls m)) (with_broker b' m))).
Proof.
  intros Hnh E. unfold thread_goes. rewrite E.
  destruct (workers (mc_broker m) !! w) as [[]|]; try done. by destruct (Hnh r).
Qed.

Lemma thread_goes_simulated w m x :
  sane m -> thread_goes w m = Some x -> simulated (ThreadGoes w) m x.
Proof.
  intros Hs E. destruct (workers (mc_broker m) !! w) as [x0|] eqn:Ew.
  2: { unfold thread_goes, run_step in E. by rewrite Ew in E. }
  destruct (calls_at w m x0 Hs Ew) as [p Ep]. destruct Hs as [Hb Hc Hl].
  assert (forall r, x0 <> WHandle r) as Hnh.
  { intros r ->. unfold thread_goes in E. by rewrite Ew in E. }
  destruct (run_step w (mc_broker m)) as [b'|] eqn:Es.
  2: { unfold thread_goes in E. rewrite Ew, Es in E. by destruct x0. }
  rewrite (thread_goes_to w m b') in E; [|rewrite Ew; intros r [= E0]; by apply (Hnh r)|done].
  injection E as <-.
  pose proof (run_step_seen w _ b' _ x0 p Hb Ew Ep Hl Hnh Es) as Hseen. cbv zeta in Hseen.
  split.
  - intros m' [= <-]. destruct (run_step_frame w _ _ Es) as (_ & _ & Ec). constructor; cbn.
    + by apply (run_step_inv w (mc_broker m)).
    + by rewrite Ec.
    + by rewrite start_handler_length, (run_step_length w (mc_broker m)).
  - cbn [seen_as]. rewrite Ew. unfold view_res, view. cbn.
    destruct x0; try (by destruct Hseen as [-> ->]).
    destruct (sm_terminate (mc_broker m)); [by destruct Hseen as [-> ->]|].
    destruct Hseen as (r & q & Eq & -> & ->). cbn [do_step]. unfold worker_takes. cbn [nw_workers nw_queue].
    rewrite (zip_lookup _ _ w WTake p Ew Ep), Eq. done.
Qed.

Lemma in_handler_at w m r p :
  workers (mc_broker m) !! w = Some (WHandle r) -> mc_calls m !! w = Some p ->
  nw_workers (view m) !! w = Some (Some (rq_connection r, p)).
Proof. intros Ew Ep. cbn. by rewrite (zip_lookup _ _ w _ p Ew Ep). Qed.

Lemma thread_calls_simulated w m x :
  sane m -> thread_calls w m = Some x -> simulated (ThreadCalls w) m x.
Proof.
  intros [Hb Hc Hl] E. unfold thread_calls in E.
  destruct (workers (mc_broker m) !! w) as [[]|] eqn:Ew; try done.
  destruct (mc_calls m !! w) as [[|X c f]|] eqn:Ep; try done.
  unfold simulated. cbn [seen_as do_step]. unfold worker_calls. rewrite (in_handler_at w m r _ Ew Ep).
  change (nw_disk (view m)) with (mc_disk m).
  destruct (step_call (Call c f) (mc_disk m)) as [p σ]. injection E as <-. split.
  - intros m' [= <-]. constructor; cbn; [done|done|by rewrite length_insert].
  - do 2 f_equal. unfold view, set_worker, set_disk. cbn. f_equal.
    change (Some (rq_connection r, p)) with (in_handler (WHandle r) p).
    rewrite <- zip_insert by done. by rewrite list_insert_id.
Qed.

Lemma thread_answers_simulated w (send : bytes -> send_result) m x :
  sane m -> thread_answers w send m = Some x -> simulated (ThreadAnswers w send) m x.
Proof.
  intros [Hb Hc Hl] E. unfold thread_answers in E.
  destruct (workers (mc_broker m) !! w) as [[]|] eqn:Ew; try done.
  destruct (mc_calls m !! w) as [[y|]|] eqn:Ep; try done.
  unfold simulated. cbn [seen_as do_step]. unfold worker_answers. rewrite (in_handler_at w m r _ Ew Ep).
  change (nw_peers (view m)) with (mc_peers m).
  assert (forall l, sane (with_peers l (with_broker (Broker.set_worker w WLoop (mc_broker m)) m))) as Hs.
  { intros l. constructor; cbn; [|done|by rewrite length_insert].
    apply (run_step_inv w (mc_broker m)); [done|]. unfold run_step. by rewrite Ew. }
  assert (forall l, view (with_peers l (with_broker (Broker.set_worker w WLoop (mc_broker m)) m)) =
    set_worker w None (mk_network (mc_disk m) (mc_errno m) (pending (mc_broker m))
      (zip_with in_handler (workers (mc_broker m)) (mc_calls m)) l)) as Hv.
  { intros l. unfold view, set_worker. cbn. f_equal.
    change None with (in_handler WLoop (Done y)).
    rewrite <- zip_insert by done. by rewrite (list_insert_id (mc_calls m)). }
  specialize (Hs (mc_peers m)) as Hs0. specialize (Hv (mc_peers m)) as Hv0.
  apply (inj Some) in E. subst x.
  destruct (send_answer send y) as [sent|z|]; [destruct (mc_peers m !! rq_connection r) as [pe|]|..];
    (split; [intros m' [= <-]; try apply Hs; exact Hs0|]); cbn [view_res mbind res_bind];
    rewrite ?Hv, ?Hv0; reflexivity || (do 2 f_equal; symmetry; exact Hv0).
Qed.

(** The steps of a client touch nothing else. *)
Lemma peer_step_frame ev (s s' : network) :
  match ev with ClientReads _ _ | ClientHandles _ _ => True | _ => False end ->
  do_step ev s = Some (Ok s') ->
  s' = mk_network (nw_disk s) (nw_errno s) (nw_queue s) (nw_workers s) (nw_peers s').
Proof.
  destruct ev as [i n|w|w|w send|i n|i send]; try done; intros _; cbn [do_step]; intros E.
  - unfold client_reads in E. destruct (nw_peers s !! i) as [pe|]; [|done]. cbn in E.
    destruct (pr_down _); [done|]. injection E as E.
    by destruct (Conn.handleEvent _ _ _) as [[[[]| |] ?] ?]; simplify_eq.
  - unfold client_handles in E. destruct (nw_peers s !! i) as [pe|]; [|done].
    cbn [mbind option_bind] in E.
    destruct (e_broker _) as [[|r q]|]; [done| |done]. injection E as E.
    by repeat case_match; simplify_eq.
Qed.

Lemma peers_simulated a ev m x :
  seen_as a m = Some ev ->
  match ev with ClientReads _ _ | ClientHandles _ _ => True | _ => False end ->
  sane m -> at_peers (do_step ev) m = Some x -> simulated a m x.
Proof.
  intros Hseen Hev [Hb Hc Hl] E. unfold at_peers in E. unfold simulated. rewrite Hseen.
  destruct (do_step ev (view m)) as [[s|y|]|] eqn:Es; [| | |done]; injection E as <-; cbn.
  - split; [|by rewrite (peer_step_frame ev (view m) s Hev Es)].
    intros m' [= <-]. by constructor.
  - by split.
  - by split.
Qed.

Lemma act_simulated a m x : sane m -> do_act a m = Some x -> simulated a m x.
Proof.
  destruct a as [i n| | |w|w|w|w send|i n|i send]; cbn [do_act].
  - apply main_reads_simulated.
  - apply main_goes_simulated.
  - apply broker_ends_simulated.
  - apply thread_goes_simulated.
  - apply thread_wakes_simulated.
  - apply thread_calls_simulated.
  - apply thread_answers_simulated.
  - by apply (peers_simulated _ (ClientReads i n)).
  - by apply (peers_simulated _ (ClientHandles i send)).
Qed.

Lemma run_simulated acts m :
  sane m -> run_events (history acts m) (view m) = view_res (run_acts acts m) /\
    (forall m', run_acts acts m = Ok m' -> sane m').
Proof.
  revert m. induction acts as [|a acts IH]; intros m Hs; [split; [done|by intros m' [= <-]]|].
  cbn [history run_acts]. destruct (do_act a m) as [x|] eqn:E; [|by apply IH].
  destruct (act_simulated a m x Hs E) as [Hs' Hsim]. rewrite run_events_app.
  assert (run_events (option_list (seen_as a m)) (view m) = view_res x) as ->.
  { destruct (seen_as a m) as [ev|]; [|done]. change (option_list (Some ev)) with [ev].
    cbn [run_events]. rewrite Hsim. by destruct x. }
  destruct x as [m1|y|]; [|done..]. cbn. by apply IH, Hs'.
Qed.

Lemma boot_sane fd garbage n σ (js : list job) : sane (boot_machine fd garbage n σ js).
Proof. constructor; [apply inv_init|done|cbn; by rewrite !length_replicate]. Qed.

Lemma boot_view fd garbage n σ (js : list job) :
  view (boot_machine fd garbage n σ js) = boot fd garbage n σ js.
Proof. unfold view, boot. cbn. f_equal. induction n as [|n IH]; [done|]. cbn. by rewrite IH. Qed.

(** ** What the network can do, the machine can do *)
Definition direct (ev : event) : act :=
  match ev with
  | ServerReads i n => MainReads i n
  | WorkerTakes w => ThreadGoes w
  | WorkerCalls w => ThreadCalls w
  | WorkerAnswers w send => ThreadAnswers w send
  | ClientReads i n => PeerReads i n
  | ClientHandles i send => PeerHandles i send
  end.

(** A worker of the network that is in a handler. *)
Lemma at_handler w m c p :
  nw_workers (view m) !! w = Some (Some (c, p)) ->
  exists r, workers (mc_broker m) !! w = Some (WHandle r) /\ mc_calls m !! w = Some p /\
    c = rq_connection r.
Proof.
  cbn. rewrite lookup_zip_with_Some. intros (x & p' & E & Ew & Ep).
  destruct x; try discriminate E. injection E as -> ->. by eexists.
Qed.

(** Only reading has to wait for the main thread, and only taking for the worker. *)
Lemma direct_enabled ev m y :
  sane m -> do_step ev (view m) = Some y ->
  match ev with
  | ServerReads _ _ => polling (mc_broker m) = true
  | WorkerTakes _ => False
  | _ => True
  end -> exists x, do_act (direct ev) m = Some x /\ view_res x = y.
Proof.
  intros Hs E Hev.
  assert (exists x, do_act (direct ev) m = Some x) as [x Ex].
  { destruct ev as [i n|w|w|w send|i n|i send]; cbn [direct do_act do_step] in *; [|done|..].
    - unfold main_reads. rewrite Hev. unfold server_reads in E. cbn [view nw_peers] in E.
      destruct (mc_peers m !! i) as [pe|]; [|done]. cbn [mbind option_bind] in *.
      destruct (cl_sent (pr_client pe)); [done|by eexists].
    - unfold worker_calls in E. destruct (nw_workers (view m) !! w) as [[[c [z|X cl f]]|]|] eqn:Ew; try done.
      apply at_handler in Ew as (r & Ew & Ep & _). unfold thread_calls. rewrite Ew, Ep.
      destruct (step_call _ _). by eexists.
    - unfold worker_answers in E. destruct (nw_workers (view m) !! w) as [[[c [z|X cl f]]|]|] eqn:Ew; try done.
      apply at_handler in Ew as (r & Ew & Ep & _). unfold thread_answers. rewrite Ew, Ep. by eexists.
    - unfold at_peers. rewrite E. by eexists.
    - unfold at_peers. rewrite E. by eexists. }
  exists x. split; [done|]. destruct (act_simulated _ m x Hs Ex) as [_ Hsim].
  assert (seen_as (direct ev) m = Some ev) as Hseen by (by destruct ev).
  rewrite Hseen in Hsim. congruence.
Qed.

(** Nothing goes on in the broker: every worker is at the head of its loop or in a handler. *)
Definition at_rest (x : Broker.worker Request) : Prop :=
  match x with WLoop | WHandle _ => True | _ => False end.

Record resting m : Prop := mk_resting {
  re_main : main (mc_broker m) = MReady;
  re_commands : commands (mc_broker m) = [];
  re_mutex : sm_req_brkr_mtx (mc_broker m) = None;
  re_terminate : sm_terminate (mc_broker m) = false;
  re_workers : Forall at_rest (workers (mc_broker m)) }.

Lemma run_acts_app l1 l2 m : run_acts (l1 ++ l2) m = (m' ← run_acts l1 m; run_acts l2 m').
Proof.
  revert m. induction l1 as [|a l1 IH]; intros m; [done|]. cbn [app run_acts].
  destruct (do_act a m) as [[m1|y|]|]; [apply IH|done|done|apply IH].
Qed.

(** queueRequest without interruption, for each request that has been read. *)
Lemma queue_acts (l : list Request) m :
  sane m -> main (mc_broker m) = MReady -> commands (mc_broker m) = Queue <$> l ->
  sm_req_brkr_mtx (mc_broker m) = None -> sm_terminate (mc_broker m) = false ->
  Forall at_rest (workers (mc_broker m)) ->
  exists acts m', run_acts acts m = Ok m' /\ resting m' /\ view m' = view m.
Proof.
  revert m. induction l as [|r l IH]; intros m Hs Em Ec Eo Et Hw.
  { exists [], m. split; [done|]. by split. }
  destruct m as [σ e [q t o ws mn c qd tk] calls peers]. cbn in Em, Ec, Eo, Et, Hw. subst.
  set (acts := [MainGoes; MainGoes; MainGoes; MainGoes]).
  set (m1 := mk_machine σ e (mk_broker (q ++ [r]) false None (wake <$> ws) MReady (Queue <$> l)
    (qd ++ [r]) tk) calls peers).
  match goal with |- context [run_acts _ ?m0] => set (m := m0) in * end.
  assert (run_acts acts m = Ok m1) as Erun by reflexivity.
  destruct (run_simulated acts m Hs) as [Hsim Hs1]. rewrite Erun in Hsim.
  change (Ok (view m) = Ok (view m1)) in Hsim.
  assert (view m1 = view m) as Hv by congruence.
  destruct (IH m1 (Hs1 _ Erun) eq_refl eq_refl eq_refl eq_refl) as (acts' & m' & E' & Hr & Hv').
  { apply list.Forall_fmap. eapply list.Forall_impl; [exact Hw|]. by intros []. }
  exists (acts ++ acts'), m'. rewrite run_acts_app, Erun. split; [done|]. by rewrite Hv', Hv.
Qed.

(** run() from the head of the loop into the handler. *)
Section Taking.
Context σ (e : Z) (ws : list (Broker.worker Request)) (qd : list Request) (tk : list (nat * Request)).
Context (calls : list (prog (option Message))) (peers : list peer) (r : Request) (q : list Request) w.

Definition taking (o : option Broker.owner) (x : Broker.worker Request) : machine :=
  mk_machine σ e (mk_broker (r :: q) false o (<[w := x]> ws) MReady [] qd tk) calls peers.
Definition has_taken : machine :=
  mk_machine σ e (mk_broker q false None (<[w := WHandle r]> ws) MReady [] qd (tk ++ [(w, r)]))
    (<[w := respond_calls (rq_message r)]> calls) peers.

Context (Hlt : (w < length ws)%nat).

Lemma taking_at o x : workers (mc_broker (taking o x)) !! w = Some x.
Proof. by apply list_lookup_insert_eq. Qed.

Lemma taking_goes o x o' x' :
  (forall y, x <> WHandle y) -> (forall y, x' <> WHandle y) ->
  run_step w (mc_broker (taking o x)) =
    Some (set_mtx o' (Broker.set_worker w x' (mc_broker (taking o x)))) ->
  thread_goes w (taking o x) = Some (Ok (taking o' x')).
Proof.
  intros Hx Hx' E.
  assert (run_step w (mc_broker (taking o x)) = Some (mc_broker (taking o' x'))) as E'
    by (rewrite E; unfold set_mtx, Broker.set_worker; cbn; by rewrite list_insert_insert_eq).
  rewrite (thread_goes_to w _ (mc_broker (taking o' x'))); [|rewrite taking_at; congruence|done].
  unfold start_handler. rewrite taking_at. by destruct x'; try (by destruct (Hx' r0)).
Qed.

Lemma taking_takes :
  thread_goes w (taking (Some (Worker w)) WTake) = Some (Ok has_taken).
Proof.
  set (b0 := mc_broker (taking (Some (Worker w)) WTake)).
  rewrite (thread_goes_to w _ (set_mtx None (pop_front w r q (Broker.set_worker w (WHandle r) b0))));
    [|rewrite taking_at; congruence|unfold run_step; by rewrite taking_at].
  assert (set_mtx None (pop_front w r q (Broker.set_worker w (WHandle r) b0)) = mc_broker has_taken) as ->
    by (unfold set_mtx, pop_front, Broker.set_worker; cbn; by rewrite list_insert_insert_eq).
  unfold start_handler. cbn [has_taken mc_broker workers]. by rewrite list_lookup_insert_eq.
Qed.

Lemma taking_run : run_acts (replicate 4 (ThreadGoes w)) (taking None WLoop) = Ok has_taken.
Proof.
  cbn [replicate run_acts do_act].
  rewrite (taking_goes None WLoop None WLock) by (try done; unfold run_step; by rewrite taking_at).
  cbn [mbind res_bind].
  rewrite (taking_goes None WLock (Some (Worker w)) WHold)
    by (try done; unfold run_step; by rewrite taking_at).
  cbn [mbind res_bind].
  rewrite (taking_goes _ WHold (Some (Worker w)) WTake)
    by (try done; unfold run_step; by rewrite taking_at).
  cbn [mbind res_bind]. by rewrite taking_takes.
Qed.
End Taking.

Lemma take_acts w m r (q : list Request) :
  sane m -> resting m -> workers (mc_broker m) !! w = Some WLoop -> sm_req_list (mc_broker m) = r :: q ->
  exists m', run_acts (replicate 4 (ThreadGoes w)) m = Ok m' /\ resting m' /\
    view m' = set_worker w (Some (rq_connection r, respond_calls (rq_message r))) (set_queue q (view m)).
Proof.
  intros [_ _ Hl] [Em Ec Eo Et Hw] Ew Eq.
  destruct m as [σ e [q0 t o ws mn c qd tk] calls peers]. cbn in Em, Ec, Eo, Et, Hw, Ew, Eq, Hl. subst.
  pose proof (lookup_lt_Some _ _ _ Ew) as Hlt.
  exists (has_taken σ e ws qd tk calls peers r q w). split; [|split].
  - rewrite <- (taking_run σ e ws qd tk calls peers r q w Hlt). unfold taking.
    by rewrite (list_insert_id ws).
  - constructor; try done. cbn. by apply Forall_insert.
  - unfold view, set_worker, set_queue, pending, has_taken. cbn [mc_disk mc_errno mc_broker mc_calls
      mc_peers sm_req_list main commands workers nw_disk nw_errno nw_queue nw_workers nw_peers
      in_hand requests_of app]. by rewrite zip_insert, app_nil_r.
Qed.

Lemma direct_resting ev m m' :
  resting m -> do_act (direct ev) m = Some (Ok m') ->
  match ev with ServerReads _ _ | WorkerTakes _ => False | _ => True end -> resting m'.
Proof.
  intros [Em Ec Eo Et Hw] E Hev.
  destruct ev as [i n|w|w|w send|i n|i send]; try done; cbn [direct do_act] in E.
  - unfold thread_calls in E. destruct (workers (mc_broker m) !! w) as [[]|]; try done.
    destruct (mc_calls m !! w) as [[|X c f]|]; try done. destruct (step_call _ _).
    injection E as <-. by constructor.
  - unfold thread_answers in E. destruct (workers (mc_broker m) !! w) as [[]|]; try done.
    destruct (mc_calls m !! w) as [[y|]|]; try done.
    assert (Forall at_rest (<[w := WLoop]> (workers (mc_broker m)))) by (by apply Forall_insert).
    destruct (send_answer send y), (mc_peers m !! rq_connection r); simplify_eq; by constructor.
  - unfold at_peers in E. destruct (client_reads i n (view m)) as [[]|]; simplify_eq/=. by constructor.
  - unfold at_peers in E. destruct (client_handles i send (view m)) as [[]|]; simplify_eq/=. by constructor.
Qed.

(** Reading, and then queueing what has been read. *)
Lemma read_realized i n m m1 :
  sane m -> resting m -> do_act (MainReads i n) m = Some (Ok m1) ->
  exists acts m', run_acts acts m = Ok m' /\ resting m' /\ view m' = view m1.
Proof.
  intros Hs Hr Ex. assert (run_acts [MainReads i n] m = Ok m1) as Erun by (cbn [run_acts]; by rewrite Ex).
  pose proof (proj2 (run_simulated _ m Hs) _ Erun) as Hs1.
  cbn [do_act] in Ex. unfold main_reads in Ex.
  destruct (polling (mc_broker m)); [|done]. destruct (mc_peers m !! i) as [pe|]; [|done].
  cbn [mbind option_bind] in Ex. destruct (cl_sent (pr_client pe)) as [|y l]; [done|].
  destruct (Conn.handleEvent _ _ _) as [[[[]| |] e] ?]; try done. injection Ex as <-.
  edestruct (queue_acts (default [] (e_broker e))) as (acts & m2 & Erun2 & Hr2 & Hv2);
    [exact Hs1|apply Hr|reflexivity|apply Hr..|].
  exists ([MainReads i n] ++ acts), m2. rewrite run_acts_app, Erun. by split.
Qed.

Lemma take_realized w m s' :
  sane m -> resting m -> worker_takes w (view m) = Some (Ok s') ->
  exists acts m', run_acts acts m = Ok m' /\ resting m' /\ view m' = s'.
Proof.
  intros Hs Hr E. unfold worker_takes in E.
  destruct (nw_workers (view m) !! w) as [[]|] eqn:Ew; try done.
  destruct (nw_queue (view m)) as [|r q] eqn:Eq; [done|]. injection E as <-.
  cbn in Ew. rewrite lookup_zip_with_Some in Ew. destruct Ew as (x & p & Ex & Ew & _).
  pose proof (Forall_lookup_1 _ _ _ _ (re_workers m Hr) Ew) as Hx. destruct x; try done.
  cbn in Eq. unfold pending in Eq. rewrite (re_main m Hr), (re_commands m Hr), app_nil_r in Eq.
  destruct (take_acts w m r q Hs Hr Ew Eq) as (m' & Erun & Hr' & Hv). by eauto.
Qed.

(** A step of the network, from a state of rest to one of rest. *)
Lemma step_realized ev m s' :
  sane m -> resting m -> do_step ev (view m) = Some (Ok s') ->
  exists acts m', run_acts acts m = Ok m' /\ resting m' /\ view m' = s'.
Proof.
  intros Hs Hr E.
  assert (forall ev, match ev with WorkerTakes _ => False | _ => True end ->
    do_step ev (view m) = Some (Ok s') ->
    exists m', do_act (direct ev) m = Some (Ok m') /\ view m' = s') as Hdirect.
  { intros ev0 Hev E0. destruct (direct_enabled ev0 m _ Hs E0) as ([m1| |] & Ex & Hx); try done.
    - destruct ev0; try done. unfold polling. by rewrite (re_main m Hr), (re_commands m Hr).
    - injection Hx as Hx. by exists m1. }
  destruct ev as [i n|w|w|w send|i n|i send]; [|by apply (take_realized w)|..].
  { destruct (Hdirect (ServerReads i n) I E) as (m1 & E1 & <-). by apply (read_realized i n). }
  all: match type of E with do_step ?ev _ = _ =>
    destruct (Hdirect ev I E) as (m1 & E1 & <-); exists [direct ev], m1;
    split; [cbn [run_acts]; by rewrite E1|]; split; [by apply (direct_resting ev m)|done] end.
Qed.

Lemma run_realized evs m s' :
  sane m -> resting m -> run_events evs (view m) = Ok s' ->
  exists acts m', run_acts acts m = Ok m' /\ resting m' /\ view m' = s'.
Proof.
  revert m. induction evs as [|ev evs IH]; intros m Hs Hr E.
  { injection E as <-. by exists [], m. }
  cbn [run_events] in E. destruct (do_step ev (view m)) as [[s1| |]|] eqn:Ex; try done; [|by apply IH].
  destruct (step_realized ev m s1 Hs Hr Ex) as (acts1 & m1 & E1 & Hr1 & Hv1).
  cbn [mbind res_bind] in E. rewrite <- Hv1 in E.
  destruct (run_simulated acts1 m Hs) as [_ Hs1].
  destruct (IH m1 (Hs1 _ E1) Hr1 E) as (acts2 & m2 & E2 & Hr2 & Hv2).
  exists (acts1 ++ acts2), m2. by rewrite run_acts_app, E1.
Qed.

Lemma boot_resting fd garbage n σ (js : list job) : resting (boot_machine fd garbage n σ js).
Proof. constructor; try done. cbn. by apply Forall_replicate. Qed.
End Simulation.

(** ** Properties *)
Section Properties.
Context `{Blake2b} `{UuidText}.
Context (fd garbage : nat -> Z) (n_workers : nat) (σ : fs) (js : list job).

(** C5: the queue of [System] is what the mutex, the condition variable and the threads of the
    broker make of it: any run of the machine, with any interleaving of the main thread, the
    workers and the clients, with requests queued one by one, spurious wakeups and a signal
    that ends the broker at any moment (its static members being there), has the same outcome (the same disk, connections and
    clients, or the same exception) as the events of [System] it has been seen as. *)
Theorem machine_refines_system (acts : list act) :
  run_events (history acts (boot_machine fd garbage n_workers σ js)) (boot fd garbage n_workers σ js) =
  view_res (run_acts acts (boot_machine fd garbage n_workers σ js)).
Proof.
  rewrite <- boot_view. by apply run_simulated, boot_sane.
Qed.

(** C6: and [System] has no run too many: whatever it does, a schedule of the threads does. *)
Theorem machine_realizes_system (evs : list event) (s : network) :
  run_events evs (boot fd garbage n_workers σ js) = Ok s ->
  exists acts m, run_acts acts (boot_machine fd garbage n_workers σ js) = Ok m /\ view m = s.
Proof.
  rewrite <- boot_view. intros E.
  destruct (run_realized evs _ s (boot_sane _ _ _ _ _) (boot_resting _ _ _ _ _) E)
    as (acts & m & Erun & _ & Hv).
  by exists acts, m.
Qed.
End Properties.

(** ** Witness: one client, one worker, its first request and the answer *)
Section Witnesses.
Import ToyHash ToyUuid.

Definition one_job : list job := [job_of sample_uuid (replicate 5000 65)].
Definition one_answer : list event :=
  [ServerReads 0 9; ServerReads 0 5000; WorkerTakes 0] ++ replicate 150 (WorkerCalls 0) ++
  [WorkerAnswers 0 sent_whole].

Lemma one_answer_sent :
  match run_events one_answer (boot Z.of_nat (fun _ => 77) 1 ∅ one_job) with
  | Ok s => match nw_peers s with [pe] => negb (bool_decide (pr_down pe = [])) | _ => false end
  | _ => false
  end = true.
Proof. vm_compute. reflexivity. Qed.

Lemma machine_realizes_system_witness :
  exists acts m pe, run_acts acts (boot_machine Z.of_nat (fun _ => 77) 1 ∅ one_job) = Ok m /\
    mc_peers m = [pe] /\ pr_down pe <> [].
Proof.
  pose proof one_answer_sent as Hsent.
  destruct (run_events one_answer (boot Z.of_nat (fun _ => 77) 1 ∅ one_job)) as [s| |] eqn:E;
    [|discriminate Hsent..].
  destruct (machine_realizes_system Z.of_nat (fun _ => 77) 1 ∅ one_job one_answer s E)
    as (acts & m & Hrun & Hv).
  destruct (nw_peers s) as [|pe [|]] eqn:Ep; try discriminate Hsent.
  exists acts, m, pe. split; [exact Hrun|]. split; [by rewrite <- Ep, <- Hv|].
  intros Hd. by rewrite bool_decide_true in Hsent.
Defined.
End Witnesses.
