(* ===== verification/Threads.v ===== *)
(** * The whole system, down to the threads: its properties

    What [Network] proves of the whole system holds of it as it runs ([Machine]): with the
    mutex and the condition variable, with requests that wait while the main thread queues
    them, with spurious wakeups. And a server that is ended by a signal, at any moment,
    joins its workers and leaves a disk from which everything can go on, when the broker ends
    before the queue and the condition variable (see [Statics] for the other order). *)
From stdpp Require Import relations.
From S2P Require Import Prelude Broker StdFs Msg FileMeta Identity File Upload.
From S2P Require Import MsgFctry Conn Framing Server Client Handler Calls.
From S2P Require Import Transfer Clients Workers Crash System Steps Exchange Network Machine.

Implicit Types (i k w n : nat) (σ : fs) (j : job) (b : broker Request) (m : machine).

(** ** Steps *)

(** Not a spurious wakeup. *)
Definition real (a : act) : Prop := match a with ThreadWakes _ => False | _ => True end.

(** The sockets take whole messages, and no signal arrives. *)
Definition served (a : act) : Prop :=
  match a with
  | ThreadAnswers _ send | PeerHandles _ send => forall buf, Conn.taken (send buf) buf = buf
  | BrokerEnds => False
  | _ => True
  end.

Section Steps.
Context `{Blake2b} `{UuidText}.

Inductive act_moves (P : act -> Prop) m m' : Prop :=
| act_moves_by a : P a -> do_act a m = Some (Ok m') -> act_moves P m m'.

Lemma act_moves_sane (P : act -> Prop) m m' : sane m -> rtc (act_moves P) m m' -> sane m'.
Proof.
  intros Hs Hr. induction Hr as [|m m1 m' [a _ E] _ IH]; [done|].
  by apply IH, (act_simulated a m _ Hs E).
Qed.

Lemma run_acts_moves (P : act -> Prop) acts m m' :
  Forall P acts -> run_acts acts m = Ok m' -> rtc (act_moves P) m m'.
Proof.
  intros HP. revert m. induction HP as [|a acts Ha _ IH]; intros m E; [by injection E as ->|].
  cbn [run_acts] in E. destruct (do_act a m) as [[m1| |]|] eqn:Ea; try done; [|by apply IH].
  eapply rtc_l; [by exists a|by apply IH].
Qed.

Lemma served_lossless a m ev : served a -> seen_as a m = Some ev -> lossless ev.
Proof. destruct a; cbn; intros Ha E; repeat case_match; simplify_eq; done. Qed.

Lemma view_same m m' : view_res (Ok m) = Ok (view m') -> view m = view m'.
Proof. intros E. change (Ok (view m) = Ok (view m')) in E. congruence. Qed.

Lemma moves_seen m m' :
  sane m -> rtc (act_moves served) m m' -> rtc (moves lossless) (view m) (view m').
Proof.
  intros Hs Hr. induction Hr as [|m m1 m' [a Ha E] _ IH]; [done|].
  destruct (act_simulated a m _ Hs E) as [Hs1 Hsim]. specialize (Hs1 m1 eq_refl).
  destruct (seen_as a m) as [ev|] eqn:Eseen.
  - eapply rtc_l; [|by apply IH]. exists ev; [by apply (served_lossless a m)|done].
  - apply view_same in Hsim. rewrite <- Hsim. by apply IH.
Qed.

(** ** Every run ends *)
Definition is_queue (c : command Request) : bool := match c with Queue _ => true | Destroy => false end.

(** No signal has arrived. *)
Definition may_leave b : bool := negb (in_stop (main b)) && forallb is_queue (commands b).

(** The steps of the threads that are still to be made without anything being seen: those of
    the broker, and of its end if it is still to come. *)
Definition effort b : nat :=
  (Broker.rank b + if may_leave b then 8 * length (workers b) + 21 else 0)%nat.

Lemma main_step_may_leave b b' : main_step b = Some b' -> may_leave b' = true -> may_leave b = true.
Proof.
  unfold main_step, may_leave. intros E. repeat case_match; simplify_eq; cbn in *; try done.
  all: match goal with E : main _ = _ |- _ => rewrite ?E end; done.
Qed.

Lemma run_step_may_leave w b b' : run_step w b = Some b' -> may_leave b' = may_leave b.
Proof. intros E. destruct (run_step_frame w b b' E) as (_ & Em & Ec). unfold may_leave. by rewrite Em, Ec. Qed.

Lemma thread_goes_inv w m m' :
  thread_goes w m = Some (Ok m') -> run_step w (mc_broker m) = Some (mc_broker m').
Proof.
  unfold thread_goes. intros E. destruct (workers (mc_broker m) !! w) as [[]|]; try done;
    destruct (run_step w (mc_broker m)); simplify_eq/=; done.
Qed.

Lemma silent_effort a m m' :
  sane m -> do_act a m = Some (Ok m') -> seen_as a m = None -> real a ->
  (effort (mc_broker m') < effort (mc_broker m))%nat.
Proof.
  intros [Hb _ _] E Hseen Hreal. unfold effort.
  destruct a as [i n| | |w|w|w|w send|i n|i send]; try done; cbn [do_act] in E.
  - unfold main_goes in E. destruct (main_step (mc_broker m)) as [b'|] eqn:Es; [|done].
    injection E as <-. cbn [mc_broker with_broker]. rewrite (main_step_length _ _ Es).
    pose proof (main_step_rank _ _ Hb Es). pose proof (main_step_may_leave _ _ Es) as Hl.
    destruct (may_leave b'); [rewrite Hl by done|]; destruct (may_leave (mc_broker m)); lia.
  - unfold broker_ends, polling in E. destruct (main (mc_broker m)) eqn:Em; try done.
    destruct (commands (mc_broker m)) eqn:Ec; [|done]. injection E as <-.
    unfold Broker.rank, may_leave. cbn. rewrite Em, Ec. cbn. lia.
  - apply thread_goes_inv in E. pose proof (run_step_rank w _ _ Hb E).
    rewrite (run_step_may_leave w _ _ E), (run_step_length w _ _ E). lia.
Qed.

(** The runs end if those of the network do. *)
Lemma act_moves_sn m : sane m -> sn (moves anything) (view m) -> sn (act_moves real) m.
Proof.
  intros Hs Hsn. remember (view m) as s eqn:Es. revert m Hs Es.
  induction Hsn as [s _ IH]. intros m Hs ->.
  remember (effort (mc_broker m)) as k eqn:Ek. revert m Hs IH Ek.
  induction (lt_wf k) as [k _ IHk]. intros m Hs IH ->. constructor.
  intros m' [a Hreal E]. destruct (act_simulated a m _ Hs E) as [Hs' Hsim].
  specialize (Hs' m' eq_refl). destruct (seen_as a m) as [ev|] eqn:Eseen.
  - apply (IH (view m')); [|done..]. by exists ev.
  - apply view_same in Hsim. eapply (IHk _ (silent_effort a m m' Hs E Eseen Hreal)); [done| |done].
    intros s Hm. rewrite Hsim in Hm. by apply IH.
Qed.

(** ** When nothing can go on *)

(** No step of the network fails. *)
Definition defined (s : network) : Prop := forall ev x, do_step ev s = Some x -> exists s', x = Ok s'.

Section Standstill.
Context (P : act -> Prop).
Context (HP : forall a, served a -> real a -> match a with MainReads _ _ => False | _ => True end -> P a).
Context m (Hs : sane m) (Hdef : defined (view m)) (Hnf : nf (act_moves P) m).

Lemma cannot a m' : P a -> do_act a m <> Some (Ok m').
Proof. intros Ha E. destruct Hnf. exists m'. by exists a. Qed.

(** A step that is seen can be made by both or by neither. *)
Lemma cannot_see ev :
  P (direct ev) ->
  match ev with
  | ServerReads _ _ => polling (mc_broker m) = true
  | WorkerTakes _ => False
  | _ => True
  end -> do_step ev (view m) = None.
Proof.
  intros HPe Hev. destruct (do_step ev (view m)) as [y|] eqn:E; [|done].
  destruct (Hdef ev y E) as [s' ->]. destruct (direct_enabled ev m _ Hs E Hev) as ([m'| |] & Ex & Hx); try done.
  by destruct (cannot (direct ev) m').
Qed.

Lemma no_handler w r : workers (mc_broker m) !! w <> Some (WHandle r).
Proof.
  intros Ew. destruct (calls_at w m _ Hs Ew) as [p Ep].
  pose proof (in_handler_at w m r p Ew Ep) as Ev. destruct p as [x|X c f].
  - pose proof (cannot_see (WorkerAnswers w sent_whole) (HP (ThreadAnswers w sent_whole) sent_whole_lossless I I) I) as E.
    cbn [do_step] in E. unfold worker_answers in E. by rewrite Ev in E.
  - pose proof (cannot_see (WorkerCalls w) (HP (ThreadCalls w) I I I) I) as E.
    cbn [do_step] in E. unfold worker_calls in E. rewrite Ev in E. by destruct (step_call _ _).
Qed.

Lemma broker_still : nf step (mc_broker m).
Proof.
  intros [b' [w b1 E|b1 E]].
  - apply (cannot (ThreadGoes w) (with_calls (start_handler w b1 (mc_calls m)) (with_broker b1 m)) (HP (ThreadGoes w) I I I)).
    apply thread_goes_to; [intros r; apply no_handler|done].
  - apply (cannot MainGoes (with_broker b1 m) (HP MainGoes I I I)). cbn [do_act]. unfold main_goes. by rewrite E.
Qed.

Lemma standstill :
  (main (mc_broker m) = MReady /\ commands (mc_broker m) = [] /\
     forall w x, workers (mc_broker m) !! w = Some x -> x = WWaiting) \/
  (main (mc_broker m) = MDone /\ forall w x, workers (mc_broker m) !! w = Some x -> x = WDone).
Proof.
  destruct (nf_main _ (sa_broker m Hs) broker_still) as [(? & ? & _ & ?)|[? ?]]; [left|right]; done.
Qed.

(** While the server is up, then the network cannot go on either. *)
Lemma standstill_up :
  (forall i n, P (MainReads i n)) -> main (mc_broker m) <> MDone -> (0 < length (workers (mc_broker m)))%nat ->
  polling (mc_broker m) = true /\ sm_req_list (mc_broker m) = [] /\ nf (moves lossless) (view m).
Proof.
  intros HR Hd Hw. destruct standstill as [(Em & Ec & Hall)|[? _]]; [|done].
  destruct (lookup_lt_is_Some_2 _ _ Hw) as [x Ex]. pose proof (Hall 0%nat x Ex) as ->.
  destruct (inv_wait _ (sa_broker m Hs) 0 Ex) as [[Eq|?] _]; [|congruence].
  assert (polling (mc_broker m) = true) as Hp by (unfold polling; by rewrite Em, Ec).
  split; [done|]. split; [done|]. intros [s' [ev Hl E]].
  destruct ev as [i n|w|w|w send|i n|i send]; [| |by rewrite cannot_see in E by (done || by apply HP)..].
  - by rewrite (cannot_see (ServerReads i n) (HR i n) Hp) in E.
  - cbn [do_step] in E. unfold worker_takes in E. change (nw_queue (view m)) with (pending (mc_broker m)) in E.
    unfold pending in E. rewrite Em, Ec, Eq in E. by destruct (nw_workers (view m) !! w) as [[]|].
Qed.
End Standstill.

Lemma main_step_stays b b' : main_step b = Some b' -> may_leave b = true -> may_leave b' = true.
Proof.
  unfold main_step, may_leave. intros E. repeat case_match; simplify_eq; cbn in *; try done.
  all: match goal with E : main _ = _ |- _ => rewrite ?E end; done.
Qed.

(** Without a signal the server stays up. *)
Lemma act_stays a m m' :
  match a with BrokerEnds => False | _ => True end -> do_act a m = Some (Ok m') ->
  may_leave (mc_broker m) = true -> may_leave (mc_broker m') = true.
Proof.
  intros Ha E. destruct a as [i n| | |w|w|w|w send|i n|i send]; try done; cbn [do_act] in E.
  - unfold main_reads, polling in E. destruct (main (mc_broker m)) eqn:Em; try done.
    destruct (commands (mc_broker m)); [|done]. destruct (mc_peers m !! i) as [pe|]; [|done].
    cbn [mbind option_bind] in E. destruct (cl_sent (pr_client pe)); [done|].
    destruct (Conn.handleEvent _ _ _) as [[[[]| |] e] ?]; try done. injection E as <-. intros _.
    unfold may_leave. cbn. rewrite Em. cbn. by induction (default [] (e_broker e)).
  - unfold main_goes in E. destruct (main_step (mc_broker m)) as [b'|] eqn:Es; [|done].
    injection E as <-. by apply main_step_stays.
  - apply thread_goes_inv in E. by rewrite (run_step_may_leave w _ _ E).
  - unfold thread_wakes in E. destruct (workers (mc_broker m) !! w) as [[]|]; by simplify_eq.
  - unfold thread_calls in E. destruct (workers (mc_broker m) !! w) as [[]|]; try done.
    destruct (mc_calls m !! w) as [[|X c f]|]; try done. destruct (step_call _ _). by simplify_eq.
  - unfold thread_answers in E. destruct (workers (mc_broker m) !! w) as [[]|]; try done.
    destruct (mc_calls m !! w) as [[y|]|]; try done.
    destruct (send_answer send y), (mc_peers m !! rq_connection r); by simplify_eq.
  - unfold at_peers in E. destruct (client_reads i n (view m)) as [[]|]; by simplify_eq/=.
  - unfold at_peers in E. destruct (client_handles i send (view m)) as [[]|]; by simplify_eq/=.
Qed.

Lemma served_may_leave m m' :
  rtc (act_moves served) m m' -> may_leave (mc_broker m) = true -> may_leave (mc_broker m') = true.
Proof.
  induction 1 as [|m m1 m' [a Ha E] _ IH]; [done|]. intros Hl. apply IH, (act_stays a m m1); [by destruct a|done..].
Qed.

Lemma view_length m : sane m -> length (workers (mc_broker m)) = length (nw_workers (view m)).
Proof. intros Hs. rewrite view_workers_length by done. symmetry. by apply Hs. Qed.
End Steps.

(** ** All clients *)
Section Threads.
Context `{Blake2bLaws} `{UuidTextLaws}.
Context (js : list job) (Hok : Forall job_ok js).
Context (Hapart : forall i k j j', js !! i = Some j -> js !! k = Some j' -> i <> k -> apart j j').

Abbreviation on_course := (course (fun (rs : list rank) (σ : fs) => True) (exchanging js) (length js)).

Lemma on_course_defined rs s : on_course rs s -> defined s.
Proof.
  intros Hc ev x E. destruct (run_goes js Hok Hapart [ev] rs s Hc) as (s' & _ & Hrun & _).
  cbn [run_events] in Hrun. rewrite E in Hrun. destruct x as [s1| |]; [by exists s1|done..].
Qed.

(** The machine on its way. *)
Definition under_way m : Prop := sane m /\ exists rs, on_course rs (view m).

Lemma boot_under_way fd garbage n σ :
  Forall (may_start σ) js -> under_way (boot_machine fd garbage n σ js).
Proof.
  intros Hs. split; [apply boot_sane|]. rewrite boot_view.
  destruct (boot_on_course js Hok fd garbage n σ Hs) as (rs & Hc & _). by exists rs.
Qed.

Lemma run_under_way acts m :
  under_way m -> exists m', run_acts acts m = Ok m' /\ under_way m' /\
    length (workers (mc_broker m')) = length (workers (mc_broker m)).
Proof.
  intros [Hs [rs Hc]]. destruct (run_simulated acts m Hs) as [Hsim Hs'].
  destruct (run_goes js Hok Hapart (history acts m) rs _ Hc) as (s' & rs' & Hrun & Hc' & _).
  pose proof (run_events_workers _ _ _ Hrun) as Hl.
  rewrite Hsim in Hrun. destruct (run_acts acts m) as [m'| |]; [|done..]. specialize (Hs' m' eq_refl).
  exists m'. split; [done|]. change (Ok (view m') = Ok s') in Hrun.
  assert (view m' = s') as <- by congruence. split; [split; [done|by exists rs']|].
  by rewrite !view_length.
Qed.

Lemma under_way_sn m : under_way m -> sn (act_moves real) m.
Proof. intros [Hs [rs Hc]]. apply act_moves_sn; [done|]. by apply (on_course_sn js Hok Hapart anything rs). Qed.

(** When nothing can go on any more and no signal has come, everything is done. *)
Lemma served_at_end fd garbage n σ m :
  Forall (may_start σ) js -> (0 < n)%nat ->
  rtc (act_moves served) (boot_machine fd garbage n σ js) m ->
  sn (act_moves real) m /\
  (nf (act_moves (fun a => served a /\ real a)) m ->
     polling (mc_broker m) = true /\ sm_req_list (mc_broker m) = [] /\
     (forall w x, workers (mc_broker m) !! w = Some x -> x = WWaiting) /\
     forall i j, js !! i = Some j -> exists pe, mc_peers m !! i = Some pe /\
       uploadsCompleted (pr_client pe) = true /\ mc_disk m !! job_data j = Some (Reg (jb_content j))).
Proof.
  intros Hstart Hn Hr. pose proof (boot_sane fd garbage n σ js) as Hs0.
  pose proof (act_moves_sane _ _ _ Hs0 Hr) as Hs. pose proof (moves_seen _ _ Hs0 Hr) as Hr'.
  rewrite boot_view in Hr'.
  destruct (boot_on_course js Hok fd garbage n σ Hstart) as (rs & Hc & Hi).
  destruct (moves_on_course js Hok Hapart rs _ _ Hc Hi Hr') as (rs' & Hc' & _).
  assert (under_way m) as Hu by (split; [done|by exists rs']).
  split; [by apply under_way_sn|]. intros Hnf.
  pose proof (served_may_leave _ _ Hr eq_refl) as Hl.
  assert (main (mc_broker m) <> MDone) as Hup by (intros E; unfold may_leave in Hl; by rewrite E in Hl).
  assert (0 < length (workers (mc_broker m)))%nat as Hw.
  { rewrite view_length by done. rewrite (moves_workers _ _ _ Hr'). cbn. by rewrite length_replicate. }
  set (P := fun a => served a /\ real a).
  assert (forall a, served a -> real a -> match a with MainReads _ _ => False | _ => True end -> P a) as HP by done.
  destruct (standstill_up P HP m Hs (on_course_defined rs' _ Hc') Hnf (fun _ _ => conj I I) Hup Hw) as (Hp & Hq & Hnf').
  destruct (stored_at_end js Hok Hapart fd garbage n σ Hstart Hn) as [_ Hend].
  destruct (Hend _ Hr' Hnf') as (_ & _ & Hall).
  split; [done|]. split; [done|]. split; [|exact Hall].
  by destruct (standstill P HP m Hs (on_course_defined rs' _ Hc') Hnf) as [(_ & _ & ?)|[? _]].
Qed.

(** A server that has stopped has left no handler half way. *)
Lemma stopped_may_start m :
  under_way m -> main (mc_broker m) = MDone ->
  (forall w x, workers (mc_broker m) !! w = Some x -> x = WDone) /\ Forall (may_start (mc_disk m)) js.
Proof.
  intros [Hs [rs Hc]] Hd. pose proof (inv_joined _ (sa_broker m Hs) Hd) as Hall. split; [done|].
  apply (may_start_again js rs (view m) Hc). intros i j _ (w & p & σs & Ew & _).
  apply at_handler in Ew as (r & Ew & _). by specialize (Hall w _ Ew).
Qed.
End Threads.

(** ** Properties *)
Section Properties.
Context `{Blake2bLaws} `{UuidTextLaws}.
Context (js : list job) (Hok : Forall job_ok js).
Context (Hapart : forall i k j j', js !! i = Some j -> js !! k = Some j' -> i <> k -> apart j j').
Context (fd garbage : nat -> Z) (n_workers : nat) (σ : fs) (Hstart : Forall (may_start σ) js).

(** C2: the whole system is safe as it runs, down to the locks: whatever the interleaving of the
    main thread, the workers and the clients, with spurious wakeups, with requests that wait
    until the main thread has queued those before them, and with a signal at any moment (after
    which the broker is destroyed before its queue, see [Statics]), no step throws or is
    undefined, no worker takes a request from an empty queue, and whenever a client takes
    its uploads for completed the server holds its whole file. *)
Theorem machine_safe (acts : list act) :
  exists m, run_acts acts (boot_machine fd garbage n_workers σ js) = Ok m /\
    (forall w, workers (mc_broker m) !! w = Some WTake -> sm_terminate (mc_broker m) = false ->
       sm_req_list (mc_broker m) <> []) /\
    forall i j, js !! i = Some j -> exists pe, mc_peers m !! i = Some pe /\
      (uploadsCompleted (pr_client pe) = true -> mc_disk m !! job_data j = Some (Reg (jb_content j))).
Proof.
  destruct (run_under_way js Hok Hapart acts _ (boot_under_way js Hok fd garbage n_workers σ Hstart))
    as (m & Hrun & [Hs [rs Hc]] & _).
  exists m. split; [done|]. split.
  - intros w Ew Et. destruct (inv_take _ (sa_broker m Hs) w Ew); [congruence|done].
  - intros i j Ej. destruct (course_phase js _ _ i j Hc Ej) as (rk & pe & _ & Ep & Hp).
    exists pe. split; [exact Ep|]. by apply (phase_completed j i _ _ _ _ _ Hp).
Qed.

(** C1: the whole system always gets to its end as it runs: with at least one worker, if the
    sockets take whole messages and no signal comes, then from any state it can get to, also
    by spurious wakeups, it stops after finitely many steps of its threads (as long as these
    are not woken up for nothing); and when nothing more can happen the main thread polls, all
    workers wait on the condition variable, the queue is empty, and every client has
    completed its upload, with its file on the server. No deadlock, no lost wakeup, no
    request forgotten. *)
Theorem machine_completes (m : machine) :
  (0 < n_workers)%nat -> rtc (act_moves served) (boot_machine fd garbage n_workers σ js) m ->
  sn (act_moves real) m /\
  (nf (act_moves (fun a => served a /\ real a)) m ->
     polling (mc_broker m) = true /\ sm_req_list (mc_broker m) = [] /\
     (forall w x, workers (mc_broker m) !! w = Some x -> x = WWaiting) /\
     forall i j, js !! i = Some j -> exists pe, mc_peers m !! i = Some pe /\
       uploadsCompleted (pr_client pe) = true /\ mc_disk m !! job_data j = Some (Reg (jb_content j))).
Proof.
  by apply served_at_end.
Qed.

(** A signal stops the machine in order, if the broker ends before its static members (the
    process with these members is in [Statics]): after any run, with whatever the sockets take,
    the machine stops after finitely many steps, and it cannot stand still other than with
    the main thread having joined every worker; then no handler has been left half way, so
    that every client may start again, and the new run, if its sockets take whole messages
    and no signal comes, ends with every file stored. *)
Theorem machine_stops (acts : list act) (fd' garbage' : nat -> Z) (n' : nat) :
  (0 < n')%nat ->
  exists m, run_acts acts (boot_machine fd garbage n_workers σ js) = Ok m /\
    sn (act_moves real) m /\ (nf (act_moves real) m -> main (mc_broker m) = MDone) /\
    (main (mc_broker m) = MDone ->
     (forall w x, workers (mc_broker m) !! w = Some x -> x = WDone) /\
     Forall (may_start (mc_disk m)) js /\
     forall m', rtc (act_moves served) (boot_machine fd' garbage' n' (mc_disk m) js) m' ->
       sn (act_moves real) m' /\
       (nf (act_moves (fun a => served a /\ real a)) m' ->
        forall i j, js !! i = Some j -> mc_disk m' !! job_data j = Some (Reg (jb_content j)))).
Proof.
  intros Hn.
  destruct (run_under_way js Hok Hapart acts _ (boot_under_way js Hok fd garbage n_workers σ Hstart))
    as (m & Hrun & Hu & _).
  exists m. split; [done|]. split; [by apply (under_way_sn js Hok Hapart)|]. split.
  - intros Hnf. destruct Hu as [Hs [rs Hc]].
    destruct (standstill real (fun _ _ H _ => H) m Hs (on_course_defined js Hok Hapart rs _ Hc) Hnf)
      as [(Em & Ec & _)|[? _]]; [|done].
    destruct Hnf. eexists. exists BrokerEnds; [exact I|]. cbn [do_act]. unfold broker_ends, polling.
    by rewrite Em, Ec.
  - intros Hd. destruct (stopped_may_start js m Hu Hd) as [Hall Hagain].
    split; [done|]. split; [done|]. intros m' Hr.
    destruct (served_at_end js Hok Hapart fd' garbage' n' (mc_disk m) m' Hagain Hn Hr) as [Hsn Hend].
    split; [done|]. intros Hnf i j Ej. destruct (Hend Hnf) as (_ & _ & _ & Hfile).
    by destruct (Hfile i j Ej) as (pe & _ & _ & Hdata).
Qed.
End Properties.

(** ** Witnesses *)
Section Witnesses.
Import ToyHash ToyUuid.

(** The workers block on the empty queue and are woken up by the first request; the signal
    comes while one of them is in the handler of the first offer. *)
Definition stopping_acts : list act :=
  [ThreadGoes 0; ThreadGoes 0; ThreadGoes 0; ThreadGoes 1; MainReads 0 5000] ++
  replicate 4 MainGoes ++ replicate 3 (ThreadGoes 0) ++ replicate 10 (ThreadCalls 0) ++
  [BrokerEnds] ++ replicate 4 MainGoes ++ replicate 4 (ThreadGoes 1) ++
  replicate 150 (ThreadCalls 0) ++ [ThreadAnswers 0 sent_whole; ThreadGoes 0; ThreadGoes 1; MainGoes].

Definition toy_machine : machine := boot_machine Z.of_nat (fun _ => 77) 2 ∅ two_jobs.

Lemma stopping_stops :
  match run_acts stopping_acts toy_machine with
  | Ok m => match main (mc_broker m) with MDone => true | _ => false end
  | _ => false
  end = true.
Proof. vm_compute. reflexivity. Qed.

Lemma machine_stops_witness :
  exists m, run_acts stopping_acts toy_machine = Ok m /\ Forall (may_start (mc_disk m)) two_jobs /\
    forall m', rtc (act_moves served) (boot_machine Z.of_nat (fun _ => 78) 16 (mc_disk m) two_jobs) m' ->
      sn (act_moves real) m'.
Proof.
  destruct (machine_stops two_jobs two_jobs_ok two_jobs_apart Z.of_nat (fun _ => 77) 2 ∅
    two_jobs_start stopping_acts Z.of_nat (fun _ => 78) 16) as (m & Hrun & _ & _ & Hstop); [lia|].
  exists m. split; [exact Hrun|]. pose proof stopping_stops as Hd. unfold toy_machine in Hd.
  rewrite Hrun in Hd. destruct (main (mc_broker m)); try discriminate Hd.
  destruct (Hstop eq_refl) as (_ & P1 & P2). split; [exact P1|].
  intros m' Hr. apply (P2 m' Hr).
Defined.

(** Both clients, each with its worker: the threads take the requests in turn, one of them is
    woken up for nothing. *)
Definition round_acts : list act :=
  [MainReads 0 9; MainReads 0 5000] ++ replicate 4 MainGoes ++ [MainReads 1 5000] ++
  concat (replicate 4 [ThreadGoes 1; MainGoes]) ++
  concat (replicate 6 [ThreadGoes 0; MainGoes; ThreadWakes 0; ThreadGoes 1]) ++
  concat (replicate 150 [ThreadCalls 0; ThreadCalls 1]) ++
  [ThreadAnswers 0 sent_whole; ThreadAnswers 1 sent_whole] ++
  concat (replicate 3 [ThreadGoes 0; ThreadGoes 1; ThreadGoes 0]) ++
  [PeerReads 0 3; PeerReads 0 5000; PeerReads 1 5000; PeerHandles 0 sent_whole;
   PeerHandles 1 sent_whole].
Definition some_acts : list act := concat (replicate 3 round_acts).

Lemma some_acts_complete :
  match run_acts some_acts toy_machine with
  | Ok m => forallb (fun pe => uploadsCompleted (pr_client pe)) (mc_peers m)
  | _ => false
  end = true.
Proof. vm_compute. reflexivity. Qed.

Lemma machine_safe_witness :
  exists m, run_acts some_acts toy_machine = Ok m /\
    forall i j, two_jobs !! i = Some j -> mc_disk m !! job_data j = Some (Reg (jb_content j)).
Proof.
  destruct (machine_safe two_jobs two_jobs_ok two_jobs_apart Z.of_nat (fun _ => 77) 2 ∅
    two_jobs_start some_acts) as (m & Hrun & _ & Hall).
  exists m. split; [exact Hrun|]. intros i j Ej. destruct (Hall i j Ej) as (pe & Ep & Hd). apply Hd.
  pose proof some_acts_complete as Hc. unfold toy_machine in Hc. rewrite Hrun in Hc.
  rewrite forallb_forall in Hc. apply Hc, list_elem_of_In. by apply list_elem_of_lookup_2 with i.
Defined.

Lemma round_acts_served : Forall served round_acts.
Proof.
  assert (forall l n, Forall served l -> Forall served (concat (replicate n l))) as Hrep.
  { intros l n Hl. induction n as [|n IH]; [constructor|]. by apply Forall_app_2. }
  unfold round_acts.
  repeat match goal with
    | |- Forall _ (_ ++ _) => apply Forall_app_2
    | |- Forall _ (concat _) => apply Hrep
    | |- Forall _ (replicate _ _) => apply Forall_replicate
    | |- Forall _ (_ :: _) => apply Forall_cons_2
    | |- Forall _ [] => apply Forall_nil_2
    | |- served _ => first [exact I | exact sent_whole_lossless]
    end.
Qed.

Lemma round_acts_run :
  match run_acts round_acts toy_machine with Ok _ => true | _ => false end = true.
Proof. vm_compute. reflexivity. Qed.

Lemma machine_completes_witness :
  exists m, run_acts round_acts toy_machine = Ok m /\ sn (act_moves real) m.
Proof.
  pose proof round_acts_run as Hok.
  destruct (run_acts round_acts toy_machine) as [m| |] eqn:E; [|discriminate Hok..].
  exists m. split; [reflexivity|].
  pose proof (run_acts_moves served round_acts _ m round_acts_served E) as Hr. unfold toy_machine in Hr.
  destruct (machine_completes two_jobs two_jobs_ok two_jobs_apart Z.of_nat (fun _ => 77) 2 ∅
    two_jobs_start m) as [P _]; [lia|exact Hr|].
  exact P.
Defined.
End Witnesses.
