(* ===== verification/Statics.v ===== *)
(** * The end of the server's process: the static members

    When main returns only its own pointer to the broker ends; the static
    Connection::sm_request_broker (src/netwrk/ft_conn.cpp) keeps the broker alive, and its
    destructor, which joins the workers, runs among those of the static members of
    RequestBroker (src/request/ft_req_brkr.cpp) that it works on, in an order that the
    language leaves to the linker. Here the machine of [Machine] goes on through this end,
    for any order; a thread that uses a static member after its destructor, and a destructor
    of a condition variable somebody waits on or of a mutex somebody holds, is undefined. *)
From stdpp Require Import relations.
From S2P Require Import Prelude Broker StdFs Msg FileMeta Identity File Upload.
From S2P Require Import MsgFctry Conn Framing Server Client Handler Calls.
From S2P Require Import Transfer Clients Workers Crash System Steps Exchange Network Machine Threads.

Implicit Types (i k w n : nat) (σ : fs) (j : job) (b : broker Request) (m : machine).

(** ** The static members with a destructor *)
Inductive static : Type :=
| Sm_request_broker
| Sm_req_brkr_mtx
| Sm_req_list_cv
| Sm_req_list
| Sm_req_hndlr.

#[export] Instance static_eq_dec : EqDecision static.
Proof. solve_decision. Defined.

(** As they are defined in the two files, and the order in which they are destroyed: the
    reverse of the one in which they are made, which within a file is the one of their
    definitions and between the files, with the usual linkers, that of the files in
    CMakeLists.txt: ft_conn.cpp before ft_req_brkr.cpp. *)
Definition ft_conn_statics : list static := [Sm_request_broker].
Definition ft_req_brkr_statics : list static :=
  [Sm_req_brkr_mtx; Sm_req_list_cv; Sm_req_list; Sm_req_hndlr].

Definition other_order : list static := reverse (ft_req_brkr_statics ++ ft_conn_statics).

(** ** What the threads use of them *)

(** queueRequest and stopWorkers. *)
Definition main_uses b : list static :=
  match main b with
  | MPushLock _ | MStopLock => [Sm_req_brkr_mtx]
  | MPush _ => [Sm_req_list]
  | MNotify | MStopNotify => [Sm_req_list_cv; Sm_req_brkr_mtx]
  | MReady | MStop | MJoin | MDone => []
  end.

(** RequestBrokerWorker::run; the handler is called when a request has been taken. *)
Definition worker_uses w b : list static :=
  match workers b !! w with
  | Some WLock | Some WWoken => [Sm_req_brkr_mtx]
  | Some WHold =>
      match sm_req_list b, sm_terminate b with
      | [], false => [Sm_req_list; Sm_req_list_cv; Sm_req_brkr_mtx]
      | _, _ => [Sm_req_list]
      end
  | Some WWaiting => [Sm_req_list_cv]
  | Some WTake =>
      if sm_terminate b then [Sm_req_brkr_mtx] else [Sm_req_list; Sm_req_brkr_mtx; Sm_req_hndlr]
  | Some WLoop | Some (WHandle _) | Some WDone | None => []
  end.

Definition uses (a : act) b : list static :=
  match a with
  | MainGoes => main_uses b
  | ThreadGoes w | ThreadWakes w => worker_uses w b
  | _ => []
  end.

(** ** The process *)

(** The machine, whether main has returned, and the static members that are still to be
    destroyed, in this order. *)
Record server := mk_server {
  sv_machine : machine;
  sv_returned : bool;
  sv_statics : list static }.

Implicit Types (p : server).

Definition is_waiting (x : Broker.worker Request) : bool :=
  match x with WWaiting => true | _ => false end.

Section Statics.
Context `{Blake2b} `{UuidText}.

(** The destructors. The last pointer to the broker ends it; the others need that nobody
    waits on the condition variable, and that nobody holds the mutex. *)
Definition destroy (x : static) m : option (res machine) :=
  match x with
  | Sm_request_broker => broker_ends m
  | Sm_req_list_cv => Some (if existsb is_waiting (workers (mc_broker m)) then Undef else Ok m)
  | Sm_req_brkr_mtx => Some (if sm_req_brkr_mtx (mc_broker m) is Some _ then Undef else Ok m)
  | Sm_req_list | Sm_req_hndlr => Some (Ok m)
  end.

(** A step of [Machine]; once main has returned nothing is polled any more. *)
Definition goes (a : act) p : option (res server) :=
  match a with
  | BrokerEnds => None
  | MainReads _ _ =>
      if sv_returned p then None
      else x ← do_act a (sv_machine p); Some (m ← x; Ok (mk_server m false (sv_statics p)))
  | _ =>
      x ← do_act a (sv_machine p);
      Some (if decide (uses a (mc_broker (sv_machine p)) ⊆ sv_statics p) then
              m ← x; Ok (mk_server m (sv_returned p) (sv_statics p))
            else Undef)
  end.

(** A signal has ended the loop; main returns. *)
Definition main_returns p : option (res server) :=
  if negb (sv_returned p) && polling (mc_broker (sv_machine p)) then
    Some (Ok (mk_server (sv_machine p) true (sv_statics p)))
  else None.

(** The next destructor, when the one before it (which may be the broker's) has ended. *)
Definition in_destructor b : bool :=
  match main b with MDone => false | _ => negb (polling b) end.

Definition next_destroyed p : option (res server) :=
  match sv_statics p with
  | x :: l =>
      if sv_returned p && negb (in_destructor (mc_broker (sv_machine p))) then
        y ← destroy x (sv_machine p); Some (m ← y; Ok (mk_server m true l))
      else None
  | [] => None
  end.

Inductive server_act : Type :=
| Goes (a : act)
| MainReturns
| NextDestroyed.

Definition server_do (a : server_act) p : option (res server) :=
  match a with
  | Goes a => goes a p
  | MainReturns => main_returns p
  | NextDestroyed => next_destroyed p
  end.

Fixpoint run_server (acts : list server_act) p : res server :=
  match acts with
  | [] => Ok p
  | a :: acts' =>
      match server_do a p with
      | Some x => p' ← x; run_server acts' p'
      | None => run_server acts' p
      end
  end.

Definition boot_server (order : list static) (fd garbage : nat -> Z) (n_workers : nat) σ
    (js : list job) : server :=
  mk_server (boot_machine fd garbage n_workers σ js) false order.

(** The process is gone: every worker joined, everything destroyed. *)
Definition gone p : Prop :=
  sv_returned p = true /\ sv_statics p = [] /\ main (mc_broker (sv_machine p)) = MDone.

(** Not a spurious wakeup. *)
Definition server_real (a : server_act) : Prop :=
  match a with Goes a => real a | _ => True end.

Inductive server_moves (P : server_act -> Prop) p p' : Prop :=
| server_moves_by a : P a -> server_do a p = Some (Ok p') -> server_moves P p p'.
End Statics.

(** ** A step of the process is one of the machine, or brings its end nearer *)
Section Steps.
Context `{Blake2b} `{UuidText}.

Definition to_come p : nat := (length (sv_statics p) + if sv_returned p then 0 else 1)%nat.

Lemma goes_inv a p p' :
  goes a p = Some (Ok p') ->
  do_act a (sv_machine p) = Some (Ok (sv_machine p')) /\ a <> BrokerEnds /\
  sv_returned p' = sv_returned p /\ sv_statics p' = sv_statics p /\
  (sv_returned p = true -> match a with MainReads _ _ => False | _ => True end) /\
  (uses a (mc_broker (sv_machine p)) ⊆ sv_statics p).
Proof.
  unfold goes. intros E. assert (a <> BrokerEnds) as Ha by (by intros ->).
  destruct a as [i n| | |w|w|w|w send|i n|i send]; try done;
    [destruct (sv_returned p) eqn:Er; [done|]|..];
    (match type of E with context [do_act ?a ?m] => destruct (do_act a m) as [[m'|x|]|] end; try done);
    cbn [mbind option_bind res_bind] in E; try (destruct (decide _); [|done]); simplify_eq; cbn; rewrite ?Er; split_and!; try done;
    apply list_subseteq_nil.
Qed.

Lemma next_destroyed_inv p p' :
  next_destroyed p = Some (Ok p') ->
  exists x, sv_statics p = x :: sv_statics p' /\ sv_returned p = true /\ sv_returned p' = true /\
    in_destructor (mc_broker (sv_machine p)) = false /\
    destroy x (sv_machine p) = Some (Ok (sv_machine p')).
Proof.
  unfold next_destroyed. intros E. destruct (sv_statics p) as [|x l]; [done|].
  destruct (sv_returned p); [|done]. destruct (in_destructor _) eqn:Ed; [done|]. cbn [andb negb] in E.
  destruct (destroy x (sv_machine p)) as [[m'|y|]|] eqn:Ex; try done.
  cbn [mbind option_bind res_bind] in E. simplify_eq.
  by exists x.
Qed.

Lemma destroy_inv x m m' :
  destroy x m = Some (Ok m') -> (x = Sm_request_broker /\ do_act BrokerEnds m = Some (Ok m')) \/
    (x <> Sm_request_broker /\ m' = m).
Proof.
  destruct x; cbn [destroy]; intros E; [by left|right..]; (split; [done|]); repeat case_match; by simplify_eq.
Qed.

Lemma server_step a p p' :
  server_do a p = Some (Ok p') ->
  (exists c, (server_real a -> real c) /\ do_act c (sv_machine p) = Some (Ok (sv_machine p'))) \/
  (sv_machine p' = sv_machine p /\ (to_come p' < to_come p)%nat).
Proof.
  destruct a as [a| |]; cbn [server_do server_real]; intros E.
  - left. exists a. by destruct (goes_inv a p p' E).
  - right. unfold main_returns in E. destruct (negb (sv_returned p)) eqn:Er; [|done].
    destruct (polling _); [|done]. injection E as <-. split; [done|]. unfold to_come. cbn.
    destruct (sv_returned p); [done|lia].
  - destruct (next_destroyed_inv p p' E) as (x & Es & Er & Er' & _ & Ex).
    destruct (destroy_inv x _ _ Ex) as [[_ Hb]|[_ ->]]; [left; by exists BrokerEnds|right].
    split; [done|]. unfold to_come. rewrite Es, Er, Er'. cbn [length]. lia.
Qed.

(** The process comes to its end if the machine does. *)
Lemma server_moves_sn p : sn (act_moves real) (sv_machine p) -> sn (server_moves server_real) p.
Proof.
  intros Hsn. remember (sv_machine p) as m eqn:Em. revert p Em.
  induction Hsn as [m _ IH]. intros p ->.
  remember (to_come p) as k eqn:Ek. revert p Ek IH.
  induction (lt_wf k) as [k _ IHk]. intros p -> IH. constructor. intros p' [a Hr E].
  destruct (server_step a p p' E) as [(c & Hc & Ec)|[Em Hlt]].
  - apply (IH (sv_machine p')); [|done]. exists c; [by apply Hc|done].
  - apply (IHk _ Hlt); [done|]. intros m'. rewrite Em. apply IH.
Qed.

(** The main thread is left alone by the others. *)
Lemma act_frame a m m' :
  do_act a m = Some (Ok m') -> match a with MainReads _ _ | MainGoes | BrokerEnds => False | _ => True end ->
  main (mc_broker m') = main (mc_broker m) /\ commands (mc_broker m') = commands (mc_broker m).
Proof.
  intros E Ha. destruct a as [i n| | |w|w|w|w send|i n|i send]; try done; cbn [do_act] in E.
  - apply thread_goes_inv in E. by destruct (run_step_frame w _ _ E) as (_ & ? & ?).
  - unfold thread_wakes in E. destruct (workers (mc_broker m) !! w) as [[]|]; by simplify_eq.
  - unfold thread_calls in E. destruct (workers (mc_broker m) !! w) as [[]|]; try done.
    destruct (mc_calls m !! w) as [[|X c f]|]; try done. destruct (step_call _ _). by simplify_eq.
  - unfold thread_answers in E. destruct (workers (mc_broker m) !! w) as [[]|]; try done.
    destruct (mc_calls m !! w) as [[y|]|]; try done.
    destruct (send_answer send y), (mc_peers m !! rq_connection r); by simplify_eq.
  - unfold at_peers in E. destruct (client_reads i n (view m)) as [[]|]; by simplify_eq/=.
  - unfold at_peers in E. destruct (client_handles i send (view m)) as [[]|]; by simplify_eq/=.
Qed.

End Steps.

(** ** The broker before the others *)
Section Orderly.
Context `{Blake2b} `{UuidText}.

Inductive orderly p : Prop :=
| orderly_up :
    sv_statics p = other_order -> may_leave (mc_broker (sv_machine p)) = true ->
    (sv_returned p = true -> polling (mc_broker (sv_machine p)) = true) -> orderly p
| orderly_ending :
    sv_returned p = true -> sv_statics p = reverse ft_req_brkr_statics ->
    may_leave (mc_broker (sv_machine p)) = false -> orderly p
| orderly_done :
    sv_returned p = true -> Sm_request_broker ∉ sv_statics p ->
    main (mc_broker (sv_machine p)) = MDone -> orderly p.

Lemma uses_statics a b : uses a b ⊆ reverse ft_req_brkr_statics.
Proof.
  unfold uses, main_uses, worker_uses, ft_req_brkr_statics. cbn [reverse rev_append].
  destruct a; repeat case_match; set_solver.
Qed.

Lemma done_uses a m : sane m -> main (mc_broker m) = MDone -> uses a (mc_broker m) = [].
Proof.
  intros Hs Hd. pose proof (inv_joined _ (sa_broker m Hs) Hd) as Hall.
  assert (forall w, worker_uses w (mc_broker m) = []) as Hw.
  { intros w. unfold worker_uses. destruct (workers (mc_broker m) !! w) as [x|] eqn:E; [|done].
    by rewrite (Hall w x E). }
  destruct a; try done; [|apply Hw..]. cbn. unfold main_uses. by rewrite Hd.
Qed.

Lemma polling_ready b : polling b = true -> main b = MReady /\ commands b = [].
Proof. unfold polling. by destruct (main b), (commands b). Qed.

Lemma polling_may_leave b : polling b = true -> may_leave b = true.
Proof. intros [Em Ec]%polling_ready. unfold may_leave. by rewrite Em, Ec. Qed.

Lemma polling_stays a m m' :
  polling (mc_broker m) = true -> do_act a m = Some (Ok m') ->
  match a with MainReads _ _ | BrokerEnds => False | _ => True end -> polling (mc_broker m') = true.
Proof.
  intros Hp E Ha. destruct (polling_ready _ Hp) as [Em Ec].
  destruct (decide (a = MainGoes)) as [->|Hne] || destruct a; try done.
  all: try (destruct (act_frame _ _ _ E I) as [Em' Ec']; unfold polling; by rewrite Em', Ec', Em, Ec).
  cbn [do_act] in E. unfold main_goes, main_step in E. by rewrite Em, Ec in E.
Qed.

Lemma left_stays a m m' :
  may_leave (mc_broker m) = false -> do_act a m = Some (Ok m') ->
  match a with MainReads _ _ | BrokerEnds => False | _ => True end -> may_leave (mc_broker m') = false.
Proof.
  intros Hl E Ha. destruct a; try done.
  all: try (destruct (act_frame _ _ _ E I) as [Em' Ec']; unfold may_leave; by rewrite Em', Ec').
  cbn [do_act] in E. unfold main_goes in E. destruct (main_step (mc_broker m)) as [b'|] eqn:Es; [|done].
  injection E as <-. cbn. destruct (may_leave b') eqn:Hl'; [|done].
  by rewrite (main_step_may_leave _ _ Es Hl') in Hl.
Qed.

Lemma done_stays a m m' :
  main (mc_broker m) = MDone -> do_act a m = Some (Ok m') ->
  match a with MainReads _ _ | BrokerEnds => False | _ => True end -> main (mc_broker m') = MDone.
Proof.
  intros Hd E Ha. destruct a; try done.
  all: try (destruct (act_frame _ _ _ E I) as [Em' _]; by rewrite Em').
  cbn [do_act] in E. unfold main_goes, main_step in E. by rewrite Hd in E.
Qed.

Lemma orderly_step a p p' : orderly p -> server_do a p = Some (Ok p') -> orderly p'.
Proof.
  intros Ho E. destruct a as [a| |]; cbn [server_do] in E.
  - destruct (goes_inv a p p' E) as (Ea & Ha & Er & Es & Hr & _).
    assert (sv_returned p = true -> match a with MainReads _ _ | BrokerEnds => False | _ => True end) as Hr'
      by (intros Hret; specialize (Hr Hret); by destruct a).
    destruct Ho as [Hst Hl Hp|Hret Hst Hl|Hret Hst Hd].
    + apply orderly_up; [congruence|apply (act_stays a _ _ ltac:(by destruct a) Ea Hl)|].
      rewrite Er. intros Hret. by apply (polling_stays a _ _ (Hp Hret) Ea), Hr'.
    + apply orderly_ending; [congruence..|]. by apply (left_stays a _ _ Hl Ea), Hr'.
    + apply orderly_done; [congruence..|]. by apply (done_stays a _ _ Hd Ea), Hr'.
  - unfold main_returns in E. destruct Ho as [Hst Hl Hp|Hret Hst Hl|Hret Hst Hd];
      [|by rewrite Hret in E..].
    destruct (sv_returned p); [done|]. cbn [negb andb] in E.
    destruct (polling _) eqn:Epo; [|done]. injection E as <-. by apply orderly_up.
  - destruct (next_destroyed_inv p p' E) as (x & Es & Hret & Hret' & Hin & Ex).
    destruct (destroy_inv x _ _ Ex) as [[-> Hb]|[Hx Em]].
    + destruct Ho as [Hst Hl Hp|_ Hst _|_ Hst _]; [|by rewrite Es in Hst|by rewrite Es in Hst; destruct Hst; left].
      rewrite Es in Hst. injection Hst as Hst. apply orderly_ending; [done..|].
      cbn [do_act] in Hb. unfold broker_ends in Hb. destruct (polling _) eqn:Epo; [|done].
      apply polling_ready in Epo as [Emain _]. injection Hb as <-. unfold may_leave. cbn. by rewrite Emain.
    + apply orderly_done; [done|intros Hin'|]; rewrite ?Em; destruct Ho as [Hst Hl Hp|_ Hst Hl|_ Hst Hd].
      all: try (rewrite Es in Hst; by injection Hst as ->).
      * rewrite Es in Hst. injection Hst as -> Hst. rewrite Hst in Hin'. set_solver.
      * destruct Hst. rewrite Es. by right.
      * unfold in_destructor in Hin. destruct (main _) eqn:Emain; try done;
          apply negb_false_iff in Hin; apply polling_may_leave in Hin; congruence.
      * done.
Qed.

Section End.
Context p (Hs : sane (sv_machine p)) (Ho : orderly p).
Context (Hdef : forall a x, do_act a (sv_machine p) = Some x -> exists m', x = Ok m').

Lemma goes_orderly a y :
  do_act a (sv_machine p) = Some y ->
  match a with BrokerEnds => False | MainReads _ _ => sv_returned p = false | _ => True end ->
  exists p', goes a p = Some (Ok p').
Proof.
  intros E Ha. destruct (Hdef a y E) as [m' ->].
  assert (uses a (mc_broker (sv_machine p)) ⊆ sv_statics p) as Hu.
  { destruct Ho as [Hst _ _|_ Hst _|_ _ Hd]; [rewrite Hst..|].
    - pose proof (uses_statics a (mc_broker (sv_machine p))). unfold other_order.
      rewrite reverse_app. set_solver.
    - apply uses_statics.
    - rewrite (done_uses a _ Hs Hd). apply list_subseteq_nil. }
  unfold goes. rewrite E. cbn [mbind option_bind res_bind].
  destruct a; try done; rewrite ?Ha, ?decide_True by done; by eexists.
Qed.

(** Every step of the machine that the process makes is defined. *)
Lemma orderly_defined a x : server_do a p = Some x -> exists p', x = Ok p'.
Proof.
  intros E. destruct a as [a| |]; cbn [server_do] in E.
  - assert (exists y, do_act a (sv_machine p) = Some y /\
      match a with BrokerEnds => False | MainReads _ _ => sv_returned p = false | _ => True end)
      as (y & Ey & Ha).
    { unfold goes in E. destruct a; try done; try (destruct (sv_returned p); [done|]);
        match type of E with context [do_act ?a ?m] => destruct (do_act a m) as [y|]; [|done] end;
        by exists y. }
    destruct (goes_orderly a y Ey Ha) as [p' Ep]. exists p'. congruence.
  - unfold main_returns in E. destruct (_ && _); [|done]. injection E as <-. by eexists.
  - unfold next_destroyed in E. destruct (sv_statics p) as [|z l] eqn:Es; [done|].
    destruct (_ && _) eqn:Eb; [|done]. apply andb_true_iff in Eb as [Hret Hin].
    destruct (destroy z (sv_machine p)) as [y|] eqn:Ez; [|done].
    assert (exists m', y = Ok m') as [m' ->]; [|injection E as <-; by eexists].
    destruct (decide (z = Sm_request_broker)) as [->|Hz]; [by apply (Hdef BrokerEnds)|].
    assert (main (mc_broker (sv_machine p)) = MDone) as Hd.
    { destruct Ho as [Hst _ _|_ _ Hl|]; [|..|done]; [rewrite Es in Hst; by injection Hst as ->|].
      unfold in_destructor in Hin. destruct (main _) eqn:Emain; try done;
        apply negb_true_iff, negb_false_iff, polling_may_leave in Hin; congruence. }
    pose proof (inv_joined _ (sa_broker _ Hs) Hd) as Hall.
    destruct z; cbn [destroy] in Ez; [done|..]; injection Ez as <-; try by eexists.
    + destruct (sm_req_brkr_mtx _) as [[|w]|] eqn:Eo; [| |by eexists].
      * apply (inv_main _ (sa_broker _ Hs)) in Eo. by rewrite Hd in Eo.
      * destruct (inv_owner _ (sa_broker _ Hs) w Eo) as [x0 Ew].
        apply (inv_workers _ (sa_broker _ Hs) w x0 Ew) in Eo. by rewrite (Hall w x0 Ew) in Eo.
    + destruct (existsb _ _) eqn:Ex; [|by eexists]. apply existsb_exists in Ex as (x0 & Hx & Hw).
      apply list_elem_of_In, list_elem_of_lookup in Hx as [w Ew]. by rewrite (Hall w x0 Ew) in Hw.
Qed.

(** When nothing can go on any more the process is gone. *)
Lemma orderly_gone :
  defined (view (sv_machine p)) -> nf (server_moves server_real) p -> gone p.
Proof.
  intros Hnet Hnf.
  assert (forall a x, server_real a -> server_do a p <> Some x) as Hno.
  { intros a x Ha E. destruct (orderly_defined a x E) as [p' ->]. destruct Hnf. exists p'. by exists a. }
  set (P := fun a => real a /\
    match a with BrokerEnds => False | MainReads _ _ => sv_returned p = false | _ => True end).
  assert (nf (act_moves P) (sv_machine p)) as Hnfm.
  { intros [m' [a [Ha Ha'] E]]. destruct (goes_orderly a _ E Ha') as [p' Ep]. by apply (Hno (Goes a) (Ok p')). }
  assert (forall a, served a -> real a -> match a with MainReads _ _ => False | _ => True end -> P a) as HP
    by (intros a Hserved Hr Ha; split; [done|by destruct a]).
  destruct (standstill P HP _ Hs Hnet Hnfm)
    as [(Em & Ec & _)|[Em _]].
  - assert (polling (mc_broker (sv_machine p)) = true) as Hp by (unfold polling; by rewrite Em, Ec).
    destruct (sv_returned p) eqn:Er.
    + destruct Ho as [Hst _ _|_ _ Hl|_ _ Hd]; [|apply polling_may_leave in Hp; congruence|congruence].
      edestruct (Hno NextDestroyed); [done|]. cbn [server_do]. unfold next_destroyed.
      rewrite Hst, Er. unfold in_destructor. rewrite Em, Hp. cbn. unfold broker_ends. by rewrite Hp.
    + edestruct (Hno MainReturns); [done|]. cbn [server_do]. unfold main_returns. by rewrite Er, Hp.
  - destruct Ho as [_ Hl _|Hret Hst _|Hret Hst _]; [unfold may_leave in Hl; by rewrite Em in Hl|..].
    all: split; [done|]; split; [|done]; destruct (sv_statics p) as [|z l] eqn:Es; [done|]; exfalso.
    all: assert (z <> Sm_request_broker) by (first [by injection Hst as ->|set_solver]).
    all: destruct (destroy z (sv_machine p)) as [y|] eqn:Ez; [|by destruct z].
    all: edestruct (Hno NextDestroyed); [done|]; cbn [server_do]; unfold next_destroyed;
      rewrite Es, Hret; unfold in_destructor; rewrite Em; cbn; rewrite Ez; reflexivity.
Qed.
End End.
End Orderly.

(** ** The broker behind the others *)
Section Doomed.
Context `{Blake2b} `{UuidText}.










End Doomed.

(** ** The process with its clients *)
Section Process.
Context `{Blake2bLaws} `{UuidTextLaws}.
Context (js : list job) (Hok : Forall job_ok js).
Context (Hapart : forall i k j j', js !! i = Some j -> js !! k = Some j' -> i <> k -> apart j j').

Lemma under_way_act a m x :
  under_way js m -> do_act a m = Some x -> exists m', x = Ok m' /\ under_way js m'.
Proof.
  intros Hu E. destruct (run_under_way js Hok Hapart [a] m Hu) as (m' & Hrun & Hu' & _).
  cbn [run_acts] in Hrun. rewrite E in Hrun. destruct x as [m1| |]; [|done..].
  injection Hrun as <-. by exists m1.
Qed.

Lemma server_under_way a p p' :
  under_way js (sv_machine p) -> server_do a p = Some (Ok p') -> under_way js (sv_machine p').
Proof.
  intros Hu E. destruct (server_step a p p' E) as [(c & _ & Ec)|[-> _]]; [|done].
  destruct (under_way_act c _ _ Hu Ec) as (m' & Em & Hu'). by injection Em as ->.
Qed.

Lemma server_comes_to_end p : under_way js (sv_machine p) -> sn (server_moves server_real) p.
Proof. intros Hu. by apply server_moves_sn, (under_way_sn js Hok Hapart). Qed.

Lemma run_orderly acts p :
  under_way js (sv_machine p) -> orderly p ->
  exists p', run_server acts p = Ok p' /\ under_way js (sv_machine p') /\ orderly p'.
Proof.
  revert p. induction acts as [|a acts IH]; intros p Hu Ho; [by exists p|].
  cbn [run_server]. destruct (server_do a p) as [x|] eqn:E; [|by apply IH].
  destruct (orderly_defined p (proj1 Hu) Ho) with (a := a) (x := x) as [p' ->]; [|done|].
  { intros c y Ey. destruct (under_way_act c _ y Hu Ey) as (m' & -> & _). by exists m'. }
  apply IH; [by apply (server_under_way a p)|by apply (orderly_step a p)].
Qed.
End Process.

(** ** Properties *)
Section Properties.
Context `{Blake2bLaws} `{UuidTextLaws}.
Context (js : list job) (Hok : Forall job_ok js).
Context (Hapart : forall i k j j', js !! i = Some j -> js !! k = Some j' -> i <> k -> apart j j').
Context (fd garbage : nat -> Z) (n_workers : nat) (σ : fs) (Hstart : Forall (may_start σ) js).

(** C3: a signal stops the server in order if the static pointer to the broker is destroyed
    before the static members of RequestBroker (not the order of the link, see
    [link_order_exit_undefined]): no run, with whatever the sockets take and a signal at any
    moment, throws or is undefined; it stops after finitely many steps (spurious wakeups
    apart), and cannot stand still other than with every worker joined and everything
    destroyed. Then no handler has been left half way, whatever it was doing when the signal
    came (a first offer too, unlike when the process is killed), so that every client may
    start again; and a new run, as long as the sockets take whole messages and no signal
    comes, ends with every file stored. *)
Theorem server_stops (acts : list server_act) (fd' garbage' : nat -> Z) (n' : nat) :
  (0 < n')%nat ->
  exists p, run_server acts (boot_server other_order fd garbage n_workers σ js) = Ok p /\
    sn (server_moves server_real) p /\ (nf (server_moves server_real) p -> gone p) /\
    (gone p ->
     (forall w x, workers (mc_broker (sv_machine p)) !! w = Some x -> x = WDone) /\
     Forall (may_start (mc_disk (sv_machine p))) js /\
     forall m', rtc (act_moves served) (boot_machine fd' garbage' n' (mc_disk (sv_machine p)) js) m' ->
       sn (act_moves real) m' /\
       (nf (act_moves (fun a => served a /\ real a)) m' ->
        forall i j, js !! i = Some j -> mc_disk m' !! job_data j = Some (Reg (jb_content j)))).
Proof.
  intros Hn. set (p0 := boot_server other_order fd garbage n_workers σ js).
  destruct (run_orderly js Hok Hapart acts p0) as (p & Hrun & Hu & Ho);
    [by apply boot_under_way|by apply orderly_up|].
  exists p. split; [done|]. split; [by apply (server_comes_to_end js Hok Hapart)|]. split.
  - pose proof Hu as [Hs [rs Hc]]. apply orderly_gone; [done..| |by apply (on_course_defined js Hok Hapart rs)].
    intros a x E. destruct (under_way_act js Hok Hapart a _ x Hu E) as (m' & -> & _). by exists m'.
  - intros (_ & _ & Hd). destruct (stopped_may_start js _ Hu Hd) as [Hall Hagain].
    split; [done|]. split; [done|]. intros m' Hr.
    destruct (served_at_end js Hok Hapart fd' garbage' n' _ m' Hagain Hn Hr) as [Hsn Hend].
    split; [done|]. intros Hnf i j Ej. destruct (Hend Hnf) as (_ & _ & _ & Hfile).
    by destruct (Hfile i j Ej) as (pe & _ & _ & Hdata).
Qed.

End Properties.

(** ** Witnesses *)
Section Witnesses.
Import ToyHash ToyUuid.

Definition toy_server (order : list static) : server :=
  boot_server order Z.of_nat (fun _ => 77) 2 ∅ two_jobs.

(** The run of [stopping_acts], with the end of the process: the signal comes while a worker is in the
    handler of the first offer. *)
Definition leaving_acts : list server_act :=
  concat ((fun a => match a with BrokerEnds => [MainReturns; NextDestroyed] | _ => [Goes a] end)
    <$> stopping_acts) ++ replicate 4 NextDestroyed.

Lemma leaving_gone :
  match run_server leaving_acts (toy_server other_order) with
  | Ok p => match sv_returned p, sv_statics p, main (mc_broker (sv_machine p)) with
            | true, [], MDone => true
            | _, _, _ => false
            end
  | _ => false
  end = true.
Proof. vm_compute. reflexivity. Qed.

Lemma server_stops_witness :
  exists p, run_server leaving_acts (toy_server other_order) = Ok p /\
    Forall (may_start (mc_disk (sv_machine p))) two_jobs /\
    forall m', rtc (act_moves served)
        (boot_machine Z.of_nat (fun _ => 78) 16 (mc_disk (sv_machine p)) two_jobs) m' ->
      sn (act_moves real) m'.
Proof.
  destruct (server_stops two_jobs two_jobs_ok two_jobs_apart Z.of_nat (fun _ => 77) 2 ∅
    two_jobs_start leaving_acts Z.of_nat (fun _ => 78) 16) as (p & Hrun & _ & _ & Hgone); [lia|].
  exists p. split; [exact Hrun|]. pose proof leaving_gone as Hd. unfold toy_server in Hd.
  rewrite Hrun in Hd. destruct (sv_returned p) eqn:Er; [|discriminate Hd].
  destruct (sv_statics p) eqn:Es; [|discriminate Hd].
  destruct (main (mc_broker (sv_machine p))) eqn:Em; try discriminate Hd.
  destruct (Hgone (conj Er (conj Es Em))) as (_ & P1 & P2).
  split; [exact P1|]. intros m' Hr. apply (P2 m' Hr).
Defined.



End Witnesses.
