(* ===== verification/Serving.v ===== *)
(** * The server's process and the whole system

    [System] lets the server read some bytes of some client in one event. Here the server is
    the process that [Program] starts: its main sets up the listener, the signals, the broker
    and the poll group, the first poll accepts the clients that wait, and from then on each
    turn of its loop ([Loop], with pollAndHandle of [PollGrp]) goes through whatever the poll
    reports: bytes, closed and broken connections, hangups, signals; workers and clients
    meanwhile do what they do in [System]. Every state this process gets to is one that a run
    of [System] gets to, so what is proved there holds of it. *)
From S2P Require Import Prelude StdFs Msg FileMeta Identity File Upload.
From S2P Require Import MsgFctry Conn Framing Sockets PollGrp Loop Broker Server Client Handler Calls.
From S2P Require Import Transfer Clients Workers Program Crash System Steps Exchange Network Machine Threads.

Implicit Types (i k n : nat) (σ : fs) (j : job) (o : objects) (g : PollGroup).

(** ** A connection under another name

    The connection of client [i] is the pollable [i + 2]. *)
Definition labelled (q : list Request) : list Request :=
  (fun r => mk_request (S (S (rq_connection r))) (rq_message r)) <$> q.
Definition unlabelled (q : list Request) : list Request :=
  (fun r => mk_request (rq_connection r - 2)%nat (rq_message r)) <$> q.

Lemma unlabel_label (q : list Request) : unlabelled (labelled q) = q.
Proof.
  unfold unlabelled, labelled. rewrite <- list_fmap_compose.
  induction q as [|[c m] q IH]; [done|]. cbn [fmap list_fmap]. rewrite IH. unfold compose. cbn.
  by rewrite Nat.sub_0_r.
Qed.

Definition relabel (s : env) : env := setRequestBroker (labelled <$> e_broker s) s.

Lemma on_byte_relabel i b (s : env) :
  on_byte (S (S i)) b (relabel s) = (fst (on_byte i b s), relabel (snd (on_byte i b s))) /\
  c_fd (e_conn (snd (on_byte i b s))) = c_fd (e_conn s) /\
  (is_Some (e_broker s) -> is_Some (e_broker (snd (on_byte i b s)))).
Proof.
  destruct s as [c e q]. unfold on_byte, relabel. cbn [e_conn setRequestBroker e_broker].
  repeat case_match; try done.
  unfold mbind, M_bind, handleMessage. cbn [e_conn Conn.push_back e_broker setRequestBroker].
  destruct (parse _); [|done..]. destruct q; [|done]. cbn. unfold labelled. rewrite fmap_app. done.
Qed.

Lemma on_bytes_relabel i bs (s : env) :
  on_bytes (S (S i)) bs (relabel s) = (fst (on_bytes i bs s), relabel (snd (on_bytes i bs s))) /\
  c_fd (e_conn (snd (on_bytes i bs s))) = c_fd (e_conn s) /\
  (is_Some (e_broker s) -> is_Some (e_broker (snd (on_bytes i bs s)))).
Proof.
  revert s. induction bs as [|b bs IH]; intros s; [done|]. cbn [on_bytes]. rewrite !M_bind_case.
  destruct (on_byte_relabel i b s) as (-> & Hfd & Hq).
  destruct (on_byte i b s) as [[[]|x|] s1]; cbn [fst snd] in *; [|done..].
  rewrite !M_bind_case. cbn [modify].
  change (set_errno 0 (relabel s1)) with (relabel (set_errno 0 s1)).
  destruct (IH (set_errno 0 s1)) as (-> & Hfd1 & Hq1). split; [done|].
  split; [by rewrite Hfd1|]. intros H. by apply Hq1, Hq.
Qed.

(** The same bytes on the same connection, under its other name and with another errno. *)
Lemma handleEvent_relabel i bs c e1 q (s : env) (l : list recv_result) :
  Conn.handleEvent i (bytes_events bs) (mk_env c e1 (Some q)) = (Ok tt, s, l) ->
  exists c' q', s = mk_env c' EAGAIN (Some q') /\ c_fd c' = c_fd c /\
    forall e2, exists e', on_bytes (S (S i)) bs (mk_env c e2 (Some (labelled q))) =
      (Ok tt, mk_env c' e' (Some (labelled q'))).
Proof.
  intros E. unfold bytes_events in *.
  pose proof (handleEvent_bytes i bs (mk_env c e1 (Some q))) as H1.
  destruct (on_bytes i bs (mk_env c e1 (Some q))) as [[[]|x|] s1] eqn:E1;
    [|destruct H1 as [l' H1]; congruence..].
  rewrite H1 in E. injection E as <- <-.
  destruct (on_bytes_relabel i bs (mk_env c e1 (Some q))) as (_ & Hfd & Hq). rewrite E1 in Hfd, Hq.
  destruct Hq as [q' Hq]; [by eexists|]. cbn [snd] in Hfd, Hq.
  exists (e_conn s1), q'. unfold set_errno at 1. rewrite Hq. split; [done|]. split; [done|]. intros e2.
  destruct (on_bytes_errno i bs (mk_env c e1 (Some q)) e2) as [e' E2]. rewrite E1 in E2.
  change (set_errno e2 (mk_env c e1 (Some q))) with (mk_env c e2 (Some q)) in E2.
  destruct (on_bytes_relabel i bs (mk_env c e2 (Some q))) as (E3 & _ & _). rewrite E2 in E3.
  exists e'. change (mk_env c e2 (Some (labelled q))) with (relabel (mk_env c e2 (Some q))).
  rewrite E3. unfold relabel, set_errno, setRequestBroker. cbn [fst snd e_conn e_errno e_broker].
  by rewrite Hq.
Qed.

(** ** What a connection finds: bytes, then maybe the end of the stream or an error *)
Fixpoint bytes_in (l : list recv_result) : bytes :=
  match l with
  | [] => []
  | RecvByte b :: l' => b :: bytes_in l'
  | _ :: l' => bytes_in l'
  end.

Definition no_byte (l : list recv_result) : Prop :=
  match l with RecvByte _ :: _ => False | _ => True end.

Lemma bytes_first (l : list recv_result) :
  exists bs tail, l = bytes_events bs ++ tail /\ no_byte tail /\ bytes_in l = bs ++ bytes_in tail.
Proof.
  induction l as [|[b| |e] l (bs & tail & -> & Hn & E)].
  - by exists [], [].
  - exists (b :: bs), tail. split; [done|]. split; [done|]. cbn [bytes_in]. by rewrite E.
  - by exists [], (RecvClosed :: bytes_events bs ++ tail).
  - by exists [], (RecvError e :: bytes_events bs ++ tail).
Qed.

(** After the bytes the connection keeps its descriptor or has lost it; an exception about the
    end of the stream changes nothing else. *)
Lemma handleEvent_any i bs tail (s s1 : env) :
  on_bytes i bs s = (Ok tt, s1) -> no_byte tail ->
  exists r fd' e' rest, r <> Undef /\ (fd' = c_fd (e_conn s1) \/ fd' = -1) /\
    Conn.handleEvent i (bytes_events bs ++ tail) s =
      (r, mk_env (mk_conn fd' (c_msg_buf (e_conn s1)) (c_msg_len (e_conn s1))) e' (e_broker s1), rest) /\
    bytes_in rest = bytes_in tail.
Proof.
  intros E Hn. unfold Conn.handleEvent, bytes_events.
  rewrite (proj2 (recv_loop_bytes i bs tail s)), E.
  destruct s1 as [[f buf len] e q], tail as [|[b| |x] tail]; [|done|..];
    cbn [recv_loop set_errno set_fd e_conn e_errno e_broker c_fd c_msg_buf c_msg_len]; case_match;
    (eexists _, _, _, _; split_and!; [| |reflexivity|reflexivity]; [discriminate|auto]).
Qed.

(** ** One poll *)
Definition with_errno (e : Z) (s : network) : network :=
  mk_network (nw_disk s) e (nw_queue s) (nw_workers s) (nw_peers s).

Section Poll.
Context `{Blake2b} `{UuidText}.
Context (fd : nat -> Z).

Definition fds_apart n : Prop :=
  (forall i, fd i <> -1) /\ forall i i', (i < n)%nat -> (i' < n)%nat -> fd i = fd i' -> i = i'.

(** What [recv] will find on the connection of each client: some of the next bytes that the
    client has sent, and whatever may end them. *)
Definition deliver (contents : nat -> list recv_result) n o : objects :=
  mk_objects (ob_objs o) (ob_next o) (ob_accepts o)
    (list_to_map ((fun i => (fd i, contents i)) <$> seq 0 n)) (ob_errno o) (ob_broker o).

Definition available (contents : nat -> list recv_result) (s : network) : Prop :=
  forall i pe, nw_peers s !! i = Some pe -> bytes_in (contents i) `prefix_of` cl_sent (pr_client pe).

(** The network after the poll: the bytes that are not there any more have been received;
    the buffers of the connections and the queue are as the process has them. *)
Definition left_in o i : list recv_result := default [] (ob_sockets o !! fd i).

Definition conn_at (p : pollable) o (c : Connection) : Connection :=
  match ob_objs o !! p with Some (AConnection c') => c' | _ => c end.

Definition received_from (contents : nat -> list recv_result) o i : nat :=
  length (bytes_in (contents i)) - length (bytes_in (left_in o i)).

Definition read_of (contents : nat -> list recv_result) o i (pe : peer) : peer :=
  let c := conn_at (S (S i)) o (pr_conn pe) in
  mk_peer (pr_uuid pe) (take_sent (received_from contents o i) (pr_client pe))
    (mk_conn (c_fd (pr_conn pe)) (c_msg_buf c) (c_msg_len c)) (pr_down pe) (pr_end pe).

Definition after_poll (contents : nat -> list recv_result) (s : network) o : network :=
  mk_network (nw_disk s) (ob_errno o) (unlabelled (default [] (ob_broker o))) (nw_workers s)
    (imap (read_of contents o) (nw_peers s)).

(** Who is in the group of the server, and what they are; a connection may have lost its
    descriptor. *)
Record registered n (ps : list pollable) o : Prop := mk_registered {
  rg_pollables : Forall (fun p => (p < S (S n))%nat) ps;
  rg_signals : exists sfd b, ob_objs o !! 0%nat = Some (SignalHandler sfd b);
  rg_listener : exists lfd, ob_objs o !! 1%nat = Some (ConnectionListener lfd);
  rg_conns : forall i, (i < n)%nat -> exists c,
    ob_objs o !! S (S i) = Some (AConnection c) /\ (c_fd c = fd i \/ c_fd c = -1);
  rg_accepts : ob_accepts o = [];
  rg_broker : exists q, ob_broker o = Some (labelled q) }.

(** A network that is read from, within a poll of the process. *)
Context (contents : nat -> list recv_result) (s : network).
Context (Hap : fds_apart (length (nw_peers s))) (Hav : available contents s).
Context (Hfds : forall i pe, nw_peers s !! i = Some pe -> c_fd (pr_conn pe) = fd i).
Context (Hdef : forall evs s', run_events evs s = Ok s' -> defined s').

Record polling (ps : list pollable) o : Prop := mk_polling {
  po_run : exists evs e, run_events evs s = Ok (with_errno e (after_poll contents s o));
  po_registered : registered (length (nw_peers s)) ps o;
  po_left : forall i, (i < length (nw_peers s))%nat ->
    bytes_in (left_in o i) `suffix_of` bytes_in (contents i);
  po_none : default [] (ob_sockets o !! (-1)) = [] }.

(** What has nothing to do with the connections. *)
Lemma polling_same ps o o' :
  polling ps o -> registered (length (nw_peers s)) ps o' ->
  (forall i, ob_objs o' !! S (S i) = ob_objs o !! S (S i)) ->
  (forall i, left_in o' i = left_in o i) -> default [] (ob_sockets o' !! (-1)) = [] ->
  ob_broker o' = ob_broker o -> polling ps o'.
Proof.
  intros [(evs & e & Hrun) _ Hl _] Hreg Ho Hs Hn Hb. constructor; [|done| |done].
  - exists evs, e. rewrite Hrun. unfold with_errno, after_poll. cbn. rewrite Hb. do 2 f_equal.
    apply imap_ext. intros i pe _. unfold read_of, conn_at, received_from. by rewrite Hs, Ho.
  - intros i Hi. rewrite Hs. by apply Hl.
Qed.

Lemma after_poll_peer o i pe :
  nw_peers s !! i = Some pe -> nw_peers (after_poll contents s o) !! i = Some (read_of contents o i pe).
Proof. intros E. cbn. by rewrite list_lookup_imap, E. Qed.

(** One connection has been read from. *)
Lemma after_poll_one o i pe c1 rest e1 q1 :
  nw_peers s !! i = Some pe ->
  let o1 := mk_objects (<[S (S i) := AConnection c1]> (ob_objs o)) (ob_next o) (ob_accepts o)
    (<[fd i := rest]> (ob_sockets o)) e1 (Some (labelled q1)) in
  after_poll contents s o1 = mk_network (nw_disk s) e1 q1 (nw_workers s)
    (<[i := mk_peer (pr_uuid pe)
        (take_sent (length (bytes_in (contents i)) - length (bytes_in rest)) (pr_client pe))
        (mk_conn (fd i) (c_msg_buf c1) (c_msg_len c1)) (pr_down pe) (pr_end pe)]>
      (nw_peers (after_poll contents s o))).
Proof.
  intros Ep o1. unfold after_poll. cbn [o1 ob_errno ob_broker default from_option id].
  rewrite unlabel_label. f_equal. cbn [nw_peers]. apply list_eq. intros k.
  pose proof (lookup_lt_Some _ _ _ Ep) as Hi. rewrite list_lookup_imap.
  destruct (decide (k = i)) as [-> |Hne].
  - rewrite list_lookup_insert_eq by (by rewrite length_imap). rewrite Ep. cbn. f_equal.
    unfold read_of, conn_at, received_from, left_in. cbn. rewrite !lookup_insert_eq. cbn.
    by rewrite (Hfds i pe Ep).
  - rewrite list_lookup_insert_ne, list_lookup_imap by done.
    destruct (nw_peers s !! k) as [pk|] eqn:Ek; [|done]. cbn. f_equal.
    pose proof (lookup_lt_Some _ _ _ Ek) as Hk.
    unfold read_of, conn_at, received_from, left_in. cbn.
    rewrite !lookup_insert_ne; [done|congruence|]. intros E. apply Hne. symmetry. by apply Hap.
Qed.

(** The bytes that are there, in the process and as an event. *)
Lemma bytes_read i ps o pe c q bs tail evs e :
  nw_peers s !! i = Some pe -> polling ps o ->
  ob_objs o !! S (S i) = Some (AConnection c) -> c_fd c = fd i -> ob_broker o = Some (labelled q) ->
  bytes_in (left_in o i) = bs ++ tail ->
  run_events evs s = Ok (with_errno e (after_poll contents s o)) ->
  exists e1 e2 c' q' evs', c_fd c' = fd i /\
    on_bytes (S (S i)) bs (mk_env c (ob_errno o) (Some (labelled q))) =
      (Ok tt, mk_env c' e1 (Some (labelled q'))) /\
    run_events (evs ++ evs') s = Ok (mk_network (nw_disk s) e2 q' (nw_workers s)
      (<[i := mk_peer (pr_uuid pe)
          (take_sent (received_from contents o i + length bs) (pr_client pe)) c' (pr_down pe) (pr_end pe)]>
        (nw_peers (after_poll contents s o)))).
Proof.
  intros Ep [_ Hreg Hl _] Ho Hfd Hq Hbs Hrun.
  assert (read_of contents o i pe = mk_peer (pr_uuid pe)
    (take_sent (received_from contents o i) (pr_client pe)) c (pr_down pe) (pr_end pe)) as Hread.
  { unfold read_of, conn_at. rewrite Ho, (Hfds i pe Ep), <- Hfd. by destruct c. }
  pose proof (after_poll_peer o i pe Ep) as Ei. rewrite Hread in Ei.
  assert (unlabelled (default [] (ob_broker o)) = q) as Hq' by (rewrite Hq; apply unlabel_label).
  destruct (decide (bs = [])) as [-> |Hne].
  { exists (ob_errno o), e, c, q, []. split; [done|]. split; [done|].
    rewrite app_nil_r, Nat.add_0_r, Hrun, list_insert_id by done.
    unfold with_errno, after_poll. cbn. by rewrite Hq'. }
  destruct (Hav i pe Ep) as [more Hmore].
  destruct (Hl i (lookup_lt_Some _ _ _ Ep)) as [pre Hpre].
  assert (received_from contents o i = length pre) as Ha.
  { unfold received_from. rewrite Hpre, length_app. lia. }
  assert (drop (received_from contents o i) (cl_sent (pr_client pe)) = bs ++ tail ++ more) as Hdrop.
  { rewrite Ha, Hmore, Hpre, Hbs, <- !app_assoc. by rewrite drop_app_length. }
  set (so := with_errno e (after_poll contents s o)) in *.
  assert (length bs <> 0)%nat as Hlb by (by destruct bs).
  destruct (do_step (ServerReads i (length bs - 1)) so) as [x|] eqn:Ex.
  2: { exfalso. cbn [do_step] in Ex. unfold server_reads in Ex.
       change (nw_peers so) with (nw_peers (after_poll contents s o)) in Ex. rewrite Ei in Ex.
       cbn [mbind option_bind pr_client cl_sent take_sent] in Ex. rewrite Hdrop in Ex. by destruct bs. }
  destruct (Hdef evs so Hrun _ _ Ex) as [s1 ->]. pose proof Ex as Ex'.
  cbn [do_step] in Ex. unfold server_reads in Ex.
  change (nw_peers so) with (nw_peers (after_poll contents s o)) in Ex. rewrite Ei in Ex.
  cbn [mbind option_bind pr_client cl_sent take_sent pr_conn] in Ex. rewrite Hdrop in Ex.
  replace (S (length bs - 1)) with (length bs) in Ex by lia.
  destruct (bs ++ tail ++ more) eqn:Eb; [by destruct bs|].
  rewrite <- Eb, take_app_length in Ex. clear Eb.
  change (nw_queue so) with (unlabelled (default [] (ob_broker o))) in Ex. rewrite Hq' in Ex.
  destruct (Conn.handleEvent i (bytes_events bs) _) as [[[[]|y|] s0] l'] eqn:Eh; [|done..].
  destruct (handleEvent_relabel _ _ _ _ _ _ _ Eh) as (c' & q' & -> & Hfd' & Hon).
  destruct (Hon (ob_errno o)) as [e1 He1]. apply (inj Some) in Ex. injection Ex as <-.
  exists e1, EAGAIN, c', q', [ServerReads i (length bs - 1)]. split; [congruence|]. split; [done|].
  rewrite run_events_app, Hrun. cbn [mbind res_bind run_events]. rewrite Ex'. cbn [mbind res_bind].
  unfold set_peer, set_env, take_sent. cbn. by rewrite drop_drop.
Qed.

Lemma registered_conn ps o i c1 nx so e1 q1 :
  registered (length (nw_peers s)) ps o -> c_fd c1 = fd i \/ c_fd c1 = -1 ->
  registered (length (nw_peers s)) ps
    (mk_objects (<[S (S i) := AConnection c1]> (ob_objs o)) nx (ob_accepts o) so e1 (Some (labelled q1))).
Proof.
  intros [Hps (sfd & b & Hs) (lfd & Hl) Hc Ha _] Hfd1.
  constructor; cbn; [done|exists sfd, b|exists lfd| |done|by exists q1];
    try by rewrite lookup_insert_ne by done.
  intros k Hk. destruct (decide (k = i)) as [-> |Hne].
  - exists c1. by rewrite lookup_insert_eq.
  - rewrite lookup_insert_ne by congruence. by apply Hc.
Qed.

(** A connection that is still open. *)
Lemma handle_open i ps o g c :
  (i < length (nw_peers s))%nat -> polling ps o -> ob_objs o !! S (S i) = Some (AConnection c) ->
  c_fd c = fd i ->
  exists r o', handle_object (S (S i)) (g, o) = (r, (g, o')) /\ r <> Undef /\ polling ps o'.
Proof.
  intros Hi Hpo Ho Hfd. destruct (lookup_lt_is_Some_2 _ _ Hi) as [pe Ep].
  pose proof Hpo as [(evs & e & Hrun) Hreg Hl Hn]. destruct (rg_broker _ _ _ Hreg) as [q Hq].
  destruct (bytes_first (left_in o i)) as (bs & tail & El & Hnb & Eb).
  destruct (bytes_read i ps o pe c q bs (bytes_in tail) evs e Ep Hpo Ho Hfd Hq Eb Hrun)
    as (e1 & e2 & c' & q' & evs' & Hfd' & Hon & Hrun').
  destruct (handleEvent_any _ bs tail _ _ Hon Hnb) as (r & f & e3 & rest & Hr & Hf & Eh & Erest).
  cbn [e_conn e_broker] in Hf, Eh. rewrite <- El in Eh.
  unfold handle_object. rewrite Ho. unfold connection_event. rewrite Hfd, Hq.
  fold (left_in o i). rewrite Eh. cbn [e_conn e_errno e_broker].
  eexists r, _. split; [reflexivity|]. split; [done|]. set (c1 := mk_conn _ _ _).
  destruct (Hl i Hi) as [pre Hpre].
  constructor.
  - exists (evs ++ evs'), e2. rewrite Hrun'. rewrite (after_poll_one o i pe c1 rest e3 q' Ep).
    unfold with_errno. cbn [nw_disk nw_queue nw_workers nw_peers c1 c_msg_buf c_msg_len].
    assert (mk_conn (fd i) (c_msg_buf c') (c_msg_len c') = c') as -> by (rewrite <- Hfd'; by destruct c').
    do 5 f_equal. unfold received_from. rewrite Erest, Hpre, Eb, !length_app. f_equal. lia.
  - apply registered_conn; [done|]. cbn [c1 c_fd]. destruct Hf as [-> | ->]; [left; congruence|by right].
  - intros k Hk. unfold left_in. cbn [ob_sockets]. destruct (decide (k = i)) as [-> |Hne].
    + rewrite lookup_insert_eq. cbn. rewrite Erest, Hpre, Eb. exists (pre ++ bs). by rewrite <- app_assoc.
    + rewrite lookup_insert_ne; [by apply Hl|]. intros E. apply Hne. symmetry. by apply Hap.
  - cbn [ob_sockets]. rewrite lookup_insert_ne; [done|apply Hap].
Qed.

(** A connection that has lost its descriptor; the signals; the listener, with nobody waiting. *)
Lemma handle_lost i ps o g c :
  polling ps o -> (i < length (nw_peers s))%nat -> ob_objs o !! S (S i) = Some (AConnection c) ->
  c_fd c = -1 ->
  exists r o', handle_object (S (S i)) (g, o) = (r, (g, o')) /\ r <> Undef /\ polling ps o'.
Proof.
  intros Hpo Hi Ho Hfd. pose proof Hpo as [_ Hreg Hl Hn]. destruct (rg_broker _ _ _ Hreg) as [q Hq].
  unfold handle_object. rewrite Ho. unfold connection_event. rewrite Hfd, Hq, Hn. cbn.
  eexists _, _. split; [reflexivity|]. split; [discriminate|].
  apply (polling_same ps o); cbn; [done|apply registered_conn; [done|by right]| | | |done].
  - intros k. destruct (decide (k = i)) as [-> |Hne]; [by rewrite lookup_insert_eq|].
    by rewrite lookup_insert_ne by congruence.
  - intros k. unfold left_in. cbn. rewrite lookup_insert_ne; [done|]. intros E. by apply (proj1 Hap k).
  - by rewrite lookup_insert_eq.
Qed.

Lemma handle_polled p g o :
  p ∈ pg_pollables g -> polling (pg_pollables g) o ->
  exists r g' o', handle_object p (g, o) = (r, (g', o')) /\ r <> Undef /\ polling (pg_pollables g') o'.
Proof.
  intros Hp Hpo. pose proof Hpo as [_ Hreg _ Hn]. pose proof Hreg as [Hps (sfd & b & Hs) (lfd & Hl) Hc Ha Hq].
  destruct p as [|[|i]].
  - unfold handle_object. rewrite Hs. eexists _, g, _. split; [reflexivity|]. split; [discriminate|].
    apply (polling_same _ o); [done| |intros i; cbn; by rewrite lookup_insert_ne by done|done..].
    constructor; cbn; [done|exists sfd, true; by rewrite lookup_insert_eq
      |exists lfd; by rewrite lookup_insert_ne by done| |done..].
    intros i Hi. rewrite lookup_insert_ne by done. by apply Hc.
  - unfold handle_object. rewrite Hl, Ha. cbn [accept_loop].
    eexists _, g, _. split; [reflexivity|]. split; [discriminate|].
    apply (polling_same _ o); try done. constructor; cbn; try done; [by exists sfd, b|by exists lfd].
  - assert (i < length (nw_peers s))%nat as Hi.
    { rewrite list.Forall_forall in Hps. specialize (Hps _ Hp). cbv beta in Hps. lia. }
    destruct (Hc i Hi) as (c & Ho & [Hfd|Hfd]).
    + destruct (handle_open i _ o g c Hi Hpo Ho Hfd) as (r & o' & E & Hr & Hpo'). by exists r, g, o'.
    + destruct (handle_lost i _ o g c Hpo Hi Ho Hfd) as (r & o' & E & Hr & Hpo'). by exists r, g, o'.
Qed.

Lemma polled_handled p g o :
  p ∈ pg_pollables g -> polling (pg_pollables g) o ->
  handled polling (fun _ => False) (handle_object p (g, o)).
Proof.
  intros Hp Hpo. destruct (handle_polled p g o Hp Hpo) as (r & g' & o' & -> & Hr & Hpo').
  by destruct r.
Qed.

Lemma polling_remove p ps o : polling ps o -> polling (erase_first p ps) o.
Proof.
  intros [Hr [Hps Hs Hl Hc Ha Hq] Hle Hn]. constructor; [done| |done|done].
  constructor; [|done..]. apply list.Forall_forall. intros x Hx.
  rewrite list.Forall_forall in Hps. by apply Hps, (erase_first_subset p).
Qed.
End Poll.

(** ** The server between its polls *)
Section Between.
Context `{Blake2b} `{UuidText}.
Context (fd : nat -> Z).

Record serves (s : network) g o : Prop := mk_serves {
  se_group : group_ok g;
  se_max : pg_max_pollables g = MAX_CONNECTIONS + 2;
  se_registered : registered fd (length (nw_peers s)) (pg_pollables g) o;
  se_fds : forall i pe, nw_peers s !! i = Some pe -> c_fd (pr_conn pe) = fd i;
  se_conns : forall i pe, nw_peers s !! i = Some pe -> exists c,
    ob_objs o !! S (S i) = Some (AConnection c) /\
    c_msg_buf c = c_msg_buf (pr_conn pe) /\ c_msg_len c = c_msg_len (pr_conn pe);
  se_queue : ob_broker o = Some (labelled (nw_queue s)) }.

Lemma delivered contents n o i :
  fds_apart fd n -> (i < n)%nat -> left_in fd (deliver fd contents n o) i = contents i.
Proof.
  intros [_ Hap] Hi. unfold left_in, deliver. cbn [ob_sockets].
  assert (list_to_map ((fun i => (fd i, contents i)) <$> seq 0 n) !! fd i =
    Some (contents i) :> option (list recv_result)) as ->; [|done].
  apply elem_of_list_to_map.
  - rewrite <- list_fmap_compose. change (fst ∘ (fun i => (fd i, contents i))) with fd.
    apply NoDup_fmap_2_strong; [|apply NoDup_seq]. intros x y Hx Hy.
    rewrite elem_of_seq in Hx, Hy. apply Hap; lia.
  - apply list_elem_of_fmap. exists i. split; [done|]. apply elem_of_seq. lia.
Qed.

Lemma delivered_none contents n o : fds_apart fd n -> ob_sockets (deliver fd contents n o) !! (-1) = None.
Proof.
  intros [Hne _]. unfold deliver. cbn [ob_sockets]. apply not_elem_of_list_to_map_1.
  rewrite <- list_fmap_compose. intros (i & E & _)%list_elem_of_fmap. cbn in E. by apply (Hne i).
Qed.

(** Nothing has been read yet. *)
Lemma polling_start contents (s : network) g o :
  fds_apart fd (length (nw_peers s)) -> serves s g o ->
  polling fd contents s (pg_pollables g) (deliver fd contents (length (nw_peers s)) o).
Proof.
  intros Hap [Hg Hm Hreg Hfds Hc Hq]. set (n := length (nw_peers s)) in *.
  constructor.
  - exists [], (nw_errno s). cbn [run_events]. f_equal. unfold with_errno, after_poll.
    cbn [deliver ob_broker]. rewrite Hq. cbn [default from_option id]. rewrite unlabel_label.
    destruct s as [d e q ws ps]. cbn [nw_disk nw_errno nw_queue nw_workers nw_peers] in *. f_equal.
    apply list_eq. intros i. rewrite list_lookup_imap. destruct (ps !! i) as [pe|] eqn:Ei; [|done].
    cbn. f_equal. destruct (Hc i pe Ei) as (c & Ho & Hb & Hl). unfold read_of, received_from, conn_at.
    rewrite delivered by (done || by eapply lookup_lt_Some). cbn [deliver ob_objs]. rewrite Ho, Hb, Hl.
    rewrite Nat.sub_diag. by destruct pe as [u [? ? ?] [? ? ?] dn en].
  - by destruct Hreg.
  - intros i Hi. by rewrite delivered.
  - by rewrite delivered_none.
Qed.

(** One turn of the loop of the server, whatever the poll reports. *)
Lemma poll_turn (fuel : nat) contents revents (s : network) g o :
  serves s g o -> fds_apart fd (length (nw_peers s)) -> available contents s ->
  (forall evs s', run_events evs s = Ok s' -> defined s') -> (1026 <= fuel)%nat ->
  exists b g' o', server_loop fuel 0 [Polled revents] (g, deliver fd contents (length (nw_peers s)) o) =
      (Ok b, (g', o')) /\
    (exists evs e, run_events evs s = Ok (with_errno e (after_poll fd contents s o'))) /\
    serves (after_poll fd contents s o') g' o'.
Proof.
  intros Hs Hap Hav Hdef Hfuel. pose proof Hs as [Hg Hm Hreg Hfds Hc Hq].
  set (n := length (nw_peers s)) in *. set (o0 := deliver fd contents n o).
  assert (length (pg_pollables g) + budget o0 <= fuel)%nat as Hf.
  { cbn. rewrite (rg_accepts _ _ _ _ Hreg). pose proof (go_max g Hg) as Hmax. rewrite Hm in Hmax.
    unfold MAX_CONNECTIONS in Hmax. cbn [length]. lia. }
  pose proof (pollAndHandle_inv (H := objects_pollables) (polling fd contents s) (fun _ => False)
    (fun p g o _ => polled_handled fd contents s Hap Hav Hfds Hdef p g o)
    (fun p ps o _ => polling_remove fd contents s p ps o)
    fuel revents g o0 Hg Hf (polling_start contents s g o Hap Hs)) as Hinv.
  pose proof (pollAndHandle_run fuel (Polled revents) g o0 Hg Hf) as Hrun.
  destruct (pollAndHandle fuel (Polled revents) (g, o0)) as [[c|e|] [g' o']] eqn:E; [|done..].
  destruct Hinv as (-> & Hg' & Hpo).
  destruct Hrun as (_ & _ & _ & Hm' & _). destruct Hpo as [Hr Hreg' _ _].
  exists (if receivedTermSignal 0 o' then Terminating else Running), g', o'. split; [|split; [done|]].
  - cbn [server_loop]. fold o0. mstep E. rewrite M_bind_case. cbn [gets snd].
    by destruct (receivedTermSignal 0 o').
  - assert (length (nw_peers (after_poll fd contents s o')) = n) as Hn
      by (cbn; by rewrite length_imap).
    constructor; [done|by rewrite Hm'|by rewrite Hn| | |].
    + intros i pe' Ei. cbn in Ei. rewrite list_lookup_imap in Ei.
      destruct (nw_peers s !! i) as [pe|] eqn:Ep; [|done]. injection Ei as <-. exact (Hfds i pe Ep).
    + intros i pe' Ei. cbn in Ei. rewrite list_lookup_imap in Ei.
      destruct (nw_peers s !! i) as [pe|] eqn:Ep; [|done]. injection Ei as <-.
      destruct (rg_conns _ _ _ _ Hreg' i (lookup_lt_Some _ _ _ Ep)) as (c & Ho & _).
      exists c. split; [done|]. cbn. unfold conn_at. by rewrite Ho.
    + destruct (rg_broker _ _ _ _ Hreg') as [q Hq']. rewrite Hq'. cbn. rewrite Hq'. cbn.
      by rewrite unlabel_label.
Qed.

(** What the workers and the clients do meanwhile; the workers take from the queue. *)
Definition elsewhere (ev : event) : Prop := match ev with ServerReads _ _ => False | _ => True end.

Definition with_queue (q : list Request) o : objects :=
  mk_objects (ob_objs o) (ob_next o) (ob_accepts o) (ob_sockets o) (ob_errno o) (Some (labelled q)).

Lemma insert_conn (l : list peer) k i (pe pk : peer) :
  l !! k = Some pe -> pr_conn pk = pr_conn pe -> pr_conn <$> <[k := pk]> l !! i = pr_conn <$> l !! i.
Proof.
  intros E Hc. destruct (decide (i = k)) as [-> |Hne]; [|by rewrite list_lookup_insert_ne].
  rewrite list_lookup_insert_eq by (by eapply lookup_lt_Some). rewrite E. cbn. by rewrite Hc.
Qed.

Lemma elsewhere_conns ev (s s' : network) i :
  elsewhere ev -> do_step ev s = Some (Ok s') ->
  pr_conn <$> nw_peers s' !! i = pr_conn <$> nw_peers s !! i.
Proof.
  intros He E. destruct ev as [k n|w|w|w send|k n|k send]; [done|..]; cbn [do_step] in E.
  - unfold worker_takes in E. destruct (nw_workers s !! w) as [[]|], (nw_queue s); by simplify_eq.
  - unfold worker_calls in E. destruct (nw_workers s !! w) as [[[c []]|]|]; simplify_eq.
    destruct (step_call _ _). by simplify_eq.
  - unfold worker_answers in E. destruct (nw_workers s !! w) as [[[c []]|]|]; simplify_eq.
    destruct (send_answer _ _), (nw_peers s !! c) eqn:Ec; simplify_eq; try done.
    by apply (insert_conn _ _ _ p).
  - unfold client_reads in E. destruct (nw_peers s !! k) as [pe|] eqn:Ek; [|done].
    cbn [mbind option_bind] in E. destruct (pr_down _); [done|]. injection E as E.
    destruct (Conn.handleEvent _ _ _) as [[[[]| |] ?] ?]; simplify_eq. by apply (insert_conn _ _ _ pe).
  - unfold client_handles in E. destruct (nw_peers s !! k) as [pe|] eqn:Ek; [|done].
    cbn [mbind option_bind] in E. destruct (e_broker _) as [[|r q]|]; [done| |done]. injection E as E.
    repeat case_match; simplify_eq. by apply (insert_conn _ _ _ pe).
Qed.

Lemma elsewhere_length ev (s s' : network) :
  elsewhere ev -> do_step ev s = Some (Ok s') -> length (nw_peers s') = length (nw_peers s).
Proof.
  intros He E. pose proof (fun i => elsewhere_conns ev s s' i He E) as Hc.
  assert ((pr_conn <$> nw_peers s') = (pr_conn <$> nw_peers s)) as Heq
    by (apply list_eq; intros i; by rewrite !list_lookup_fmap).
  apply (f_equal length) in Heq. by rewrite !length_fmap in Heq.
Qed.

Lemma serves_elsewhere ev (s s' : network) g o :
  elsewhere ev -> do_step ev s = Some (Ok s') -> serves s g o ->
  serves s' g (with_queue (nw_queue s') o).
Proof.
  intros He E [Hg Hm [Hps Hsig Hlis Hrc Ha _] Hfds Hc Hq].
  assert (forall i pe', nw_peers s' !! i = Some pe' -> exists pe, nw_peers s !! i = Some pe /\
    pr_conn pe' = pr_conn pe) as Hback.
  { intros i pe' E'. pose proof (elsewhere_conns ev s s' i He E) as Heq. rewrite E' in Heq.
    destruct (nw_peers s !! i) as [pe|]; [|done]. injection Heq as Heq. by exists pe. }
  constructor; [done|done| | | |done].
  - rewrite (elsewhere_length ev s s' He E). constructor; try done. by eexists.
  - intros i pe' (pe & Ep & ->)%Hback. by apply Hfds.
  - intros i pe' (pe & Ep & ->)%Hback. by apply Hc.
Qed.

(** errno is the server's own. *)
Lemma elsewhere_errno ev e (s s' : network) :
  elsewhere ev -> do_step ev s = Some (Ok s') -> do_step ev (with_errno e s) = Some (Ok (with_errno e s')).
Proof.
  intros He E. destruct ev as [k n|w|w|w send|k n|k send]; [done|..]; cbn [do_step] in *.
  - unfold worker_takes in *. cbn. destruct (nw_workers s !! w) as [[]|], (nw_queue s); by simplify_eq.
  - unfold worker_calls in *. cbn [with_errno nw_workers nw_disk].
    destruct (nw_workers s !! w) as [[[c []]|]|]; simplify_eq. destruct (step_call _ _). by simplify_eq.
  - unfold worker_answers in *. cbn [with_errno nw_workers nw_peers].
    destruct (nw_workers s !! w) as [[[c []]|]|]; simplify_eq.
    destruct (send_answer _ _), (nw_peers s !! c) eqn:Ec; by simplify_eq.
  - unfold client_reads in *. cbn [with_errno nw_peers]. destruct (nw_peers s !! k) as [pe|]; [|done].
    cbn [mbind option_bind] in *. destruct (pr_down _); [done|]. apply (inj Some) in E.
    destruct (Conn.handleEvent _ _ _) as [[[[]| |] ?] ?]; by simplify_eq.
  - unfold client_handles in *. cbn [with_errno nw_peers]. destruct (nw_peers s !! k) as [pe|]; [|done].
    cbn [mbind option_bind] in *. destruct (e_broker _) as [[|r q]|]; [done| |done].
    apply (inj Some) in E. repeat case_match; by simplify_eq.
Qed.
End Between.

(** ** The process, from its start *)
Section Process.
Context `{Kernel} `{Blake2bLaws} `{UuidTextLaws}.
Context (fd garbage : nat -> Z).
Context (js : list job) (Hfds : fds_apart fd (length js)) (Hlen : (length js <= 1024)%nat).
Context (k k1 k2 : kernel) (σ : fs) (sockets : gmap Z (list recv_result)) (sfd lfd : Z) (fuel : nat).

(** The sockets of the clients, in the order in which they have connected. *)
Definition arrivals : list (Z * Z) := (fun i => (fd i, garbage i)) <$> seq 0 (length js).

(** The states it gets to: after its main and the poll that reports the listener; by a step
    of a worker or of a client; by a turn of its loop, whatever the poll reports and
    whatever the connections have to read, until the loop ends. *)
Inductive server_runs : loop_end -> network -> PollGroup -> objects -> Prop :=
| runs_start s0 g o :
    server_main (boot_process k σ (waiting arrivals) sockets) = (Ok (Looping 0), s0) ->
    server_loop fuel 0 [Polled [POLLIN; 0]] (pr_group s0, pr_objs s0) = (Ok Running, (g, o)) ->
    server_runs Running (boot fd garbage MAX_REQ_BROKER_THREADS σ js) g o
| runs_elsewhere b ev (s s' : network) g o :
    server_runs b s g o -> elsewhere ev -> do_step ev s = Some (Ok s') ->
    server_runs b s' g (with_queue (nw_queue s') o)
| runs_poll b contents revents (s : network) g g' o o' :
    server_runs Running s g o -> available contents s ->
    server_loop fuel 0 [Polled revents] (g, deliver fd contents (length (nw_peers s)) o) =
      (Ok b, (g', o')) ->
    server_runs b (after_poll fd contents s o') g' o'.

Context (Hsig : new_SignalHandler k = (Ok sfd, k1)).
Context (Hlisten : new_ConnectionListener DEFAULT_PORT MAX_CONNECTIONS k1 = (Ok lfd, k2)).
Context (Hlfd : lfd <> -1) (Hfuel : (1026 + length js <= fuel)%nat).

Abbreviation booted := (boot fd garbage MAX_REQ_BROKER_THREADS σ js).

Lemma length_arrivals : length arrivals = length js.
Proof. unfold arrivals. by rewrite length_fmap, length_seq. Qed.

(** The process starts, and serves. *)
Lemma start_serves :
  exists s0 g o,
    server_main (boot_process k σ (waiting arrivals) sockets) = (Ok (Looping 0), s0) /\
    server_loop fuel 0 [Polled [POLLIN; 0]] (pr_group s0, pr_objs s0) = (Ok Running, (g, o)) /\
    serves fd booted g o.
Proof.
  destruct (server_main_run k k1 k2 σ (waiting arrivals) sockets sfd lfd Hsig Hlisten) as (s0 & Hrun & Hs).
  destruct (first_poll k2 σ (waiting arrivals) sockets sfd lfd arrivals s0 fuel eq_refl Hlfd Hs)
    as (g & o & E & Hg & Hps & Hm & Ha & _ & Hb & Hsh & Hlh & Hobj); [by rewrite length_arrivals|].
  rewrite length_arrivals in Hps. replace (Nat.min 1024 (length js)) with (length js) in Hps by lia.
  assert (forall i, (i < length js)%nat ->
    ob_objs o !! S (S i) = Some (AConnection (new_Connection (fd i) (garbage i)))) as Hconn.
  { intros i Hi. apply (Hobj i); [lia|]. unfold arrivals. by rewrite list_lookup_fmap, lookup_seq_lt. }
  assert (length (nw_peers booted) = length js) as Hn by (cbn; by rewrite length_imap).
  exists s0, g, o. split; [done|]. split; [by rewrite (server_loop_step fuel _ [] _ g o sfd E)|].
  constructor; [done|by rewrite Hm| | | |done].
  - rewrite Hn. constructor; [|by eexists _, _|by eexists| | |by exists []].
    + rewrite Hps. apply Forall_app_2; [apply Forall_cons_2; [lia|]; apply Forall_cons_2; [lia|constructor]|].
      apply list.Forall_forall. intros p Hp%elem_of_seq. lia.
    + intros i Hi. eexists. split; [by apply Hconn|by left].
    + rewrite Ha, drop_ge by (rewrite length_arrivals; lia). done.
  - cbn [boot nw_peers]. intros i pe Ei. rewrite list_lookup_imap in Ei.
    destruct (js !! i) as [j|]; [|done]. by injection Ei as <-.
  - cbn [boot nw_peers]. intros i pe Ei. rewrite list_lookup_imap in Ei.
    destruct (js !! i) as [j|] eqn:Ej; [|done]. injection Ei as <-.
    eexists. split; [by apply Hconn, (lookup_lt_Some _ _ j)|done].
Qed.

Context (Hok : Forall job_ok js).
Context (Hapart : forall i i' j j', js !! i = Some j -> js !! i' = Some j' -> i <> i' -> apart j j').
Context (Hstart : Forall (may_start σ) js).

Abbreviation on_course := (course (fun (rs : list rank) (σ : fs) => True) (exchanging js) (length js)).

Lemma course_runs_defined (s : network) :
  (exists rs, on_course rs s) -> forall evs s', run_events evs s = Ok s' -> defined s'.
Proof.
  intros [rs Hc] evs s' E. destruct (run_goes js Hok Hapart evs rs s Hc) as (s1 & rs1 & E1 & Hc1 & _).
  rewrite E in E1. injection E1 as <-. by apply (on_course_defined js Hok Hapart rs1).
Qed.

(** What is known of each state of the process. *)
Lemma runs_known b (s : network) g o :
  server_runs b s g o ->
  (exists evs e rs, run_events evs booted = Ok (with_errno e s) /\ on_course rs (with_errno e s)) /\
  serves fd s g o.
Proof.
  intros Hr. destruct (boot_on_course js Hok fd garbage MAX_REQ_BROKER_THREADS σ Hstart) as (rs0 & Hc0 & _).
  assert (forall evs e s, run_events evs booted = Ok (with_errno e s) ->
    exists evs e rs, run_events evs booted = Ok (with_errno e s) /\ on_course rs (with_errno e s)) as Hcourse.
  { intros evs e s1 E. destruct (run_goes js Hok Hapart evs rs0 booted Hc0) as (s2 & rs & E2 & Hc & _).
    rewrite E in E2. injection E2 as <-. by exists evs, e, rs. }
  induction Hr as [s0 g o E1 E2|b ev s s' g o _ IH He E|b contents revents s g g' o o' _ IH Hav E].
  - destruct start_serves as (s1 & g1 & o1 & E1' & E2' & Hs).
    rewrite E1 in E1'. injection E1' as <-. rewrite E2 in E2'. injection E2' as <- <-.
    split; [|done]. by apply (Hcourse [] 0).
  - destruct IH as ((evs & e & rs & Hrun & _) & Hs). split; [|by apply (serves_elsewhere fd ev s)].
    apply (Hcourse (evs ++ [ev]) e). rewrite run_events_app, Hrun. cbn.
    by rewrite (elsewhere_errno ev e s s' He E).
  - destruct IH as ((evs & e & rs & Hrun & Hc) & Hs).
    pose proof (co_peers _ _ _ _ _ Hc) as Hl. cbn [with_errno nw_peers] in Hl.
    assert (serves fd (with_errno e s) g o) as Hs' by (by destruct Hs).
    destruct (poll_turn fd fuel contents revents (with_errno e s) g o Hs') as (b' & g1 & o1 & E' & Hmore & Hs1);
      [cbn; by rewrite Hl|done|by apply course_runs_defined; exists rs|lia|].
    cbn [with_errno nw_peers] in E'. rewrite E in E'. injection E' as <- <- <-.
    split; [|by destruct Hs1]. destruct Hmore as (evs' & e' & Hrun').
    apply (Hcourse (evs ++ evs') e'). by rewrite run_events_app, Hrun.
Qed.

(** C7: the server's process, from its start: its main and its poll loop, with the listener, the
    signals and up to 1024 connections in the poll group, get only to states that runs of
    the whole system get to (errno apart, which is its own). Each poll, whatever events it
    reports of whom (hangups and errors among them, also when they make others leave the
    group that have not hung up) and whatever the connections have to read (bytes, the
    end of the stream, errors), comes to events of [System], while workers and clients go on
    between the polls; so no turn of the loop fails, and whenever a client takes its uploads
    for completed the server holds its whole file. *)
Theorem server_process_refines b (s : network) g o :
  server_runs b s g o ->
  (exists evs e, run_events evs booted = Ok (with_errno e s)) /\
  (forall i j, js !! i = Some j -> exists pe, nw_peers s !! i = Some pe /\
     (uploadsCompleted (pr_client pe) = true -> nw_disk s !! job_data j = Some (Reg (jb_content j)))) /\
  forall contents revents, available contents s -> exists b' g' o',
    server_loop fuel 0 [Polled revents] (g, deliver fd contents (length (nw_peers s)) o) =
      (Ok b', (g', o')).
Proof.
  intros Hr. destruct (runs_known b s g o Hr) as ((evs & e & rs & Hrun & Hc) & Hs).
  split; [by exists evs, e|]. split.
  - intros i j Ej. destruct (course_phase js _ _ i j Hc Ej) as (rk & pe & _ & Ep & Hp).
    exists pe. split; [exact Ep|]. by apply (phase_completed j i _ _ _ _ _ Hp).
  - intros contents revents Hav. pose proof (co_peers _ _ _ _ _ Hc) as Hl. cbn [with_errno nw_peers] in Hl.
    assert (serves fd (with_errno e s) g o) as Hs' by (by destruct Hs).
    destruct (poll_turn fd fuel contents revents (with_errno e s) g o Hs') as (b' & g1 & o1 & E' & _);
      [cbn; by rewrite Hl|done|by apply course_runs_defined; exists rs|lia|].
    by exists b', g1, o1.
Qed.
End Process.

(** ** Witness: two clients; a poll reports both with all that they have sent, the next one
    that the second has hung up *)
Section Witnesses.
Import ToyHash ToyUuid ToyKernel.

#[local] Instance good_kernel : Kernel := {|
  failure _ := None;
  free_fd := @free_fd toy_kernel |}.

Definition sevens (i : nat) : Z := 7 + Z.of_nat i.

Definition whole_offers i : list recv_result :=
  match nw_peers (System.boot sevens (fun _ => 99) 16 ∅ two_jobs) !! i with
  | Some pe => bytes_events (cl_sent (pr_client pe))
  | None => []
  end.

Definition hung_up (i : nat) : list recv_result := match i with 1%nat => [RecvClosed] | _ => [] end.

Lemma sevens_apart : fds_apart sevens (length two_jobs).
Proof. unfold sevens. split; [lia|]. intros i i' _ _ E. lia. Qed.

Lemma bytes_in_events (bs : bytes) : bytes_in (bytes_events bs) = bs.
Proof. unfold bytes_events. induction bs as [|b bs IH]; [done|]. cbn. by f_equal. Qed.

Abbreviation toy_runs := (server_runs sevens (fun _ => 99) two_jobs Sockets.boot ∅ ∅ 2000).

Lemma server_process_refines_witness :
  exists b s g o, toy_runs b s g o /\
    (exists evs e, run_events evs (System.boot sevens (fun _ => 99) 16 ∅ two_jobs) = Ok (with_errno e s)) /\
    (b = Running -> exists b' g' o', server_loop 2000 0 [Polled [0; 0; 0; 17]]
       (g, deliver sevens hung_up (length (nw_peers s)) o) = (Ok b', (g', o')) /\
       toy_runs b' (after_poll sevens hung_up s o') g' o').
Proof.
  set (k1 := snd (new_SignalHandler Sockets.boot)).
  assert (new_SignalHandler Sockets.boot = (Ok 3, k1)) as Hsig by (vm_compute; reflexivity).
  set (k2 := snd (new_ConnectionListener DEFAULT_PORT MAX_CONNECTIONS k1)).
  assert (new_ConnectionListener DEFAULT_PORT MAX_CONNECTIONS k1 = (Ok 4, k2)) as Hlis
    by (vm_compute; reflexivity).
  assert (length two_jobs <= 1024)%nat as Hlen by (cbn; lia).
  assert (1026 + length two_jobs <= 2000)%nat as Hfuel by (cbn; lia).
  destruct (start_serves sevens (fun _ => 99) two_jobs Hlen Sockets.boot k1 k2 ∅ ∅ 3 4 2000 Hsig Hlis
    ltac:(discriminate) Hfuel) as (s0 & g & o & E1 & E2 & _).
  pose proof (server_process_refines sevens (fun _ => 99) two_jobs sevens_apart Hlen Sockets.boot k1
    k2 ∅ ∅ 3 4 2000 Hsig Hlis ltac:(discriminate) Hfuel two_jobs_ok two_jobs_apart two_jobs_start) as Hall.
  pose proof (runs_start sevens (fun _ => 99) two_jobs Sockets.boot ∅ ∅ 2000 s0 g o E1 E2) as Hr.
  assert (available whole_offers (System.boot sevens (fun _ => 99) 16 ∅ two_jobs)) as Hav
    by (intros i pe Ei; unfold whole_offers; by rewrite Ei, bytes_in_events).
  destruct (Hall _ _ _ _ Hr) as (_ & _ & Hpoll).
  destruct (Hpoll whole_offers [0; 0; POLLIN; POLLIN] Hav) as (b & g1 & o1 & E).
  pose proof (runs_poll sevens (fun _ => 99) two_jobs Sockets.boot ∅ ∅ 2000 b whole_offers [0; 0; POLLIN; POLLIN]
    _ g g1 o o1 Hr Hav E) as Hr1.
  destruct (Hall _ _ _ _ Hr1) as (Hrun & _ & Hpoll1).
  eexists b, _, g1, o1. split; [exact Hr1|]. split; [exact Hrun|]. intros ->.
  destruct (Hpoll1 hung_up [0; 0; 0; 17]) as (b2 & g2 & o2 & E3).
  { intros [|[|i]] pe _; apply prefix_nil. }
  exists b2, g2, o2. split; [exact E3|].
  apply (runs_poll sevens (fun _ => 99) two_jobs Sockets.boot ∅ ∅ 2000 b2 hung_up [0; 0; 0; 17] _ g1 g2
    o1 o2 Hr1); [|exact E3].
  intros [|[|i]] pe _; apply prefix_nil.
Defined.
End Witnesses.
