(* ===== verification/Shared.v ===== *)
(** * Several handlers of the same file at the same time

    [Workers] is about handlers of different files. Here any number of them work on the same
    upload: a client that is started again while a request of its last run is still in the
    hands of a worker, or one that uploads over several connections. Each handler is a
    sequence of system calls ([Calls]); what it knows of the disk between two of its calls
    is what all keep true ([held]) and which chunks have been in the file at some moment,
    which never goes away, although the mark of a chunk can ([FileMeta.markChunk_race]). *)
From S2P Require Import Prelude StdFs Msg FileMeta Identity File Upload.
From S2P Require Import MsgFctry Conn Server Client Calls Transfer Clients Workers Crash.
Import FsFacts DirFacts.

Implicit Types (σ : fs) (K : gset Z) (i q : Z) (j : job).

(** ** Programs among others

    [holds K σ]: the invariant, when the chunks [K] are known to be in the file. [steady n K
    Q p]: whatever the others do between its calls, as long as they keep the invariant and
    take nothing from [K], [p] ends after at most [n] calls with a value (no exception, no
    undefined behaviour) for which [Q], keeping the invariant and changing nothing that
    [near] forbids. *)
Section Steady.
Context (holds : gset Z -> fs -> Prop) (near : fs -> fs -> Prop).

Fixpoint steady {A : Type} (n : nat) K (Q : gset Z -> A -> Prop) (p : prog A) {struct p} : Prop :=
  match p with
  | Done r => exists a, r = Ok a /\ forall K', K ⊆ K' -> Q K' a
  | Call x f =>
      match n with
      | O => False
      | S n' =>
          forall K0 σ, K ⊆ K0 -> holds K0 σ ->
            exists a σ' K', sem x σ = (Ok a, σ') /\ K0 ⊆ K' /\ holds K' σ' /\ near σ σ' /\
              steady n' K' Q (f a)
      end
  end.

Lemma steady_weaken {A : Type} (n m : nat) K K1 (Q Q' : gset Z -> A -> Prop) (p : prog A) :
  steady n K Q p -> (n <= m)%nat -> K ⊆ K1 ->
  (forall K' a, K1 ⊆ K' -> Q K' a -> Q' K' a) -> steady m K1 Q' p.
Proof.
  revert n m K K1. induction p as [r|X x f IH]; intros n m K K1 Hp Hn HK HQ.
  - destruct Hp as (a & -> & Ha). exists a. split; [done|]. intros K' H'.
    apply HQ, Ha; [done|by etrans].
  - destruct n as [|n]; [done|]. destruct m as [|m]; [lia|]. cbn [steady] in *.
    intros K0 σ H0 Hσ.
    destruct (Hp K0 σ) as (a & σ' & K' & E & HK' & Hσ' & Hnear & Ha); [by etrans|done|].
    exists a, σ', K'. split_and!; [done..|]. apply (IH a n m K' K'); [done|lia|done|].
    intros K2 b H2. apply HQ. etrans; [exact H0|by etrans].
Qed.

Lemma steady_ret {A : Type} (n : nat) K (Q : gset Z -> A -> Prop) (a : A) :
  (forall K', K ⊆ K' -> Q K' a) -> steady n K Q (mret a).
Proof. intros Ha. by exists a. Qed.

Lemma steady_bind {A B : Type} (n m : nat) K (Q : gset Z -> B -> Prop) (p : prog A) (f : A -> prog B) :
  steady n K (fun K' a => steady m K' Q (f a)) p -> steady (n + m) K Q (p ≫= f).
Proof.
  revert n K. induction p as [r|X x k IH]; intros n K Hp.
  - destruct Hp as (a & -> & Ha). apply (steady_weaken m (n + m) K K Q Q); [by apply Ha|lia|done|done].
  - destruct n as [|n]; [done|]. intros K0 σ H0 Hσ. cbn [steady] in Hp.
    destruct (Hp K0 σ H0 Hσ) as (a & σ' & K' & E & HK' & Hσ' & Hnear & Ha).
    exists a, σ', K'. split_and!; [done..|]. by apply IH.
Qed.

(** A call, and one that changes nothing. *)
Lemma steady_do {X : Set} {B : Type} (n : nat) K (Q : gset Z -> B -> Prop) (x : call X)
    (f : X -> prog B) :
  (forall K0 σ, K ⊆ K0 -> holds K0 σ ->
    exists a σ' K', sem x σ = (Ok a, σ') /\ K0 ⊆ K' /\ holds K' σ' /\ near σ σ' /\
      steady n K' Q (f a)) ->
  steady (S n) K Q (do x ≫= f).
Proof. exact (fun H => H). Qed.

Lemma steady_look {X : Set} {B : Type} `{!Reflexive near} (n : nat) K (Q : gset Z -> B -> Prop)
    (x : call X) (f : X -> prog B) :
  (forall K0 σ, K ⊆ K0 -> holds K0 σ -> exists a, sem x σ = (Ok a, σ) /\ steady n K0 Q (f a)) ->
  steady (S n) K Q (do x ≫= f).
Proof.
  intros Hx. apply steady_do. intros K0 σ H0 Hσ. destruct (Hx K0 σ H0 Hσ) as (a & E & Ha).
  by exists a, σ, K0.
Qed.
End Steady.

(** ** What everybody keeps of an upload

    The file is of [c]; the chunks [M0] were marked at the start. *)
Section Upload.
Context `{Blake2bLaws} (path e d n : bytes) (Hplaced : placed e d n).
Context (c : bytes) (Hc : zlen c < 2 ^ 32) (M0 : gset Z).

Abbreviation last := (n_chunks (zlen c)).
Abbreviation head := (header (zlen c) CHUNK_SIZE (calc_hash_vec c)).
Abbreviation file_key := (data_key d n).
Abbreviation mark_key := (data_key d (meta_name n)).

Lemma length_head : length head = 80%nat.
Proof.
  pose proof (blake_digest_size (blake_Update blake_init c)) as Hh.
  fold (calc_hash_vec c) in Hh. pose proof (length_header (zlen c) CHUNK_SIZE _ Hh). lia.
Qed.

(** Every chunk of the file is in [K]. *)
Definition whole K : Prop := forall i, 0 <= i < last -> i ∈ K.

Record held K σ : Prop := mk_held {
  he_dirs : dirs_exist σ (Path.resolve d);
  he_data : exists dat, σ !! file_key = Some (Reg dat) /\ length dat = length c /\
    forall j : nat, Z.of_nat j / CHUNK_SIZE ∈ K -> dat !! j = c !! j;
  he_meta : exists bm, σ !! mark_key = Some (Reg (head ++ bm)) /\
    zlen bm = bitmap_len (zlen c) /\ bytes_ok bm /\
    forall i, 0 <= i < last ->
      (i ∈ M0 -> chunk_bit bm i = true) /\ (chunk_bit bm i = true -> i ∈ K) }.

Lemma represents_held σ u :
  represents σ d n u -> partial_of c u -> M0 ⊆ up_marked u -> held (up_marked u) σ.
Proof.
  intros [Hu Hd Hdata (bm & Hm & [Hl Hb Hbits])] [Hs Hh Hp] HM. pose proof (uo_data _ Hu) as Hdl.
  constructor; [done| |].
  - exists (up_data u). split_and!; [done|lia|exact Hp].
  - exists bm. rewrite <- Hs, <- Hh. split_and!; [done..|]. unfold up_chunks in Hbits.
    intros i Hi. rewrite (Hbits i Hi), bool_decide_eq_true. split; [apply HM|done].
Qed.

Lemma held_represents K σ :
  (forall i, i ∈ M0 -> 0 <= i < last) -> held K σ ->
  exists u, represents σ d n u /\ partial_of c u /\ M0 ⊆ up_marked u /\
    forall j : nat, Z.of_nat j / CHUNK_SIZE ∈ K -> up_data u !! j = c !! j.
Proof.
  intros HM [Hd (dat & Hdat & Hl & HK) (bm & Hm & Hbl & Hb & Hbits)].
  set (marked := list_to_set (filter (fun i => chunk_bit bm i = true) (seqZ 0 last)) : gset Z).
  assert (forall i, i ∈ marked <-> 0 <= i < last /\ chunk_bit bm i = true) as Hin.
  { intros i. unfold marked. rewrite elem_of_list_to_set, list_elem_of_filter, elem_of_seqZ.
    intuition lia. }
  exists (mk_upload (zlen c) (calc_hash_vec c) dat marked). split_and!.
  - constructor; [|done|done|].
    + constructor; cbn; [lia|apply blake_digest_size|lia|]. intros i Hi. by apply Hin.
    + exists bm. split; [done|]. constructor; [done..|]. intros i Hi. cbn.
      destruct (chunk_bit bm i) eqn:Eb; symmetry;
        [apply bool_decide_eq_true|apply bool_decide_eq_false]; rewrite Hin;
        [done|intros [_ ?]; congruence].
  - constructor; [done|done|]. cbn. intros j Hj. apply HK. apply Hin in Hj as [Hi Eb].
    by apply (proj2 (Hbits _ Hi)).
  - intros i Hi. cbn. apply Hin. pose proof (HM i Hi). split; [done|]. by apply (Hbits i).
  - exact HK.
Qed.

(** When every chunk is known, the file is. *)
Lemma held_whole K σ : held K σ -> whole K -> σ !! file_key = Some (Reg c).
Proof.
  intros [_ (dat & Hdat & Hl & HK) _] Hw. rewrite Hdat. do 2 f_equal. apply list_eq. intros j.
  destruct (decide (j < length c)%nat).
  - apply HK, Hw. pose proof (n_chunks_bounds (zlen c) ltac:(lia)). rewrite CHUNK_SIZE_eq in *. zdiv.
  - rewrite !lookup_ge_None_2 by lia. done.
Qed.

(** *** The calls *)
Lemma held_open_mark K σ :
  held K σ -> Stream.open_existing (metadata_path e) σ = (Ok (Stream.opened mark_key), σ).
Proof.
  intros [_ _ (bm & Hm & _)].
  by apply (open_existing_reg σ _ _ _ (placed_meta_key _ _ _ Hplaced) (child_ne _ _) Hm).
Qed.

Lemma held_open_file K σ :
  held K σ -> Stream.open_existing e σ = (Ok (Stream.opened file_key), σ).
Proof.
  intros [_ (dat & Hd & _) _].
  by apply (open_existing_reg σ _ _ _ (placed_key _ _ _ Hplaced) (child_ne _ _) Hd).
Qed.

Lemma held_exists_mark K σ : held K σ -> Fs.exists_ (metadata_path e) σ = (Ok true, σ).
Proof.
  intros [_ _ (bm & Hm & _)]. rewrite (exists_stat σ _ _ (placed_meta_key _ _ _ Hplaced) (child_ne _ _)).
  change (Path.resolve d ++ [meta_name n]) with mark_key. by rewrite Hm.
Qed.

Lemma held_exists_file K σ : held K σ -> Fs.exists_ e σ = (Ok true, σ).
Proof.
  intros [_ (dat & Hd & _) _]. rewrite (exists_stat σ _ _ (placed_key _ _ _ Hplaced) (child_ne _ _)).
  change (Path.resolve d ++ [n]) with file_key. by rewrite Hd.
Qed.

Lemma held_mark_length K σ :
  held K σ -> file_length (metadata_path e) σ = (Ok (80 + Z.to_nat (bitmap_len (zlen c)))%nat, σ).
Proof.
  intros [_ _ (bm & Hm & Hl & _)]. unfold file_length, gets.
  rewrite (placed_meta_key _ _ _ Hplaced).
  change (Path.resolve d ++ [meta_name n]) with mark_key.
  rewrite (content_reg _ _ _ Hm), length_app, length_head. do 2 f_equal. lia.
Qed.

(** One byte of the marks: those of the start are set, and a mark that is set is known. *)
Definition byte_knows K q (b : Z) : Prop :=
  is_byte b /\ forall s, 0 <= s < 8 -> 8 * q + s < last ->
    (8 * q + s ∈ M0 -> Z.testbit b (7 - s) = true) /\
    (Z.testbit b (7 - s) = true -> 8 * q + s ∈ K).

Lemma held_read_mark K σ q :
  held K σ -> 0 <= q < bitmap_len (zlen c) ->
  exists b, Stream.read (mk_stream (Some mark_key) (80 + q) false false) 1 σ =
      (Ok ([b], mk_stream (Some mark_key) (80 + q + 1) false false), σ) /\ byte_knows K q b.
Proof.
  intros [_ _ (bm & Hm & Hl & Hb & Hbits)] Hq. pose proof length_head as Hh.
  destruct (lookup_lt_is_Some_2 bm (Z.to_nat q)) as [b Eb]; [lia|]. exists b. split.
  - rewrite (read_inside σ _ _ (80 + q) 1 Hm) by (rewrite ?length_app; lia).
    rewrite drop_app_ge by lia. replace (Z.to_nat (80 + q) - length head)%nat with (Z.to_nat q) by lia.
    by rewrite (drop_S _ _ _ Eb).
  - split; [by eapply Forall_lookup_1|]. intros s Hs Hlt.
    destruct (Hbits (8 * q + s) ltac:(lia)) as [H1 H2].
    rewrite chunk_bit_byte in H1, H2 by lia. by rewrite (list_lookup_total_correct _ _ _ Eb) in H1, H2.
Qed.

Lemma held_read_mark_end K σ q :
  held K σ -> bitmap_len (zlen c) <= q ->
  Stream.read (mk_stream (Some mark_key) (80 + q) false false) 1 σ =
    (Ok ([], mk_stream (Some mark_key) (80 + q) true true), σ).
Proof.
  intros [_ _ (bm & Hm & Hl & _)] Hq. pose proof length_head as Hh.
  apply (read_outside σ _ _ _ _ Hm); [lia|]. rewrite length_app. lia.
Qed.

(** A chunk is written: it is known from then on. *)
Lemma held_write_file K σ i :
  held K σ -> 0 <= i < last ->
  exists st σ', Stream.write (mk_stream (Some file_key) (i * CHUNK_SIZE) false false) (chunk_of c i) σ =
    (Ok st, σ') /\ held ({[i]} ∪ K) σ' /\ same_elsewhere d n σ σ'.
Proof.
  intros [Hd (dat & Hdat & Hl & HK) (bm & Hm & Hbl & Hb & Hbits)] Hi.
  pose proof (chunk_inside c i Hi) as Hin.
  pose proof (length_chunk_of c i ltac:(lia) ltac:(lia)) as Hlc.
  rewrite (write_good σ _ _ (i * CHUNK_SIZE) (chunk_of c i) Hdat).
  eexists _, _. split; [done|]. split; [|apply same_elsewhere_insert_data].
  constructor; [by apply dirs_exist_insert| |].
  - eexists. rewrite lookup_insert_eq. split; [done|]. split.
    + rewrite length_overwrite; [done|rewrite CHUNK_SIZE_eq in *; lia..].
    + intros j Hj. rewrite lookup_written by lia. case_decide; [done|]. apply HK. set_solver.
  - exists bm. rewrite lookup_insert_ne by apply (placed_keys_ne d n). split_and!; [done..|].
    intros j Hj. destruct (Hbits j Hj). set_solver.
Qed.

(** A chunk that is known is marked, in a byte that was read before: marks that others have
    made since are lost, those of the start are not. *)
Lemma held_write_mark K σ i (b : Z) :
  held K σ -> 0 <= i < last -> i ∈ K -> byte_knows K (i / 8) b ->
  exists st σ', Stream.write (mk_stream (Some mark_key) (80 + i / 8) false false) [set_bit b i true] σ =
    (Ok st, σ') /\ held K σ' /\ same_elsewhere d n σ σ'.
Proof.
  intros [Hd (dat & Hdat & Hl & HK) (bm & Hm & Hbl & Hb & Hbits)] Hi HiK [Hbyte Hknows].
  pose proof length_head as Hh. pose proof (bitmap_len_bounds (zlen c) ltac:(lia)) as Hbb.
  rewrite (write_good σ _ _ _ _ Hm). eexists _, _. split; [done|].
  split; [|apply same_elsewhere_insert_meta].
  unfold Stream.overwrite. rewrite splice_insert by (rewrite length_app; zdiv).
  rewrite insert_app_r_alt by zdiv.
  replace (Z.to_nat (80 + i / 8) - length head)%nat with (Z.to_nat (i / 8)) by zdiv.
  constructor; [by apply dirs_exist_insert| |].
  - exists dat. rewrite lookup_insert_ne by apply (not_eq_sym (placed_keys_ne d n)). by split_and!.
  - eexists. rewrite lookup_insert_eq. split; [done|]. split; [by rewrite length_insert|].
    split; [apply Forall_insert; [done|apply set_bit_byte]|].
    intros j Hj. unfold chunk_bit. destruct (decide (j / 8 = i / 8)) as [Eq|Hne].
    + rewrite Eq, list_lookup_total_insert_eq, set_bit_testbit by zdiv.
      destruct (Hknows (j mod 8) ltac:(zdiv) ltac:(zdiv)) as [H1 H2].
      replace (8 * (i / 8) + j mod 8) with j in * by zdiv.
      case_decide; [|done]. split; [done|]. intros _. by replace j with i by zdiv.
    + rewrite list_lookup_total_insert_ne by zdiv. exact (Hbits j Hj).
Qed.
(** ** The functions of the handler, among others *)
Abbreviation keeps := (steady held (same_elsewhere d n)).
Abbreviation knows := byte_knows.
Abbreviation fm := (meta_of e (zlen c) (calc_hash_vec c)).
Abbreviation marks_len := (bitmap_len (zlen c)).

(** The marks up to byte [q] have been seen set. *)
Definition scanned K q : Prop := forall i, 0 <= i < 8 * q -> i < last -> i ∈ K.

Lemma knows_more K K' q (b : Z) : K ⊆ K' -> knows K q b -> knows K' q b.
Proof. intros HK [Hb Hk]. split; [done|]. intros s Hs Hl. destruct (Hk s Hs Hl). set_solver. Qed.

Lemma knows_full K q : 0 <= q -> scanned K q -> knows K q 0xFF -> scanned K (q + 1).
Proof.
  intros Hq Hs [_ Hk] i Hi Hl. destruct (decide (i < 8 * q)); [apply Hs; lia|].
  replace i with (8 * q + (i - 8 * q)) by lia. apply Hk; [lia..|]. apply full_byte_bits. lia.
Qed.

Lemma scanned_whole K : scanned K marks_len -> whole K.
Proof.
  intros Hs i Hi. pose proof (bitmap_len_bounds (zlen c) ltac:(lia)). apply Hs; lia.
Qed.

(** What the scan of the bitmap finds: a byte with a mark missing, or the end. *)
Definition found K (r : Z * stream) : Prop :=
  (r.1 = 0xFF /\ whole K) \/
  (r.1 <> 0xFF /\ exists q, r.2 = mk_stream (Some mark_key) (80 + q + 1) false false /\
     0 <= q < marks_len /\ scanned K q /\ knows K q r.1).

Lemma found_more K K' r : K ⊆ K' -> found K r -> found K' r.
Proof.
  intros HK [[E Hw]|(E & q & Es & Hq & Hs & Hk)].
  - left. split; [done|]. intros i Hi. by apply HK, Hw.
  - right. split; [done|]. exists q. split; [done|]. split; [done|].
    split; [|by apply (knows_more K)]. intros i Hi Hl. by apply HK, Hs.
Qed.

Lemma steady_skip_full (fuel : nat) K q :
  0 <= q <= marks_len -> scanned K q -> (Z.to_nat (marks_len - q) < fuel)%nat ->
  keeps fuel K found (skip_full_calls fuel (mk_stream (Some mark_key) (80 + q) false false) 0xFF).
Proof.
  revert K q. induction fuel as [|fuel IH]; intros K q Hq Hs Hf; [lia|].
  cbn [skip_full_calls st_fail negb andb Z.eqb Pos.eqb]. apply steady_look; [apply _|].
  intros K0 σ HK0 Hσ. cbn [sem].
  assert (scanned K0 q) as Hs0 by (intros i Hi Hl; by apply HK0, Hs).
  destruct (decide (q = marks_len)) as [-> |].
  - rewrite (held_read_mark_end K0 σ marks_len Hσ) by lia. eexists. split; [done|].
    assert (skip_full_calls fuel (mk_stream (Some mark_key) (80 + marks_len) true true) 255 =
      mret (255, mk_stream (Some mark_key) (80 + marks_len) true true)) as E by (by destruct fuel).
    cbn beta iota. change (the_byte _) with 255. rewrite E. apply steady_ret. intros K' HK'. left. split; [done|].
    apply scanned_whole. intros i Hi Hl. by apply HK', Hs0.
  - destruct (held_read_mark K0 σ q Hσ ltac:(lia)) as (b & -> & Hk).
    eexists. split; [done|]. cbn beta iota. change (the_byte _) with b.
    destruct (decide (b = 0xFF)) as [-> |Hb].
    + replace (80 + q + 1) with (80 + (q + 1)) by lia. apply IH; [lia| |lia].
      apply knows_full; [lia|done|done].
    + assert (forall ms, skip_full_calls fuel ms b = mret (b, ms)) as E.
      { intros ms. destruct fuel; cbn [skip_full_calls];
          by rewrite (proj2 (Z.eqb_neq b 0xFF) Hb), andb_false_r. }
      rewrite E. apply steady_ret. intros K' HK'. right. split; [done|]. exists q.
      split; [done|]. split; [lia|]. split; [|by apply (knows_more K0)].
      intros i Hi Hl. by apply HK', Hs0.
Qed.

(** The chunk that is asked for is one of the file, unless all have been there. *)
Definition asked K (r : Z) : Prop := 0 <= r < last \/ (r = UINT64_MAX /\ whole K).

Lemma asked_more K K' r : K ⊆ K' -> asked K r -> asked K' r.
Proof. intros HK [Hr|[E Hw]]; [by left|right]. split; [done|]. intros i Hi. by apply HK, Hw. Qed.

Lemma found_asked K (b : Z) (ms : stream) :
  found K (b, ms) ->
  asked K (if negb (b =? 0xFF) then
     let ret := u64 (u64 (u64 (swrap 32 (Stream.tellg ms)) - 80 - 1) * 8) in
     let ret := count_set 8 b ret in
     if ret <? last then ret else UINT64_MAX
   else UINT64_MAX).
Proof.
  intros [[E Hw]|(E & q & Es & Hq & Hs & Hb & Hk)]; cbn [fst snd] in *.
  - subst b. by right.
  - rewrite (proj2 (Z.eqb_neq b 0xFF) E). cbn [negb]. rewrite Es. unfold Stream.tellg.
    cbn [st_fail st_pos]. pose proof (bitmap_len_bounds (zlen c) ltac:(lia)).
    pose proof (n_chunks_bounds (zlen c) ltac:(lia)) as Hn. rewrite CHUNK_SIZE_eq in Hn.
    destruct (next_of_byte (80 + q + 1) 80 q b Hb E) as (m & Hm & -> & _ & Hones); [lia..|].
    cbv zeta. destruct (Z.ltb_spec (8 * q + m) last); [left; lia|right]. split; [done|].
    intros i Hi. destruct (decide (i < 8 * q)); [apply Hs; lia|].
    replace i with (8 * q + (i - 8 * q)) by lia. apply Hk; [lia..|]. apply Hones. lia.
Qed.

Lemma steady_nextMissingChunk K :
  keeps (Z.to_nat marks_len + 84) K asked (nextMissingChunk_calls fm 0).
Proof.
  unfold nextMissingChunk_calls. cbn [meta_of fm_metadata_file fm_header_size fm_file_n_chunks].
  replace (Z.to_nat marks_len + 84)%nat with (S (S ((80 + Z.to_nat marks_len + 2) + 0))) by lia.
  apply steady_look; [apply _|]. intros K1 σ1 H1 Hσ1. cbn [sem].
  rewrite (held_open_mark K1 σ1 Hσ1). eexists. split; [done|].
  apply steady_look; [apply _|]. intros K2 σ2 H2 Hσ2. cbn [sem].
  rewrite (held_mark_length K2 σ2 Hσ2). eexists. split; [done|].
  change (u64 (80 + 0 / 8)) with (80 + 0). rewrite seekg_opened by lia.
  apply steady_bind.
  pose proof (bitmap_len_bounds (zlen c) ltac:(lia)) as Hb.
  pose proof (n_chunks_bounds (zlen c) ltac:(lia)) as Hn. rewrite CHUNK_SIZE_eq in Hn.
  eapply steady_weaken; [apply steady_skip_full; [lia| |lia]|lia|done|].
  { intros i Hi. lia. }
  intros K3 [b ms] _ Hf. cbn beta iota.
  pose proof (found_asked K3 b ms Hf) as Ha.
  destruct (negb (b =? 0xFF)); apply steady_ret; intros K4 H4; by apply (asked_more K3).
Qed.
(** *** Hashing: it happens when every chunk has been there *)
Lemma steady_hash_blocks (fuel : nat) K (pos : Z) s :
  whole K -> 0 <= pos <= zlen c -> (length c - Z.to_nat pos < fuel)%nat ->
  keeps fuel K (fun _ s' => s' = blake_Update s (drop (Z.to_nat pos) c))
    (hash_blocks_calls fuel (mk_stream (Some file_key) pos false false) s).
Proof.
  intros Hw. pose proof blake_BlockSize_pos as Hb. revert K Hw pos s.
  induction fuel as [|fuel IH]; intros K Hw pos s Hp Hf; [lia|]. cbn [hash_blocks_calls].
  apply steady_look; [apply _|]. intros K0 σ HK0 Hσ. cbn [sem].
  assert (whole K0) as Hw0 by (intros i Hi; by apply HK0, Hw).
  pose proof (held_whole K0 σ Hσ Hw0) as Hr.
  destruct (decide (pos + blake_BlockSize <= zlen c)) as [Hin|Hout].
  - rewrite (read_inside σ _ c pos blake_BlockSize Hr) by lia. eexists. split; [done|].
    cbn beta iota. cbn [st_fail].
    eapply steady_weaken; [apply (IH K0); [done|lia|lia]|done|done|]. intros K' s' _ ->.
    rewrite blake_Update_app. f_equal.
    rewrite <- (take_drop (Z.to_nat blake_BlockSize) (drop (Z.to_nat pos) c)) at 2.
    rewrite drop_drop. do 2 f_equal. lia.
  - destruct (read_tail σ _ c pos blake_BlockSize Hr) as [p' ->]; [lia..|].
    eexists. split; [done|]. by apply steady_ret.
Qed.

Abbreviation hash_calls := (length c + 4)%nat.
Abbreviation scan_calls := (Z.to_nat marks_len + 84)%nat.

Lemma steady_calc_hash K :
  whole K -> keeps hash_calls K (fun _ h => h = calc_hash_vec c) (calc_hash_calls e).
Proof.
  intros Hw. unfold calc_hash_calls.
  replace hash_calls with (S (S ((length c + 2) + 0))) by lia.
  apply steady_look; [apply _|]. intros K1 σ1 H1 Hσ1. cbn [sem].
  rewrite (held_open_file K1 σ1 Hσ1). eexists. split; [done|].
  apply steady_look; [apply _|]. intros K2 σ2 H2 Hσ2. cbn [sem].
  assert (whole K2) as Hw2 by (intros i Hi; by apply H2, H1, Hw).
  pose proof (held_whole K2 σ2 Hσ2 Hw2) as Hr.
  exists (length c). split.
  { unfold file_length, gets. rewrite (placed_key _ _ _ Hplaced). by rewrite (content_reg _ _ _ Hr). }
  rewrite seekg_opened by lia. apply steady_bind.
  eapply steady_weaken; [apply (steady_hash_blocks _ K2 0 _ Hw2); lia|lia|done|].
  intros K' s' _ ->. by apply steady_ret.
Qed.

(** The server's object for the file. *)
Abbreviation remote := (mk_file path (calc_hash_vec c) (zlen c) e (FileRemote fm)).

Lemma steady_isComplete K :
  keeps (S (scan_calls + hash_calls)) K (fun K' b => b = true -> whole K') (isComplete_calls remote).
Proof.
  unfold isComplete_calls. cbn [f_kind f_effective_path f_hash].
  replace (S (scan_calls + hash_calls)) with (S (scan_calls + (hash_calls + 0))) by lia.
  apply steady_look; [apply _|]. intros K1 σ1 H1 Hσ1. cbn [sem].
  rewrite (held_exists_file K1 σ1 Hσ1). eexists. split; [done|]. cbn iota.
  apply steady_bind. eapply steady_weaken; [apply steady_nextMissingChunk|done|done|].
  intros K2 r _ Hr. destruct (Z.eqb_spec r UINT64_MAX) as [-> |]; [|by apply steady_ret].
  assert (whole K2) as Hw.
  { destruct Hr as [Hr|[_ Hw]]; [|done]. pose proof (n_chunks_bounds (zlen c) ltac:(lia)) as Hn.
    rewrite CHUNK_SIZE_eq in Hn. unfold UINT64_MAX in Hr. lia. }
  apply steady_bind. eapply steady_weaken; [by apply steady_calc_hash|done|done|].
  intros K3 h H3 ->. rewrite (proj2 (Z.ltb_ge _ _)) by lia.
  apply steady_ret. intros K4 H4 _ i Hi. by apply H4, H3, Hw.
Qed.

Lemma steady_getNextMissingChunk K : keeps scan_calls K asked (getNextMissingChunk_calls remote 0).
Proof. apply steady_nextMissingChunk. Qed.

(** *** Storing a chunk *)
Lemma steady_markChunk K i :
  0 <= i < last -> i ∈ K -> keeps 3 K (fun _ _ => True) (markChunk_calls fm i true).
Proof.
  intros Hi HiK. unfold markChunk_calls. cbn [meta_of fm_metadata_file fm_header_size].
  pose proof (bitmap_len_bounds (zlen c) ltac:(lia)) as Hb.
  pose proof (n_chunks_bounds (zlen c) ltac:(lia)) as Hn. rewrite CHUNK_SIZE_eq in Hn.
  rewrite wrap_small by zdiv.
  apply steady_look; [apply _|]. intros K1 σ1 H1 Hσ1. cbn [sem].
  rewrite (held_open_mark K1 σ1 Hσ1). eexists. split; [done|]. rewrite seekg_opened by zdiv.
  apply steady_look; [apply _|]. intros K2 σ2 H2 Hσ2. cbn [sem].
  destruct (held_read_mark K2 σ2 (i / 8) Hσ2 ltac:(zdiv)) as (b & -> & Hk).
  eexists. split; [done|]. cbn beta iota. change (the_byte _) with b. rewrite seekp_good by zdiv.
  apply steady_do. intros K3 σ3 H3 Hσ3. cbn [sem].
  destruct (held_write_mark K3 σ3 i b Hσ3 Hi) as (st & σ4 & -> & Hσ4 & Hnear);
    [by apply H3, H2, H1|by apply (knows_more K2)|].
  exists st, σ4, K3. split_and!; [done..|]. by apply steady_ret.
Qed.

Lemma steady_saveChunk K ch :
  0 <= fc_idx ch < last -> fc_data ch = chunk_of c (fc_idx ch) ->
  keeps 5 K (fun K' _ => fc_idx ch ∈ K') (saveChunk_calls remote ch).
Proof.
  intros Hi Ed. set (i := fc_idx ch) in *. pose proof (chunk_inside c i Hi) as Hin.
  pose proof (length_chunk_of c i ltac:(lia) ltac:(lia)) as Hl.
  pose proof (n_chunks_bounds (zlen c) ltac:(lia)) as Hn.
  unfold saveChunk_calls. cbn [f_kind f_size f_effective_path]. fold i.
  rewrite wrap_small by (rewrite CHUNK_SIZE_eq in *; lia).
  rewrite (proj2 (Z.ltb_ge _ _)) by lia.
  rewrite chunk_len_min by (rewrite CHUNK_SIZE_eq in *; lia).
  rewrite Ed, (proj2 (Z.eqb_eq _ _)) by lia. cbn [negb].
  apply steady_look; [apply _|]. intros K1 σ1 H1 Hσ1. cbn [sem].
  rewrite (held_open_file K1 σ1 Hσ1). eexists. split; [done|].
  unfold Stream.opened. rewrite seekp_good by (rewrite CHUNK_SIZE_eq in *; lia).
  apply steady_do. intros K2 σ2 H2 Hσ2. cbn [sem].
  destruct (held_write_file K2 σ2 i Hσ2 Hi) as (st & σ3 & -> & Hσ3 & Hnear).
  exists st, σ3, ({[i]} ∪ K2). split_and!; [done|set_solver|done|done|].
  eapply steady_weaken; [apply (steady_markChunk ({[i]} ∪ K2) i Hi); set_solver|done|done|].
  set_solver.
Qed.
(** *** Finding the upload again *)
Lemma steady_make_dirs K (k rest : list bytes) (Q : gset Z -> unit -> Prop) :
  (forall k' : list bytes, made k rest k' -> made [] (Path.resolve d) k') -> (forall K', K ⊆ K' -> Q K' tt) ->
  keeps (length rest) K Q (make_dirs_calls k rest).
Proof.
  revert K k. induction rest as [|x rest IH]; intros K k Hd HQ; cbn [make_dirs_calls length].
  { by apply steady_ret. }
  apply steady_look; [apply _|]. intros K0 σ HK0 Hσ. cbn [sem]. exists tt. split.
  - unfold mkdir. by rewrite (he_dirs _ _ Hσ) by (apply Hd, made_cons; by left).
  - apply IH; [intros q Hq; apply Hd, made_cons; by right|]. intros K' HK'. apply HQ. by etrans.
Qed.

Abbreviation depth := (length (Path.resolve d)).

Lemma steady_create_directories K (Q : gset Z -> unit -> Prop) :
  (forall K', K ⊆ K' -> Q K' tt) -> keeps depth K Q (create_directories_calls d).
Proof.
  intros HQ. unfold create_directories_calls. pose proof (placed_dir_ne _ _ _ Hplaced) as Hne.
  destruct d as [|x l] eqn:E; [done|]. rewrite <- E. apply steady_make_dirs; [|done].
  by rewrite E.
Qed.

Lemma steady_new_FileRemote K :
  keeps (2 * depth + 2) K (fun _ f => f = remote)
    (new_FileRemote_calls path (calc_hash_vec c) (zlen c) e).
Proof.
  unfold new_FileRemote_calls. rewrite new_FileMetadata_meta_of, (placed_parent _ _ _ Hplaced).
  replace (2 * depth + 2)%nat with (depth + ((depth + 1) + 1))%nat by lia.
  change (Done (Ok fm) ≫= ?f) with (f fm). cbv beta.
  apply steady_bind, steady_create_directories. intros K1 H1.
  apply steady_bind. unfold createIfNotExist_calls.
  cbn [meta_of fm_effective_path fm_metadata_file]. rewrite (placed_parent _ _ _ Hplaced).
  apply steady_bind, steady_create_directories. intros K2 H2.
  apply steady_look; [apply _|]. intros K3 σ3 H3 Hσ3. cbn [sem].
  rewrite (held_exists_mark K3 σ3 Hσ3). eexists. split; [done|]. cbn iota.
  apply steady_ret. intros K4 H4.
  apply steady_look; [apply _|]. intros K5 σ5 H5 Hσ5. cbn [sem].
  rewrite (held_exists_file K5 σ5 Hσ5). eexists. split; [done|]. cbn iota.
  by apply steady_ret.
Qed.

Lemma held_read_head K σ (pos len : Z) :
  held K σ -> 0 <= pos -> 0 <= len -> pos + len <= 80 ->
  Stream.read (mk_stream (Some mark_key) pos false false) len σ =
    (Ok (take (Z.to_nat len) (drop (Z.to_nat pos) head),
         mk_stream (Some mark_key) (pos + len) false false), σ).
Proof.
  intros [_ _ (bm & Hm & Hl & _)] Hp Hlen Hle. pose proof length_head as Hh.
  rewrite (read_inside σ _ _ pos len Hm) by (rewrite ?length_app; lia).
  rewrite drop_app_le, take_app_le by (rewrite ?length_drop; lia). done.
Qed.

Lemma steady_readHeader K (h0 : bytes) :
  keeps 5 K (fun _ r => r = (zlen c, CHUNK_SIZE, calc_hash_vec c)) (readHeader_calls e h0).
Proof.
  unfold readHeader_calls.
  apply steady_look; [apply _|]. intros K1 σ1 H1 Hσ1. cbn [sem].
  rewrite (held_exists_mark K1 σ1 Hσ1). eexists. split; [done|]. cbn iota.
  apply steady_look; [apply _|]. intros K2 σ2 H2 Hσ2. cbn [sem].
  rewrite (held_open_mark K2 σ2 Hσ2). eexists. split; [done|]. unfold Stream.opened.
  unfold SIZEOF_SIZE_T, HASH_SIZE.
  apply steady_look; [apply _|]. intros K3 σ3 H3 Hσ3. cbn [sem].
  rewrite (held_read_head K3 σ3 0 8 Hσ3) by lia. eexists. split; [done|]. cbn beta iota.
  apply steady_look; [apply _|]. intros K4 σ4 H4 Hσ4. cbn [sem].
  rewrite (held_read_head K4 σ4 (0 + 8) 8 Hσ4) by lia. eexists. split; [done|]. cbn beta iota.
  apply steady_look; [apply _|]. intros K5 σ5 H5 Hσ5. cbn [sem].
  rewrite (held_read_head K5 σ5 (0 + 8 + 8) 64 Hσ5) by lia. eexists. split; [done|]. cbn beta iota.
  apply steady_ret. intros K' _. destruct Hσ5 as [Hd5 Hf5 (bm & Hm & Hb5)].
  pose proof (blake_digest_size (blake_Update blake_init c)) as Hsz.
  pose proof (readHeader_run σ5 e d n (zlen c) CHUNK_SIZE (calc_hash_vec c) bm h0 Hplaced
    ltac:(lia) ltac:(rewrite CHUNK_SIZE_eq; lia) Hsz Hm) as E.
  pose proof (mk_held K5 σ5 Hd5 Hf5 (ex_intro _ bm (conj Hm Hb5))) as Hσ5.
  unfold readHeader in E. rewrite (M_bind_ok _ _ _ _ _ (held_exists_mark K5 σ5 Hσ5)) in E.
  cbn iota in E. rewrite (M_bind_ok _ _ _ _ _ (held_open_mark K5 σ5 Hσ5)) in E.
  unfold Stream.opened, SIZEOF_SIZE_T, HASH_SIZE in E.
  pose proof (fun pos len => held_read_head K5 σ5 pos len Hσ5) as Hread.
  rewrite (M_bind_ok _ _ _ _ _ (Hread 0 8 ltac:(lia) ltac:(lia) ltac:(lia))) in E.
  cbn beta iota in E.
  rewrite (M_bind_ok _ _ _ _ _ (Hread (0 + 8) 8 ltac:(lia) ltac:(lia) ltac:(lia))) in E.
  cbn beta iota in E.
  rewrite (M_bind_ok _ _ _ _ _ (Hread (0 + 8 + 8) 64 ltac:(lia) ltac:(lia) ltac:(lia))) in E.
  cbn beta iota in E.
  apply (f_equal fst) in E. unfold mret, M_ret in E. cbn [fst] in E. congruence.
Qed.

Lemma steady_makeRemoteFile K (prefix : bytes) :
  Path.append prefix path = e ->
  keeps (2 * depth + 7) K (fun _ f => f = Some remote) (makeRemoteFile_calls prefix path).
Proof.
  intros He. unfold makeRemoteFile_calls. rewrite He.
  replace (2 * depth + 7)%nat with (5 + ((2 * depth + 2) + 0))%nat by lia. apply steady_bind.
  eapply steady_weaken; [apply steady_readHeader|done|done|]. intros K1 r _ ->. cbn beta iota.
  rewrite (proj2 (Z.ltb_lt 0 CHUNK_SIZE)) by done. apply steady_bind.
  eapply steady_weaken; [apply steady_new_FileRemote|done|done|]. intros K2 f _ ->.
  by apply steady_ret.
Qed.
(** *** The handler *)
Section Respond.
Context `{UuidText} (msg : Message) (Hpath : request_path msg = path).
Context (He : Path.append SERVER_BASE_PATH path = e).

(** What it answers: completion only when every chunk has been there, else a request. *)
Definition fitting K (a : Message) : Prop :=
  (a = buildMsgComplete (seq_number msg) (client_uuid msg) remote /\ whole K) \/
  exists r, asked K r /\
    a = buildMsgChunkReq (seq_number msg + 1) (client_uuid msg) remote r UINT16_MAX.

Lemma fitting_more K K' (a : Message) : K ⊆ K' -> fitting K a -> fitting K' a.
Proof.
  intros HK [[E Hw]|(r & Hr & E)]; [left|right].
  - split; [done|]. intros i Hi. by apply HK, Hw.
  - exists r. split; [by apply (asked_more K)|done].
Qed.

Abbreviation answer_time := (S (scan_calls + hash_calls) + scan_calls)%nat.

Lemma steady_answer K : keeps answer_time K fitting (answer_calls msg remote).
Proof.
  unfold answer_calls. apply steady_bind.
  eapply steady_weaken; [apply steady_isComplete|done|done|]. intros K1 [] _ Hb.
  - apply steady_ret. intros K2 H2. left. split; [done|]. intros i Hi. by apply H2, Hb.
  - rewrite <- (Nat.add_0_r scan_calls). apply steady_bind.
    eapply steady_weaken; [apply steady_getNextMissingChunk|done|done|]. intros K2 r _ Hr.
    apply steady_ret. intros K3 H3. right. exists r. split; [by apply (asked_more K2)|done].
Qed.

(** A request about the file [c]. *)
Definition about : Prop :=
  (msg_type msg = MSGTYPE_FILE_OFFER /\ file_size (offer msg) = zlen c /\
   file_hash (offer msg) = calc_hash_vec c) \/
  (msg_type msg = MSGTYPE_FILE_CHUNK_DATA /\ 0 <= idx (chunk_data msg) < last /\
   data (chunk_data msg) = chunk_of c (idx (chunk_data msg))).

Definition served K (a : option Message) : Prop :=
  (exists m, a = Some m /\ fitting K m) /\
  (msg_type msg = MSGTYPE_FILE_CHUNK_DATA -> idx (chunk_data msg) ∈ K).

Lemma steady_respond K : about -> keeps (2 * depth + 12 + answer_time) K served (respond_calls msg).
Proof.
  unfold respond_calls. rewrite Hpath, He. cbv zeta.
  assert (forall K0 K1 m, (msg_type msg = MSGTYPE_FILE_CHUNK_DATA -> idx (chunk_data msg) ∈ K0) ->
    K0 ⊆ K1 -> fitting K1 m -> keeps 0 K1 served (mret (Some m))) as Hend.
  { intros K0 K1 m Hidx HK Hm. apply steady_ret. intros K2 H2. split; [|set_solver].
    exists m. split; [done|]. by apply (fitting_more K1). }
  intros [(Et & Es & Eh)|(Et & Hi & Ed)]; rewrite Et.
  - rewrite Z.eqb_refl, Es, Eh.
    replace (2 * depth + 12 + answer_time)%nat with
      ((2 * depth + 2) + (answer_time + 10))%nat by lia.
    apply steady_bind. eapply steady_weaken; [apply steady_new_FileRemote|done|done|].
    intros K1 f _ ->. apply steady_bind. eapply steady_weaken; [apply steady_answer|done|done|].
    intros K2 m _ Hm. eapply steady_weaken; [apply (Hend ∅ K2 m)|lia|done|done]; [|set_solver|done].
    by rewrite Et.
  - change (MSGTYPE_FILE_CHUNK_DATA =? MSGTYPE_FILE_OFFER) with false. rewrite Z.eqb_refl. cbn iota.
    replace (2 * depth + 12 + answer_time)%nat with
      ((2 * depth + 7) + (5 + (answer_time + 0)))%nat by lia.
    apply steady_bind. eapply steady_weaken; [by apply steady_makeRemoteFile|done|done|].
    intros K1 f _ ->. apply steady_bind.
    eapply steady_weaken; [by apply steady_saveChunk|done|done|]. intros K2 [] _ Hin. cbn [fc_idx] in Hin.
    apply steady_bind. eapply steady_weaken; [apply steady_answer|done|done|].
    intros K3 m H3 Hm. by apply (Hend K2 K3 m).
Qed.
End Respond.
End Upload.

(** ** Any number of handlers, several of each file *)
Section Handlers.
Context `{Blake2bLaws} `{UuidTextLaws}.
Context (js : list job) (Hid : Forall identity_ok js).
Context (Hapart : forall k l j j', js !! k = Some j -> js !! l = Some j' -> k <> l -> apart j j').
Context (Ms : nat -> gset Z).

Implicit Types (Ks : nat -> gset Z) (k l w left : nat).

Abbreviation keeping j M := (held (job_dir j) (jb_name j) (jb_content j) M).
Abbreviation elsewhere j := (same_elsewhere (job_dir j) (jb_name j)).

(** The request is about the file of the job. *)
Definition concerns (m : Message) (j : job) : Prop :=
  client_uuid m = jb_uuid j /\ file_name m = jb_name j /\ about (jb_content j) m.

Definition all_held Ks σ : Prop := forall k j, js !! k = Some j -> keeping j (Ms k) (Ks k) σ.

(** The handler of [m], [left] calls from its end at most. *)
Definition busy Ks left (m : Message) (p : prog (option Message)) : Prop :=
  exists k j, js !! k = Some j /\ concerns m j /\
    steady (keeping j (Ms k)) (elsewhere j) left (Ks k)
      (served (request_path m) (Path.append SERVER_BASE_PATH (request_path m)) (jb_content j) m) p.

Lemma busy_more Ks Ks' left left' (m : Message) p :
  (forall k, Ks k ⊆ Ks' k) -> (left <= left')%nat -> busy Ks left m p -> busy Ks' left' m p.
Proof.
  intros HK Hl (k & j & Ej & Hm & Hp). exists k, j. split; [done|]. split; [done|].
  by eapply steady_weaken.
Qed.

(** A handler at its start. *)
Lemma respond_busy Ks k j (m : Message) :
  valid_request m -> zlen (jb_content j) < 2 ^ 32 -> js !! k = Some j -> concerns m j ->
  exists n, busy Ks n m (respond_calls m).
Proof.
  intros Hv Hsmall Ej Hc. pose proof Hc as (Eu & En & Hab). pose proof (request_placed m Hv) as Hp.
  rewrite Eu, En in Hp. eexists. exists k, j. split; [done|]. split; [done|].
  by apply (steady_respond (request_path m) _ _ _ Hp _ Hsmall (Ms k) m eq_refl eq_refl).
Qed.

Lemma held_elsewhere k l j j' M K σ σ' :
  js !! k = Some j -> js !! l = Some j' -> k <> l -> elsewhere j σ σ' ->
  keeping j' M K σ -> keeping j' M K σ'.
Proof.
  intros Ej El Hne Hsame [Hd (dat & Hdat & Hd2) (bm & Hm & Hb)].
  pose proof (Forall_lookup_1 _ _ _ _ Hid Ej) as Hj. pose proof (Forall_lookup_1 _ _ _ _ Hid El) as Hl.
  assert (forall x : list bytes, job_key j' x -> σ' !! x = σ !! x) as Hkeys.
  { intros x Hx. pose proof (keys_apart j' j x Hl Hj (Hapart _ _ _ _ El Ej (not_eq_sym Hne)) Hx) as Hnot.
    apply Hsame; intros ->; apply Hnot; [by left|by right]. }
  constructor.
  - intros x Hx. rewrite Hsame; [by apply Hd|intros ->..];
      refine (key_not_made j' j _ Hl Hj _ Hx); [by left|by right].
  - exists dat. rewrite Hkeys by (by left). by split.
  - exists bm. rewrite Hkeys by (by right). by split.
Qed.

(** One call of one of them. *)
Lemma busy_step Ks left (m : Message) p σ :
  all_held Ks σ -> busy Ks left m p ->
  exists Ks', (forall k, Ks k ⊆ Ks' k) /\ all_held Ks' (snd (step_call p σ)) /\
    busy Ks' (left - 1) m (fst (step_call p σ)).
Proof.
  intros Hall (k & j & Ej & Hm & Hp). destruct p as [r|X x f].
  - exists Ks. split_and!; [done..|]. by exists k, j.
  - destruct left as [|left]; [done|].
    destruct (Hp (Ks k) σ) as (a & σ' & K' & E & HK & Hσ' & Hnear & Ha); [done|by apply Hall|].
    exists (fun l => if decide (l = k) then K' else Ks l). cbn [step_call]. rewrite E. cbn [fst snd].
    split; [|split].
    + intros l. case_decide; [by subst|done].
    + intros l j' El. case_decide as Hl; [subst; by simplify_eq|].
      by apply (held_elsewhere k l j j' _ _ σ); [..|apply Hall].
    + exists k, j. split; [done|]. split; [done|]. rewrite decide_True by done.
      by rewrite Nat.sub_succ, Nat.sub_0_r.
Qed.

(** All of them in any order. *)
Lemma busy_run (msgs : list Message) (schedule : list nat) Ks (budget : nat -> nat) ts σ :
  all_held Ks σ ->
  (forall w m p, msgs !! w = Some m -> ts !! w = Some p -> busy Ks (budget w) m p) ->
  length ts = length msgs ->
  exists Ks', (forall k, Ks k ⊆ Ks' k) /\ all_held Ks' (snd (interleave schedule ts σ)) /\
    forall w m p, msgs !! w = Some m -> fst (interleave schedule ts σ) !! w = Some p ->
      busy Ks' (budget w - count_occ Nat.eq_dec schedule w) m p.
Proof.
  revert Ks budget ts σ. induction schedule as [|v schedule IH]; intros Ks budget ts σ Hall Hts Hlen.
  { exists Ks. split_and!; [done..|]. intros w m p Em Ep. rewrite Nat.sub_0_r. by apply Hts. }
  cbn [interleave]. destruct (ts !! v) as [p|] eqn:Ep.
  - destruct (lookup_lt_is_Some_2 msgs v) as [m Em]; [rewrite <- Hlen; by eapply lookup_lt_Some|].
    destruct (busy_step Ks (budget v) m p σ Hall (Hts v m p Em Ep)) as (Ks1 & HK1 & Hall1 & Hb1).
    destruct (step_call p σ) as [p' σ']. cbn [fst snd] in *.
    destruct (IH Ks1 (fun w => if decide (w = v) then budget v - 1 else budget w)%nat (<[v := p']> ts) σ')
      as (Ks2 & HK2 & Hall2 & Hb2); [done| |by rewrite length_insert|].
    + intros w m' p0 Em' Ep0. case_decide as Hw.
      * subst w. rewrite list_lookup_insert_eq in Ep0 by (by eapply lookup_lt_Some). by simplify_eq.
      * rewrite list_lookup_insert_ne in Ep0 by done. by apply (busy_more Ks _ (budget w)); [| |apply Hts].
    + exists Ks2. split; [intros k; etrans; [apply HK1|apply HK2]|]. split; [done|]. intros w m' p0 Em' Ep0.
      specialize (Hb2 w m' p0 Em' Ep0). cbn [count_occ].
      destruct (Nat.eq_dec v w), (decide (w = v)); subst; try done.
      by rewrite <- Nat.sub_add_distr in Hb2.
  - destruct (IH Ks budget ts σ Hall Hts Hlen) as (Ks2 & HK2 & Hall2 & Hb2). exists Ks2.
    split; [done|]. split; [done|]. intros w m' p0 Em' Ep0. specialize (Hb2 w m' p0 Em' Ep0).
    cbn [count_occ]. destruct (Nat.eq_dec v w) as [-> |]; [|done].
    apply lookup_lt_Some in Ep0. rewrite length_interleave in Ep0. apply lookup_ge_None_1 in Ep. lia.
Qed.
End Handlers.

(** ** Properties *)
Section Properties.
Context `{Blake2bLaws} `{UuidTextLaws}.

(** What a client is told when the disk has become [σ]: that the upload is complete, and it
    is; or the chunk to send next, which is none of the file only when all are there. *)
Record told (m a : Message) (j : job) σ : Prop := mk_told {
  td_wf : wf_message a;
  td_uuid : client_uuid a = client_uuid m;
  td_name : file_name a = file_name m;
  td_what :
    (msg_type a = MSGTYPE_FILE_COMPLETE /\ σ !! job_data j = Some (Reg (jb_content j))) \/
    (msg_type a = MSGTYPE_FILE_CHUNK_REQ /\ exists r, chunk_idx_first (chunk_req a) = u16 r /\
       (0 <= r < n_chunks (zlen (jb_content j)) \/
        (r = UINT64_MAX /\ σ !! job_data j = Some (Reg (jb_content j))))) }.

Lemma fitting_message (m a : Message) j K :
  valid_request m -> concerns m j ->
  fitting (request_path m) (Path.append SERVER_BASE_PATH (request_path m)) (jb_content j) m K a ->
  wf_message a /\ client_uuid a = client_uuid m /\ file_name a = file_name m /\
  ((msg_type a = MSGTYPE_FILE_COMPLETE /\ whole (jb_content j) K) \/
   (msg_type a = MSGTYPE_FILE_CHUNK_REQ /\ exists r, chunk_idx_first (chunk_req a) = u16 r /\
      asked (jb_content j) K r)).
Proof.
  intros Hv (Eu & En & _) Hfit. pose proof (request_answerable m Hv) as (Hu & Hub & Hn).
  pose proof (request_filename m Hv) as Ef.
  destruct Hfit as [[-> HK0]|(r & Hr & ->)].
  - split; [by apply buildMsgComplete_wf|]. split; [done|]. split; [done|]. by left.
  - split; [by apply buildMsgChunkReq_wf|]. split; [done|]. split; [done|]. right. split; [done|].
    by exists r.
Qed.

Lemma fitting_told (m a : Message) j K K' M σ :
  valid_request m -> concerns m j -> K ⊆ K' ->
  held (job_dir j) (jb_name j) (jb_content j) M K' σ ->
  fitting (request_path m) (Path.append SERVER_BASE_PATH (request_path m)) (jb_content j) m K a ->
  told m a j σ.
Proof.
  intros Hv Hc HK Hheld Hfit.
  destruct (fitting_message m a j K Hv Hc Hfit) as (Hwf & Eu & En & Hwhat).
  assert (whole (jb_content j) K -> σ !! job_data j = Some (Reg (jb_content j))) as Hw.
  { intros Hw. apply (held_whole _ _ _ _ _ _ Hheld). intros i Hi. by apply HK, Hw. }
  constructor; [done..|]. destruct Hwhat as [[Et HK0]|(Et & r & Er & Hr)].
  - left. split; [done|by apply Hw].
  - right. split; [done|]. exists r. split; [done|].
    destruct Hr as [Hr|[Emax HK0]]; [by left|right]. split; [done|by apply Hw].
Qed.

Context (js : list job) (Hid : Forall identity_ok js).
Context (Hapart : forall k l j j', js !! k = Some j -> js !! l = Some j' -> k <> l -> apart j j').
Context (σ : fs) (us : list upload).
Context (Hus : Forall2 (fun j u => represents σ (job_dir j) (jb_name j) u /\
  partial_of (jb_content j) u) js us).
Context (msgs : list Message) (Hvalid : Forall valid_request msgs).
Context (Hmsgs : Forall (fun m => exists k j, js !! k = Some j /\ concerns m j) msgs).

Lemma small k j : js !! k = Some j -> zlen (jb_content j) < 2 ^ 32.
Proof.
  intros Ej. destruct (Forall2_lookup_l _ _ _ _ _ Hus Ej) as (u & _ & [Hu _ _ _] & [Hs _ _]).
  destruct Hu. lia.
Qed.

(** Each handler at its start. *)
Lemma all_busy :
  exists Ms n, (forall k u, us !! k = Some u -> Ms k = up_marked u) /\ all_held js Ms Ms σ /\
    forall w m, msgs !! w = Some m -> busy js Ms Ms n m (respond_calls m).
Proof.
  set (Ms := fun k => from_option up_marked ∅ (us !! k)).
  assert (forall k u, us !! k = Some u -> Ms k = up_marked u) as HMs
    by (intros k u Eu; unfold Ms; by rewrite Eu).
  assert (exists n, Forall (fun m => busy js Ms Ms n m (respond_calls m)) msgs) as [n Hn].
  { revert Hvalid Hmsgs. induction msgs as [|m ms IH]; intros Hv Hm; [by exists 0%nat|].
    inversion_clear Hv as [|? ? Hv1 Hv2]. inversion_clear Hm as [|? ? Hm1 Hm2].
    destruct (IH Hv2 Hm2) as [n1 Hn1]. destruct Hm1 as (k & j & Ej & Hc).
    destruct (respond_busy js Ms Ms k j m Hv1 (small k j Ej) Ej Hc) as [n2 Hn2]. exists (n1 + n2)%nat. constructor.
    - apply (busy_more js Ms Ms Ms n2); [done|lia|done].
    - revert Hn1. apply Forall_impl. intros m'. apply busy_more; [done|lia]. }
  exists Ms, n. split; [done|]. split; [|intros w m Em; exact (Forall_lookup_1 _ _ _ _ Hn Em)].
  intros k j Ej. destruct (Forall2_lookup_l _ _ _ _ _ Hus Ej) as (u & Eu & Hrep & Hp).
  rewrite (HMs k u Eu). by apply represents_held.
Qed.

(** C13: several handlers of the same file at the same time do no harm: for any number of
    uploads that are on the disk and any number of requests about them (the offer of the
    file, or a chunk of it), however the system calls of the handlers are interleaved, at
    every moment each upload is a valid one of its file with every mark it had at the start
    and only right bytes in the marked chunks; no handler throws or runs into undefined
    behaviour, and each ends after boundedly many of its own calls, having stored its chunk,
    and having told its client that the upload is complete only if all of the file is
    there. What can be lost is the mark of a chunk stored meanwhile. *)
Theorem same_file_safe :
  exists n, forall schedule, let (ts, σ') := interleave schedule (respond_calls <$> msgs) σ in
    (forall k j u, js !! k = Some j -> us !! k = Some u -> exists u',
       represents σ' (job_dir j) (jb_name j) u' /\ partial_of (jb_content j) u' /\
       up_marked u ⊆ up_marked u') /\
    (forall w m p, msgs !! w = Some m -> ts !! w = Some p ->
       (n <= count_occ Nat.eq_dec schedule w)%nat -> exists r, p = Done r) /\
    (forall w m r, msgs !! w = Some m -> ts !! w = Some (Done r) -> exists a j,
       r = Ok (Some a) /\ j ∈ js /\ concerns m j /\ told m a j σ' /\
       (msg_type m = MSGTYPE_FILE_CHUNK_DATA -> exists dat, σ' !! job_data j = Some (Reg dat) /\
          forall b : nat, Z.of_nat b / CHUNK_SIZE = idx (chunk_data m) -> dat !! b = jb_content j !! b)).
Proof.
  destruct all_busy as (Ms & n & HMs & Hall & Hbusy). exists n. intros schedule.
  destruct (busy_run js Hid Hapart Ms msgs schedule Ms (fun _ => n) (respond_calls <$> msgs) σ Hall)
    as (Ks & HK & Hall' & Hts); [|apply length_fmap|].
  { intros w m p Em Ep. rewrite list_lookup_fmap, Em in Ep. simplify_eq/=. by apply (Hbusy w). }
  destruct (interleave schedule (respond_calls <$> msgs) σ) as [ts σ']. cbn [fst snd] in *.
  split_and!.
  - intros k j u Ej Eu. pose proof (Hall' k j Ej) as Hheld.
    destruct (Forall2_lookup_lr _ _ _ _ _ _ Hus Ej Eu) as [Hrep Hp]. rewrite (HMs k u Eu) in Hheld.
    destruct (held_represents _ _ _ (small k j Ej) _ _ _ ltac:(
      intros i Hi; rewrite <- (partial_chunks _ _ Hp); by apply (uo_marked _ (rp_ok _ _ _ _ Hrep)))
      Hheld) as (u' & Q1 & Q2 & Q3 & _). by exists u'.
  - intros w m p Em Ep Hn. destruct (Hts w m p Em Ep) as (k & j & _ & _ & Hp).
    replace (n - _)%nat with 0%nat in Hp by lia. destruct p as [r|]; [by exists r|done].
  - intros w m r Em Ep. destruct (Hts w m (Done r) Em Ep) as (k & j & Ej & Hc & a & -> & Ha).
    pose proof (Hall' k j Ej) as Hheld. destruct (Ha (Ks k) ltac:(done)) as [(a' & -> & Hfit) Hidx].
    exists a', j. split; [done|]. split; [by eapply list_elem_of_lookup_2|]. split; [done|]. split.
    + apply (fitting_told m a' j (Ks k) (Ks k) (Ms k)); [|done..].
      by apply (Forall_lookup_1 _ _ _ _ Hvalid Em).
    + intros Ht. destruct Hheld as [_ (dat & Hdat & _ & Hright) _]. exists dat. split; [done|].
      intros b Hb. apply Hright. rewrite Hb. by apply Hidx.
Qed.
End Properties.

(** ** An answer that comes too late *)
Section Late.
Context `{Blake2bLaws} `{UuidTextLaws}.

Lemma solo_add {A : Type} (n m : nat) (p : prog A) σ :
  solo (n + m) p σ = solo m (fst (solo n p σ)) (snd (solo n p σ)).
Proof.
  revert p σ. induction n as [|n IH]; intros p σ; [done|]. cbn [Nat.add solo].
  destruct (step_call p σ) as [p' σ']. apply IH.
Qed.

(** Inside a larger program. *)
Lemma solo_inside {A B : Type} (C : prog A -> prog B) (p : prog A) (a : A) σ σ1 :
  (forall (X : Set) (x : call X) f, C (Call x f) = Call x (fun y => C (f y))) ->
  exec p σ = (Ok a, σ1) -> exists n, solo n (C p) σ = (C (Done (Ok a)), σ1).
Proof.
  intros HC. revert σ. induction p as [r|X x f IH]; intros σ E.
  - injection E as -> ->. by exists 0%nat.
  - cbn [exec] in E. rewrite M_bind_case in E. rewrite HC.
    destruct (sem x σ) as [[y|?|] σ2] eqn:Ex; [|done..].
    destruct (IH y σ2 E) as [n Hn]. exists (S n). cbn [solo step_call]. by rewrite Ex.
Qed.

Context (j : job) (Hok : job_ok j) (Hsmall : zlen (jb_content j) < 65535 * CHUNK_SIZE).
Context (σ : fs) (u : upload) (i seq : Z).
Context (Hrep : represents σ (job_dir j) (jb_name j) u) (Hp : partial_of (jb_content j) u).
Context (Hlast : up_missing u = [i]).

Abbreviation the_offer := (arrived (buildMsgOffer 1 (jb_uuid j) (job_file j))).
Abbreviation the_chunk :=
  (arrived (chunk_message seq (jb_uuid j) (job_file j) (jb_content j) i)).
Abbreviation at_path := (request_path the_offer).
Abbreviation at_e := (Path.append SERVER_BASE_PATH at_path).
Abbreviation there := (handle at_path at_e u).

Lemma i_inside : 0 <= i < n_chunks (zlen (jb_content j)).
Proof.
  assert (i ∈ up_missing u) as Hin by (rewrite Hlast; by left).
  apply elem_of_up_missing in Hin as [Hi _]. by rewrite (partial_chunks _ _ Hp) in Hi.
Qed.

(** The chunk is the last one. *)
Lemma chunk_alone :
  exists σ' b, respond the_chunk σ = (Ok (Some b), σ') /\ msg_type b = MSGTYPE_FILE_COMPLETE /\
    σ' !! job_data j = Some (Reg (jb_content j)) /\
    getNextMissingChunk there 0 σ' = (Ok UINT64_MAX, σ').
Proof.
  pose proof i_inside as Hi. pose proof (rp_ok _ _ _ _ Hrep) as Hu.
  destruct (chunk_received j Hok seq i Hi) as (_ & En & Hv).
  destruct (offer_received j Hok) as (_ & Eno & Hvo & _).
  pose proof (request_placed _ Hv) as Hpl. pose proof (request_placed _ Hvo) as Hplo.
  rewrite En in Hpl. rewrite Eno in Hplo.
  pose proof (up_chunks_bounds u Hu) as Hb. rewrite (partial_chunks _ _ Hp) in Hb.
  destruct (respond_data the_chunk _ _ _ eq_refl Hpl σ u eq_refl
    ltac:(change (idx (chunk_data the_chunk)) with i; lia) Hrep)
    as (σ' & Hrun & Hrep' & _).
  change (idx (chunk_data the_chunk)) with i in *.
  change (data (chunk_data the_chunk)) with (chunk_of (jb_content j) i) in *.
  set (u' := up_save u i (chunk_of (jb_content j) i)) in *.
  pose proof (missing_save (jb_content j) u i [] Hu Hp Hlast) as Hnil. fold u' in Hnil.
  destruct (partial_save (jb_content j) u i Hu Hp Hi) as [Hp' _].
  destruct (partial_end (jb_content j) u' (rp_ok _ _ _ _ Hrep') Hp' Hnil) as [Edat Ecomp].
  eexists σ', _. split; [exact Hrun|]. split; [unfold reply; by rewrite Ecomp|]. split.
  - rewrite <- Edat. apply (rp_data _ _ _ _ Hrep').
  - rewrite <- (handle_up_save at_e at_path u i (chunk_of (jb_content j) i)). fold u'.
    rewrite (getNextMissingChunk_run at_path at_e _ _ Hplo σ' u' Hrep').
    unfold up_next. by rewrite Hnil.
Qed.

Lemma offer_begins : exists n,
  solo n (respond_calls the_offer) σ =
    ((response ← (req_chunk_idx ← getNextMissingChunk_calls there 0;
        mret (buildMsgChunkReq (seq_number the_offer + 1) (client_uuid the_offer) there
                req_chunk_idx UINT16_MAX)); mret (Some response)), σ).
Proof.
  destruct (offer_received j Hok) as (_ & Eno & Hvo & Es).
  pose proof (request_placed _ Hvo) as Hplo. rewrite Eno in Hplo.
  pose proof (new_FileRemote_again at_path at_e _ _ Hplo σ u Hrep) as Hnew.
  pose proof (isComplete_run at_path at_e _ _ Hplo σ u Hrep) as Hcomp.
  rewrite (partial_incomplete u) in Hcomp by (by rewrite Hlast).
  destruct Hp as [Hsz Hh _].
  unfold respond_calls. change (msg_type the_offer =? MSGTYPE_FILE_OFFER) with true. cbn iota zeta.
  change (file_hash (offer the_offer)) with (calc_hash_vec (jb_content j)). rewrite Es, <- Hsz, <- Hh.
  set (G := fun file => response ← answer_calls the_offer file; mret (Some response)).
  destruct (solo_inside (fun p => @mbind prog prog_bind _ _ G p) _ there σ σ (fun _ _ _ => eq_refl)
    (eq_trans (same_new_FileRemote _ _ _ _ σ) Hnew)) as [n1 Hn1].
  change (@mbind prog prog_bind _ _ G (Done (Ok there))) with (G there) in Hn1.
  set (F := fun complete : bool =>
      if complete then mret (buildMsgComplete (seq_number the_offer) (client_uuid the_offer) there)
      else req_chunk_idx ← getNextMissingChunk_calls there 0;
        mret (buildMsgChunkReq (seq_number the_offer + 1) (client_uuid the_offer) there
                req_chunk_idx UINT16_MAX) : prog Message).
  destruct (solo_inside (fun p => @mbind prog prog_bind _ _ (fun response => mret (Some response))
      (@mbind prog prog_bind _ _ F p))
    _ false σ σ (fun _ _ _ => eq_refl) (eq_trans (same_isComplete _ σ) Hcomp)) as [n2 Hn2].
  exists (n1 + n2)%nat. rewrite (solo_add n1 n2), Hn1. exact Hn2.
Qed.

(** C37: an answer can come too late. A client is killed after it has sent its last
    chunk, and started again; its new offer and the old chunk are in the hands of two
    workers. The offer's worker finds the chunk missing, the other one stores it, and then
    the first looks for the chunk to ask for, finds none, and asks for chunk 65535. The file
    is complete, but the client, which has no such chunk, sends nothing and keeps waiting:
    COMPLETE went to the connection of the killed one. *)
Theorem late_answer_stalls :
  exists schedule a b σ',
    interleave schedule [respond_calls the_offer; respond_calls the_chunk] σ =
      ([Done (Ok (Some a)); Done (Ok (Some b))], σ') /\
    σ' !! job_data j = Some (Reg (jb_content j)) /\ msg_type b = MSGTYPE_FILE_COMPLETE /\
    msg_type a = MSGTYPE_FILE_CHUNK_REQ /\ chunk_idx_first (chunk_req a) = 65535 /\
    client_turn (jb_uuid j) (encode a) (started j) =
      Ok (mk_client (jb_home j) {[jb_name j := job_file j]} []).
Proof.
  destruct chunk_alone as (σ' & b & Hb & Hbt & Hfull & Hnext). destruct offer_begins as [n1 Hn1].
  destruct (offer_received j Hok) as (_ & Eno & Hvo & _).
  set (a := buildMsgChunkReq (seq_number the_offer + 1) (client_uuid the_offer) there UINT64_MAX
    UINT16_MAX).
  set (p1 := (response ← _; mret (Some response)) : prog (option Message)) in Hn1.
  assert (exec p1 σ' = (Ok (Some a), σ')) as Hp1.
  { unfold p1. rewrite exec_bind, M_bind_case, exec_bind, M_bind_case.
    rewrite (eq_trans (same_getNextMissingChunk _ _ σ') Hnext). done. }
  destruct (solo_exec (respond_calls the_chunk) σ) as [n2 Hn2]. specialize (Hn2 n2 (le_n n2)).
  rewrite run_respond_calls, Hb in Hn2. cbn [fst snd] in Hn2.
  destruct (solo_exec p1 σ') as [n3 Hn3]. specialize (Hn3 n3 (le_n n3)). rewrite Hp1 in Hn3.
  exists (replicate n1 0%nat ++ replicate n2 1%nat ++ replicate n3 0%nat ++ []), a, b, σ'.
  split; [|split; [done|split; [done|split; [done|split; [done|]]]]].
  - set (ro := respond_calls the_offer) in *. set (rc := respond_calls the_chunk) in *.
    do 3 (erewrite interleave_turn; [|reflexivity|eassumption]). done.
  - rewrite (started_eq j Hok).
    assert (Path.filename (f_path there) = jb_name j) as Ea by (rewrite <- Eno; by apply request_filename).
    apply (stalled_client_turn j Hok Hsmall a); try done.
    apply buildMsgChunkReq_wf. constructor; [apply Hvo|apply Hvo|]. rewrite Ea, <- Eno. apply Hvo.
Qed.
End Late.

(** ** Witnesses *)
Section Witnesses.
Import ToyHash ToyUuid.

(** A file of three chunks, of which the server lacks the second. *)
Definition resumed_job : job := job_of sample_uuid resumed_content.

Lemma resumed_job_ok : job_ok resumed_job.
Proof.
  split; [|vm_compute; discriminate].
  apply (sample_transfer resumed_content); decide_closed.
Qed.

Definition old_chunk_msg (i : Z) : Message :=
  arrived (chunk_message 2 sample_uuid (job_file resumed_job) resumed_content i).
Definition new_offer_msg : Message := arrived (buildMsgOffer 1 sample_uuid (job_file resumed_job)).

(** The old chunk, the new offer, and a chunk that is there already. *)
Definition three_msgs : list Message := [old_chunk_msg 1; new_offer_msg; old_chunk_msg 2].

Lemma chunk_concerns (i : Z) : 0 <= i < 3 -> concerns (old_chunk_msg i) resumed_job.
Proof.
  intros Hi. destruct (chunk_received resumed_job resumed_job_ok 2 i) as (_ & En & _); [exact Hi|].
  split; [reflexivity|]. split; [exact En|]. right. split; [reflexivity|]. by split.
Qed.

Lemma three_valid : Forall valid_request three_msgs.
Proof.
  pose proof (chunk_received resumed_job resumed_job_ok 2) as Hc.
  destruct (offer_received resumed_job resumed_job_ok) as (_ & _ & Ho & _).
  apply Forall_cons_2; [apply (Hc 1); vm_compute; split; [discriminate|reflexivity]|].
  apply Forall_cons_2; [exact Ho|].
  apply Forall_cons_2; [apply (Hc 2); vm_compute; split; [discriminate|reflexivity]|constructor].
Qed.

Lemma three_concern : Forall (fun m => exists k j, [resumed_job] !! k = Some j /\ concerns m j) three_msgs.
Proof.
  destruct (offer_received resumed_job resumed_job_ok) as (_ & En & _ & Es).
  repeat apply Forall_cons_2; [..|constructor]; exists 0%nat, resumed_job; (split; [reflexivity|]).
  - apply chunk_concerns. lia.
  - split; [reflexivity|]. split; [exact En|]. left. split; [reflexivity|]. split; [exact Es|reflexivity].
  - apply chunk_concerns. lia.
Qed.

Lemma same_file_safe_witness :
  exists n, let s := interleave (concat (replicate n [0; 1; 2]%nat)) (respond_calls <$> three_msgs)
      resumed_fs in
    exists u', represents (snd s) (upload_dir sample_uuid) (str "file.txt") u' /\
      partial_of resumed_content u' /\ {[0; 2]} ⊆ up_marked u'.
Proof.
  destruct (same_file_safe [resumed_job]
    ltac:(apply Forall_singleton, job_identity, resumed_job_ok)
    ltac:(intros [|k] [|l] j j' Ek El Hkl; [by destruct Hkl|..]; rewrite ?lookup_nil in *; done)
    resumed_fs [resumed_upload]
    ltac:(apply Forall2_cons; [split; [apply resumed_represents|apply resumed_partial]|constructor])
    three_msgs three_valid three_concern) as [n Hn].
  exists n. specialize (Hn (concat (replicate n [0; 1; 2]%nat))). cbv zeta.
  destruct (interleave _ (respond_calls <$> three_msgs) resumed_fs) as [ts σ'].
  destruct Hn as (P1 & _). exact (P1 0%nat resumed_job resumed_upload eq_refl eq_refl).
Defined.

Lemma late_answer_stalls_witness :
  exists schedule a b σ',
    interleave schedule [respond_calls new_offer_msg; respond_calls (old_chunk_msg 1)] resumed_fs =
      ([Done (Ok (Some a)); Done (Ok (Some b))], σ') /\
    σ' !! job_data resumed_job = Some (Reg resumed_content) /\
    exists cl, client_turn sample_uuid (encode a) (started resumed_job) = Ok cl /\
      uploadsCompleted cl = false /\ cl_sent cl = [].
Proof.
  destruct (late_answer_stalls resumed_job resumed_job_ok ltac:(decide_closed) resumed_fs
    resumed_upload 1 2 resumed_represents resumed_partial ltac:(vm_compute; reflexivity))
    as (schedule & a & b & σ' & P1 & P2 & _ & _ & _ & P4).
  exists schedule, a, b, σ'. split; [exact P1|]. split; [exact P2|]. eexists.
  split; [exact P4|]. split; [|reflexivity].
  apply bool_decide_eq_false. apply map_non_empty_singleton.
Defined.
End Witnesses.
