(* ===== verification/Again.v ===== *)
(** * The whole system, with clients that are started again

    [Network] has one client process for each file. Here any number of clients work on each
    upload, under the same identity: one that was killed (nothing happens on its side any
    more, although the server still reads what it has sent, handles it and answers) and the
    ones that were started after it, or some that run next to each other. What is known of
    each exchange is only what stays true whatever the others do ([Shared]). *)
From S2P Require Import Prelude StdFs Msg FileMeta Identity File Upload.
From S2P Require Import MsgFctry Conn Framing Server Client Handler Calls.
From S2P Require Import Transfer Clients Workers Crash Shared System Steps Exchange Network.
Import FsFacts DirFacts.

Implicit Types (i k w n : nat) (σ : fs) (j : job).

Section Again.
Context `{Blake2bLaws} `{UuidTextLaws}.

(** The uploads, which the server has accepted; the clients, each about one of them. *)
Context (ups : list job) (Hups : Forall job_ok ups).
Context (Hapart : forall k l j j', ups !! k = Some j -> ups !! l = Some j' -> k <> l -> apart j j').
Context (Ms : nat -> gset Z).
Context (js : list job) (Hjs : forall i j, js !! i = Some j -> exists k, ups !! k = Some j).

Implicit Types (Ks : nat -> gset Z).

Lemma ups_identity : Forall identity_ok ups.
Proof. revert Hups. apply Forall_impl. apply job_identity. Qed.

Lemma client_ok i j : js !! i = Some j -> job_ok j.
Proof. intros Ej. destruct (Hjs i j Ej) as [k Ek]. by apply (Forall_lookup_1 _ _ _ _ Hups Ek). Qed.

(** Every chunk of the file has been on the server. *)
Definition complete_now Ks j : Prop := exists k, ups !! k = Some j /\ whole (jb_content j) (Ks k).

Definition more Ks Ks' : Prop := forall k, Ks k ⊆ Ks' k.

Lemma more_refl Ks : more Ks Ks.
Proof. by intros k. Qed.
#[local] Hint Resolve more_refl : core.

Lemma complete_more Ks Ks' j : more Ks Ks' -> complete_now Ks j -> complete_now Ks' j.
Proof. intros HK (k & Ek & Hw). exists k. split; [done|]. intros i Hi. by apply HK, Hw. Qed.

Lemma complete_stored Ks σ j :
  all_held ups Ms Ks σ -> complete_now Ks j -> σ !! job_data j = Some (Reg (jb_content j)).
Proof. intros Hall (k & Ek & Hw). exact (held_whole _ _ _ _ _ _ (Hall k j Ek) Hw). Qed.

(** ** The messages *)
Record asking j (m : Message) : Prop := mk_asking {
  ak_wf : wf_message m;
  ak_valid : valid_request (arrived m);
  ak_about : concerns (arrived m) j }.

Record telling Ks j (a : Message) : Prop := mk_telling {
  tl_wf : wf_message a;
  tl_uuid : client_uuid a = jb_uuid j;
  tl_name : file_name a = jb_name j;
  tl_what : (msg_type a = MSGTYPE_FILE_COMPLETE /\ complete_now Ks j) \/
    msg_type a = MSGTYPE_FILE_CHUNK_REQ }.

Lemma telling_more Ks Ks' j (a : Message) : more Ks Ks' -> telling Ks j a -> telling Ks' j a.
Proof.
  intros HK [Hwf Eu En Ht]. constructor; [done..|]. destruct Ht as [[Ht Hc]|Ht]; [left|by right].
  split; [done|by apply (complete_more Ks)].
Qed.

Lemma offer_asking j : job_ok j -> asking j (buildMsgOffer 1 (jb_uuid j) (job_file j)).
Proof.
  intros Hok. destruct (offer_received j Hok) as (Hwf & En & Hv & Es).
  constructor; [done..|]. split; [done|]. split; [done|]. left. by split.
Qed.

Lemma chunk_asking j (seq c : Z) :
  job_ok j -> 0 <= c < n_chunks (zlen (jb_content j)) ->
  asking j (chunk_message seq (jb_uuid j) (job_file j) (jb_content j) c).
Proof.
  intros Hok Hc. destruct (chunk_received j Hok seq c Hc) as (Hwf & En & Hv).
  constructor; [done..|]. split; [done|]. split; [done|]. right. by split.
Qed.

(** ** What the client makes of an answer *)

(** It is done, and rightly; or it sends a chunk of its file, of which the socket may not
    take everything, or nothing, as when it has thrown. *)
Definition goes_with Ks j (cl : client) : Prop :=
  (client_files cl = ∅ /\ cl_sent cl = [] /\ complete_now Ks j) \/
  (offering j cl /\ exists m lost, asking j m /\ cl_sent cl ++ lost = encode m).

Lemma client_told j (a : Message) cl (send : bytes -> send_result) Ks :
  job_ok j -> telling Ks j a -> offering j cl -> cl_sent cl = [] ->
  exists cl', Handler.work (client_handler send (jb_uuid j)) [(true, arrived a)] cl = (Ok tt, cl') /\
    goes_with Ks j cl'.
Proof.
  intros Hok Ha [Efs Ef] Es. pose proof Hok as [Ht _]. pose proof Ht as [].
  destruct Ha as [Hwf Eu En Hwhat]. set (msg := arrived a).
  assert (file_name msg = jb_name j) as En'
    by (unfold msg; cbn [received file_name]; rewrite wire_name_short; by rewrite En).
  assert (client_files cl !! file_name msg = Some (job_file j)) as Hlook
    by (rewrite Ef, En'; apply lookup_singleton_eq).
  destruct Hwhat as [[Hty Hcomp]|Hty].
  - pose proof (complete_run (jb_uuid j) send true msg cl (job_file j) Eu Hlook Hty) as Hrun.
    eexists. split; [apply work_one; exact Hrun|]. left. cbn [client_files cl_sent].
    rewrite Ef, En'. split; [apply delete_singleton_eq|done].
  - pose proof (chunk_request_any (jb_uuid j) sent_whole sent_whole_all msg cl (job_file j)
      (jb_content j) Eu Hlook Hty ltac:(rewrite Efs; by eapply f_local) ltac:(by eapply f_sender)
      ltac:(done)) as Hany. cbv zeta in Hany.
    pose proof (u16_range (chunk_idx_first (chunk_req msg))) as Hi.
    set (i := u16 (chunk_idx_first (chunk_req msg))) in *.
    assert (exists cl', Handler.work (client_handler sent_whole (jb_uuid j)) [(true, msg)] cl =
        (Ok tt, cl') /\ offering j cl' /\ exists m, asking j m /\ (cl_sent cl' = encode m \/ cl_sent cl' = []))
      as (cl' & Hwork & [Efs' Ef'] & m & Hm & Es').
    { cbn [Handler.work]. rewrite M_bind_case. unfold try_ignore, Handler.handleRequest, client_handler.
      rewrite Hany. destruct (Z.ltb_spec (i * CHUNK_SIZE) (zlen (jb_content j))).
      - eexists. split; [done|]. split; [done|]. eexists. split; [|left; by rewrite Es].
        apply chunk_asking; [done|]. pose proof (n_chunks_bounds (zlen (jb_content j)) ltac:(lia)).
        rewrite CHUNK_SIZE_eq in *. lia.
      - exists cl. destruct (_ =? _); (split; [done|]; split; [done|]); eexists;
          (split; [by apply offer_asking|by right]). }
    eexists. split; [by apply (work_taken _ send)|]. right. cbn [client_files cl_sent].
    split; [done|]. destruct Es' as [Es'|Es'].
    + destruct (taken_prefix (send (cl_sent cl')) (cl_sent cl')) as [lost El]. exists m, lost.
      by rewrite <- El.
    + exists m, (encode m). by rewrite Es', taken_nil.
Qed.

(** ** Where the exchange of a client is *)

(** [stage Ks i j pe queue work]: the exchange of client [i], which uploads [j], when the
    chunks [Ks] are known; [queue] are its requests in the server's queue, [work] those in
    the hands of workers. Of the message on its way to the server the socket has not taken
    [lost]: all of it, when the client does not send anything any more. *)
Inductive stage Ks i j : peer -> list Message -> list (prog (option Message)) -> Prop :=
| st_up m pre lost cl c e :
    asking j m -> offering j cl -> pre ++ cl_sent cl ++ lost = encode m -> holds_part i pre c ->
    quiet e -> stage Ks i j (mk_peer (jb_uuid j) cl c [] e) [] []
| st_queued m cl c e :
    asking j m -> offering j cl -> cl_sent cl = [] -> holds_part i [] c -> quiet e ->
    stage Ks i j (mk_peer (jb_uuid j) cl c [] e) [arrived m] []
| st_served m left p cl c e :
    asking j m -> busy ups Ms Ks left (arrived m) p -> offering j cl -> cl_sent cl = [] ->
    holds_part i [] c -> quiet e -> stage Ks i j (mk_peer (jb_uuid j) cl c [] e) [] [p]
| st_down a pre down lost cl c e :
    telling Ks j a -> offering j cl -> cl_sent cl = [] -> holds_part i [] c ->
    pre ++ down ++ lost = encode a -> holds_part 0 pre (e_conn e) -> e_broker e = Some [] ->
    stage Ks i j (mk_peer (jb_uuid j) cl c down e) [] []
| st_received a cl c e :
    telling Ks j a -> offering j cl -> cl_sent cl = [] -> holds_part i [] c ->
    holds_part 0 [] (e_conn e) -> e_broker e = Some [mk_request 0 (arrived a)] ->
    stage Ks i j (mk_peer (jb_uuid j) cl c [] e) [] []
| st_done cl c e :
    client_files cl = ∅ -> cl_sent cl = [] -> complete_now Ks j -> quiet e ->
    stage Ks i j (mk_peer (jb_uuid j) cl c [] e) [] [].

Lemma stage_more Ks Ks' i j pe queue work :
  more Ks Ks' -> stage Ks i j pe queue work -> stage Ks' i j pe queue work.
Proof.
  intros HK []; [eapply st_up|eapply st_queued|eapply st_served|eapply st_down|eapply st_received
    |eapply st_done]; eauto using telling_more, complete_more, busy_more.
Qed.

Lemma stage_completed Ks i j pe queue work :
  stage Ks i j pe queue work -> uploadsCompleted (pr_client pe) = true -> complete_now Ks j.
Proof.
  unfold uploadsCompleted. rewrite bool_decide_eq_true.
  intros [? ? ? ? ? ? ? [_ Ef]|? ? ? ? ? [_ Ef]|? ? ? ? ? ? ? ? [_ Ef]|? ? ? ? ? ? ? ? [_ Ef]
    |? ? ? ? ? [_ Ef]|]; try done; cbn [pr_client]; rewrite Ef; intros E;
    by apply map_non_empty_singleton in E.
Qed.

(** *** From one stage to the next *)
Lemma server_reads_stage Ks i j n pe queue work errno (q : list Request) :
  stage Ks i j pe queue work -> cl_sent (pr_client pe) <> [] ->
  exists c e new,
    Conn.handleEvent i (bytes_events (take (S n) (cl_sent (pr_client pe))))
      (mk_env (pr_conn pe) errno (Some q)) = (Ok tt, mk_env c e (Some (q ++ new)), []) /\
    Forall (fun r => rq_connection r = i) new /\
    stage Ks i j (mk_peer (pr_uuid pe) (take_sent (S n) (pr_client pe)) c (pr_down pe) (pr_end pe))
      (queue ++ (rq_message <$> new)) work.
Proof.
  intros [m pre lost cl c e Hm Hc E Hpart Hq| | | | | ] Hs; cbn in Hs; try done.
  cbn [pr_client pr_conn pr_uuid pr_down pr_end].
  rewrite <- (take_drop (S n) (cl_sent cl)), <- app_assoc in E.
  destruct (handleEvent_part i m pre _ _ c errno q (ak_wf _ _ Hm) Hpart (eq_sym E))
    as (c' & e' & Hev & Hpart').
  case_decide as Hr; (eexists c', e', _; split; [exact Hev|]).
  - split; [by repeat constructor|]. apply app_nil in Hr as [Hr _].
    by apply (st_queued Ks i j m).
  - split; [constructor|]. apply (st_up Ks i j m (pre ++ take (S n) (cl_sent cl)) lost); try done.
    by rewrite <- app_assoc.
Qed.

Lemma client_reads_stage Ks i j n pe queue work :
  stage Ks i j pe queue work -> pr_down pe <> [] ->
  exists e, Conn.handleEvent 0 (bytes_events (take (S n) (pr_down pe))) (pr_end pe) = (Ok tt, e, []) /\
    stage Ks i j (mk_peer (pr_uuid pe) (pr_client pe) (pr_conn pe) (drop (S n) (pr_down pe)) e)
      queue work.
Proof.
  intros [| | |a pre down lost cl c [ce errno q] Ha Hc Es Hpart E He Hq| | ] Hs; cbn in Hs; try done.
  cbn [pr_client pr_conn pr_uuid pr_down pr_end e_conn e_broker] in *. subst q.
  rewrite <- (take_drop (S n) down), <- app_assoc in E.
  destruct (handleEvent_part 0 a pre _ _ ce errno [] (tl_wf _ _ _ Ha) He (eq_sym E))
    as (c' & e' & Hev & Hpart').
  case_decide as Hr; (eexists; split; [exact Hev|]).
  - apply app_nil in Hr as [-> _]. by apply (st_received Ks i j a).
  - apply (st_down Ks i j a (pre ++ take (S n) down) _ lost); try done. by rewrite <- app_assoc.
Qed.

Lemma client_handles_stage Ks i j (send : bytes -> send_result) pe queue work (r : Request)
    (q : list Request) :
  job_ok j -> stage Ks i j pe queue work -> e_broker (pr_end pe) = Some (r :: q) ->
  exists cl, Handler.work (client_handler send (pr_uuid pe)) [(true, rq_message r)] (pr_client pe) =
      (Ok tt, cl) /\
    stage Ks i j (mk_peer (pr_uuid pe) cl (pr_conn pe) (pr_down pe) (setRequestBroker (Some q) (pr_end pe)))
      queue work.
Proof.
  intros Hok Hst Hs. destruct Hst as [? ? ? ? ? ? ? ? ? ? [_ Hq]|? ? ? ? ? ? ? ? [_ Hq]
    |? ? ? ? ? ? ? ? ? ? ? [_ Hq]| |a cl c e Ha Hc Es Hpart He Hq|? ? ? ? ? ? [_ Hq]];
    cbn in Hs; try congruence.
  destruct e as [ce errno b]. cbn [e_broker] in Hq, Hs. subst b. injection Hs as <- <-.
  cbn [rq_message pr_uuid pr_client pr_conn pr_down pr_end].
  destruct (client_told j a cl send Ks Hok Ha Hc Es) as (cl' & Hwork & Hnext). exists cl'.
  split; [done|]. destruct Hnext as [(Ef & Es' & Hcomp)|(Hc' & m & lost & Hm & E)].
  - by apply (st_done Ks i j).
  - by apply (st_up Ks i j m [] lost).
Qed.

Lemma worker_takes_stage Ks i j pe (msg : Message) queue work :
  job_ok j -> (exists k, ups !! k = Some j) -> stage Ks i j pe (msg :: queue) work ->
  queue = [] /\ work = [] /\ stage Ks i j pe [] [respond_calls msg].
Proof.
  intros [Ht _] [k Ek]. inversion 1 as [|m cl c e Hm Hc Es Hpart Hq| | | | ]; subst.
  destruct (respond_busy ups Ms Ks k j (arrived m) (ak_valid _ _ Hm) (to_size _ _ _ _ _ Ht) Ek
    (ak_about _ _ Hm)) as [left Hb].
  split; [done|]. split; [done|]. by eapply st_served.
Qed.

Lemma worker_calls_stage Ks i j σ pe queue work {X : Set} (c : call X) f :
  stage Ks i j pe queue work -> Call c f ∈ work -> all_held ups Ms Ks σ ->
  work = [Call c f] /\ exists Ks', more Ks Ks' /\
    all_held ups Ms Ks' (snd (step_call (Call c f) σ)) /\
    stage Ks' i j pe queue [fst (step_call (Call c f) σ)].
Proof.
  intros Hp Hin Hall. inversion Hp as [| |m left p cl c' e Hm Hb Hc Es Hpart Hq| | | ]; subst;
    try by apply elem_of_nil in Hin.
  apply list_elem_of_singleton in Hin as <-. split; [done|].
  destruct (busy_step ups ups_identity Hapart Ms Ks left (arrived m) _ σ Hall Hb)
    as (Ks' & HK & Hall' & Hb').
  exists Ks'. split; [done|]. split; [done|]. by eapply st_served.
Qed.

(** No two uploads are concerned by one request. *)
Lemma concerns_one k k' j j' (m : Message) :
  ups !! k = Some j -> ups !! k' = Some j' -> concerns m j -> concerns m j' -> k = k'.
Proof.
  intros Ek Ek' (Eu & En & _) (Eu' & En' & _). destruct (decide (k = k')) as [|Hne]; [done|].
  destruct (Hapart k k' j j' Ek Ek' Hne) as [Hn _]; congruence.
Qed.

Lemma busy_done Ks left j (m : Message) (r : res (option Message)) :
  (exists k, ups !! k = Some j) -> asking j m -> busy ups Ms Ks left (arrived m) (Done r) ->
  exists a, r = Ok (Some a) /\ telling Ks j a.
Proof.
  intros [k Ek] [_ Hv Hc] (k' & j' & Ek' & Hc' & x & -> & Hx).
  pose proof (concerns_one k k' j j' _ Ek Ek' Hc Hc') as <-. rewrite Ek in Ek'. injection Ek' as <-.
  destruct (Hx (Ks k) ltac:(done)) as [(a & -> & Hfit) _]. exists a. split; [done|].
  destruct (fitting_message _ a j (Ks k) Hv Hc Hfit) as (Hwf & Eu & En & Hwhat).
  destruct Hc as (Eu' & En' & _). constructor; [done|congruence|congruence|].
  destruct Hwhat as [[Et Hw]|(Et & _)]; [left|by right]. split; [done|]. by exists k.
Qed.

Lemma worker_answers_stage Ks i j (send : bytes -> send_result) pe queue work
    (r : res (option Message)) :
  (exists k, ups !! k = Some j) -> stage Ks i j pe queue work -> Done r ∈ work ->
  work = [Done r] /\ exists sent,
    (send_answer send r = Ok sent \/ sent = [] /\ exists x, send_answer send r = Throw x) /\
    stage Ks i j (mk_peer (pr_uuid pe) (pr_client pe) (pr_conn pe) (pr_down pe ++ sent) (pr_end pe))
      queue [].
Proof.
  intros Hk Hp Hin. inversion Hp as [| |m left p cl c' e Hm Hb Hc Es Hpart Hq| | | ]; subst;
    try by apply elem_of_nil in Hin.
  apply list_elem_of_singleton in Hin as <-. split; [done|].
  destruct (busy_done Ks left j m r Hk Hm Hb) as (a & -> & Ha). destruct Hq as [He Hb0].
  assert (send_answer send (Ok (Some a)) = sendBuffer (send (encode a)) (encode a)) as E.
  { unfold send_answer. cbn [mbind res_bind]. by rewrite (serialize_encode a [] (tl_wf _ _ _ Ha)). }
  rewrite E. destruct (taken_prefix (send (encode a)) (encode a)) as [lost El].
  eexists. split; [apply sendBuffer_cases|]. by apply (st_down Ks i j a [] _ lost).
Qed.

(** ** The whole *)
Definition staged Ks σ i (pe : peer) (queue : list Message)
    (work : list (prog (option Message))) : Prop :=
  exists j, js !! i = Some j /\ stage Ks i j pe queue work.

Definition learned i (P Q : Prop) : (nat -> gset Z) -> (nat -> gset Z) -> Prop := more.

Abbreviation going := (course (all_held ups Ms) staged (length js)).

Lemma staged_step (P Q : Prop) Ks Ks' σ σ' i j pe queue work :
  js !! i = Some j -> more Ks Ks' -> all_held ups Ms Ks' σ' -> stage Ks' i j pe queue work ->
  steps_to (all_held ups Ms) staged learned P Q Ks σ i Ks' σ' pe queue work.
Proof.
  intros Ej HK Hall Hp. constructor; [done|done|by exists j|].
  intros k pk qk wk _ (jk & Ek & Hpk). exists jk. split; [done|]. by apply (stage_more Ks).
Qed.

#[local] Instance again_exchanges : Exchanges everybody (all_held ups Ms) staged learned.
Proof.
  split.
  - intros Ks σ i n pe queue work errno q _ Hall (j & Ej & Hp) Hne.
    destruct (server_reads_stage Ks i j n pe queue work errno q Hp Hne) as (c & e & new & Hev & Hnew & Hp').
    exists c, e, new, Ks. split; [done|]. split; [done|]. by apply (staged_step _ _ Ks Ks σ σ i j).
  - intros Ks σ i n pe queue work _ Hall (j & Ej & Hp) Hne.
    destruct (client_reads_stage Ks i j n pe queue work Hp Hne) as (e & Hev & Hp').
    exists e, Ks. split; [done|]. by apply (staged_step _ _ Ks Ks σ σ i j).
  - intros send Ks σ i pe queue work r q _ Hall (j & Ej & Hp) Eq.
    destruct (client_handles_stage Ks i j send pe queue work r q (client_ok i j Ej) Hp Eq)
      as (cl & Hwork & Hp').
    exists cl, Ks. split; [done|]. by apply (staged_step _ _ Ks Ks σ σ i j).
  - intros Ks σ i pe msg queue work Hall (j & Ej & Hp).
    destruct (worker_takes_stage Ks i j pe msg queue work (client_ok i j Ej) (Hjs i j Ej) Hp)
      as (E0 & E1 & Hp').
    split; [done|]. split; [done|]. exists Ks. by apply (staged_step _ _ Ks Ks σ σ i j).
  - intros Ks σ i pe queue work X c f Hall (j & Ej & Hp) Hin.
    destruct (worker_calls_stage Ks i j σ pe queue work c f Hp Hin Hall)
      as (E & Ks' & HK & Hall' & Hp').
    split; [done|]. exists Ks'. by apply (staged_step _ _ Ks Ks' σ _ i j).
  - intros send Ks σ i pe queue work r Hall (j & Ej & Hp) Hin.
    destruct (worker_answers_stage Ks i j send pe queue work r (Hjs i j Ej) Hp Hin)
      as (E & sent & Hsent & Hp').
    split; [done|]. exists sent, Ks. split; [done|]. by apply (staged_step _ _ Ks Ks σ σ i j).
Qed.

Lemma run_going evs Ks s :
  going Ks s -> exists s' Ks', run_events evs s = Ok s' /\ going Ks' s'.
Proof.
  intros Hg. destruct (run_course everybody _ _ _ _ evs Ks s (Forall_true _ _ all_act) Hg) as (s' & Ks' & Hrun & Hg' & _).
  by exists s', Ks'.
Qed.

Lemma boot_going fd garbage n σ : all_held ups Ms Ms σ -> going Ms (boot fd garbage n σ js).
Proof.
  intros Hall. apply boot_course; [done|done|]. intros i j Ej. exists j. split; [done|].
  unfold boot_peer. rewrite (started_eq j (client_ok i j Ej)).
  eapply (st_up Ms i j _ [] []); [by apply offer_asking, (client_ok i)|done| |apply holds_nothing|].
  - cbn [app cl_sent]. apply app_nil_r.
  - split; [apply holds_nothing|done].
Qed.
End Again.

(** ** Properties *)
Section Properties.
Context `{Blake2bLaws} `{UuidTextLaws}.
Context (ups : list job) (Hups : Forall job_ok ups).
Context (Hapart : forall k l j j', ups !! k = Some j -> ups !! l = Some j' -> k <> l -> apart j j').
Context (σ : fs) (us : list upload).
Context (Hus : Forall2 (fun j u => represents σ (job_dir j) (jb_name j) u /\
  partial_of (jb_content j) u) ups us).
Context (js : list job) (Hjs : forall i j, js !! i = Some j -> exists k, ups !! k = Some j).
Context (fd garbage : nat -> Z) (n_workers : nat).

(** The marks of the uploads at the start. *)
Definition marks_of : nat -> gset Z := fun k => from_option up_marked ∅ (us !! k).

Lemma start_held : all_held ups marks_of marks_of σ.
Proof.
  intros k j Ek. destruct (Forall2_lookup_l _ _ _ _ _ Hus Ek) as (u & Eu & Hrep & Hp).
  unfold marks_of. rewrite Eu. by apply represents_held.
Qed.

Lemma held_upload Ks σ' k j u :
  all_held ups marks_of Ks σ' -> ups !! k = Some j -> us !! k = Some u -> exists u',
    represents σ' (job_dir j) (jb_name j) u' /\ partial_of (jb_content j) u' /\
    up_marked u ⊆ up_marked u'.
Proof.
  intros Hall Ek Eu. pose proof (Hall k j Ek) as Hheld.
  destruct (Forall2_lookup_lr _ _ _ _ _ _ Hus Ek Eu) as [Hrep Hp].
  pose proof (Forall_lookup_1 _ _ _ _ Hups Ek) as [Ht _].
  assert (marks_of k = up_marked u) as Em by (unfold marks_of; by rewrite Eu). rewrite Em in Hheld.
  destruct (held_represents _ _ _ (to_size _ _ _ _ _ Ht) _ _ _ ltac:(
    intros i Hi; rewrite <- (partial_chunks _ _ Hp); by apply (uo_marked _ (rp_ok _ _ _ _ Hrep)))
    Hheld) as (u' & Q1 & Q2 & Q3 & _). by exists u'.
Qed.

(** C11: the whole system stays safe when clients are started again, or several at once
    upload the same file: for any number of uploads that the server has accepted before (their
    files and metadata are on its disk at the start) and any number of clients, each with one
    of them, however everything is interleaved, delivered and taken by the sockets,
    and wherever a client is killed (its events just end), no step throws or is undefined,
    whenever any of the clients takes its upload for completed the whole file is on the
    server, and every upload keeps the marks it had at the start and has only right bytes in
    the marked chunks (a mark made during the run may be lost, see [markChunk_race]). And if
    everything is stopped then and each upload is left to one client, that run ends, and if
    its sockets take whole messages it ends with every file stored. *)
Theorem again_safe (evs : list event) (fd' garbage' : nat -> Z) (n' : nat) :
  (0 < n')%nat ->
  exists s, run_events evs (boot fd garbage n_workers σ js) = Ok s /\
    (forall i j, js !! i = Some j -> exists pe, nw_peers s !! i = Some pe /\
       (uploadsCompleted (pr_client pe) = true ->
        nw_disk s !! job_data j = Some (Reg (jb_content j)))) /\
    (forall k j u, ups !! k = Some j -> us !! k = Some u -> exists u',
       represents (nw_disk s) (job_dir j) (jb_name j) u' /\ partial_of (jb_content j) u' /\
       up_marked u ⊆ up_marked u') /\
    let s0 := boot fd' garbage' n' (nw_disk s) ups in
    sn (moves anything) s0 /\ forall s', rtc (moves lossless) s0 s' -> nf (moves lossless) s' ->
      forall k j, ups !! k = Some j -> nw_disk s' !! job_data j = Some (Reg (jb_content j)).
Proof.
  intros Hn. destruct (run_going ups Hups Hapart marks_of js Hjs evs marks_of _
    (boot_going ups Hups marks_of js Hjs fd garbage n_workers σ start_held)) as (s & Ks & Hrun & Hg).
  pose proof (co_good _ _ _ _ _ Hg) as Hall. exists s. split; [done|]. split; [|split].
  - intros i j Ej. destruct (co_place _ _ _ _ _ Hg i (lookup_lt_Some _ _ _ Ej)) as (pe & Ep & j' & Ej' & Hp).
    rewrite Ej in Ej'. injection Ej' as <-. exists pe. split; [done|]. intros Hdone.
    exact (complete_stored _ _ _ _ _ Hall (stage_completed _ _ _ _ _ _ _ _ Hp Hdone)).
  - intros k j u. by apply held_upload with (Ks := Ks).
  - assert (Forall (may_start (nw_disk s)) ups) as Hagain.
    { apply Forall_lookup_2. intros k j Ek.
      destruct (Forall2_lookup_l _ _ _ _ _ Hus Ek) as (u & Eu & _).
      destruct (held_upload Ks _ k j u Hall Ek Eu) as (u' & Q1 & Q2 & _). right. by exists u'. }
    destruct (stored_at_end ups Hups Hapart fd' garbage' n' (nw_disk s) Hagain Hn) as [Hsn Hend].
    split; [done|]. intros s' Hr Hnf k j Ek. destruct (Hend s' Hr Hnf) as (_ & _ & Hs).
    by destruct (Hs k j Ek) as (pe & _ & _ & Hd).
Qed.
End Properties.

(** ** A witness *)
Section Witnesses.
Import ToyHash ToyUuid.

(** Two clients of one upload, of which the server lacks a chunk. Both are asked for it;
    the first one is killed when it has sent it, and its handler is still going on while
    the second one's chunk is stored. *)
Definition twice_events : list event :=
  [ServerReads 0 5000; WorkerTakes 0] ++ replicate 150 (WorkerCalls 0) ++
  [WorkerAnswers 0 sent_whole; ClientReads 0 5000; ClientHandles 0 sent_whole;
   ServerReads 0 5000; ServerReads 1 5000; WorkerTakes 1; WorkerTakes 0] ++
  replicate 20 (WorkerCalls 1) ++ replicate 150 (WorkerCalls 0) ++
  [WorkerAnswers 0 sent_whole; ClientReads 1 5000; ClientHandles 1 sent_whole;
   ServerReads 1 5000; WorkerTakes 0] ++
  concat (replicate 150 [WorkerCalls 0; WorkerCalls 1]) ++
  [WorkerAnswers 0 sent_whole; ClientReads 1 5000; ClientHandles 1 sent_whole].

Definition twice_boot : network :=
  boot Z.of_nat (fun _ => 77) 2 resumed_fs [resumed_job; resumed_job].

Lemma twice_completes :
  match run_events twice_events twice_boot with
  | Ok s => (fun pe => uploadsCompleted (pr_client pe)) <$> nw_peers s
  | _ => []
  end = [false; true].
Proof. vm_compute. reflexivity. Qed.

Lemma again_safe_witness :
  exists s u', run_events twice_events twice_boot = Ok s /\
    nw_disk s !! job_data resumed_job = Some (Reg resumed_content) /\
    represents (nw_disk s) (upload_dir sample_uuid) (str "file.txt") u' /\
    partial_of resumed_content u' /\ {[0; 2]} ⊆ up_marked u'.
Proof.
  destruct (again_safe [resumed_job] ltac:(apply Forall_singleton, resumed_job_ok)
    ltac:(intros [|k] [|l] j j' Ek El Hkl; [by destruct Hkl|..]; rewrite ?lookup_nil in *; done)
    resumed_fs [resumed_upload]
    ltac:(apply Forall2_cons; [split; [apply resumed_represents|apply resumed_partial]|constructor])
    [resumed_job; resumed_job]
    ltac:(intros [|[|i]] j E; rewrite ?lookup_nil in E; [..|done]; by exists 0%nat)
    Z.of_nat (fun _ => 77) 2 twice_events Z.of_nat (fun _ => 78) 1 ltac:(lia))
    as (s & Hrun & Hdone & Hup & _).
  destruct (Hup 0%nat resumed_job resumed_upload eq_refl eq_refl) as (u' & P1 & P2 & P3).
  exists s, u'. split; [exact Hrun|]. split; [|split; [exact P1|split; [exact P2|exact P3]]].
  destruct (Hdone 1%nat resumed_job eq_refl) as (pe & Ep & Hd). apply Hd.
  pose proof twice_completes as Hc. unfold twice_boot in Hc. rewrite Hrun in Hc.
  destruct (nw_peers s) as [|pe0 [|pe1 [|? ?]]]; try discriminate Hc.
  injection Ep as <-. injection Hc as _ Hc. exact Hc.
Defined.
End Witnesses.
