(* ===== verification/Last.v ===== *)
(** * A client that is started when the others are gone

    [Again] shows that clients which are killed and started again do no harm; here the one
    that is started last completes, on the same server process: when nothing that the others
    have sent is in the queue or in the hands of a worker any more. *)
From Stdlib Require Import Relation_Operators Lexicographic_Product.
From S2P Require Import Prelude StdFs Msg FileMeta Identity File Upload.
From S2P Require Import MsgFctry Conn Framing Server Client Handler Calls.
From S2P Require Import Transfer Clients Workers Crash Shared System Steps Exchange Network Again.
Import FsFacts DirFacts.

Implicit Types (i k w n : nat) (σ : fs) (j : job).

(** ** One client among others that do nothing *)
Section Last.
Context `{Blake2bLaws} `{UuidTextLaws}.
Context (clients i : nat) (j : job) (Hi : (i < clients)%nat) (Hok : job_ok j).

(** The exchange of client [i] is where [Exchange] has it; for the others there is nothing. *)
Definition alone_at (rk : rank) σ k (pe : peer) (queue : list Message)
    (work : list (prog (option Message))) : Prop :=
  if decide (k = i) then phase j i σ rk pe queue work else queue = [] /\ work = [].

Definition down k (P Q : Prop) (rk rk' : rank) : Prop := lower P rk' rk.

Abbreviation any_disk := (fun (rk : rank) (σ : fs) => True).
Abbreviation alone := (course any_disk alone_at clients).

Lemma alone_step (P Q : Prop) rk rk' σ σ' pe queue work :
  lower P rk' rk -> phase j i σ' rk' pe queue work ->
  steps_to any_disk alone_at down P Q rk σ i rk' σ' pe queue work.
Proof.
  intros Hlt Hp. constructor; [done|done| |]; unfold alone_at.
  { by rewrite decide_True. }
  intros k pk qk wk Hne. by rewrite !decide_False.
Qed.

Lemma alone_phase rk σ pe queue work : alone_at rk σ i pe queue work -> phase j i σ rk pe queue work.
Proof. unfold alone_at. by rewrite decide_True. Qed.

#[local] Instance last_exchanges : Exchanges (eq i) any_disk alone_at down.
Proof.
  split.
  - intros rk σ k n pe queue work errno q <- _ Hp%alone_phase Hne.
    destruct (server_reads_phase j Hok i n σ rk pe queue work errno q Hp Hne)
      as (c & e & new & rk' & Hev & Hnew & Hlt & Hp').
    exists c, e, new, rk'. split; [done|]. split; [done|]. by apply alone_step.
  - intros rk σ k n pe queue work <- _ Hp%alone_phase Hne.
    destruct (client_reads_phase j i n σ rk pe queue work Hp Hne) as (e & rk' & Hev & Hlt & Hp').
    exists e, rk'. split; [done|]. by apply alone_step.
  - intros send rk σ k pe queue work r q <- _ Hp%alone_phase Eq.
    destruct (client_handles_phase j Hok send i σ rk pe queue work r q Hp Eq)
      as (cl & rk' & Hwork & Hlt & Hp').
    exists cl, rk'. split; [done|]. by apply alone_step.
  - intros rk σ k pe msg queue work _ Hp. destruct (decide (k = i)) as [-> |Hne].
    2: { unfold alone_at in Hp. rewrite decide_False in Hp by done. by destruct Hp. }
    apply alone_phase in Hp.
    destruct (worker_takes_phase j Hok i σ rk pe msg queue work Hp) as (E0 & E1 & rk' & Hlt & Hp').
    split; [done|]. split; [done|]. exists rk'. by apply alone_step.
  - intros rk σ k pe queue work X c f _ Hp Hin. destruct (decide (k = i)) as [-> |Hne].
    2: { unfold alone_at in Hp. rewrite decide_False in Hp by done. destruct Hp as [_ ->].
      by apply elem_of_nil in Hin. }
    apply alone_phase in Hp.
    destruct (worker_calls_phase j Hok i σ rk pe queue work c f Hp Hin) as (E & rk' & σ1 & Hlt & Hp' & _).
    split; [done|]. exists rk'. by apply alone_step.
  - intros send rk σ k pe queue work r _ Hp Hin. destruct (decide (k = i)) as [-> |Hne].
    2: { unfold alone_at in Hp. rewrite decide_False in Hp by done. destruct Hp as [_ ->].
      by apply elem_of_nil in Hin. }
    apply alone_phase in Hp.
    destruct (worker_answers_phase j send i σ rk pe queue work r Hp Hin)
      as (E & sent & rk' & Hsent & Hlt & _ & Hp').
    split; [done|]. exists sent, rk'. split; [done|]. by apply alone_step.
Qed.

(** Only client [i] and the workers do anything. *)
Definition only (P : event -> Prop) (ev : event) : Prop := P ev /\ acts (eq i) ev.

Lemma only_acts (P : event -> Prop) ev : only P ev -> acts (eq i) ev.
Proof. by intros [_ Hact]. Qed.

Lemma alone_sn (P : event -> Prop) rk s : alone rk s -> sn (moves (only P)) s.
Proof.
  apply (course_sn (eq i) _ _ _ _ (lower False)).
  - intros k P' Q x y Hd. unfold down, lower in *. tauto.
  - apply lower_wf.
  - apply only_acts.
Qed.

Lemma alone_completes rk s s' :
  alone rk s -> ~ lost_rank rk -> (0 < length (nw_workers s))%nat ->
  rtc (moves (only lossless)) s s' -> nf (moves (only lossless)) s' ->
  exists pe, nw_peers s' !! i = Some pe /\ uploadsCompleted (pr_client pe) = true /\
    nw_disk s' !! job_data j = Some (Reg (jb_content j)).
Proof.
  intros Hc Hlost Hw Hr Hnf. pose proof (moves_workers _ _ _ Hr) as Hl.
  destruct (moves_course (eq i) _ _ _ _ _ rk s s' (only_acts lossless) Hc Hr) as (rk' & Hc' & Hg).
  assert (~ lost_rank rk') as Hlost'.
  { clear Hc Hc'. induction Hg as [|rk rk1 rk' (k & ev & Q & [Hev _] & Hd) _ IH]; [done|].
    apply IH. intros H'. by apply Hlost, Hd. }
  destruct (co_place _ _ _ _ _ Hc' i Hi) as (pe & Ep & _). exists pe. split; [done|].
  destruct (peer_idle (eq i) _ _ _ clients (only lossless) (fun ev H H' => conj H H') rk' s' Hc' Hnf
    ltac:(lia) i pe eq_refl Ep) as (Es & Ed & Eb & Hp%alone_phase).
  assert (uploadsCompleted (pr_client pe) = true) as Hdone.
  { destruct (phase_enabled j i _ _ _ _ _ Hp Hlost') as [Hn|[Hn|[Hn|[Hn|[(r & q & Hn)|Hn]]]]];
      [done..| |done]. by destruct (Eb r q). }
  split; [done|]. by apply (phase_completed j i _ _ _ _ _ Hp).
Qed.
End Last.

(** ** Properties *)
Section Properties.
Context `{Blake2bLaws} `{UuidTextLaws}.
Context (ups : list job) (Hups : Forall job_ok ups).
Context (Hapart : forall k l j j', ups !! k = Some j -> ups !! l = Some j' -> k <> l -> apart j j').
Context (σ : fs) (us : list upload).
Context (Hus : Forall2 (fun j u => represents σ (job_dir j) (jb_name j) u /\
  partial_of (jb_content j) u) ups us).
Context (js : list job) (Hjs : forall i j, js !! i = Some j -> exists k, ups !! k = Some j).
Context (fd garbage : nat -> Z) (n_workers : nat).

(** Client [i] has been started and nothing of it has been read; the server is idle. *)
Record quiet_for (s : network) i j : Prop := mk_quiet_for {
  qf_peer : nw_peers s !! i = Some (boot_peer fd garbage i j);
  qf_queue : nw_queue s = [];
  qf_workers : Forall (eq None) (nw_workers s) }.

Lemma quiet_alone Ks s i j :
  course (all_held ups (marks_of us)) (staged ups (marks_of us) js) (length js) Ks s ->
  js !! i = Some j -> quiet_for s i j ->
  exists rk, course (fun _ _ => True) (alone_at i j) (length js) rk s /\ ~ lost_rank rk.
Proof.
  intros Hg Ej [Ep Eq Hw]. destruct (Hjs i j Ej) as [k Ek].
  pose proof (Forall_lookup_1 _ _ _ _ Hups Ek) as Hok.
  destruct (Forall2_lookup_l _ _ _ _ _ Hus Ek) as (u & Eu & _).
  destruct (held_upload ups Hups σ us Hus Ks _ k j u (co_good _ _ _ _ _ Hg) Ek Eu)
    as (u' & Hrep & Hp & _).
  destruct (boot_phase j Hok fd garbage i (nw_disk s)) as (rk & Hphase & Hlost); [right; by exists u'|].
  exists rk. split; [|done]. constructor; [by apply (co_peers _ _ _ _ _ Hg)|done| | |].
  - intros l Hl. destruct (co_place _ _ _ _ _ Hg l Hl) as (pe & Epe & _). exists pe.
    split; [done|]. rewrite Eq, (served_idle l _ Hw). unfold alone_at. case_decide as E; [|done].
    subst l. by simplify_eq.
  - rewrite Eq. constructor.
  - revert Hw. apply Forall_impl. by intros x <-.
Qed.

(** C12: a client that is started again completes, on a server that keeps running: after any
    run of any number of clients of accepted uploads, in which some may have been killed at
    any moment and messages may have been lost, let a client be started, with the server
    idle and the others gone; then whatever the order of the steps, its run ends, and if the
    sockets take whole messages, it ends with the client told that its upload is complete
    and the whole file on the server. *)
Theorem last_client_completes (evs : list event) i j :
  js !! i = Some j -> (0 < n_workers)%nat ->
  exists s, run_events evs (boot fd garbage n_workers σ js) = Ok s /\
    (quiet_for s i j ->
     sn (moves (only i anything)) s /\
     forall s', rtc (moves (only i lossless)) s s' -> nf (moves (only i lossless)) s' ->
       exists pe, nw_peers s' !! i = Some pe /\ uploadsCompleted (pr_client pe) = true /\
         nw_disk s' !! job_data j = Some (Reg (jb_content j))).
Proof.
  intros Ej Hn. destruct (run_going ups Hups Hapart (marks_of us) js Hjs evs (marks_of us) _
    (boot_going ups Hups (marks_of us) js Hjs fd garbage n_workers σ (start_held ups σ us Hus)))
    as (s & Ks & Hrun & Hg).
  exists s. split; [done|]. intros Hquiet.
  destruct (quiet_alone Ks s i j Hg Ej Hquiet) as (rk & Hc & Hlost).
  pose proof (client_ok ups Hups js Hjs i j Ej) as Hok.
  split; [by apply (alone_sn (length js) i j Hok anything rk)|]. intros s' Hr Hnf.
  apply (alone_completes (length js) i j (lookup_lt_Some _ _ _ Ej) Hok rk s); try done.
  rewrite (run_events_workers _ _ _ Hrun). cbn. by rewrite length_replicate.
Qed.
End Properties.

(** ** A witness *)
Section Witnesses.
Import ToyHash ToyUuid.

(** The first client is killed when the server has a part of its chunk. *)
Definition killed_events : list event :=
  [ServerReads 0 5000; WorkerTakes 0] ++ replicate 150 (WorkerCalls 0) ++
  [WorkerAnswers 0 sent_whole; ClientReads 0 5000; ClientHandles 0 sent_whole; ServerReads 0 100].

Lemma killed_quiet :
  match run_events killed_events twice_boot with
  | Ok s => nw_peers s !! 1%nat = Some (boot_peer Z.of_nat (fun _ => 77) 1 resumed_job) /\
      nw_queue s = [] /\ nw_workers s = [None; None] /\
      (cl_sent ∘ pr_client <$> nw_peers s !! 0%nat) <> Some []
  | _ => False
  end.
Proof. vm_compute. split; [reflexivity|]. split; [reflexivity|]. split; [reflexivity|discriminate]. Qed.

Lemma last_client_completes_witness :
  exists s, run_events killed_events twice_boot = Ok s /\ sn (moves (only 1 anything)) s /\
    forall s', rtc (moves (only 1 lossless)) s s' -> nf (moves (only 1 lossless)) s' ->
      exists pe, nw_peers s' !! 1%nat = Some pe /\ uploadsCompleted (pr_client pe) = true /\
        nw_disk s' !! job_data resumed_job = Some (Reg resumed_content).
Proof.
  destruct (last_client_completes [resumed_job] ltac:(apply Forall_singleton, resumed_job_ok)
    ltac:(intros [|k] [|l] j j' Ek El Hkl; [by destruct Hkl|..]; rewrite ?lookup_nil in *; done)
    resumed_fs [resumed_upload]
    ltac:(apply Forall2_cons; [split; [apply resumed_represents|apply resumed_partial]|constructor])
    [resumed_job; resumed_job]
    ltac:(intros [|[|i]] j E; rewrite ?lookup_nil in E; [..|done]; by exists 0%nat)
    Z.of_nat (fun _ => 77) 2 killed_events 1 resumed_job eq_refl ltac:(lia)) as (s & Hrun & Hlast).
  pose proof killed_quiet as Hq. unfold twice_boot in Hq |- *. rewrite Hrun in Hq.
  destruct Hq as (Q1 & Q2 & Q3 & _). exists s. split; [exact Hrun|].
  apply Hlast. constructor; [exact Q1|exact Q2|]. rewrite Q3. by repeat constructor.
Defined.
End Witnesses.
