(* ===== verification/Twins.v ===== *)
(** * Two first offers of the same file

    [Shared] is about uploads that the server has accepted. When it has not yet, and two
    clients with one identity offer the same new file, the handler that comes second can
    have looked for the data file before the first one has made it; it creates the file
    then, whatever has been stored in the meantime. *)
From S2P Require Import Prelude StdFs Msg FileMeta Identity File Upload.
From S2P Require Import MsgFctry Conn Framing Server Client Calls Transfer Clients Workers.
From S2P Require Import Crash Shared System Exchange.
Import FsFacts DirFacts.

Implicit Types (σ : fs) (j : job).

(** Alone, a program gives the same from any point on. *)
Lemma exec_solo {A : Type} (n : nat) (p : prog A) σ :
  exec (fst (solo n p σ)) (snd (solo n p σ)) = exec p σ.
Proof. induction n as [|n IH]; [done|]. by rewrite solo_S, exec_step. Qed.

(** ** The constructor of the file, around the creation of the data file *)
Section Creation.
Context `{Blake2bLaws} (path e d n : bytes) (Hplaced : placed e d n).
Context (hash : bytes) (Hh : zlen hash = HASH_SIZE) (size : Z) (Hsize : 0 <= size < 2 ^ 32).

Abbreviation the_file := (mk_file path hash size e (FileRemote (meta_of e size hash))).

(** It writes the data file; it looks for it first. *)
Definition writing : prog File :=
  (os ← do (OpenTrunc e);
   let os := Stream.seekp os (u64 (size - 1)) in
   do (Write os [0]);;
   mret tt);;
  mret the_file.

Definition looking : prog File :=
  found ← do (Exists e);
  (if found : bool then mret tt
   else
     os ← do (OpenTrunc e);
     let os := Stream.seekp os (u64 (size - 1)) in
     do (Write os [0]);;
     mret tt);;
  mret the_file.

(** The metadata file is there, the data file is not. *)
Record half_made σ : Prop := mk_half_made {
  hm_dirs : dirs_exist σ (Path.resolve d);
  hm_data : σ !! data_key d n = None;
  hm_meta : is_Some (σ !! data_key d (meta_name n)) }.

Lemma half_made_exists σ : half_made σ -> Fs.exists_ e σ = (Ok false, σ).
Proof.
  intros [_ Hd _]. rewrite (exists_stat σ _ _ (placed_key _ _ _ Hplaced) (child_ne _ _)).
  fold (data_key d n). by rewrite Hd.
Qed.

(** Up to the look at the data file, when the directory and the metadata file are as given. *)
Lemma reach_looking {B : Type} (G : File -> prog B) σ σ0 σ1 :
  exec (create_directories_calls d) σ = (Ok tt, σ0) ->
  exec (createIfNotExist_calls (meta_of e size hash)) σ0 = (Ok tt, σ1) ->
  exists k, solo k (new_FileRemote_calls path hash size e ≫= G) σ = (looking ≫= G, σ1).
Proof.
  intros E0 E1. unfold new_FileRemote_calls. rewrite new_FileMetadata_meta_of, (placed_parent _ _ _ Hplaced).
  change (Done (Ok ?fm) ≫= ?f) with (f fm). cbv beta.
  destruct (solo_inside (fun p : prog unit =>
    @mbind prog prog_bind _ _ G (@mbind prog prog_bind _ _ (fun _ =>
      createIfNotExist_calls (meta_of e size hash);; looking) p)) _ tt σ σ0 (fun _ _ _ => eq_refl) E0)
    as [k1 Hk1].
  destruct (solo_inside (fun p : prog unit =>
    @mbind prog prog_bind _ _ G (@mbind prog prog_bind _ _ (fun _ => looking) p)) _ tt σ0 σ1
    (fun _ _ _ => eq_refl) E1) as [k2 Hk2].
  exists (k1 + k2)%nat. rewrite (solo_add k1 k2).
  match type of Hk1 with ?l = _ => match goal with |- context [solo k1 ?p σ] =>
    change (solo k1 p σ) with l end end.
  rewrite Hk1. exact Hk2.
Qed.

(** The first one makes the metadata file. *)
Lemma first_looks {B : Type} (G : File -> prog B) σ :
  dirs_free σ (Path.resolve d) -> σ !! data_key d n = None -> σ !! data_key d (meta_name n) = None ->
  exists k σ1, solo k (new_FileRemote_calls path hash size e ≫= G) σ = (looking ≫= G, σ1) /\
    half_made σ1.
Proof.
  intros Hfree Hnd Hnm.
  destruct (create_directories_spec σ d (placed_dir_ne _ _ _ Hplaced) Hfree) as (σ0 & Hcd & Hw).
  pose proof Hw as [Hd0 _].
  assert (forall m, σ0 !! data_key d m = σ !! data_key d m) as Hkeys
    by (intros m; apply (with_dirs_child _ _ _ _ Hw)).
  destruct (createIfNotExist_run σ0 (meta_of e size hash) d n Hplaced eq_refl Hh
    (dirs_exist_free _ _ Hd0)) as (σ1 & Hrun & Hw1); [by rewrite Hkeys|].
  rewrite (with_dirs_id _ _ _ Hd0 Hw1) in Hrun.
  rewrite <- (same_create_directories d σ) in Hcd.
  rewrite <- (same_createIfNotExist _ σ0) in Hrun.
  destruct (reach_looking G σ σ0 _ Hcd Hrun) as [k Hk]. eexists k, _. split; [exact Hk|].
  constructor; [by apply dirs_exist_insert| |by rewrite lookup_insert_eq].
  rewrite lookup_insert_ne by (apply not_eq_sym, placed_keys_ne). by rewrite Hkeys.
Qed.

(** The second one finds it, and no data file. *)
Lemma second_writes {B : Type} (G : File -> prog B) σ :
  half_made σ -> exists k, solo k (new_FileRemote_calls path hash size e ≫= G) σ = (writing ≫= G, σ).
Proof.
  intros Hhalf. pose proof Hhalf as [Hd Hnd [x Hx]].
  pose proof (create_directories_id σ d (placed_dir_ne _ _ _ Hplaced) Hd) as Hcd.
  destruct (createIfNotExist_old σ (meta_of e size hash) d n x Hplaced eq_refl
    (dirs_exist_free _ _ Hd) Hx) as (σ1 & Hrun & Hw). rewrite (with_dirs_id _ _ _ Hd Hw) in Hrun.
  rewrite <- (same_create_directories d σ) in Hcd. rewrite <- (same_createIfNotExist _ σ) in Hrun.
  destruct (reach_looking G σ σ σ Hcd Hrun) as [k Hk]. exists (k + 1)%nat.
  rewrite (solo_add k 1), Hk. cbn [fst snd solo].
  change (looking ≫= G) with (Call (Exists e) (fun found : bool =>
    @mbind prog prog_bind _ _ G ((if found then mret tt
     else
       os ← do (OpenTrunc e);
       let os := Stream.seekp os (u64 (size - 1)) in
       do (Write os [0]);;
       mret tt);;
    mret the_file))).
  cbn [step_call sem]. by rewrite (half_made_exists σ Hhalf).
Qed.

(** Whatever has been stored is lost then, but its marks are not. *)
Definition wiped (u : upload) : upload :=
  mk_upload (up_size u) (up_hash u) (zeros (Z.to_nat (up_size u))) (up_marked u).

Lemma writing_wipes σ u :
  represents σ d n u -> up_size u = size -> up_hash u = hash ->
  exists σ', exec writing σ = (Ok (handle path e (wiped u)), σ') /\ represents σ' d n (wiped u) /\
    σ' = <[data_key d n := Reg (zeros (Z.to_nat size))]> σ.
Proof.
  intros [Hu Hd Hdata (bm & Hm & Hb)] Es Eh. pose proof (placed_key _ _ _ Hplaced) as Hk.
  assert (Stream.open_trunc e σ = (Ok (Stream.opened (data_key d n)), <[data_key d n := Reg []]> σ))
    as Eo.
  { unfold Stream.open_trunc. rewrite Hk, (stat_ne σ (data_key d n)) by apply child_ne.
    rewrite Hdata. unfold data_key. rewrite child_parent. by rewrite dirs_exist_stat. }
  destruct (create_sparse d n σ size ltac:(lia)) as [os Hos].
  eexists. split; [|split; [|done]].
  - unfold writing. rewrite exec_bind, M_bind_case, exec_bind, M_bind_case, (same_do (OpenTrunc e)). cbn [sem].
    rewrite Eo. cbn beta iota zeta. rewrite exec_bind, M_bind_case, (same_do (Write _ _)).
    cbn [sem]. rewrite Hos. cbn. unfold handle, wiped. cbn. by rewrite Es, Eh.
  - constructor.
    + destruct Hu as [U1 U2 U3 U4]. constructor; [done|done| |done]. cbn.
      rewrite length_replicate. lia.
    + by apply dirs_exist_insert.
    + rewrite lookup_insert_eq. cbn. by rewrite Es.
    + exists bm. rewrite lookup_insert_ne by apply (placed_keys_ne d n). split; [done|].
      by destruct Hb.
Qed.
End Creation.

(** ** Two clients with one file of one chunk *)
Section Twins.
Context `{Blake2bLaws} `{UuidTextLaws}.
Context (j : job) (Hok : job_ok j) (Hone : 0 < zlen (jb_content j) <= CHUNK_SIZE).
Context (σ : fs) (Hfresh : fresh σ j).

Abbreviation the_offer := (arrived (buildMsgOffer 1 (jb_uuid j) (job_file j))).
Abbreviation the_chunk seq :=
  (arrived (chunk_message seq (jb_uuid j) (job_file j) (jb_content j) 0)).
Abbreviation at_path := (request_path the_offer).
Abbreviation at_e := (Path.append SERVER_BASE_PATH at_path).
Abbreviation start := (up_start (zlen (jb_content j)) (calc_hash_vec (jb_content j))).

(** The upload with its chunk, and after the second handler. *)
Definition received_all : upload := up_save start 0 (chunk_of (jb_content j) 0).
Definition destroyed : upload := wiped received_all.

Lemma one_chunk : n_chunks (zlen (jb_content j)) = 1.
Proof.
  pose proof (n_chunks_bounds (zlen (jb_content j)) ltac:(lia)) as Hn. rewrite CHUNK_SIZE_eq in *. lia.
Qed.

Lemma start_missing : up_missing start = [0].
Proof.
  unfold up_missing. rewrite filter_all by (intros i _; cbn; apply not_elem_of_empty).
  unfold up_chunks. cbn [up_start up_size]. by rewrite one_chunk.
Qed.

Lemma start_up_ok : up_ok start.
Proof. apply up_start_ok; [split; [lia|apply Hok]|apply blake_digest_size]. Qed.

Lemma received_missing : up_missing received_all = [].
Proof. exact (missing_save _ _ 0 [] start_up_ok (partial_start _) start_missing). Qed.

Lemma received_partial : partial_of (jb_content j) received_all.
Proof.
  apply (partial_save _ _ 0 start_up_ok (partial_start _)). rewrite one_chunk. lia.
Qed.

(** The handler of an offer, from the constructor on. *)
Definition go_on : File -> prog (option Message) :=
  fun file => response ← answer_calls the_offer file; mret (Some response).

Lemma offer_calls :
  respond_calls the_offer =
    (new_FileRemote_calls at_path (calc_hash_vec (jb_content j)) (zlen (jb_content j)) at_e ≫= go_on).
Proof.
  destruct (offer_received j Hok) as (_ & _ & _ & Es). unfold respond_calls.
  change (msg_type the_offer =? MSGTYPE_FILE_OFFER) with true. cbn iota zeta.
  change (file_hash (offer the_offer)) with (calc_hash_vec (jb_content j)). by rewrite Es.
Qed.

(** The answers: to the first offer, to the chunk, to the second offer. *)
Definition first_answer : Message := reply the_offer at_e start.
Definition chunk_answer (seq : Z) : Message :=
  reply (the_chunk seq) (Path.append SERVER_BASE_PATH (request_path (the_chunk seq))) received_all.
Definition second_answer : Message := reply the_offer at_e destroyed.

Lemma twin_placed : placed at_e (job_dir j) (jb_name j).
Proof.
  destruct (offer_received j Hok) as (_ & En & Hv & _). pose proof (request_placed _ Hv) as Hp.
  by rewrite En in Hp.
Qed.

Lemma first_alone :
  exists σA, exec (respond_calls the_offer) σ = (Ok (Some first_answer), σA) /\
    represents σA (job_dir j) (jb_name j) start.
Proof.
  destruct (offer_received j Hok) as (_ & _ & _ & Es). destruct Hfresh as (Hfree & Hd & Hm).
  destruct (respond_offer_fresh the_offer at_e _ _ eq_refl twin_placed σ eq_refl)
    as (σ1 & σA & Hrun & Hrep & _); [rewrite Es; split; [lia|apply Hok]|apply blake_digest_size|done..|].
  rewrite Es in Hrun, Hrep. exists σA. by rewrite run_respond_calls.
Qed.

Lemma chunk_alone_one seq σA :
  represents σA (job_dir j) (jb_name j) start ->
  exists σC, exec (respond_calls (the_chunk seq)) σA = (Ok (Some (chunk_answer seq)), σC) /\
    represents σC (job_dir j) (jb_name j) received_all.
Proof.
  intros Hrep. destruct (chunk_received j Hok seq 0) as (_ & En & Hv); [rewrite one_chunk; lia|].
  pose proof (request_placed _ Hv) as Hp. rewrite En in Hp.
  destruct (respond_data (the_chunk seq) _ _ _ eq_refl Hp σA start eq_refl
    ltac:(change (0 <= 0 < 2 ^ 32); lia) Hrep) as (σC & Hrun & HrepC & _).
  exists σC. by rewrite run_respond_calls.
Qed.

Lemma second_alone σC :
  represents σC (job_dir j) (jb_name j) received_all ->
  exists σ', exec (writing at_path at_e (calc_hash_vec (jb_content j)) (zlen (jb_content j)) ≫= go_on) σC =
      (Ok (Some second_answer), σ') /\
    represents σ' (job_dir j) (jb_name j) destroyed /\
    σ' !! job_data j = Some (Reg (zeros (length (jb_content j)))).
Proof.
  intros Hrep. destruct received_partial as [Es Eh _].
  destruct (writing_wipes at_path at_e _ _ twin_placed (calc_hash_vec (jb_content j))
    (zlen (jb_content j)) ltac:(split; [lia|apply Hok]) σC received_all Hrep Es Eh)
    as (σ' & Hrun & Hrep' & E').
  exists σ'. split; [|split; [exact Hrep'|]].
  - rewrite exec_bind, (M_bind_ok _ _ _ _ _ Hrun). unfold go_on.
    rewrite exec_bind, (M_bind_ok _ _ _ _ _ (eq_trans (same_answer _ _ σ')
      (answer_run the_offer at_e _ _ twin_placed σ' destroyed Hrep'))). done.
  - rewrite E'. unfold job_data. rewrite lookup_insert_eq. do 3 f_equal. lia.
Qed.

(** The order of the calls. *)
Lemma twins_interleaved seq :
  exists schedule σ',
    interleave schedule
      [respond_calls the_offer; respond_calls the_offer; respond_calls (the_chunk seq)] σ =
      ([Done (Ok (Some first_answer)); Done (Ok (Some second_answer));
        Done (Ok (Some (chunk_answer seq)))], σ') /\
    represents σ' (job_dir j) (jb_name j) destroyed /\
    σ' !! job_data j = Some (Reg (zeros (length (jb_content j)))).
Proof.
  destruct Hfresh as (Hfree & Hd & Hm). destruct first_alone as (σA & HA & HrepA).
  destruct (chunk_alone_one seq σA HrepA) as (σC & HC & HrepC).
  destruct (second_alone σC HrepC) as (σ' & HB & HrepB & Hzeros).
  destruct (first_looks at_path at_e _ _ twin_placed (calc_hash_vec (jb_content j))
    (blake_digest_size _) (zlen (jb_content j)) go_on σ Hfree Hd Hm) as (k1 & σ1 & Hk1 & Hhalf).
  destruct (second_writes at_path at_e _ _ twin_placed (calc_hash_vec (jb_content j))
    (zlen (jb_content j)) go_on σ1 Hhalf) as (k2 & Hk2).
  rewrite <- offer_calls in Hk1, Hk2. set (ro := respond_calls the_offer) in *.
  set (rc := respond_calls (the_chunk seq)) in *.
  set (pA := looking _ _ _ _ ≫= go_on) in *. set (pB := writing _ _ _ _ ≫= go_on) in *.
  assert (exec pA σ1 = (Ok (Some first_answer), σA)) as HpA.
  { pose proof (exec_solo k1 ro σ) as Hsame. rewrite Hk1, HA in Hsame. exact Hsame. }
  destruct (solo_exec pA σ1) as [k3 Hk3]. specialize (Hk3 k3 (le_n k3)). rewrite HpA in Hk3.
  destruct (solo_exec rc σA) as [k4 Hk4]. specialize (Hk4 k4 (le_n k4)). rewrite HC in Hk4.
  destruct (solo_exec pB σC) as [k5 Hk5]. specialize (Hk5 k5 (le_n k5)). rewrite HB in Hk5.
  exists (replicate k1 0 ++ replicate k2 1 ++ replicate k3 0 ++ replicate k4 2 ++ replicate k5 1 ++ [])%nat, σ'.
  split; [|done].
  do 5 (erewrite interleave_turn; [|reflexivity|eassumption]). done.
Qed.

(** The first client sends its chunk and is told that all is there. *)
Lemma first_client :
  exists seq cl1 cl2, client_turn (jb_uuid j) (encode first_answer) (started j) = Ok cl1 /\
    cl_sent cl1 = encode (chunk_message seq (jb_uuid j) (job_file j) (jb_content j) 0) /\
    client_turn (jb_uuid j) (encode (chunk_answer seq)) cl1 = Ok cl2 /\ uploadsCompleted cl2 = true.
Proof.
  destruct (offer_received j Hok) as (_ & En & Hv & _). pose proof Hok as [Ht Hn].
  assert (answered (jb_uuid j) (jb_name j) first_answer start) as Ha
    by (apply (answers_answered _ _ the_offer); [done|done|by apply reply_answers]).
  destruct (partial_turn _ _ _ _ _ Ht first_answer start (started j) Ha start_up_ok (partial_start _))
    as (cl1 & Hcl1 & _ & _ & Hmore); [by rewrite (started_eq j Hok)..|].
  destruct Hmore as [Efs Ef [seq Es]]; [by rewrite start_missing|].
  rewrite (next_is _ _ 0 [] Hn (partial_start _) start_missing) in Es.
  destruct (chunk_received j Hok seq 0) as (_ & Enc & Hvc); [rewrite one_chunk; lia|].
  assert (answered (jb_uuid j) (jb_name j) (chunk_answer seq) received_all) as Hc
    by (apply (answers_answered _ _ (the_chunk seq)); [done|done|by apply reply_answers]).
  destruct (chunk_alone_one seq) with (σA := snd (exec (respond_calls the_offer) σ)) as (σC & _ & HrepC).
  { destruct first_alone as (σA & -> & Hrep). exact Hrep. }
  destruct (partial_turn _ _ _ _ _ Ht (chunk_answer seq) received_all cl1 Hc (rp_ok _ _ _ _ HrepC)
    received_partial Efs Ef) as (cl2 & Hcl2 & _ & Hend & _).
  exists seq, cl1, cl2. split; [done|]. split; [done|]. split; [done|].
  apply bool_decide_eq_true. by apply Hend, received_missing.
Qed.

(** C35: two first offers of the same new file can destroy it. Two clients with one identity
    (the same directory, started twice) offer a file of one chunk that the server does not
    have; both offers are in the hands of workers. The second worker looks for the data file
    before the first has made it; the first one goes on and answers, its client sends the
    chunk, it is stored, and that client is told that the upload is complete and ends. Then
    the second worker creates the data file again: the server has only zeros, while the
    chunk stays marked as received. Unless the hash of the zeros is that of the file, every
    later offer of it is answered with a request for chunk 65535, which it does not have. *)
Theorem twin_offers_destroy :
  exists seq schedule a b m σ' cl1 cl2,
    interleave schedule
      [respond_calls the_offer; respond_calls the_offer; respond_calls (the_chunk seq)] σ =
      ([Done (Ok (Some a)); Done (Ok (Some b)); Done (Ok (Some m))], σ') /\
    client_turn (jb_uuid j) (encode a) (started j) = Ok cl1 /\
    cl_sent cl1 = encode (chunk_message seq (jb_uuid j) (job_file j) (jb_content j) 0) /\
    client_turn (jb_uuid j) (encode m) cl1 = Ok cl2 /\ uploadsCompleted cl2 = true /\
    σ' !! job_data j = Some (Reg (zeros (length (jb_content j)))) /\
    respond the_offer σ' = (Ok (Some b), σ') /\
    (calc_hash_vec (zeros (length (jb_content j))) <> calc_hash_vec (jb_content j) ->
     msg_type b = MSGTYPE_FILE_CHUNK_REQ /\ chunk_idx_first (chunk_req b) = 65535).
Proof.
  destruct first_client as (seq & cl1 & cl2 & P1 & P2 & P3 & P4).
  destruct (twins_interleaved seq) as (schedule & σ' & Hrun & Hrep & Hzeros).
  exists seq, schedule, first_answer, second_answer, (chunk_answer seq), σ', cl1, cl2.
  do 6 (split; [done|]). destruct received_partial as [Es Eh _].
  destruct (offer_received j Hok) as (_ & _ & _ & Eo). split.
  - apply (respond_offer_again the_offer at_e _ _ eq_refl twin_placed σ' destroyed); [done| |done|done].
    by rewrite Eo.
  - intros Hne. assert (up_complete destroyed = false) as Hc.
    { apply bool_decide_eq_false. intros [_ E]. apply Hne. cbn in E. rewrite Es in E.
      rewrite <- Eh, E. do 2 f_equal. lia. }
    assert (up_missing destroyed = []) as Hnil by exact received_missing.
    unfold second_answer, reply. rewrite Hc. split; [done|]. cbn. unfold up_next. by rewrite Hnil.
Qed.
End Twins.

(** ** A witness *)
Section Witnesses.
Import ToyHash ToyUuid.

Definition one_chunk_job : job := job_of sample_id (replicate 100 66).

Lemma twin_offers_destroy_witness :
  exists (cl2 : client) (σ' : fs), uploadsCompleted cl2 = true /\
    σ' !! job_data one_chunk_job = Some (Reg (zeros 100)) /\
    exists b, respond (arrived (buildMsgOffer 1 sample_id (job_file one_chunk_job))) σ' =
        (Ok (Some b), σ') /\
      msg_type b = MSGTYPE_FILE_CHUNK_REQ /\ chunk_idx_first (chunk_req b) = 65535.
Proof.
  destruct (twin_offers_destroy one_chunk_job
    ltac:(apply job_of_ok; [done|decide_closed|decide_closed|done])
    ltac:(vm_compute; split; [reflexivity|discriminate]) ∅ ltac:(split; [apply empty_dirs_free|done]))
    as (seq & schedule & a & b & m & σ' & cl1 & cl2 & _ & _ & _ & _ & P1 & P2 & P3 & P4).
  exists cl2, σ'. split; [exact P1|]. split; [exact P2|]. exists b. split; [exact P3|].
  apply P4. vm_compute. discriminate.
Defined.
End Witnesses.
