(* ===== verification/Teardown.v ===== *)
(** * Shared pointers: when the destructors run

    The pollables, the poll group, the request handler and the broker are held by
    std::shared_ptr, and the descriptors are closed by the destructors of Connection,
    ConnectionListener and SignalHandler (src/netwrk/ft_conn.cpp,
    src/netwrk/ft_conn_listener.cpp, src/loop/ft_signal.cpp). Here the reference counts are
    explicit: a connection that is removed from the poll group is closed, at once or when
    the worker that answers on it is done; the client closes its descriptors when main
    ends; the server closes none of them, its listener and its poll group hold each
    other. *)
From S2P Require Import Prelude Conn PollGrp Loop.

(** ** std::shared_ptr *)
Abbreviation ptr := nat.

(** An object: how many pointers there are to it, the pointers it holds itself, and what it
    is if it is a pollable. *)
Record shared := mk_shared {
  sh_count : nat;
  sh_owns : list ptr;
  sh_obj : option object }.

(** The objects that are alive, and the descriptors that destructors have closed. *)
Record memory := mk_memory {
  mem_objs : gmap ptr shared;
  mem_next : ptr;
  mem_closed : list Z }.

Definition no_memory : memory := mk_memory ∅ 0 [].

Definition set_shared (p : ptr) (x : shared) (m : memory) : memory :=
  mk_memory (<[p := x]> (mem_objs m)) (mem_next m) (mem_closed m).

Definition with_count (n : nat) (x : shared) : shared := mk_shared n (sh_owns x) (sh_obj x).
Definition with_owns (l : list ptr) (x : shared) : shared := mk_shared (sh_count x) l (sh_obj x).

(** Copying a pointer: the object must be alive. *)
Definition copy (p : ptr) : M memory unit := fun m =>
  match mem_objs m !! p with
  | Some x => (Ok tt, set_shared p (with_count (S (sh_count x)) x) m)
  | None => (Undef, m)
  end.

(** [std::weak_ptr::lock]: a new pointer if the object is alive. *)
Definition lock (p : ptr) : M memory bool := fun m =>
  match mem_objs m !! p with
  | Some x => (Ok true, set_shared p (with_count (S (sh_count x)) x) m)
  | None => (Ok false, m)
  end.

(** [std::make_shared] of an object that keeps a copy of the pointer [owns], if any. *)
Definition make_shared (owns : option ptr) (obj : option object) : M memory ptr :=
  match owns with Some p => copy p | None => mret tt end;;
  p ← gets mem_next;
  modify (fun m =>
    mk_memory (<[p := mk_shared 1 (option_list owns) obj]> (mem_objs m)) (S p) (mem_closed m));;
  mret p.

(** The descriptors that the destructors of the three classes close; none of the others has
    a destructor that does anything with one. *)
Definition listener_destructor (fd : Z) : list Z := if 0 <=? fd then [fd] else [].
Definition signal_destructor (fd : Z) : list Z := if 0 <=? fd then [fd] else [].

Definition destructor_closes (x : shared) : list Z :=
  match sh_obj x with
  | Some (ConnectionListener fd) => listener_destructor fd
  | Some (SignalHandler fd _) => signal_destructor fd
  | Some (AConnection c) => destructor c
  | None => []
  end.

(** The end of the pointers [work], one after the other; the last pointer to an object ends
    the object, its destructor first, then the pointers it holds. *)
Fixpoint release (fuel : nat) (work : list ptr) : M memory unit := fun m =>
  match work with
  | [] => (Ok tt, m)
  | p :: work' =>
      match fuel, mem_objs m !! p with
      | S fuel', Some x =>
          match sh_count x with
          | S (S n) => release fuel' work' (set_shared p (with_count (S n) x) m)
          | _ =>
              release fuel' (sh_owns x ++ work')
                (mk_memory (delete p (mem_objs m)) (mem_next m)
                   (mem_closed m ++ destructor_closes x))
          end
      | _, _ => (Undef, m)
      end
  end.

(** The vector of pointers of the object [group]: a copy of [p] at its end. *)
Definition push_ptr (group p : ptr) : M memory unit := fun m =>
  match mem_objs m !! group with
  | Some x => (Ok tt, set_shared group (with_owns (sh_owns x ++ [p]) x) m)
  | None => (Undef, m)
  end.

(** [erase(find(begin, end, p))], and the end of the pointer that was there. *)
Definition erase_ptr (fuel : nat) (group p : ptr) : M memory unit := fun m =>
  match mem_objs m !! group with
  | Some x =>
      if decide (p ∈ sh_owns x) then
        release fuel [p] (set_shared group (with_owns (erase_first p (sh_owns x)) x) m)
      else (Ok tt, m)
  | None => (Undef, m)
  end.

Definition group_add (group p : ptr) : M memory unit := copy p;; push_ptr group p.

(** PollGroup::remove: its argument is a copy, so the object lives until it returns. *)
Definition group_remove (fuel : nat) (group p : ptr) : M memory unit :=
  copy p;; erase_ptr fuel group p;; release fuel [p].

(** ** The mains, as far as their pointers go *)

(** The client: the two pollables, the handler and the file it shares with main, the
    broker; the static members hold the handler and the broker. *)
Definition client_life (fuel : nat) (signal_fd : Z) (c : Connection) : M memory unit :=
  poll_group ← make_shared None None;
  signals ← make_shared None (Some (SignalHandler signal_fd false));
  conn ← make_shared None (Some (AConnection c));
  client_req_hndlr ← make_shared None None;
  localFile ← make_shared None None;
  req_broker ← make_shared None None;
  copy client_req_hndlr;;
  copy req_broker;;
  group_add poll_group signals;;
  group_add poll_group conn;;
  copy localFile;;
  release fuel [req_broker; localFile; client_req_hndlr; conn; signals; poll_group].

(** ConnectionListener::handleEvent with one more connection. *)
Definition accept_one (fuel : nat) (poll_group : ptr) (c : Connection) : M memory unit :=
  conn ← make_shared None (Some (AConnection c));
  group_add poll_group conn;;
  release fuel [conn].

Fixpoint accept_all (fuel : nat) (poll_group : ptr) (cs : list Connection) : M memory unit :=
  match cs with
  | [] => mret tt
  | c :: cs' => accept_one fuel poll_group c;; accept_all fuel poll_group cs'
  end.

(** The server up to its loop, its pointers; the listener keeps a copy of the pointer to
    the group it is in. *)
Definition server_start (signal_fd listen_fd : Z) : M memory (list ptr) :=
  poll_group ← make_shared None None;
  signals ← make_shared None (Some (SignalHandler signal_fd false));
  server ← make_shared (Some poll_group) (Some (ConnectionListener listen_fd));
  server_req_handler ← make_shared None None;
  req_broker ← make_shared None None;
  copy server_req_handler;;
  copy req_broker;;
  group_add poll_group server;;
  group_add poll_group signals;;
  mret [req_broker; server_req_handler; server; signals; poll_group].

(** From the start of main to its end, with the connections [cs] accepted meanwhile. *)
Definition server_life (fuel : nat) (signal_fd listen_fd : Z) (cs : list Connection) :
    M memory unit :=
  locals ← server_start signal_fd listen_fd;
  accept_all fuel (nth 4 locals 0%nat) cs;;
  release fuel locals.

(** ** The end of one pointer *)
Lemma release_one (fuel : nat) p x (work : list ptr) m :
  mem_objs m !! p = Some x -> (2 <= sh_count x)%nat ->
  release (S fuel) (p :: work) m =
  release fuel work (set_shared p (with_count (sh_count x - 1) x) m).
Proof.
  intros E Hc. cbn [release]. rewrite E. destruct (sh_count x) as [|[|n]]; [lia..|].
  cbn [Nat.sub]. done.
Qed.

Lemma release_last (fuel : nat) p x (work : list ptr) m :
  mem_objs m !! p = Some x -> (sh_count x <= 1)%nat ->
  release (S fuel) (p :: work) m =
  release fuel (sh_owns x ++ work)
    (mk_memory (delete p (mem_objs m)) (mem_next m) (mem_closed m ++ destructor_closes x)).
Proof. intros E Hc. cbn [release]. rewrite E. by destruct (sh_count x) as [|[|n]]; [| |lia]. Qed.

Lemma release_nil (fuel : nat) m : release fuel [] m = (Ok tt, m).
Proof. by destruct fuel. Qed.

(** All the pointers that workers have to a connection come to their end. *)
Lemma release_workers (k fuel : nat) p c m :
  mem_objs m !! p = Some (mk_shared (S k) [] (Some (AConnection c))) -> (S k <= fuel)%nat ->
  exists m', release fuel (replicate (S k) p) m = (Ok tt, m') /\
    mem_closed m' = mem_closed m ++ destructor c /\ mem_objs m' !! p = None.
Proof.
  revert fuel m. induction k as [|k IH]; intros [|fuel] m E Hf; try lia.
  - cbn [replicate]. rewrite (release_last fuel p _ [] m E) by (cbn; lia).
    cbn [sh_owns app]. rewrite release_nil. eexists. split; [reflexivity|].
    cbn [mem_closed mem_objs]. unfold destructor_closes. cbn [sh_obj].
    split; [done|apply lookup_delete_eq].
  - change (replicate (S (S k)) p) with (p :: replicate (S k) p).
    rewrite (release_one fuel p _ _ m E) by (cbn; lia).
    set (m1 := set_shared _ _ _).
    destruct (IH fuel m1) as (m' & Hrun & Hc & Hn); [|lia|].
    + unfold m1. cbn [set_shared mem_objs]. rewrite lookup_insert_eq. done.
    + by exists m'.
Qed.

(** ** The server while it serves *)
Record serving (signal_fd listen_fd : Z) (cs : list Connection) (m : memory) : Prop := mk_serving {
  sv_group : exists owns, mem_objs m !! 0%nat = Some (mk_shared 2 owns None);
  sv_signals : mem_objs m !! 1%nat =
    Some (mk_shared 2 [] (Some (SignalHandler signal_fd false)));
  sv_server : mem_objs m !! 2%nat =
    Some (mk_shared 2 [0%nat] (Some (ConnectionListener listen_fd)));
  sv_handler : mem_objs m !! 3%nat = Some (mk_shared 2 [] None);
  sv_broker : mem_objs m !! 4%nat = Some (mk_shared 2 [] None);
  sv_next : (5 <= mem_next m)%nat;
  sv_conns : forall c, c ∈ cs -> exists p,
    (5 <= p < mem_next m)%nat /\ mem_objs m !! p = Some (mk_shared 1 [] (Some (AConnection c)));
  sv_closed : mem_closed m = [] }.

Lemma server_start_serves signal_fd listen_fd :
  exists m, server_start signal_fd listen_fd no_memory = (Ok [4; 3; 2; 1; 0]%nat, m) /\
    serving signal_fd listen_fd [] m.
Proof.
  eexists. split; [reflexivity|].
  constructor; first [reflexivity | by eexists | cbn; lia | by intros c Hin%not_elem_of_nil].
Qed.

Lemma accept_one_serves (fuel : nat) signal_fd listen_fd cs c m :
  (1 <= fuel)%nat -> serving signal_fd listen_fd cs m ->
  exists m', accept_one fuel 0 c m = (Ok tt, m') /\ serving signal_fd listen_fd (c :: cs) m'.
Proof.
  intros Hf [[owns Hg] Hs Hl Hh Hb Hn Hc Hcl]. destruct fuel as [|fuel]; [lia|].
  assert (mem_next m <> 0%nat) as Hne by lia.
  unfold accept_one, make_shared, group_add, copy, push_ptr, gets, modify, mbind, M_bind, mret,
    M_ret, set_shared, with_count, with_owns. cbn [option_list mem_objs mem_next mem_closed].
  rewrite lookup_insert_eq. cbn [mem_objs mem_next mem_closed sh_count sh_owns sh_obj].
  rewrite insert_insert_eq, lookup_insert_ne, Hg by done.
  rewrite (release_one fuel _ (mk_shared 2 [] (Some (AConnection c))) [])
    by (cbn; first [by rewrite lookup_insert_ne, lookup_insert_eq by done | lia]).
  rewrite release_nil. eexists. split; [reflexivity|].
  unfold set_shared, with_count.
  cbn [mem_objs mem_next mem_closed sh_count sh_owns sh_obj Nat.sub].
  constructor; cbn [mem_objs mem_next mem_closed]; try (rewrite !lookup_insert_ne by lia; done);
    [|lia| |done].
  - eexists. by rewrite lookup_insert_ne, lookup_insert_eq by done.
  - intros c' [-> |Hin]%list.elem_of_cons.
    + exists (mem_next m). split; [lia|]. apply lookup_insert_eq.
    + destruct (Hc c' Hin) as (p & Hp & Ep). exists p. split; [lia|].
      by rewrite !lookup_insert_ne by lia.
Qed.

Lemma accept_all_serves (fuel : nat) signal_fd listen_fd (cs acc : list Connection) m :
  (1 <= fuel)%nat -> serving signal_fd listen_fd acc m ->
  exists m', accept_all fuel 0 cs m = (Ok tt, m') /\
    forall l, l ⊆ acc ++ cs -> serving signal_fd listen_fd l m'.
Proof.
  intros Hf. revert acc m. induction cs as [|c cs IH]; intros acc m Hm.
  - exists m. split; [done|]. intros l Hl. rewrite app_nil_r in Hl. destruct Hm.
    constructor; auto.
  - destruct (accept_one_serves fuel signal_fd listen_fd acc c m Hf Hm) as (m1 & E1 & Hm1).
    destruct (IH (c :: acc) m1 Hm1) as (m' & E & Hall). exists m'. split.
    + cbn [accept_all]. by rewrite M_bind_case, E1.
    + intros l Hl. apply Hall. intros x Hx. specialize (Hl x Hx).
      rewrite list.elem_of_app, list.elem_of_cons in Hl.
      rewrite list.elem_of_app, list.elem_of_cons. tauto.
Qed.

(** ** Properties *)

(** C30: the destructor of a connection that is removed from the poll group runs exactly once:
    at once when no worker is answering on it, else when the last of the [k] workers that
    hold a pointer to it is done, and not before; it closes the descriptor, unless the
    connection has lost it at the end of its stream; from then on a request of it finds
    no connection any more. *)
Theorem removed_connection_closed (fuel k : nat) (group p : ptr) (gx : shared) c m :
  mem_objs m !! group = Some gx -> p ∈ sh_owns gx -> group <> p ->
  mem_objs m !! p = Some (mk_shared (S k) [] (Some (AConnection c))) -> (S k <= fuel)%nat ->
  exists m', group_remove fuel group p m = (Ok tt, m') /\
    mem_closed m' = mem_closed m ++ (if decide (k = 0%nat) then destructor c else []) /\
    exists m'', release fuel (replicate k p) m' = (Ok tt, m'') /\
      mem_closed m'' = mem_closed m ++ destructor c /\ lock p m'' = (Ok false, m'').
Proof.
  intros Eg Hin Hne Ep Hf. destruct fuel as [|fuel]; [lia|].
  unfold group_remove. rewrite M_bind_case. unfold copy. rewrite Ep.
  set (m1 := set_shared p _ m).
  assert (mem_objs m1 !! p = Some (mk_shared (S (S k)) [] (Some (AConnection c)))) as Ep1 by apply lookup_insert_eq.
  assert (mem_objs m1 !! group = Some gx) as Eg1
    by (unfold m1; cbn; by rewrite lookup_insert_ne).
  rewrite M_bind_case. unfold erase_ptr. rewrite Eg1, decide_True by done.
  set (m2 := set_shared group _ m1).
  assert (mem_objs m2 !! p = Some (mk_shared (S (S k)) [] (Some (AConnection c)))) as Ep2
    by (unfold m2; cbn [set_shared mem_objs]; by rewrite lookup_insert_ne).
  rewrite (release_one fuel p _ [] m2 Ep2), release_nil by (cbn; lia). cbn [sh_count].
  set (m3 := set_shared p _ m2).
  assert (mem_objs m3 !! p = Some (mk_shared (S k) [] (Some (AConnection c)))) as Ep3 by apply lookup_insert_eq.
  assert (mem_closed m3 = mem_closed m) as Ec by done.
  destruct (decide (k = 0%nat)) as [-> |Hk].
  - destruct (release_workers 0 (S fuel) p c m3 Ep3 Hf) as (m' & Hrun & Hc & Hn).
    exists m'. split; [exact Hrun|]. rewrite Hc, Ec. split; [done|]. exists m'.
    cbn [replicate]. rewrite release_nil. split_and!; [done..|]. unfold lock. by rewrite Hn.
  - rewrite (release_one fuel p _ [] m3 Ep3), release_nil by (cbn; lia). cbn [sh_count].
    eexists. split; [reflexivity|]. split; [by rewrite app_nil_r|].
    destruct k as [|k]; [done|].
    destruct (release_workers k (S fuel) p c (set_shared p (with_count (S (S k) - 1)
      (mk_shared (S (S k)) [] (Some (AConnection c)))) m3)) as (m' & Hrun & Hc & Hn); [|lia|].
    + cbn [set_shared mem_objs]. rewrite lookup_insert_eq. done.
    + exists m'. split; [exact Hrun|]. split; [exact Hc|]. unfold lock. by rewrite Hn.
Qed.

(** When the client's main ends both its descriptors are closed, the signal descriptor
    first. *)
Theorem client_closes_all (fuel : nat) (signal_fd : Z) (c : Connection) :
  0 <= signal_fd -> 0 <= c_fd c -> (9 <= fuel)%nat ->
  exists m, client_life fuel signal_fd c no_memory = (Ok tt, m) /\
    mem_closed m = [signal_fd; c_fd c].
Proof.
  intros Hs Hc Hf. do 9 (destruct fuel as [|fuel]; [lia|]).
  destruct c as [fd buf len]. cbn [c_fd] in *.
  destruct signal_fd as [|s|s], fd as [|d|d]; try lia;
    (eexists; split; [vm_compute; reflexivity|reflexivity]).
Qed.

(** The server closes nothing when its main ends: the listener has a pointer to the poll
    group that has one to the listener, so neither is ever destroyed, nor any connection
    that was accepted, nor the signal handler: their destructors do not run, whatever the
    number of clients, and the descriptors stay open until the process is gone. *)
Theorem server_closes_nothing (fuel : nat) (signal_fd listen_fd : Z) (cs : list Connection) :
  (6 <= fuel)%nat ->
  exists m, server_life fuel signal_fd listen_fd cs no_memory = (Ok tt, m) /\
    mem_closed m = [] /\
    forall x, x ∈ SignalHandler signal_fd false :: ConnectionListener listen_fd ::
        (AConnection <$> cs) ->
      exists p n owns, mem_objs m !! p = Some (mk_shared n owns (Some x)).
Proof.
  intros Hf. destruct (server_start_serves signal_fd listen_fd) as (m0 & E0 & Hm0).
  destruct (accept_all_serves fuel signal_fd listen_fd cs [] m0 ltac:(lia) Hm0)
    as (m1 & E1 & Hall).
  destruct (Hall cs) as [[owns Hg] Hs Hl Hh Hb _ Hc Hcl]; [done|].
  do 6 (destruct fuel as [|fuel]; [lia|]).
  unfold server_life. rewrite M_bind_case, E0. cbn [nth]. rewrite M_bind_case, E1.
  do 5 (erewrite release_one;
    [|cbn [set_shared mem_objs]; rewrite ?lookup_insert_ne by done; eassumption|cbn; lia]).
  rewrite release_nil. eexists. split; [reflexivity|].
  split; [exact Hcl|]. cbn [set_shared mem_objs].
  intros x [-> |[-> |(c & -> & Hin)%list_elem_of_fmap]%list.elem_of_cons]%list.elem_of_cons.
  - eexists 1%nat, _, _. by rewrite lookup_insert_ne, lookup_insert_eq by done.
  - eexists 2%nat, _, _. by rewrite !lookup_insert_ne, lookup_insert_eq by done.
  - destruct (Hc c Hin) as (p & Hp & Ep). exists p, 1%nat, [].
    by rewrite !lookup_insert_ne by lia.
Qed.

(** ** Witnesses *)

(** A group 0 with the connection 1 on descriptor 5, and one worker that answers on it. *)
Definition sample_memory : memory :=
  mk_memory (<[0%nat := mk_shared 1 [1%nat] None]> {[1%nat := mk_shared 2 [] (Some (AConnection (mk_conn 5 [] 0)))]}) 2 [].

Lemma removed_connection_closed_witness :
  exists m', group_remove 2 0 1 sample_memory = (Ok tt, m') /\ mem_closed m' = [] /\
    exists m'', release 2 [1%nat] m' = (Ok tt, m'') /\ mem_closed m'' = [5].
Proof.
  destruct (removed_connection_closed 2 1 0 1 (mk_shared 1 [1%nat] None) (mk_conn 5 [] 0) sample_memory)
    as (m' & H1 & H2 & m'' & H3 & H4 & _); [reflexivity|by left|done|reflexivity|lia|].
  exists m'. split; [exact H1|]. split; [exact H2|]. exists m''. by split.
Defined.

Lemma client_closes_all_witness :
  exists m, client_life 9 3 (mk_conn 4 [] 0) no_memory = (Ok tt, m) /\ mem_closed m = [3; 4].
Proof. apply (client_closes_all 9 3 (mk_conn 4 [] 0)); cbn; lia. Defined.

Lemma server_closes_nothing_witness :
  exists m, server_life 6 3 4 [mk_conn 5 [] 0; mk_conn 6 [] 0] no_memory = (Ok tt, m) /\ mem_closed m = [].
Proof.
  destruct (server_closes_nothing 6 3 4 [mk_conn 5 [] 0; mk_conn 6 [] 0]) as (m & H1 & H2 & _); [lia|].
  exists m. by split.
Defined.
